(* ===== verification/_CoqProject ===== *)
-Q . S2P
Prelude.v
PyStr.v
PyBytes.v
PyFloat.v
PyIO.v
Hashes.v
Constants.v
Utils.v
MerkleTree.v
MerkleTreeFacts.v
Mimc.v
MimcFacts.v
Pairing.v
ZkSnark.v
Signing.v
Encryption.v
Notes.v
Contracts.v
MixerClient.v
MixerFacts.v
Wallet.v
WalletFacts.v
WalletSync.v
PyState.v
Prover.v
Cli.v
Commands.v
SyncCommand.v
CliGroup.v
Helper.v
HelperFacts.v
PyTime.v
MpcState.v
MpcConfig.v
Upload.v
Handlers.v
HandlerFacts.v
Server.v
ServerFacts.v
ServerRun.v
Coordinator.v
Client.v
MpcCommands.v
Interval.v
ContractTree.v
ContractMixer.v
ContractFacts.v
ContractRuns.v
ContractClient.v
ContractLimits.v
ContractSample.v
ContractDispatch.v
Scenario.v
ScenarioFacts.v
ScenarioAttack.v
ScenarioSample.v
R1cs.v
VerifierAltBN128.v
VerifierBLS.v
VerifierPghr13.v
VerifierFacts.v
VerifierClient.v
Pghr13Facts.v
VerifierSample.v
Token.v
TokenFacts.v
TokenPool.v
TokenSample.v
