(* ===== verification/Prelude.v ===== *)
(** * Zeth: a verification development for the client, the contract and the MPC coordinator

    Zeth is a mixer: a contract keeps a Merkle tree of commitments to notes, and a
    client spends notes with zero-knowledge proofs, whose parameters come from a
    multi-party computation run by a coordinator.  This library models the Python
    sources of the client ([src/client/zeth]) and of the coordinator
    ([src/mpc/coordinator]) with their commands and test scenarios, and the contracts
    the client talks to ([src/zeth_contracts/contracts]), as executable definitions and proves what makes
    them correct, each by itself and together.

    ** The program and how its parts are modelled

    A client call goes through these parts, each a file of the library:

    - [Prelude], [PyStr], [PyBytes], [PyFloat], [PyIO], [Hashes]: what the sources use of
      Python and of hash functions.  A function that may raise returns a [result]
      ([Ok v] or [Err e] with the exception); [foldM] is a [for] loop whose body may
      raise; [py_get], [py_set], [py_slice] are list accesses with the language's
      treatment of indices; [PyStr] has [int(s, base)], the format directives and
      [split]; [PyBytes] has [bytes.fromhex], [hex] and the big-endian integers;
      [PyFloat] has the correctly rounded division [a / b] of integers followed by
      [int]; [PyIO] has JSON values and a file system as a map; [Hashes] implements
      SHA-256 and BLAKE2s.
    - [Constants], [Utils]: [core/constants.py] and [core/utils.py] (ether values, units,
      hex and byte helpers).  [web3] unit conversion and [eth_abi] are the classes
      [Web3Units] and [EthAbi].
    - [MerkleTree], [MerkleTreeFacts]: [core/merkle_tree.py].  The tree is a record of
      layers with the number of pending leaves; [insert], [recompute_root],
      [compute_merkle_path] and the file operations follow the code, and the hash is
      the class [ITreeHash], as in the source.
    - [Mimc], [MimcFacts]: [core/mimc.py] and [core/input_hasher.py].
    - [Pairing], [ZkSnark]: [core/pairing.py] and [core/zksnark.py]; the two providers
      are records of operations with the laws [SnarkLaws].
    - [Signing], [Encryption], [Notes]: [core/signing.py], [core/encryption.py],
      [core/proto_utils.py], [core/ownership.py] and [core/zeth_address.py].  The curve is
      the class [BN128], the primitives of note encryption the class [NoteCrypto].
    - [Contracts]: the event log loop of [core/contracts.py].
    - [MixerClient], [MixerFacts]: [core/mixer_client.py], from the description of a mix
      call to the arguments of the contract method, and the receiving side.
    - [Wallet], [WalletFacts], [WalletSync]: [core/wallet.py] and [do_sync] of
      [cli/utils.py].  The wallet is a record, its directory two maps from file names
      to contents, and [glob] matches patterns against the names.
    - [Prover]: [core/prover_client.py]; what the service answers is an argument.
    - [Cli]: the files and parameters of [cli/utils.py] (networks, mixer descriptions,
      address and key files, output specifications) and [gen_address].
    - [Commands]: the transactions of [core/contracts.py], the methods of [MixerClient]
      that send them, and the commands [mix], [deploy], [ls_notes] and [ls_commits] over
      the working directory and a chain, whose node is the class [Web3].
    - [SyncCommand]: [do_sync] against a node that is read block range by block range and
      may wait for a transaction, and the commands [sync] and [get_verification_key] and
      [mix --wait]; [CliGroup]: the groups [zeth] and [zeth_helper] with their options, and
      the command [wait].
    - [Helper], [HelperFacts]: [client/zeth/helper] and [deploy_test_token.py], over the class
      [EthNode].
    - [R1cs]: the queries of the script [debug/analyzer/parse_r1cs.py].

    The coordinator is a server that gives contributors their turns:

    - [PyState]: commands that raise and keep their effects ([SM], with [bind],
      [try_finally] and [try_except]), used by the client's commands too, and times as
      doubles.
    - [MpcState]: [crypto.py], [contributor_list.py], [server_state.py] and the checks of
      [server_configuration.py].  ECDSA and SHA-512 are the class [MpcCrypto], the text of
      a float the class [FloatText].
    - [PyTime], [MpcConfig]: the calendar functions of Python, and the JSON forms of the
      configurations of the server and of the phases.
    - [Upload]: [upload_utils.py], over the class [InputStream].
    - [Handlers], [HandlerFacts]: the interface [IContributionHandler], its null, phase 1
      and phase 2 implementations, and the command lines of [powersoftau_command.py],
      [mpc_command.py] and [powersoftau_process_command.py]; the programs they run are the
      class [Subprocess].  [HandlerKeeps] is what the server relies on.
    - [Server], [ServerFacts], [Coordinator]: [server.py].  [World] is the state shared by
      the requests, the interval thread and the processing thread; [step] interleaves
      them, with the processing thread in two parts, the call of the handler and the
      rest.  A finer interleaving of that thread with a tick is not considered.
    - [ServerRun]: the start and the stop of the web server, as steps of two threads.
    - [MpcCommands]: [mpc/commands], the keys, lists and phases of contributors and servers.
    - [Client]: [client.py] and [contribute.py]; the HTTP library is a list of replies and
      the class [HttpPost].
    - [Interval]: [interval.py], the two threads statement by statement.

    The contract is what the client's transactions run on:

    - [ContractTree]: [AbstractMerkleTree.sol], the tree in one sparse array; a revert is
      an exception, an access out of bounds a panic.
    - [ContractMixer]: [AbstractMixer.sol] with the parts that depend on the curve,
      [LibMiMC.sol] and [LibOTSchnorrVerifier.sol].  A call is a function from the state
      to the new state, the event and the calls to other accounts; keccak-256, the
      precompiled contracts of the curve ([EcPrecompiles]) and the zk-SNARK verifier are
      parameters.
    - [VerifierAltBN128], [VerifierBLS], [VerifierPghr13]: the zk-SNARK verifiers
      ([LibGroth16AltBN128.sol], [LibGroth16BLS12_377.sol], [LibPairing.sol] and the three
      mixers that use them), with the assembly's memory and storage; the precompiled
      contracts are the class [Precompiles].  [VerifierFacts] has the interface
      [PairingCurve] with the laws of a pairing and of the precompiles, and the verifiers
      on words of points; [VerifierClient] and [Pghr13Facts] the client's keys and proofs
      in them; [VerifierSample] a pairing of three points.
    - [Token], [TokenFacts], [TokenPool], [TokenSample]: [ERC20Mintable.sol], the token of a
      mixer of tokens, and the two contracts together.
    - [ContractFacts]: hashes, signatures and packed inputs against the client's.
    - [ContractRuns]: any sequence of transactions, reverted ones included.
    - [ContractClient]: the contract and the client together; [ContractLimits]: what the
      contract does not check; [ContractSample]: concrete instances.
    - [ContractDispatch]: the parameters of a dispatch through the codec [eth_abi], which is
      a class with its law.
    - [Scenario], [ScenarioFacts], [ScenarioAttack], [ScenarioSample]:
      [test_commands/scenario.py] and [mock.py], deposits, transfers and the attacks of the
      tests, run against the contract.

    Random values (keys, trapdoors, ephemeral keys) are arguments of the operations
    that draw them.  Printing and logging are left out.

    ** What the theorems show

    - Tree: the incremental computation is equivalent to the reference tree
      ([spec_root]), the invariant [tree_inv] holds of every reachable tree, paths
      authenticate, and roots and paths are binding up to an exhibited collision.
    - Hashes and keys: the MiMC cipher is a permutation, the tree hash and the input
      hasher are total and binding; payment keys, nullifiers and output randomness hash
      disjoint forms of messages; commitments bind notes.
    - Signatures and encryption: what is signed verifies, what is encrypted decrypts,
      and forged or malformed inputs give the exceptions of the code.
    - Encodings: keys, proofs, points, notes, addresses and mix parameters survive
      their JSON, protobuf, binary and text forms.
    - Mixer: the prover inputs and the mix parameters of a well-formed call are
      produced and have the properties the circuit and the contract check.
    - Wallet: [wallet_inv] relates the tree, the note files and the known nullifiers; it
      is kept by receiving, spending and synchronising, and a synchronisation refines
      the list of mix results: exactly the notes of the wallet are learnt, the root is
      the contract's, and the saved files reopen as the same wallet.  The error paths
      are theorems too.
    - Commands: the files of an address are read back by the commands and by payers, the
      prover's configuration is cached, [mix] sends at most one transaction, for the
      sender that the parameters are signed for, and nothing on a dry run, a deployment
      that succeeds is recorded, and a listing shows exactly the notes and their sum; a
      synchronisation that waits for a transaction reads every event once.
    - Contract: its tree is the client's tree in another representation, root by root;
      after any run of mixes the state is determined by the emitted events and no
      nullifier is spent twice; every failing check reverts with its reason; the
      client's calls are well typed and accepted, and a wallet can follow every run.
      Two theorems show what is accepted without being paid for: a nullifier whose word
      is changed by the modulus of the field, and leaves appended by anyone.  What is
      signed for a dispatcher is accepted from it.
    - Verifiers: on the client's parameters the Groth16 verifier of alt-bn128 decides the
      Groth16 equation, and a mix goes through only with points that satisfy it; PGHR13
      returns the number of its first failing equation; the BLS12-377 library ignores
      failed calls, and what it then accepts is spelled out.
    - Token: the balances sum to the supply, so the checked arithmetic of a transfer never
      panics; whatever other accounts do, a mixer of tokens holds what mixes paid in
      minus what they paid out.
    - Scenarios: the corrupted deposits of the tests are refused and change nothing; the
      double withdrawal of the tests misses the defect it is written for.
    - Coordinator: an invariant of every reachable state, what a contribution must
      satisfy to be accepted, that an honest one in time is accepted, what processing
      does, that a run completes, that a restart resumes, and that the two phases refine
      the abstract chain of challenges.  Three theorems show how a turn can be lost, a
      restart can start over and the interval thread can block its own end.

    The modules at the ends of the files ([Sample], [ToyCurve], [ToyCrypto], ...) are
    concrete instances: they show that the classes and hypotheses can hold, and
    instantiate every theorem that has hypotheses.

    ** Bounds and fuel

    The trees of the theorems have depth 1 to 52, since the code computes the size of
    the tree through a float; the client's depth is 32.  Loops are structural
    ([foldM], recursion over a list) except some that carry fuel: [recompute_pairs] gets
    the number of pairs; [event_batches] one unit per block, enough because a positive
    batch moves the start forward; the digits of a number get its size in bits; the
    rounds of a hash are counted; the loops that read a stream or a file get one unit
    per byte and one for the end; waiting for a turn gets one per reply.  Running out of
    fuel is the value [OutOfFuel], and the theorems show that it does not occur, or, for
    a negative batch size, that no amount of fuel is enough; [for_batches] has the fuel
    of [event_batches].  The loops of the contract's
    tree get the number of layers or of entries.

    ** Not modelled

    Gas, and the arithmetic of the curves, which the machine's precompiled contracts and
    the client's libraries do: they are classes with laws.  Of the contracts, the ERC223
    receiver of [Tokens.sol], which nothing calls, the test contracts and [Migrations.sol].
    Network and console code: the parser of the command line, the HTTP and mail libraries,
    the web server beyond its start, its stop and its endpoints, the compiler's
    installation, and the external programs of the two phases.  The test scripts that
    drive the scenarios, the packaging files and the C++ prover.
*)

From Stdlib Require Import ZArith Lia Ascii String.
From stdpp Require Import base tactics list gmap strings.

Local Open Scope Z_scope.

Declare Scope py_scope.
Delimit Scope py_scope with py.

(** ** Exceptions and results

    A Python function that may raise returns a [result]: [Ok v] for a normal
    return, [Err e] when the exception [e] propagates out of it. *)

Inductive pyexc : Type :=
| AssertionError
| ValueError
| IndexError
| KeyError
| OverflowError
| TypeError
| ZeroDivisionError
| FileNotFoundError
| FileExistsError
| InvalidSignature
| OutOfFuel
| Exception (msg : string).

Inductive result (A : Type) : Type :=
| Ok (a : A)
| Err (e : pyexc).
Arguments Ok {A} a.
Arguments Err {A} e.

#[export] Instance pyexc_eq_dec : EqDecision pyexc.
Proof. solve_decision. Defined.
#[export] Instance result_eq_dec {A} `{EqDecision A} : EqDecision (result A).
Proof. solve_decision. Defined.

#[export] Instance result_ret : MRet result := @Ok.
#[export] Instance result_bind : MBind result := λ A B f m,
  match m with Ok a => f a | Err e => Err e end.
#[export] Instance result_fmap : FMap result := λ A B f m,
  match m with Ok a => Ok (f a) | Err e => Err e end.

(** [assert b]: the statement of the language. *)
Definition py_assert (b : bool) : result unit :=
  if b then Ok tt else Err AssertionError.

(** [if cond: raise e]. *)
Definition raise_if (b : bool) (e : pyexc) : result unit :=
  if b then Err e else Ok tt.

Definition of_option {A} (e : pyexc) (o : option A) : result A :=
  match o with Some a => Ok a | None => Err e end.

Definition is_ok {A} (r : result A) : bool :=
  match r with Ok _ => true | Err _ => false end.

(** A left-to-right loop [for x in l: st = f(st, x)] whose body may raise. *)
Fixpoint foldM {A B} (f : B → A → result B) (st : B) (l : list A) : result B :=
  match l with
  | [] => Ok st
  | x :: l' => st' ← f st x; foldM f st' l'
  end.

(** ** Python lists

    [l[i]] and [l[i] = x] with the language's treatment of negative indices:
    [-len(l) <= i < len(l)] or [IndexError]. *)

Definition zlen {A} (l : list A) : Z := Z.of_nat (length l).

Definition py_index {A} (l : list A) (i : Z) : result nat :=
  if (0 <=? i) && (i <? zlen l) then Ok (Z.to_nat i)
  else if (i <? 0) && (0 <=? zlen l + i) then Ok (Z.to_nat (zlen l + i))
  else Err IndexError.

Definition py_get {A} (l : list A) (i : Z) : result A :=
  k ← py_index l i; of_option IndexError (l !! k).

Definition py_set {A} (l : list A) (i : Z) (x : A) : result (list A) :=
  k ← py_index l i; Ok (<[k := x]> l).

(** [[x] * n]: a negative count gives the empty list. *)
Definition py_repeat {A} (x : A) (n : Z) : list A := replicate (Z.to_nat n) x.

(** [l[a:b]] for non-negative bounds. *)
Definition py_slice {A} (l : list A) (a b : Z) : list A :=
  take (Z.to_nat (b - a)) (drop (Z.to_nat a) l).

(** [range(n)] and [range(n - 1, -1, -1)] *)
Definition py_range (n : Z) : list Z := Z.of_nat <$> seq 0%nat (Z.to_nat n).
Definition py_range_down (n : Z) : list Z := reverse (py_range n).

(** ** Automation *)

Create HintDb zeth.
Create Rewrite HintDb zeth_rw.

(** Case analysis on a result in a hypothesis, discarding the error branch. *)
Ltac inv_ok :=
  repeat match goal with
  | H : Err _ = Ok _ |- _ => discriminate H
  | H : Ok _ = Err _ |- _ => discriminate H
  | H : Ok _ = Ok _ |- _ => injection H as H
  | H : (_ ≫= _) = Ok _ |- _ => unfold mbind, result_bind in H
  | H : (match ?m with Ok _ => _ | Err _ => _ end) = Ok _ |- _ =>
      let E := fresh "E" in destruct m eqn:E; [| discriminate H]
  | H : mret _ = Ok _ |- _ => unfold mret, result_ret in H
  end.

(** Turn the boolean tests of the code into arithmetic facts. *)
Ltac prop_bool :=
  repeat match goal with
  | H : _ && _ = true |- _ => apply andb_true_iff in H as [? ?]
  | H : _ && _ = false |- _ => apply andb_false_iff in H
  | H : _ || _ = true |- _ => apply orb_true_iff in H
  | H : _ || _ = false |- _ => apply orb_false_iff in H as [? ?]
  | H : negb _ = true |- _ => apply negb_true_iff in H
  | H : negb _ = false |- _ => apply negb_false_iff in H
  | H : (_ <=? _)%Z = true |- _ => apply Z.leb_le in H
  | H : (_ <=? _)%Z = false |- _ => apply Z.leb_gt in H
  | H : (_ <? _)%Z = true |- _ => apply Z.ltb_lt in H
  | H : (_ <? _)%Z = false |- _ => apply Z.ltb_ge in H
  | H : (_ =? _)%Z = true |- _ => apply Z.eqb_eq in H
  | H : (_ =? _)%Z = false |- _ => apply Z.eqb_neq in H
  end.

(** ** Lemmas on results *)

Section results.
Context {A B : Type}.

Lemma mapM_cons_opt (f : A → option B) (x : A) (l : list A) :
  mapM f (x :: l) = (y ← f x; ys ← mapM f l; mret (y :: ys)).
Proof. done. Qed.

Lemma mapM_cons_res (f : A → result B) (x : A) (l : list A) :
  mapM f (x :: l) = (y ← f x; ys ← mapM f l; mret (y :: ys)).
Proof. done. Qed.

Lemma bind_Ok (a : A) (f : A → result B) : (Ok a ≫= f) = f a.
Proof. done. Qed.

Lemma bind_Err (e : pyexc) (f : A → result B) : (Err e ≫= f) = Err e.
Proof. done. Qed.

Lemma bind_Ok_inv (m : result A) (f : A → result B) (b : B) :
  (m ≫= f) = Ok b → ∃ a, m = Ok a ∧ f a = Ok b.
Proof. destruct m; [eauto | done]. Qed.

Lemma mapM_Ok_map (f : A → result B) (g : A → B) (l : list A) :
  (∀ x, x ∈ l → f x = Ok (g x)) → mapM f l = Ok (g <$> l).
Proof.
  induction l as [|x l IH]; intros Hf; simpl; [done|].
  rewrite Hf by set_solver. simpl.
  rewrite IH; [done | set_solver].
Qed.

Lemma mapM_Ok_length (f : A → result B) (l : list A) (k : list B) :
  mapM f l = Ok k → length k = length l.
Proof.
  revert k. induction l as [|x l IH]; simpl; intros k Hk.
  - by injection Hk as <-.
  - inv_ok. subst. simpl. f_equal. by apply IH.
Qed.
End results.

Lemma Ok_inj {A} (a b : A) : Ok a = Ok b → a = b.
Proof. by intros [=]. Qed.

Lemma py_assert_Ok (b : bool) : py_assert b = Ok tt ↔ b = true.
Proof. by destruct b. Qed.

Lemma py_assert_true (b : bool) : b = true → py_assert b = Ok tt.
Proof. by intros ->. Qed.

Lemma raise_if_Ok (b : bool) (e : pyexc) : raise_if b e = Ok tt ↔ b = false.
Proof. by destruct b. Qed.

Lemma foldM_app {A B} (f : B → A → result B) (st : B) (l1 l2 : list A) :
  foldM f st (l1 ++ l2) = (st' ← foldM f st l1; foldM f st' l2).
Proof.
  revert st. induction l1 as [|x l1 IH]; intros st; simpl; [done|].
  destruct (f st x); simpl; [apply IH | done].
Qed.

Lemma foldM_pure {A B} (f : B → A → result B) (g : B → A → B) (st : B) (l : list A) :
  (∀ s x, f s x = Ok (g s x)) → foldM f st l = Ok (foldl g st l).
Proof.
  intros Hf. revert st. induction l as [|x l IH]; intros st; simpl; [done|].
  rewrite Hf. simpl. apply IH.
Qed.

(** A loop invariant for [foldM]. *)
Lemma foldM_invariant {A B} (P : B → Prop) (f : B → A → result B) (st st' : B) (l : list A) :
  P st →
  (∀ s x s', x ∈ l → P s → f s x = Ok s' → P s') →
  foldM f st l = Ok st' → P st'.
Proof.
  revert st. induction l as [|x l IH]; intros st HP Hf Hfold; simpl in *.
  - by injection Hfold as <-.
  - destruct (f st x) as [s|] eqn:E; [|done]. simpl in Hfold.
    eapply IH; [| |exact Hfold].
    + eapply Hf; [| exact HP | exact E]. set_solver.
    + intros s1 x1 s2 Hx. apply Hf. set_solver.
Qed.

(** ** Lemmas on Python lists *)

Section lists.
Context {A : Type}.
Implicit Types l : list A.

Lemma zlen_nonneg l : (0 ≤ zlen l)%Z.
Proof. unfold zlen. lia. Qed.

Lemma zlen_app l1 l2 : zlen (l1 ++ l2) = (zlen l1 + zlen l2)%Z.
Proof. unfold zlen. rewrite length_app. lia. Qed.

Lemma zlen_insert l k x : zlen (<[k := x]> l) = zlen l.
Proof. unfold zlen. by rewrite length_insert. Qed.

Lemma zlen_py_repeat (x : A) n : zlen (py_repeat x n) = Z.max 0 n.
Proof. unfold zlen, py_repeat. rewrite length_replicate. lia. Qed.

Lemma py_index_nonneg l i :
  (0 ≤ i < zlen l)%Z → py_index l i = Ok (Z.to_nat i).
Proof. intros [??]. unfold py_index. by rewrite (proj2 (Z.leb_le _ _)), (proj2 (Z.ltb_lt _ _)). Qed.

Lemma py_get_nonneg l i x :
  (0 ≤ i)%Z → l !! Z.to_nat i = Some x → py_get l i = Ok x.
Proof.
  intros Hi Hx. unfold py_get.
  pose proof (lookup_lt_Some _ _ _ Hx) as Hlt.
  rewrite py_index_nonneg by (unfold zlen; lia). simpl. by rewrite Hx.
Qed.

Lemma py_get_of_nat l (n : nat) x : l !! n = Some x → py_get l (Z.of_nat n) = Ok x.
Proof. intros Hx. apply py_get_nonneg; [lia|]. by rewrite Nat2Z.id. Qed.

Lemma py_get_lookup l i x :
  (0 ≤ i)%Z → py_get l i = Ok x → l !! Z.to_nat i = Some x.
Proof.
  intros Hi. unfold py_get, py_index. intros H.
  destruct (0 <=? i)%Z eqn:E1, (i <? zlen l)%Z eqn:E2; simpl in H; prop_bool; try lia.
  - destruct (l !! Z.to_nat i); simpl in H; congruence.
  - destruct (i <? 0)%Z eqn:E3; simpl in H; prop_bool; [lia | done].
Qed.

Lemma py_get_is_ok l i : (0 ≤ i < zlen l)%Z → ∃ x, py_get l i = Ok x ∧ l !! Z.to_nat i = Some x.
Proof.
  intros Hi. destruct (lookup_lt_is_Some_2 l (Z.to_nat i)) as [x Hx]; [unfold zlen in Hi; lia|].
  exists x. split; [|done]. apply py_get_nonneg; [lia | done].
Qed.

Lemma py_set_nonneg l i x :
  (0 ≤ i < zlen l)%Z → py_set l i x = Ok (<[Z.to_nat i := x]> l).
Proof. intros Hi. unfold py_set. by rewrite py_index_nonneg. Qed.

Lemma length_py_slice l a b :
  (0 ≤ a ≤ b)%Z → (b ≤ zlen l)%Z → length (py_slice l a b) = Z.to_nat (b - a).
Proof. intros ??. unfold py_slice, zlen in *. rewrite length_take, length_drop. lia. Qed.
End lists.

Lemma elem_of_py_range n i : i ∈ py_range n ↔ (0 ≤ i < n)%Z.
Proof.
  unfold py_range. rewrite list_elem_of_fmap. setoid_rewrite elem_of_seq. split.
  - intros (k & -> & ?). lia.
  - intros ?. exists (Z.to_nat i). lia.
Qed.

Lemma py_range_down_S (n : nat) :
  py_range_down (Z.of_nat (S n)) = Z.of_nat n :: py_range_down (Z.of_nat n).
Proof.
  unfold py_range_down, py_range. rewrite !Nat2Z.id, seq_S, fmap_app. apply reverse_snoc.
Qed.

Lemma py_range_S (n : nat) : py_range (Z.of_nat (S n)) = py_range (Z.of_nat n) ++ [Z.of_nat n].
Proof. unfold py_range. by rewrite !Nat2Z.id, seq_S, fmap_app. Qed.

#[export] Hint Rewrite @zlen_app @zlen_insert @zlen_py_repeat @length_insert @length_app
  @length_replicate @length_take @length_drop @length_fmap : zeth_rw.
#[export] Hint Resolve zlen_nonneg : zeth.
