(* ===== verification/PyStr.v ===== *)
(** * Python text: strings, [int(s, base)] and integer formatting

    A Python [str] is a list of characters; the characters of every string the
    client handles (hex digests, file names, JSON keys) are in the 8-bit range.
    This file models the parts of the language the sources use: [startswith],
    [split], [join], [int(s, 16)] / [int(s)] with the whitespace, sign, prefix
    and underscore rules of the language, and the format specifications
    ["{0:08b}"], ["{0:0>4X}"], ["%04d"], [hex] and [str] on integers. *)

From Stdlib Require Import ZArith Lia Ascii String.
From stdpp Require Import base tactics list sets strings.
From S2P Require Import Prelude.

Local Open Scope Z_scope.

Abbreviation str := (list ascii).

(** A string literal of the source. *)
Definition lit (s : string) : str := list_ascii_of_string s.

Definition startswith (p s : str) : bool := bool_decide (take (length p) s = p).

(** [s.split(c)] for a one-character separator: never the empty list. *)
Fixpoint split_on (c : ascii) (s : str) : list str :=
  match s with
  | [] => [[]]
  | x :: s' =>
      if decide (x = c) then [] :: split_on c s'
      else match split_on c s' with
           | [] => [[x]]
           | w :: ws => (x :: w) :: ws
           end
  end.

(** ** Digits *)

Definition digit_char (upper : bool) (d : Z) : ascii :=
  ascii_of_nat (Z.to_nat (if d <? 10 then 48 + d else if upper then 55 + d else 87 + d)).

Definition digit_val (c : ascii) : option Z :=
  let n := Z.of_nat (nat_of_ascii c) in
  if (48 <=? n) && (n <=? 57) then Some (n - 48)
  else if (97 <=? n) && (n <=? 122) then Some (n - 87)
  else if (65 <=? n) && (n <=? 90) then Some (n - 55)
  else None.

(** The value of a digit sequence, most significant digit first. *)
Definition num_of (base : Z) (ds : list Z) : Z :=
  foldl (λ a d, a * base + d) 0 ds.

Fixpoint digits_fuel (base : Z) (fuel : nat) (z : Z) : list Z :=
  match fuel with
  | O => []
  | S f => if z <? base then [z] else digits_fuel base f (z / base) ++ [z mod base]
  end.

(** The digits of [z >= 0]; [Z.log2 z + 1] digits are enough in any base. *)
Definition digits_of (base z : Z) : list Z :=
  digits_fuel base (S (Z.to_nat (Z.log2 z))) z.

(** ** Formatting *)

(** Digits of [|z|], as [format] writes them for types [b], [d], [x] and [X]. *)
Definition abs_digits (base : Z) (upper : bool) (z : Z) : str :=
  digit_char upper <$> digits_of base (Z.abs z).

Definition sign_str (z : Z) : str := if z <? 0 then lit "-" else [].

(** Left padding with ["0"] up to width [w]. *)
Definition zpad (w : nat) (s : str) : str :=
  replicate (w - length s) "0"%char ++ s.

(** [str(z)] and [hex(z)] *)
Definition str_of_int (z : Z) : str := sign_str z ++ abs_digits 10 false z.
Definition hex_of_int (z : Z) : str := sign_str z ++ lit "0x" ++ abs_digits 16 false z.

(** ["{0:b}"], ["{0:0wb}"] (sign-aware zero padding) *)
Definition fmt_b (z : Z) : str := sign_str z ++ abs_digits 2 false z.
Definition fmt_0wb (w : nat) (z : Z) : str :=
  sign_str z ++ zpad (w - length (sign_str z)) (abs_digits 2 false z).

(** ["{0:0>wX}"]: fill ["0"], align right, so the padding goes left of the sign *)
Definition fmt_0gtwX (w : nat) (z : Z) : str := zpad w (sign_str z ++ abs_digits 16 true z).

(** ["%0wd"] *)
Definition fmt_0wd (w : nat) (z : Z) : str :=
  sign_str z ++ zpad (w - length (sign_str z)) (abs_digits 10 false z).

(** ** Parsing: [int(s, base)] *)

Definition is_space (c : ascii) : bool :=
  let n := Z.of_nat (nat_of_ascii c) in
  ((9 <=? n) && (n <=? 13)) || ((28 <=? n) && (n <=? 32)) || (n =? 133) || (n =? 160).

Fixpoint lstrip (s : str) : str :=
  match s with
  | c :: s' => if is_space c then lstrip s' else s
  | [] => []
  end.
Definition rstrip (s : str) : str := reverse (lstrip (reverse s)).
Definition strip (s : str) : str := rstrip (lstrip s).

(** Digits with single underscores between them; [us] says that an underscore
    (or nothing) came just before, so another one, or the end, is an error. *)
Fixpoint parse_digits (base acc : Z) (us : bool) (s : str) : option Z :=
  match s with
  | [] => if us then None else Some acc
  | c :: s' =>
      if decide (c = "_"%char) then
        if us then None else parse_digits base acc true s'
      else match digit_val c with
           | Some d => if d <? base then parse_digits base (acc * base + d) false s' else None
           | None => None
           end
  end.

Definition split_sign (s : str) : bool * str :=
  match s with
  | c :: s' =>
      if decide (c = "-"%char) then (true, s')
      else if decide (c = "+"%char) then (false, s') else (false, s)
  | [] => (false, [])
  end.

(** The letters of the optional prefix [0x], [0b] or [0o] of the base. *)
Definition prefix_chars (base : Z) : list ascii :=
  if base =? 16 then ["x"; "X"]%char
  else if base =? 2 then ["b"; "B"]%char
  else if base =? 8 then ["o"; "O"]%char
  else [].

(** Skip the prefix, and one underscore after it. *)
Definition skip_prefix (base : Z) (s : str) : str :=
  match s with
  | c0 :: c1 :: s' =>
      if decide (c0 = "0"%char ∧ c1 ∈ prefix_chars base) then
        match s' with
        | c :: s'' => if decide (c = "_"%char) then s'' else s'
        | [] => s'
        end
      else s
  | _ => s
  end.

Definition int_of_str (base : Z) (s : str) : result Z :=
  let '(neg, s) := split_sign (strip s) in
  match parse_digits base 0 true (skip_prefix base s) with
  | Some v => Ok (if neg then - v else v)
  | None => Err ValueError
  end.

(** The hexadecimal digits of a text, when it consists of such digits only. *)
Definition hex_val (c : ascii) : option Z :=
  d ← digit_val c; if d <? 16 then Some d else None.
Definition hex_digits (s : str) : option (list Z) := mapM hex_val s.

(** ** Lemmas: values of digit sequences *)

Lemma num_of_app base ds es :
  num_of base (ds ++ es) = num_of base ds * base ^ zlen es + num_of base es.
Proof.
  unfold num_of, zlen. rewrite foldl_app.
  generalize (foldl (λ a d : Z, a * base + d) 0 ds) as a.
  induction es as [|e es IH] using rev_ind; intros a; simpl; [lia|].
  rewrite !foldl_app, length_app, Nat2Z.inj_add, Z.pow_add_r by lia. simpl.
  rewrite IH. change (Z.of_nat 1) with 1. rewrite Z.pow_1_r. lia.
Qed.

Lemma num_of_cons base d ds : num_of base (d :: ds) = d * base ^ zlen ds + num_of base ds.
Proof.
  change (d :: ds) with ([d] ++ ds). rewrite num_of_app.
  unfold num_of at 1. simpl. lia.
Qed.

Lemma num_of_snoc base ds d : num_of base (ds ++ [d]) = num_of base ds * base + d.
Proof. rewrite num_of_app. unfold num_of at 2, zlen. simpl. lia. Qed.

Lemma num_of_zeros base n ds : num_of base (replicate n 0 ++ ds) = num_of base ds.
Proof.
  rewrite num_of_app. replace (num_of base (replicate n 0)) with 0; [lia|].
  induction n as [|n IH]; [done|]. simpl. rewrite num_of_cons, <- IH. lia.
Qed.

Lemma num_of_bound base ds :
  0 < base → Forall (λ d, 0 ≤ d < base) ds → 0 ≤ num_of base ds < base ^ zlen ds.
Proof.
  intros Hb. induction ds as [|d ds IH] using rev_ind; intros Hds.
  - unfold num_of, zlen. simpl. lia.
  - apply Forall_app in Hds as [Hds Hd]. inversion_clear Hd.
    specialize (IH Hds). rewrite num_of_snoc, zlen_app.
    change (zlen [d]) with 1. rewrite Z.pow_add_r, Z.pow_1_r by (unfold zlen; lia). nia.
Qed.

Lemma num_of_inj base ds es :
  0 < base → Forall (λ d, 0 ≤ d < base) ds → Forall (λ d, 0 ≤ d < base) es →
  length ds = length es → num_of base ds = num_of base es → ds = es.
Proof.
  intros Hb. revert es. induction ds as [|d ds IH] using rev_ind; intros es Hds Hes Hlen Heq.
  - by destruct es.
  - destruct es as [|e es _] using rev_ind; [rewrite length_app in Hlen; simpl in Hlen; lia|].
    rewrite !length_app in Hlen. simpl in Hlen.
    apply Forall_app in Hds as [Hds Hd], Hes as [Hes He].
    inversion_clear Hd; inversion_clear He.
    rewrite !num_of_snoc in Heq.
    destruct (Z.div_mod_unique base (num_of base ds) (num_of base es) d e)
      as [Heq' ->]; [lia.. |].
    f_equal. apply IH; auto; lia.
Qed.

Section digits.
Context (base : Z) (Hbase : 2 ≤ base).

Lemma digits_fuel_spec (fuel : nat) z :
  0 ≤ z < base ^ Z.of_nat fuel →
  num_of base (digits_fuel base fuel z) = z ∧
  Forall (λ d, 0 ≤ d < base) (digits_fuel base fuel z).
Proof using Hbase.
  revert z. induction fuel as [|fuel IH]; intros z Hz; simpl.
  - split; [unfold num_of; simpl in *; lia | constructor].
  - destruct (z <? base) eqn:E; prop_bool.
    + split; [unfold num_of; simpl; lia | repeat constructor; lia].
    + rewrite Nat2Z.inj_succ, Z.pow_succ_r in Hz by lia.
      destruct (IH (z / base)) as [IH1 IH2].
      { split; [apply Z.div_pos; lia | apply Z.div_lt_upper_bound; lia]. }
      pose proof (Z.mod_pos_bound z base).
      split; [rewrite num_of_snoc, IH1; pose proof (Z.div_mod z base); lia|].
      apply Forall_app. split; [done | repeat constructor; lia].
Qed.

Lemma log2_fuel_enough z : 0 ≤ z → z < base ^ Z.of_nat (S (Z.to_nat (Z.log2 z))).
Proof using Hbase.
  intros Hz. destruct (Z.eq_dec z 0) as [->|Hnz].
  - simpl. lia.
  - pose proof (Z.log2_spec z). pose proof (Z.log2_nonneg z).
    replace (Z.of_nat (S (Z.to_nat (Z.log2 z)))) with (Z.succ (Z.log2 z)) by lia.
    eapply Z.lt_le_trans; [apply H; lia|]. apply Z.pow_le_mono_l. lia.
Qed.

Lemma digits_of_num z : 0 ≤ z → num_of base (digits_of base z) = z.
Proof using Hbase.
  intros Hz. apply digits_fuel_spec. split; [done|]. by apply log2_fuel_enough.
Qed.

Lemma digits_of_range z : 0 ≤ z → Forall (λ d, 0 ≤ d < base) (digits_of base z).
Proof using Hbase.
  intros Hz. apply digits_fuel_spec. split; [done|]. by apply log2_fuel_enough.
Qed.

Lemma digits_fuel_length (fuel n : nat) z :
  (0 < n)%nat → 0 ≤ z < base ^ Z.of_nat n → (length (digits_fuel base fuel z) ≤ n)%nat.
Proof using Hbase.
  revert n z. induction fuel as [|fuel IH]; intros n z Hn Hz; simpl; [lia|].
  destruct (z <? base) eqn:E; prop_bool; simpl; [lia|].
  rewrite length_app. simpl.
  destruct n as [|[|n]]; [lia | rewrite Z.pow_1_r in Hz; lia |].
  rewrite (Nat2Z.inj_succ (S n)), Z.pow_succ_r in Hz by lia.
  specialize (IH (S n) (z / base)).
  assert (0 ≤ z / base < base ^ Z.of_nat (S n)).
  { split; [apply Z.div_pos; lia | apply Z.div_lt_upper_bound; lia]. }
  lia.
Qed.

(** A number below [base ^ n] is written with at most [n] digits. *)
Lemma digits_of_length (n : nat) z :
  (0 < n)%nat → 0 ≤ z < base ^ Z.of_nat n → (length (digits_of base z) ≤ n)%nat.
Proof using Hbase. apply digits_fuel_length. Qed.

Lemma digits_of_nonempty z : digits_of base z ≠ [].
Proof using Hbase.
  unfold digits_of. simpl. destruct (z <? base); [done|].
  intros H. by apply app_eq_nil in H as [_ ?].
Qed.
End digits.

(** ** Lemmas: digits as characters *)

Lemma digit_val_char upper d : 0 ≤ d < 36 → digit_val (digit_char upper d) = Some d.
Proof.
  intros Hd.
  assert (forallb (λ d, bool_decide (digit_val (digit_char true d) = Some d) &&
                        bool_decide (digit_val (digit_char false d) = Some d))
                  (py_range 36) = true) as Hall by (vm_compute; reflexivity).
  rewrite forallb_forall in Hall.
  specialize (Hall d (proj1 (list_elem_of_In _ _) (proj2 (elem_of_py_range 36 d) Hd))).
  apply andb_true_iff in Hall as [Ht%bool_decide_eq_true Hf%bool_decide_eq_true].
  by destruct upper.
Qed.

(** Facts that hold of every character, by inspection of all 256 of them. *)
Lemma ascii_forall (P : ascii → bool) :
  forallb P (ascii_of_nat <$> seq 0 256) = true → ∀ c, P c = true.
Proof.
  rewrite forallb_forall. intros Hall c. apply Hall, list_elem_of_In, list_elem_of_fmap.
  exists (nat_of_ascii c). split; [by rewrite ascii_nat_embedding|].
  apply elem_of_seq. pose proof (nat_ascii_bounded c). lia.
Qed.

Lemma digit_val_nonneg c d : digit_val c = Some d → 0 ≤ d < 36.
Proof.
  intros Hc.
  pose proof (ascii_forall (λ c, match digit_val c with Some d => (0 <=? d) && (d <? 36) | None => true end)
    ltac:(vm_compute; reflexivity) c) as H. simpl in H. rewrite Hc in H. prop_bool. lia.
Qed.

(** A digit is no whitespace, sign, underscore or letter above its base. *)
Lemma digit_val_plain c d :
  digit_val c = Some d →
  is_space c = false ∧ c ≠ "_"%char ∧ c ≠ "-"%char ∧ c ≠ "+"%char.
Proof.
  intros Hc.
  pose proof (ascii_forall (λ c, match digit_val c with
    | Some _ => negb (is_space c) && negb (Ascii.eqb c "_")
                && negb (Ascii.eqb c "-") && negb (Ascii.eqb c "+")
    | None => true end) ltac:(vm_compute; reflexivity) c) as H.
  simpl in H. rewrite Hc in H. prop_bool.
  by repeat match goal with H : Ascii.eqb _ _ = false |- _ => apply Ascii.eqb_neq in H end.
Qed.

Lemma hex_val_digit c d : hex_val c = Some d → digit_val c = Some d ∧ 0 ≤ d < 16.
Proof.
  unfold hex_val. destruct (digit_val c) as [e|] eqn:E; simpl; [|done].
  destruct (e <? 16) eqn:E'; [|done]. intros [= ->]. prop_bool.
  pose proof (digit_val_nonneg _ _ E). split; [done | lia].
Qed.

Lemma hex_val_char upper d : 0 ≤ d < 16 → hex_val (digit_char upper d) = Some d.
Proof.
  intros Hd. unfold hex_val. rewrite digit_val_char by lia. simpl.
  by rewrite (proj2 (Z.ltb_lt _ _)) by lia.
Qed.

Lemma hex_val_not_x c d : hex_val c = Some d → c ≠ "x"%char ∧ c ≠ "X"%char.
Proof. intros H. split; intros ->; vm_compute in H; done. Qed.

(** ** Lemmas: parsing digit texts *)

Section parse.
Context (base : Z) (Hbase : 2 ≤ base ≤ 36).

Lemma parse_digits_spec s ds acc us :
  mapM digit_val s = Some ds → Forall (λ d, 0 ≤ d < base) ds →
  (s = [] → us = false) →
  parse_digits base acc us s = Some (acc * base ^ zlen ds + num_of base ds).
Proof using Hbase.
  revert ds acc us. induction s as [|c s IH]; intros ds acc us Hs Hds Hus; simpl in *.
  - injection Hs as <-. rewrite Hus by done. f_equal. unfold zlen, num_of. simpl. lia.
  - apply bind_Some in Hs as (d & Hd & Hs). apply bind_Some in Hs as (ds' & Hs & [= <-]).
    inversion_clear Hds as [|? ? Hd' Hds'].
    destruct (digit_val_plain _ _ Hd) as (_ & Hu & _).
    rewrite decide_False by done. rewrite Hd, (proj2 (Z.ltb_lt _ _)) by lia.
    rewrite (IH ds') by done. f_equal. rewrite num_of_cons.
    replace (zlen (d :: ds')) with (Z.succ (zlen ds')) by (unfold zlen; simpl; lia).
    rewrite Z.pow_succ_r by (unfold zlen; lia). lia.
Qed.
End parse.

Lemma lstrip_id s : match s with c :: _ => is_space c = false | [] => True end → lstrip s = s.
Proof. destruct s as [|c s]; simpl; [done|]. by intros ->. Qed.

Lemma strip_id s :
  Forall (λ c, is_space c = false) s → strip s = s.
Proof.
  intros Hs. unfold strip, rstrip.
  rewrite (lstrip_id s) by (destruct Hs; done).
  rewrite lstrip_id; [apply reverse_involutive|].
  apply Forall_reverse in Hs. destruct Hs; done.
Qed.

Lemma hex_digits_plain s ds :
  hex_digits s = Some ds → Forall (λ c, is_space c = false) s ∧ Forall (λ d, 0 ≤ d < 16) ds
    ∧ mapM digit_val s = Some ds.
Proof.
  unfold hex_digits. revert ds. induction s as [|c s IH]; intros ds Hs; simpl in *.
  - by injection Hs as <-.
  - apply bind_Some in Hs as (d & Hd & Hs). apply bind_Some in Hs as (ds' & Hs & [= <-]).
    destruct (IH _ Hs) as (H1 & H2 & H3). destruct (hex_val_digit _ _ Hd) as [Hd' Hr].
    destruct (digit_val_plain _ _ Hd') as (? & _).
    repeat split; try (by constructor). by rewrite Hd', H3.
Qed.

Lemma hex_digits_length s ds : hex_digits s = Some ds → length ds = length s.
Proof. intros H. symmetry. by eapply length_mapM. Qed.

Lemma prefix_char_value base c d :
  c ∈ prefix_chars base → digit_val c = Some d → base ≤ d.
Proof.
  unfold prefix_chars.
  destruct (base =? 16) eqn:E16, (base =? 2) eqn:E2, (base =? 8) eqn:E8; prop_bool;
    intros Hc; set_unfold in Hc; destruct_or?; try done; subst c;
    intros Hd; vm_compute in Hd; injection Hd as <-; lia.
Qed.

(** [int(s, base)] on a non-empty text of digits of the base. *)
Lemma int_of_digits base s ds :
  2 ≤ base ≤ 36 → s ≠ [] → mapM digit_val s = Some ds → Forall (λ d, 0 ≤ d < base) ds →
  int_of_str base s = Ok (num_of base ds).
Proof.
  intros Hb Hne Hm Hr. unfold int_of_str.
  assert (Forall (λ c, is_space c = false) s) as Hsp.
  { clear Hne Hr. revert ds Hm. induction s as [|c s IH]; intros ds Hm; [done|].
    rewrite mapM_cons_opt in Hm.
    apply bind_Some in Hm as (d & Hd & (ds' & Hm & _)%bind_Some).
    constructor; [by eapply digit_val_plain | by eapply IH]. }
  rewrite strip_id by done.
  assert (split_sign s = (false, s)) as ->.
  { destruct s as [|c s]; [done|]. simpl in Hm. apply bind_Some in Hm as (d & Hd & _).
    destruct (digit_val_plain _ _ Hd) as (_ & _ & ? & ?). simpl. by rewrite !decide_False. }
  assert (skip_prefix base s = s) as ->.
  { destruct s as [|c0 [|c1 s]]; [done..|]. simpl. rewrite decide_False; [done|].
    rewrite !mapM_cons_opt in Hm.
    apply bind_Some in Hm as (d0 & _ & (ds' & Hm & [= <-])%bind_Some).
    apply bind_Some in Hm as (d1 & Hd & (ds'' & _ & [= <-])%bind_Some).
    intros [_ Hc]. pose proof (prefix_char_value _ _ _ Hc Hd).
    rewrite !Forall_cons in Hr. lia. }
  rewrite (parse_digits_spec base Hb s ds) by (try done; naive_solver).
  f_equal; lia.
Qed.

(** [int(s, 16)] on a non-empty text of hex digits, with or without [0x]. *)
Lemma int_of_hex_digits s ds :
  s ≠ [] → hex_digits s = Some ds → int_of_str 16 s = Ok (num_of 16 ds).
Proof.
  intros Hne (_ & Hr & Hm)%hex_digits_plain. by apply int_of_digits.
Qed.

Lemma int_of_0x_hex_digits s ds :
  s ≠ [] → hex_digits s = Some ds → int_of_str 16 (lit "0x" ++ s) = Ok (num_of 16 ds).
Proof.
  intros Hne Hs. destruct (hex_digits_plain _ _ Hs) as (Hsp & Hr & Hm).
  unfold int_of_str. rewrite strip_id by (repeat constructor; done).
  cbn [lit list_ascii_of_string app split_sign].
  rewrite !decide_False by done.
  cbn [skip_prefix]. rewrite decide_True by (split; [done | by left]).
  assert ((match s with c :: s'' => if decide (c = "_"%char) then s'' else s | [] => s end) = s) as ->.
  { destruct s as [|c s]; [done|]. simpl in Hm. apply bind_Some in Hm as (d & Hd & _).
    destruct (digit_val_plain _ _ Hd) as (_ & ? & _). by rewrite decide_False. }
  rewrite (parse_digits_spec 16 ltac:(lia) s ds) by (try done; naive_solver).
  f_equal; lia.
Qed.

Lemma int_of_str_empty base : int_of_str base [] = Err ValueError.
Proof. done. Qed.

(** ** Lemmas: formatting then parsing *)

Lemma hex_digits_map upper ds :
  Forall (λ d, 0 ≤ d < 16) ds → hex_digits (digit_char upper <$> ds) = Some ds.
Proof.
  unfold hex_digits. induction 1 as [|d ds Hd Hds IH]; [done|].
  rewrite fmap_cons, mapM_cons_opt, hex_val_char, IH by done. done.
Qed.

Lemma hex_digits_app s t ds es :
  hex_digits s = Some ds → hex_digits t = Some es → hex_digits (s ++ t) = Some (ds ++ es).
Proof.
  unfold hex_digits. revert ds. induction s as [|c s IH]; intros ds Hs Ht; simpl in Hs.
  - by injection Hs as <-.
  - apply bind_Some in Hs as (d & Hd & Hs). apply bind_Some in Hs as (ds' & Hs & [= <-]).
    change ((c :: s) ++ t) with (c :: (s ++ t)).
    by rewrite mapM_cons_opt, Hd, (IH _ Hs Ht).
Qed.

Lemma hex_digits_zeros n : hex_digits (replicate n "0"%char) = Some (replicate n 0).
Proof. unfold hex_digits. induction n as [|n IH]; [done|].
  by rewrite !replicate_S, mapM_cons_opt, IH. Qed.

Lemma hex_digits_zpad w s ds :
  hex_digits s = Some ds →
  hex_digits (zpad w s) = Some (replicate (w - length s) 0 ++ ds).
Proof. intros Hs. by apply hex_digits_app; [apply hex_digits_zeros|]. Qed.

Lemma length_zpad w s : length (zpad w s) = Nat.max w (length s).
Proof. unfold zpad. rewrite length_app, length_replicate. lia. Qed.

Lemma fmap_digit_nonempty upper base z : 2 ≤ base → digit_char upper <$> digits_of base z ≠ [].
Proof. intros Hb H%fmap_nil_inv. by apply (digits_of_nonempty base Hb z). Qed.

(** [int(hex(z), 16) = z] and [int(str(z)) = z] for [z >= 0]. *)
Lemma int_of_hex_of_int z : 0 ≤ z → int_of_str 16 (hex_of_int z) = Ok z.
Proof.
  intros Hz. unfold hex_of_int, sign_str, abs_digits.
  rewrite (proj2 (Z.ltb_ge _ _)), Z.abs_eq by lia. cbn [app].
  rewrite (int_of_0x_hex_digits _ (digits_of 16 z)).
  - by rewrite digits_of_num.
  - by apply fmap_digit_nonempty.
  - apply hex_digits_map. by apply digits_of_range.
Qed.

Lemma mapM_digit_val upper base ds :
  base ≤ 36 → Forall (λ d, 0 ≤ d < base) ds → mapM digit_val (digit_char upper <$> ds) = Some ds.
Proof.
  intros Hb. induction 1 as [|d ds Hd Hds IH]; [done|].
  rewrite fmap_cons, mapM_cons_opt, digit_val_char, IH by lia. done.
Qed.

Lemma int_of_str_of_int z : 0 ≤ z → int_of_str 10 (str_of_int z) = Ok z.
Proof.
  intros Hz. unfold str_of_int, sign_str, abs_digits.
  rewrite (proj2 (Z.ltb_ge _ _)), Z.abs_eq by lia. cbn [app].
  pose proof (digits_of_range 10 ltac:(lia) z Hz) as Hr.
  rewrite (int_of_digits 10 _ (digits_of 10 z)); [by rewrite digits_of_num | lia | | | done].
  - by apply fmap_digit_nonempty.
  - by apply (mapM_digit_val false 10).
Qed.

(** ** Lemmas: splitting *)

Lemma split_on_app c a b : c ∉ a → split_on c (a ++ c :: b) = a :: split_on c b.
Proof.
  induction a as [|x a IH]; intros Hc; simpl.
  - by rewrite decide_True.
  - rewrite decide_False by set_solver. by rewrite IH by set_solver.
Qed.

Lemma split_on_none c a : c ∉ a → split_on c a = [a].
Proof.
  induction a as [|x a IH]; intros Hc; simpl; [done|].
  rewrite decide_False by set_solver. by rewrite IH by set_solver.
Qed.

Lemma startswith_app p s : startswith p (p ++ s) = true.
Proof. unfold startswith. apply bool_decide_eq_true. by rewrite take_app_length. Qed.

(** Kept folded by [simpl]. *)
Arguments int_of_str : simpl never.
Arguments digits_of : simpl never.
Arguments num_of : simpl never.
