(* ===== verification/PyBytes.v ===== *)
(** * Python [bytes]: [int.to_bytes], [int.from_bytes], [bytes.hex], [bytes.fromhex]

    A [bytes] value is a list of [Byte.byte].  The big-endian encodings of the
    language are written out with their overflow behaviour, and the hex codec
    with the whitespace that [bytes.fromhex] skips between byte pairs. *)

From Stdlib Require Import ZArith Lia Ascii String Strings.Byte.
From stdpp Require Import base tactics list sets strings.
From S2P Require Import Prelude PyStr.

Local Open Scope Z_scope.

Abbreviation bytes := (list Byte.byte).

#[export] Instance byte_eq_dec : EqDecision Byte.byte := Byte.byte_eq_dec.

Definition byte_val (b : Byte.byte) : Z := Z.of_N (Byte.to_N b).

(** The low eight bits of an integer. *)
Definition byte_of (z : Z) : Byte.byte :=
  default Byte.x00 (Byte.of_N (Z.to_N (z mod 256))).

(** [bytes(n)] for a literal non-negative count. *)
Definition zero_bytes (n : nat) : bytes := replicate n Byte.x00.

(** [int.from_bytes(b, byteorder='big')] *)
Definition int_from_bytes (b : bytes) : Z := num_of 256 (byte_val <$> b).

Fixpoint to_be (n : nat) (z : Z) : bytes :=
  match n with
  | O => []
  | S n' => to_be n' (z / 256) ++ [byte_of z]
  end.

(** [z.to_bytes(n, byteorder='big')] *)
Definition int_to_bytes (z : Z) (n : nat) : result bytes :=
  if z <? 0 then Err OverflowError
  else if 256 ^ Z.of_nat n <=? z then Err OverflowError
  else Ok (to_be n z).

(** [b.hex()] *)
Definition hex_byte (b : Byte.byte) : str :=
  [digit_char false (byte_val b / 16); digit_char false (byte_val b mod 16)].
Definition hex (b : bytes) : str := b ≫= hex_byte.

(** ASCII whitespace, which [bytes.fromhex] skips between pairs of digits. *)
Definition is_ascii_space (c : ascii) : bool :=
  let n := Z.of_nat (nat_of_ascii c) in ((9 <=? n) && (n <=? 13)) || (n =? 32).

(** [bytes.fromhex(s)] *)
Fixpoint fromhex (s : str) : result bytes :=
  match s with
  | [] => Ok []
  | c :: s' =>
      if is_ascii_space c then fromhex s'
      else match s' with
           | [] => Err ValueError
           | d :: s'' =>
               match hex_val c, hex_val d with
               | Some x, Some y => b ← fromhex s''; Ok (byte_of (16 * x + y) :: b)
               | _, _ => Err ValueError
               end
           end
  end.

(** [s.encode('ascii')]: the characters above 127 raise (a subclass of ValueError). *)
Definition encode_ascii (s : str) : result bytes :=
  mapM (λ c, let n := Z.of_nat (nat_of_ascii c) in
             if n <? 128 then Ok (byte_of n) else Err ValueError) s.

(** ** Bytes and integers *)

Lemma byte_val_range b : 0 ≤ byte_val b < 256.
Proof. unfold byte_val. pose proof (Byte.to_N_bounded b). lia. Qed.

Lemma byte_val_of z : byte_val (byte_of z) = z mod 256.
Proof.
  unfold byte_val, byte_of. pose proof (Z.mod_pos_bound z 256 ltac:(lia)).
  destruct (Byte.of_N (Z.to_N (z mod 256))) as [b|] eqn:E; simpl.
  - apply Byte.to_of_N in E. lia.
  - apply Byte.of_N_None_iff in E. lia.
Qed.

Lemma byte_of_val b : byte_of (byte_val b) = b.
Proof.
  unfold byte_of. rewrite Z.mod_small by apply byte_val_range.
  unfold byte_val. by rewrite N2Z.id, Byte.of_to_N.
Qed.

Lemma byte_val_inj b c : byte_val b = byte_val c → b = c.
Proof. intros H. by rewrite <- (byte_of_val b), H, byte_of_val. Qed.

Lemma byte_of_mod z : byte_of (z mod 256) = byte_of z.
Proof. apply byte_val_inj. by rewrite !byte_val_of, Zmod_mod. Qed.

Lemma byte_vals_range b : Forall (λ d, 0 ≤ d < 256) (byte_val <$> b).
Proof. apply Forall_fmap, Forall_forall. intros x _. apply byte_val_range. Qed.

Lemma zlen_fmap {A B} (f : A → B) (l : list A) : zlen (f <$> l) = zlen l.
Proof. unfold zlen. by rewrite length_fmap. Qed.

Lemma int_from_bytes_app a b :
  int_from_bytes (a ++ b) = int_from_bytes a * 256 ^ zlen b + int_from_bytes b.
Proof. unfold int_from_bytes. by rewrite fmap_app, num_of_app, zlen_fmap. Qed.

Lemma int_from_bytes_bound b : 0 ≤ int_from_bytes b < 256 ^ zlen b.
Proof.
  unfold int_from_bytes. pose proof (num_of_bound 256 _ ltac:(lia) (byte_vals_range b)).
  by rewrite zlen_fmap in H.
Qed.

Lemma int_from_bytes_zeros n b : int_from_bytes (zero_bytes n ++ b) = int_from_bytes b.
Proof.
  unfold int_from_bytes, zero_bytes. by rewrite fmap_app, fmap_replicate, num_of_zeros.
Qed.

Lemma length_to_be n z : length (to_be n z) = n.
Proof.
  revert z. induction n as [|n IH]; intros z; simpl; [done|].
  rewrite length_app, IH. simpl. lia.
Qed.

Lemma int_from_to_be n z : int_from_bytes (to_be n z) = z mod 256 ^ Z.of_nat n.
Proof.
  revert z. induction n as [|n IH]; intros z; simpl to_be.
  - by rewrite Z.mod_1_r.
  - rewrite int_from_bytes_app, IH. change (zlen [byte_of z]) with 1.
    replace (int_from_bytes [byte_of z]) with (z mod 256)
      by (unfold int_from_bytes, num_of; simpl; rewrite byte_val_of; lia).
    rewrite Nat2Z.inj_succ, Z.pow_succ_r, Z.pow_1_r by lia.
    rewrite Z.rem_mul_r by (try apply Z.pow_pos_nonneg; lia). lia.
Qed.

Lemma to_be_from_bytes b : to_be (length b) (int_from_bytes b) = b.
Proof.
  induction b as [|x b IH] using rev_ind; [done|].
  rewrite length_app, Nat.add_1_r. simpl.
  assert (int_from_bytes (b ++ [x]) = 256 * int_from_bytes b + byte_val x) as ->.
  { rewrite int_from_bytes_app. change (zlen [x]) with 1.
    unfold int_from_bytes at 2, num_of. simpl. lia. }
  pose proof (byte_val_range x).
  rewrite <- (Z.div_unique _ 256 (int_from_bytes b) (byte_val x)) by lia.
  rewrite IH. f_equal. f_equal.
  rewrite <- byte_of_mod, <- (Z.mod_unique _ 256 (int_from_bytes b) (byte_val x)) by lia.
  apply byte_of_val.
Qed.

Lemma int_from_bytes_inj a b :
  length a = length b → int_from_bytes a = int_from_bytes b → a = b.
Proof.
  intros Hl Hv. rewrite <- (to_be_from_bytes a), <- (to_be_from_bytes b). by rewrite Hl, Hv.
Qed.

Lemma int_to_bytes_Ok z n :
  0 ≤ z < 256 ^ Z.of_nat n → int_to_bytes z n = Ok (to_be n z).
Proof.
  intros ?. unfold int_to_bytes.
  by rewrite (proj2 (Z.ltb_ge _ _)), (proj2 (Z.leb_gt _ _)) by lia.
Qed.

Lemma int_to_bytes_inv z n b :
  int_to_bytes z n = Ok b → b = to_be n z ∧ 0 ≤ z < 256 ^ Z.of_nat n.
Proof.
  unfold int_to_bytes.
  destruct (z <? 0) eqn:E1; [done|]. destruct (256 ^ Z.of_nat n <=? z) eqn:E2; [done|].
  intros [= <-]. prop_bool. auto.
Qed.

Lemma int_to_bytes_length z n b : int_to_bytes z n = Ok b → length b = n.
Proof. intros [-> _]%int_to_bytes_inv. apply length_to_be. Qed.

(** [int.from_bytes(z.to_bytes(n)) = z] *)
Lemma int_from_to_bytes z n b : int_to_bytes z n = Ok b → int_from_bytes b = z.
Proof. intros [-> ?]%int_to_bytes_inv. rewrite int_from_to_be. by apply Z.mod_small. Qed.

(** [int.from_bytes(b).to_bytes(len(b)) = b] *)
Lemma int_to_from_bytes b : int_to_bytes (int_from_bytes b) (length b) = Ok b.
Proof.
  rewrite int_to_bytes_Ok; [by rewrite to_be_from_bytes | apply int_from_bytes_bound].
Qed.

Lemma to_be_inj n x y :
  0 ≤ x < 256 ^ Z.of_nat n → 0 ≤ y < 256 ^ Z.of_nat n → to_be n x = to_be n y → x = y.
Proof.
  intros Hx Hy H. apply (f_equal int_from_bytes) in H.
  by rewrite !int_from_to_be, !Z.mod_small in H.
Qed.

(** ** Hex *)

Lemma hex_cons b l : hex (b :: l) = hex_byte b ++ hex l.
Proof. done. Qed.

Lemma hex_app a b : hex (a ++ b) = hex a ++ hex b.
Proof. unfold hex. by rewrite bind_app. Qed.

Lemma length_hex b : length (hex b) = (2 * length b)%nat.
Proof. induction b as [|x b IH]; [done|]. rewrite hex_cons. simpl. lia. Qed.

Lemma byte_nibbles b : 0 ≤ byte_val b / 16 < 16 ∧ 0 ≤ byte_val b mod 16 < 16.
Proof.
  pose proof (byte_val_range b). split; [|apply Z.mod_pos_bound; lia].
  split; [apply Z.div_pos; lia | apply Z.div_lt_upper_bound; lia].
Qed.

Lemma hex_val_not_space c d : hex_val c = Some d → is_ascii_space c = false.
Proof.
  intros [Hd _]%hex_val_digit. apply digit_val_plain in Hd as [Hs _].
  unfold is_space, is_ascii_space in *. prop_bool.
  repeat match goal with H : (_ ∨ _) |- _ => destruct H end; prop_bool;
  apply orb_false_iff; split; try (apply andb_false_iff; (left + right); lia); lia.
Qed.

Lemma fromhex_cons2 c d s x y :
  hex_val c = Some x → hex_val d = Some y →
  fromhex (c :: d :: s) = (b ← fromhex s; Ok (byte_of (16 * x + y) :: b)).
Proof. intros Hx Hy. simpl. by rewrite (hex_val_not_space c x), Hx, Hy. Qed.

(** [bytes.fromhex(b.hex()) = b] *)
Lemma fromhex_hex b : fromhex (hex b) = Ok b.
Proof.
  induction b as [|x b IH]; [done|]. rewrite hex_cons. unfold hex_byte. simpl app.
  destruct (byte_nibbles x).
  erewrite fromhex_cons2; [| by apply hex_val_char ..].
  rewrite IH. simpl. f_equal. f_equal.
  rewrite <- Z.div_mod by lia. apply byte_of_val.
Qed.

Lemma hex_inj a b : hex a = hex b → a = b.
Proof. intros H. apply (f_equal fromhex) in H. rewrite !fromhex_hex in H. congruence. Qed.

(** The hex text of a byte string denotes the same integer as the bytes. *)
Lemma hex_digits_hex b : ∃ ds, hex_digits (hex b) = Some ds ∧ num_of 16 ds = int_from_bytes b.
Proof.
  induction b as [|x b (ds & Hds & Hn)]; [by exists []|].
  rewrite hex_cons. destruct (byte_nibbles x).
  exists ([byte_val x / 16; byte_val x mod 16] ++ ds). split.
  - apply hex_digits_app; [|done].
    apply (hex_digits_map false [byte_val x / 16; byte_val x mod 16]). by rewrite !Forall_cons.
  - change (x :: b) with ([x] ++ b). rewrite num_of_app, int_from_bytes_app, Hn. f_equal.
    assert (zlen ds = 2 * zlen b) as ->.
    { unfold zlen. rewrite (hex_digits_length _ _ Hds), length_hex. lia. }
    rewrite Z.pow_mul_r by (unfold zlen; lia). change (16 ^ 2) with 256. f_equal.
    unfold int_from_bytes, num_of. simpl. pose proof (Z.div_mod (byte_val x) 16). lia.
Qed.

(** [int(b.hex(), 16) = int.from_bytes(b)] for a non-empty byte string. *)
Lemma int_of_hex b : b ≠ [] → int_of_str 16 (hex b) = Ok (int_from_bytes b).
Proof.
  intros Hne. destruct (hex_digits_hex b) as (ds & Hds & <-).
  apply int_of_hex_digits; [|done]. destruct b; done.
Qed.

Lemma int_of_0x_hex b : b ≠ [] → int_of_str 16 (lit "0x" ++ hex b) = Ok (int_from_bytes b).
Proof.
  intros Hne. destruct (hex_digits_hex b) as (ds & Hds & <-).
  apply int_of_0x_hex_digits; [|done]. destruct b; done.
Qed.

(** [bytes.fromhex] on an even number of hex digits. *)
Lemma fromhex_digits (n : nat) s ds :
  hex_digits s = Some ds → length s = (2 * n)%nat →
  ∃ b, fromhex s = Ok b ∧ length b = n ∧ int_from_bytes b = num_of 16 ds.
Proof.
  revert s ds. induction n as [|n IH]; intros s ds Hs Hl.
  - destruct s; [|done]. injection Hs as <-. by exists [].
  - destruct s as [|c [|d s]]; [simpl in Hl; lia.. |].
    unfold hex_digits in Hs. rewrite !mapM_cons_opt in Hs.
    apply bind_Some in Hs as (x & Hx & (ds' & Hs & [= <-])%bind_Some).
    apply bind_Some in Hs as (y & Hy & (ds'' & Hs & [= <-])%bind_Some).
    destruct (IH s ds'' Hs) as (b & Hb & Hlb & Hv); [simpl in Hl; lia|].
    exists (byte_of (16 * x + y) :: b). rewrite (fromhex_cons2 _ _ _ x y), Hb by done.
    split; [done|]. split; [simpl; lia|].
    change (byte_of (16 * x + y) :: b) with ([byte_of (16 * x + y)] ++ b).
    rewrite int_from_bytes_app, !num_of_cons, Hv, Z.add_assoc. f_equal.
    apply hex_val_digit in Hx as [_ Hx], Hy as [_ Hy].
    assert (int_from_bytes [byte_of (16 * x + y)] = 16 * x + y) as ->.
    { unfold int_from_bytes, num_of. simpl. rewrite byte_val_of, Z.mod_small; lia. }
    assert (zlen ds'' = 2 * zlen b) as E.
    { unfold zlen. rewrite (hex_digits_length _ _ Hs). simpl in Hl. lia. }
    replace (zlen (y :: ds'')) with (Z.succ (zlen ds'')) by (unfold zlen; simpl; lia).
    rewrite E, Z.pow_succ_r, Z.pow_mul_r by (unfold zlen; lia). change (16 ^ 2) with 256. lia.
Qed.

#[export] Hint Rewrite length_to_be length_hex hex_app : zeth_rw.
#[export] Hint Resolve byte_val_range int_from_bytes_bound : zeth.

(** Kept folded by [simpl]. *)
Arguments to_be : simpl never.
Arguments hex : simpl never.
Arguments fromhex : simpl never.
Arguments int_from_bytes : simpl never.
Arguments zero_bytes : simpl never.
