(* ===== verification/PyFloat.v ===== *)
(** * Python floats where the sources use them on integers: [int(a / b)]

    The client computes [int(x / 2)], [int(bits / 8)] and
    [int(wei / ZETH_PUBLIC_UNIT_VALUE)] with the true division of the language,
    which returns the IEEE-754 double nearest to the exact quotient (ties to
    even), and then truncates.  [int_truediv] is that function: exact integer
    arithmetic chooses the exponent, [rne_div] rounds the 53-bit significand.
    The lemmas say when the double is exact and how far the truncated result can
    be from the integer quotient. *)

From Stdlib Require Import ZArith Lia.
From stdpp Require Import base tactics numbers.
From S2P Require Import Prelude.

Local Open Scope Z_scope.

(** The integer nearest to [n / d], ties to even ([d > 0]). *)
Definition rne_div (n d : Z) : Z :=
  let q := n / d in
  let r := n mod d in
  if 2 * r <? d then q
  else if d <? 2 * r then q + 1
  else if Z.even q then q else q + 1.

(** [floor(log2(a / b))] for [a, b > 0]. *)
Definition flog2_div (a b : Z) : Z :=
  let k := Z.log2 a - Z.log2 b in
  if (if 0 <=? k then b * 2 ^ k <=? a else b <=? a * 2 ^ (- k)) then k else k - 1.

(** The exponent of the double nearest to [a / b]: 53 significant bits, and no
    smaller than the exponent of the subnormal numbers. *)
Definition truediv_exp (a b : Z) : Z := Z.max (flog2_div a b - 52) (-1074).

(** The significand of the double nearest to [a / b]. *)
Definition truediv_man (a b : Z) : Z :=
  let e := truediv_exp a b in
  if 0 <=? e then rne_div a (b * 2 ^ e) else rne_div (a * 2 ^ (- e)) b.

(** [int(a / b)] for [a >= 0] and [b > 0]. *)
Definition int_truediv_pos (a b : Z) : result Z :=
  if a =? 0 then Ok 0
  else
    let e := truediv_exp a b in
    let m := truediv_man a b in
    if (971 <? e) || ((e =? 971) && (m =? 2 ^ 53)) then Err OverflowError
    else Ok (if 0 <=? e then m * 2 ^ e else m / 2 ^ (- e)).

(** [int(a / b)] *)
Definition int_truediv (a b : Z) : result Z :=
  if b =? 0 then Err ZeroDivisionError
  else
    q ← int_truediv_pos (Z.abs a) (Z.abs b);
    Ok (Z.sgn a * Z.sgn b * q).

(** ** Rounding *)

Lemma rne_div_exact q d : 0 < d → rne_div (q * d) d = q.
Proof.
  intros Hd. unfold rne_div. rewrite Z_mod_mult, Z.div_mul by lia.
  by rewrite (proj2 (Z.ltb_lt _ _)) by lia.
Qed.

Lemma rne_div_bounds n d : 0 < d → n / d ≤ rne_div n d ≤ n / d + 1.
Proof.
  intros Hd. unfold rne_div.
  destruct (2 * (n mod d) <? d), (d <? 2 * (n mod d)), (Z.even (n / d)); lia.
Qed.

(** Rounding is monotone with respect to integers. *)
Lemma rne_div_lower n d z : 0 < d → z * d ≤ n → z ≤ rne_div n d.
Proof.
  intros Hd Hz. pose proof (rne_div_bounds n d Hd).
  enough (z ≤ n / d) by lia. apply Z.div_le_lower_bound; lia.
Qed.

Lemma rne_div_upper n d z : 0 < d → n ≤ z * d → rne_div n d ≤ z.
Proof.
  intros Hd Hz. destruct (Z.eq_dec n (z * d)) as [->|Hne]; [by rewrite rne_div_exact|].
  pose proof (rne_div_bounds n d Hd).
  enough (n / d < z) by lia. apply Z.div_lt_upper_bound; lia.
Qed.

Lemma flog2_div_lt a b n : 0 < a → 0 < b → 0 ≤ n → a < b * 2 ^ n → flog2_div a b < n.
Proof.
  intros Ha Hb Hn Hlt. unfold flog2_div.
  set (k := Z.log2 a - Z.log2 b).
  assert (k ≤ n) as Hk.
  { enough (Z.log2 a ≤ Z.log2 b + n) by (unfold k; lia).
    pose proof (Z.log2_spec b Hb) as [_ Hb2].
    assert (a < 2 ^ (Z.succ (Z.log2 b + n))) as Ha2.
    { replace (Z.succ (Z.log2 b + n)) with (Z.succ (Z.log2 b) + n) by lia.
      rewrite Z.pow_add_r by (pose proof (Z.log2_nonneg b); lia).
      pose proof (Z.pow_pos_nonneg 2 n ltac:(lia) Hn). nia. }
    apply Z.log2_lt_pow2 in Ha2; lia. }
  destruct (0 <=? k) eqn:E0; prop_bool.
  - destruct (b * 2 ^ k <=? a) eqn:E; prop_bool; [|lia].
    destruct (Z.eq_dec k n) as [Hkn|]; [rewrite Hkn in E; lia | lia].
  - destruct (b <=? a * 2 ^ (- k)); lia.
Qed.

(** ** [int(a / b)] when the quotient is below 2^53 *)

Section small_quotient.
Context (a b : Z) (Ha : 0 ≤ a) (Hb : 0 < b) (Hq : a < b * 2 ^ 53).

(** The result is read off the significand scaled by a power of two. *)
Lemma int_truediv_small :
  0 < a → ∃ s, 0 < s ∧ (∀ j, 0 ≤ j ≤ 53 → a < b * 2 ^ (53 - j) → (2 ^ j | s)) ∧
    int_truediv a b = Ok (rne_div (a * s) b / s).
Proof using Ha Hb Hq.
  intros Ha'. unfold int_truediv, int_truediv_pos, truediv_man.
  rewrite !Z.abs_eq by lia.
  rewrite (proj2 (Z.eqb_neq b 0)), (proj2 (Z.eqb_neq a 0)) by lia.
  pose proof (flog2_div_lt a b 53 Ha' Hb ltac:(lia) Hq) as He.
  set (e := truediv_exp a b).
  assert (e ≤ 0) as He0 by (unfold e, truediv_exp; lia).
  rewrite (proj2 (Z.ltb_ge 971 e)), (proj2 (Z.eqb_neq e 971)) by lia.
  rewrite (Z.sgn_pos a), (Z.sgn_pos b) by lia. cbn [orb andb mbind result_bind].
  exists (2 ^ (- e)). split; [apply Z.pow_pos_nonneg; lia|]. split.
  - intros j Hj Hlt. pose proof (flog2_div_lt a b (53 - j) Ha' Hb ltac:(lia) Hlt).
    assert (j ≤ - e) by (unfold e, truediv_exp; lia).
    replace (- e) with (j + (- e - j)) by lia. rewrite Z.pow_add_r by lia.
    apply Z.divide_factor_l.
  - destruct (0 <=? e) eqn:E; prop_bool.
    + assert (e = 0) as -> by lia. simpl. rewrite !Z.mul_1_r, Z.div_1_r. f_equal.
      destruct (rne_div a b); lia.
    + f_equal. destruct (rne_div (a * 2 ^ (- e)) b `div` 2 ^ (- e)); lia.
Qed.

(** The truncated double is the integer quotient or one more. *)
Lemma int_truediv_bounds :
  ∃ q, int_truediv a b = Ok q ∧ a / b ≤ q ≤ a / b + 1.
Proof using Ha Hb Hq.
  destruct (Z.eq_dec a 0) as [->|Hne].
  { exists 0. unfold int_truediv. rewrite (proj2 (Z.eqb_neq b 0)) by lia.
    rewrite Z.div_0_l by lia. split; [done | lia]. }
  destruct int_truediv_small as (s & Hs & _ & ->); [lia|]. eexists. split; [done|].
  pose proof (Z.div_mod a b ltac:(lia)). pose proof (Z.mod_pos_bound a b Hb). split.
  - apply Z.div_le_lower_bound; [done|]. apply rne_div_lower; [done|]. nia.
  - enough (rne_div (a * s) b / s < a / b + 2) by lia.
    apply Z.div_lt_upper_bound; [done|].
    enough (rne_div (a * s) b ≤ s * (a / b + 1)) by nia.
    apply rne_div_upper; [done|]. nia.
Qed.

(** An exact quotient below 2^53 is computed exactly. *)
Lemma int_truediv_exact q : a = q * b → int_truediv a b = Ok q.
Proof using Ha Hb Hq.
  intros Hdiv. destruct (Z.eq_dec a 0) as [E|Hne].
  { assert (q = 0) as -> by nia. rewrite E. unfold int_truediv.
    by rewrite (proj2 (Z.eqb_neq b 0)) by lia. }
  destruct int_truediv_small as (s & Hs & _ & ->); [lia|].
  replace (a * s) with (q * s * b) by lia.
  rewrite rne_div_exact, Z.div_mul by lia. done.
Qed.
End small_quotient.

(** Division by a power of two is exact on integers below 2^53, so that the
    truncated double is the integer quotient. *)
Lemma int_truediv_pow2 a k :
  0 ≤ k ≤ 53 → 0 ≤ a < 2 ^ 53 → int_truediv a (2 ^ k) = Ok (a / 2 ^ k).
Proof.
  intros Hk Ha. pose proof (Z.pow_pos_nonneg 2 k ltac:(lia) ltac:(lia)) as Hp.
  destruct (Z.eq_dec a 0) as [->|Hne].
  { unfold int_truediv. rewrite (proj2 (Z.eqb_neq (2 ^ k) 0)), Z.div_0_l by lia. done. }
  destruct (int_truediv_small a (2 ^ k)) as (s & Hs & H2 & ->); [lia | done | nia | lia |].
  destruct (H2 k) as [t ->]; [done | rewrite <- Z.pow_add_r by lia; replace (k + (53 - k)) with 53 by lia; lia |].
  f_equal. replace (a * (t * 2 ^ k)) with (a * t * 2 ^ k) by lia.
  rewrite rne_div_exact, (Z.mul_comm a t) by lia.
  by rewrite Z.div_mul_cancel_l by nia.
Qed.

Lemma int_truediv_2 a : 0 ≤ a < 2 ^ 53 → int_truediv a 2 = Ok (a / 2).
Proof. apply (int_truediv_pow2 a 1). lia. Qed.

(** Where doubles run out of precision: a quotient just below an integer can
    round up to it, and integers above 2^53 are not all represented. *)
Example int_truediv_rounds_up :
  int_truediv (32768 * 10 ^ 12 - 1) (10 ^ 12) = Ok 32768.
Proof. vm_compute. reflexivity. Qed.

Example int_truediv_loses_units :
  int_truediv ((2 ^ 53 + 1) * 10 ^ 12) (10 ^ 12) = Ok (2 ^ 53).
Proof. vm_compute. reflexivity. Qed.

Example int_truediv_negative : int_truediv (-7) 2 = Ok (-3).
Proof. vm_compute. reflexivity. Qed.

Arguments int_truediv : simpl never.
