(* ===== verification/PyIO.v ===== *)
(** * JSON values and the file system

    [json.dumps]/[json.loads] values and the file operations the client and the
    coordinator use ([exists], [open], [rename], [remove], [os.path.join]).  A
    file holds the JSON value that was dumped to it, raw bytes, or plain text;
    [json.load] of a file that does not hold JSON raises [JSONDecodeError], a
    [ValueError].  The textual form of JSON is not modelled: dumping a value and
    loading it again gives the value back. *)

From Stdlib Require Import ZArith Lia Ascii String Strings.Byte.
From stdpp Require Import base tactics list gmap strings countable.
From S2P Require Import Prelude PyStr PyBytes.

Local Open Scope Z_scope.

(** ** JSON *)

#[warnings="-register-all"]
Inductive json : Type :=
| JNull
| JBool (b : bool)
| JInt (z : Z)
| JStr (s : str)
| JList (l : list json)
| JDict (d : list (str * json)).

(** The value of the first entry with the key. *)
Fixpoint assoc {A} (k : str) (d : list (str * A)) : option A :=
  match d with
  | [] => None
  | (k', v) :: d' => if decide (k = k') then Some v else assoc k d'
  end.

(** [j[k]] *)
Definition jget (k : str) (j : json) : result json :=
  match j with
  | JDict d => of_option KeyError (assoc k d)
  | _ => Err TypeError
  end.

(** [j.get(k, None)] *)
Definition jget_opt (k : str) (j : json) : result (option json) :=
  match j with
  | JDict d => Ok (assoc k d)
  | _ => Err TypeError
  end.

(** Reading a value at the type the source expects.  The [cast] of the sources
    checks nothing at run time; a value of another JSON type fails here instead
    of at its first use. *)
Definition as_int (j : json) : result Z :=
  match j with JInt z => Ok z | _ => Err TypeError end.
Definition as_str (j : json) : result str :=
  match j with JStr s => Ok s | _ => Err TypeError end.
Definition as_list (j : json) : result (list json) :=
  match j with JList l => Ok l | _ => Err TypeError end.
(** A missing key and [null] are both [None]. *)
Definition as_opt {A} (f : json → result A) (j : option json) : result (option A) :=
  match j with
  | None | Some JNull => Ok None
  | Some j => Some <$> f j
  end.

Definition jopt {A} (f : A → json) (o : option A) : json :=
  match o with Some a => f a | None => JNull end.

(** A string that holds JSON text, by the value it denotes; [None] for a string
    that is not JSON, the empty string of an unset message field included. *)
Abbreviation jtext := (option json).
Definition dumps (j : json) : jtext := Some j.
Definition loads (t : jtext) : result json := of_option ValueError t.

(** ** Files *)

Inductive content : Type :=
| CJson (j : json)
| CBytes (b : bytes)
| CText (s : str).

Abbreviation fs := (gmap str content).

Definition exists_file (p : str) (m : fs) : bool := bool_decide (is_Some (m !! p)).

Definition read_file (p : str) (m : fs) : result content :=
  of_option FileNotFoundError (m !! p).

Definition read_json (p : str) (m : fs) : result json :=
  c ← read_file p m;
  match c with CJson j => Ok j | _ => Err ValueError end.

Definition write_file (p : str) (c : content) (m : fs) : fs := <[p := c]> m.

(** [os.rename] and [shutil.move] onto a file: the target is replaced. *)
Definition rename (src dst : str) (m : fs) : result fs :=
  match m !! src with
  | None => Err FileNotFoundError
  | Some c => Ok (<[dst := c]> (delete src m))
  end.

Definition remove_file (p : str) (m : fs) : result fs :=
  match m !! p with
  | None => Err FileNotFoundError
  | Some _ => Ok (delete p m)
  end.

(** [os.path.join(dir, name)] *)
Definition path_join (dir name : str) : str :=
  if startswith (lit "/") name then name
  else match head (reverse dir) with
       | None => name
       | Some c => if decide (c = "/"%char) then dir ++ name else dir ++ lit "/" ++ name
       end.

(** ** Lemmas *)

Lemma exists_file_true (p : str) (m : fs) : exists_file p m = true ↔ is_Some (m !! p).
Proof. apply bool_decide_eq_true. Qed.

Lemma exists_file_false (p : str) (m : fs) : exists_file p m = false ↔ m !! p = None.
Proof. unfold exists_file. rewrite bool_decide_eq_false, eq_None_not_Some. done. Qed.

Lemma rename_Ok (src dst : str) (m : fs) c :
  m !! src = Some c → rename src dst m = Ok (<[dst := c]> (delete src m)).
Proof. intros H. unfold rename. by rewrite H. Qed.

Lemma read_write_json (p : str) (j : json) (m : fs) : read_json p (write_file p (CJson j) m) = Ok j.
Proof. unfold read_json, read_file, write_file. by rewrite lookup_insert_eq. Qed.

Lemma jget_eq (k : str) v d : jget k (JDict ((k, v) :: d)) = Ok v.
Proof. simpl. by rewrite decide_True by done. Qed.

Lemma jget_ne (k k' : str) v d :
  bool_decide (k = k') = false → jget k (JDict ((k', v) :: d)) = jget k (JDict d).
Proof. intros H%bool_decide_eq_false. simpl. by rewrite decide_False by done. Qed.

(** Look up the keys of dictionary displays. *)
Ltac jsimp :=
  repeat first
    [ rewrite jget_eq; cbn [mbind result_bind]
    | rewrite jget_ne by (vm_compute; reflexivity) ].
