(* ===== verification/Hashes.v ===== *)
(** * The digests of [hashlib]: SHA-256 and BLAKE2s

    [zeth.core.mixer_client], [signing] and [ownership] hash with the standard
    library's [hashlib.sha256] and [hashlib.blake2s] (32-byte digest, no key).
    Both are written out as executable functions on bytes, after FIPS 180-4 and
    RFC 7693, and checked on their published test vectors.  Feeding a message in
    several [update] calls hashes the concatenation, so an incremental digest is
    the function applied to the concatenated pieces. *)

From Stdlib Require Import ZArith Lia Ascii String Strings.Byte.
From stdpp Require Import base tactics list strings.
From S2P Require Import Prelude PyStr PyBytes.

Local Open Scope Z_scope.

(** ** 32-bit words *)

Definition w32 (x : Z) : Z := x mod 4294967296.
Definition add32 (x y : Z) : Z := w32 (x + y).
Definition rotr32 (n x : Z) : Z := Z.lor (Z.shiftr x n) (w32 (Z.shiftl x (32 - n))).

(** Consecutive pieces of [n] elements; the last one may be shorter. *)
Fixpoint chunks_fuel {A} (fuel n : nat) (l : list A) : list (list A) :=
  match fuel with
  | O => []
  | S f => match l with
           | [] => []
           | _ => take n l :: chunks_fuel f n (drop n l)
           end
  end.
Definition chunks {A} (n : nat) (l : list A) : list (list A) := chunks_fuel (length l) n l.

Definition from_le (b : bytes) : Z := int_from_bytes (reverse b).
Definition to_le (n : nat) (z : Z) : bytes := reverse (to_be n z).

(** The first 32 bits of the fractional parts of the square roots of the first
    eight primes: the initial value of both functions. *)
Definition iv256 : list Z :=
  [1779033703; 3144134277; 1013904242; 2773480762;
   1359893119; 2600822924; 528734635; 1541459225].

(** ** SHA-256 *)

Module SHA256.
(** The first 32 bits of the fractional parts of the cube roots of the first
    sixty-four primes. *)
Definition round_keys : list Z :=
  [1116352408; 1899447441; 3049323471; 3921009573; 961987163; 1508970993;
   2453635748; 2870763221; 3624381080; 310598401; 607225278; 1426881987;
   1925078388; 2162078206; 2614888103; 3248222580; 3835390401; 4022224774;
   264347078; 604807628; 770255983; 1249150122; 1555081692; 1996064986;
   2554220882; 2821834349; 2952996808; 3210313671; 3336571891; 3584528711;
   113926993; 338241895; 666307205; 773529912; 1294757372; 1396182291;
   1695183700; 1986661051; 2177026350; 2456956037; 2730485921; 2820302411;
   3259730800; 3345764771; 3516065817; 3600352804; 4094571909; 275423344;
   430227734; 506948616; 659060556; 883997877; 958139571; 1322822218;
   1537002063; 1747873779; 1955562222; 2024104815; 2227730452; 2361852424;
   2428436474; 2756734187; 3204031479; 3329325298].

Definition ch (x y z : Z) : Z := Z.lxor (Z.land x y) (Z.land (4294967295 - x) z).
Definition maj (x y z : Z) : Z := Z.lxor (Z.land x y) (Z.lxor (Z.land x z) (Z.land y z)).
Definition bsig (p q r x : Z) : Z := Z.lxor (rotr32 p x) (Z.lxor (rotr32 q x) (rotr32 r x)).
Definition ssig (p q r x : Z) : Z := Z.lxor (rotr32 p x) (Z.lxor (rotr32 q x) (Z.shiftr x r)).

Definition round (st : list Z) (k w : Z) : list Z :=
  match st with
  | [a; b; c; d; e; f; g; h] =>
      let t1 := w32 (h + bsig 6 11 25 e + ch e f g + k + w) in
      let t2 := w32 (bsig 2 13 22 a + maj a b c) in
      [add32 t1 t2; a; b; c; add32 d t1; e; f; g]
  | _ => st
  end.

(** The rounds, with the last sixteen words of the message schedule. *)
Fixpoint rounds (ks win st : list Z) : list Z :=
  match ks with
  | [] => st
  | k :: ks' =>
      let w := nth 0 win 0 in
      let next := w32 (ssig 17 19 10 (nth 14 win 0) + nth 9 win 0
                       + ssig 7 18 3 (nth 1 win 0) + w) in
      rounds ks' (tail win ++ [next]) (round st k w)
  end.

Definition compress (st : list Z) (block : bytes) : list Z :=
  zip_with add32 st (rounds round_keys (int_from_bytes <$> chunks 4 block) st).

(** A one bit, zeros up to 56 modulo 64, and the length in bits. *)
Definition pad (m : bytes) : bytes :=
  m ++ [Byte.x80] ++ zero_bytes (Z.to_nat ((55 - zlen m) mod 64)) ++ to_be 8 (8 * zlen m).
End SHA256.

(** [hashlib.sha256(m).digest()] *)
Definition sha256 (m : bytes) : bytes :=
  foldl SHA256.compress iv256 (chunks 64 (SHA256.pad m)) ≫= to_be 4.

(** ** BLAKE2s *)

Module BLAKE2s.
Definition sigma : list (list nat) :=
  [[0; 1; 2; 3; 4; 5; 6; 7; 8; 9; 10; 11; 12; 13; 14; 15];
   [14; 10; 4; 8; 9; 15; 13; 6; 1; 12; 0; 2; 11; 7; 5; 3];
   [11; 8; 12; 0; 5; 2; 15; 13; 10; 14; 3; 6; 7; 1; 9; 4];
   [7; 9; 3; 1; 13; 12; 11; 14; 2; 6; 5; 10; 4; 0; 15; 8];
   [9; 0; 5; 7; 2; 4; 10; 15; 14; 1; 11; 12; 6; 8; 3; 13];
   [2; 12; 6; 10; 0; 11; 8; 3; 4; 13; 7; 5; 15; 14; 1; 9];
   [12; 5; 1; 15; 14; 13; 4; 10; 0; 7; 6; 3; 9; 2; 8; 11];
   [13; 11; 7; 14; 12; 1; 3; 9; 5; 0; 15; 4; 8; 6; 2; 10];
   [6; 15; 14; 9; 11; 3; 0; 8; 12; 2; 13; 7; 1; 4; 10; 5];
   [10; 2; 8; 4; 7; 6; 1; 5; 15; 11; 9; 14; 3; 12; 13; 0]]%nat.

(** The mixing function on the words [a], [b], [c], [d] of the local vector. *)
Definition mix (x y : Z) (a b c d : nat) (v : list Z) : list Z :=
  let va := w32 (nth a v 0 + nth b v 0 + x) in
  let vd := rotr32 16 (Z.lxor (nth d v 0) va) in
  let vc := add32 (nth c v 0) vd in
  let vb := rotr32 12 (Z.lxor (nth b v 0) vc) in
  let va := w32 (va + vb + y) in
  let vd := rotr32 8 (Z.lxor vd va) in
  let vc := add32 vc vd in
  let vb := rotr32 7 (Z.lxor vb vc) in
  <[a := va]> (<[b := vb]> (<[c := vc]> (<[d := vd]> v))).

Definition round (m : list Z) (v : list Z) (s : list nat) : list Z :=
  let w i := nth (nth i s 0%nat) m 0 in
  let v := mix (w 0%nat) (w 1%nat) 0 4 8 12 v in
  let v := mix (w 2%nat) (w 3%nat) 1 5 9 13 v in
  let v := mix (w 4%nat) (w 5%nat) 2 6 10 14 v in
  let v := mix (w 6%nat) (w 7%nat) 3 7 11 15 v in
  let v := mix (w 8%nat) (w 9%nat) 0 5 10 15 v in
  let v := mix (w 10%nat) (w 11%nat) 1 6 11 12 v in
  let v := mix (w 12%nat) (w 13%nat) 2 7 8 13 v in
  mix (w 14%nat) (w 15%nat) 3 4 9 14 v.

(** [t] is the number of message bytes so far, [last] marks the last block. *)
Definition compress (h : list Z) (block : bytes) (t : Z) (last : bool) : list Z :=
  let m := from_le <$> chunks 4 block in
  let v := h ++ iv256 in
  let v := <[12%nat := Z.lxor (nth 12 v 0) (w32 t)]> v in
  let v := <[13%nat := Z.lxor (nth 13 v 0) (t / 4294967296)]> v in
  let v := if last then <[14%nat := 4294967295 - nth 14 v 0]> v else v in
  let v := foldl (round m) v sigma in
  zip_with Z.lxor h (zip_with Z.lxor (take 8 v) (drop 8 v)).

(** All blocks; the last one is zero-padded, and the counter stops at [len]. *)
Fixpoint blocks (h : list Z) (t len : Z) (bs : list bytes) : list Z :=
  match bs with
  | [] => h
  | [b] => compress h (b ++ zero_bytes (64 - length b)) len true
  | b :: bs' => blocks (compress h b (t + 64) false) (t + 64) len bs'
  end.

(** The initial state: digest length 32, no key, fanout and depth 1. *)
Definition init : list Z := <[0%nat := Z.lxor (nth 0 iv256 0) 16842784]> iv256.
End BLAKE2s.

(** [hashlib.blake2s(m).digest()] *)
Definition blake2s (m : bytes) : bytes :=
  BLAKE2s.blocks BLAKE2s.init 0 (zlen m)
    (match m with [] => [[]] | _ => chunks 64 m end) ≫= to_le 4.

Arguments sha256 : simpl never.
Arguments blake2s : simpl never.

(** The test vectors of FIPS 180-4 and RFC 7693 for the message ["abc"]. *)
Definition abc : bytes := [Byte.x61; Byte.x62; Byte.x63].

Example sha256_abc :
  hex (sha256 abc)
  = lit "ba7816bf8f01cfea414140de5dae2223b00361a396177a9cb410ff61f20015ad".
Proof. vm_compute. reflexivity. Qed.

Example sha256_two_blocks :
  hex (sha256 (replicate 100 Byte.x61))
  = lit "2816597888e4a0d3a36b82b83316ab32680eb8f00f8cd3b904d681246d285a0e".
Proof. vm_compute. reflexivity. Qed.

Example blake2s_abc :
  hex (blake2s abc)
  = lit "508c5e8c327c14e2e1a72ba34eeb452f37458b209ed63a294d999b4c86675982".
Proof. vm_compute. reflexivity. Qed.

Example blake2s_two_blocks :
  hex (blake2s (replicate 100 Byte.x61))
  = lit "214f24fe1118eb854450238e11bebe22d2e3937ed85c7c96c6c010106b752ad3".
Proof. vm_compute. reflexivity. Qed.

(** ** Digest lengths *)

Lemma length_bind_const {A B} (f : A → list B) (n : nat) (l : list A) :
  (∀ x, length (f x) = n) → length (l ≫= f) = (length l * n)%nat.
Proof.
  intros Hf. induction l as [|x l IH]; [done|].
  rewrite bind_cons, length_app, Hf, IH. simpl. lia.
Qed.

Lemma sha256_round_length st k w : length (SHA256.round st k w) = length st.
Proof. by do 9 (destruct st as [|? st]; [done|]). Qed.

Lemma sha256_rounds_length ks win st : length (SHA256.rounds ks win st) = length st.
Proof.
  revert win st. induction ks as [|k ks IH]; intros win st; [done|].
  simpl. by rewrite IH, sha256_round_length.
Qed.

Lemma sha256_compress_length st b : length (SHA256.compress st b) = length st.
Proof.
  unfold SHA256.compress. rewrite length_zip_with, sha256_rounds_length. lia.
Qed.

Lemma sha256_state_length st bs : length (foldl SHA256.compress st bs) = length st.
Proof.
  revert st. induction bs as [|b bs IH]; intros st; [done|].
  simpl. by rewrite IH, sha256_compress_length.
Qed.

Lemma sha256_length m : length (sha256 m) = 32%nat.
Proof.
  unfold sha256. rewrite (length_bind_const _ 4); [|intros; apply length_to_be].
  by rewrite sha256_state_length.
Qed.

Lemma blake2s_mix_length x y a b c d v : length (BLAKE2s.mix x y a b c d v) = length v.
Proof. unfold BLAKE2s.mix. by rewrite !length_insert. Qed.

Lemma blake2s_rounds_length m v ss : length (foldl (BLAKE2s.round m) v ss) = length v.
Proof.
  revert v. induction ss as [|s ss IH]; intros v; [done|].
  cbn [foldl]. rewrite IH. unfold BLAKE2s.round. by rewrite !blake2s_mix_length.
Qed.

Lemma blake2s_compress_length h b t last :
  length h = 8%nat → length (BLAKE2s.compress h b t last) = 8%nat.
Proof.
  intros Hh. unfold BLAKE2s.compress.
  rewrite !length_zip_with, length_take, length_drop, !blake2s_rounds_length.
  destruct last; rewrite !length_insert, length_app, Hh; done.
Qed.

Lemma blake2s_blocks_length h t len bs :
  length h = 8%nat → length (BLAKE2s.blocks h t len bs) = 8%nat.
Proof.
  revert h t. induction bs as [|b [|b' bs] IH]; intros h t Hh; [done| |].
  - by apply blake2s_compress_length.
  - cbn [BLAKE2s.blocks]. by apply IH, blake2s_compress_length.
Qed.

Lemma blake2s_length m : length (blake2s m) = 32%nat.
Proof.
  unfold blake2s. rewrite (length_bind_const _ 4).
  - by rewrite blake2s_blocks_length.
  - intros x. unfold to_le. by rewrite length_reverse, length_to_be.
Qed.

(** The digest interface the clients rely on: 32 bytes for every message. *)
Class Digest256 (h : bytes → bytes) : Prop := {
  digest256_length : ∀ m, length (h m) = 32%nat
}.
#[export] Instance sha256_digest : Digest256 sha256 := {| digest256_length := sha256_length |}.
#[export] Instance blake2s_digest : Digest256 blake2s := {| digest256_length := blake2s_length |}.

Lemma digest256_range h `{!Digest256 h} m : 0 ≤ int_from_bytes (h m) < 2 ^ 256.
Proof.
  pose proof (int_from_bytes_bound (h m)) as Hb. unfold zlen in Hb.
  by rewrite digest256_length in Hb.
Qed.
