(* ===== verification/Constants.v ===== *)
(** * Constants of the client ([client/zeth/core/constants.py])

    The lengths in bits and bytes, the joinsplit arity and the public unit, with
    the conversion [bit_length_to_byte_length] that computes the byte lengths. *)

From Stdlib Require Import ZArith Lia Ascii String.
From stdpp Require Import base tactics list strings.
From S2P Require Import Prelude PyStr PyFloat.

Local Open Scope Z_scope.

Definition bit_length_to_byte_length (bit_length : Z) : result Z :=
  _ ← py_assert ((0 <=? bit_length) && (bit_length mod 8 =? 0));
  int_truediv bit_length 8.

(** A module-level constant computed by [bit_length_to_byte_length]: an
    assertion failure would abort the import, here it would give [-1]. *)
Definition byte_length (bit_length : Z) : Z :=
  match bit_length_to_byte_length bit_length with Ok n => n | Err _ => -1 end.

Definition GROTH16_ZKSNARK : str := lit "GROTH16".
Definition PGHR13_ZKSNARK : str := lit "PGHR13".
Definition VALID_ZKSNARKS : list str := [GROTH16_ZKSNARK; PGHR13_ZKSNARK].

Definition ZETH_MERKLE_TREE_DEPTH : Z := 32.
Definition JS_INPUTS : Z := 2.
Definition JS_OUTPUTS : Z := 2.

Definition DIGEST_LENGTH : Z := 256.

Definition PUBLIC_VALUE_LENGTH : Z := 64.
Definition PUBLIC_VALUE_LENGTH_BYTES : Z := byte_length PUBLIC_VALUE_LENGTH.

Definition PHI_LENGTH : Z := 256.
Definition PHI_LENGTH_BYTES : Z := byte_length PHI_LENGTH.

Definition APK_LENGTH : Z := 256.
Definition APK_LENGTH_BYTES : Z := byte_length APK_LENGTH.

Definition RHO_LENGTH : Z := 256.
Definition RHO_LENGTH_BYTES : Z := byte_length RHO_LENGTH.

Definition TRAPR_LENGTH : Z := 256.
Definition TRAPR_LENGTH_BYTES : Z := byte_length TRAPR_LENGTH.

Definition NOTE_LENGTH : Z := APK_LENGTH + PUBLIC_VALUE_LENGTH + RHO_LENGTH + TRAPR_LENGTH.
Definition NOTE_LENGTH_BYTES : Z := byte_length NOTE_LENGTH.

Definition RESIDUAL_BITS_INDEX : Z := 2 * JS_INPUTS + JS_OUTPUTS + 2.
Definition NUM_INPUT_DIGESTS : Z := 2 * JS_INPUTS + 1.

Definition MIMC_MT_SEED : str := lit "clearmatics_mt_seed".

(** 1 Szabo: 10^12 Wei. *)
Definition ZETH_PUBLIC_UNIT_VALUE : Z := 1000000000000.

(** The byte length is the exact eighth of every valid bit length. *)
Lemma bit_length_to_byte_length_spec n :
  0 ≤ n < 2 ^ 53 → bit_length_to_byte_length (8 * n) = Ok n.
Proof.
  intros Hn. unfold bit_length_to_byte_length.
  rewrite (proj2 (Z.leb_le 0 (8 * n))) by lia.
  rewrite (Z.mul_comm 8 n), Z_mod_mult. simpl.
  apply int_truediv_exact; lia.
Qed.

Lemma bit_length_to_byte_length_error n :
  n < 0 ∨ n mod 8 ≠ 0 → bit_length_to_byte_length n = Err AssertionError.
Proof.
  intros H. unfold bit_length_to_byte_length.
  destruct (0 <=? n) eqn:E1, (n mod 8 =? 0) eqn:E2; try done; prop_bool; lia.
Qed.

Example NOTE_LENGTH_BYTES_value : NOTE_LENGTH_BYTES = 104.
Proof. reflexivity. Qed.
