(* ===== verification/Utils.v ===== *)
(** * Conversions of the client ([client/zeth/core/utils.py])

    Ether values, hex and binary texts, EVM words and the byte encoding of
    messages for hashing.  [web3] and [eth_abi] are third-party packages: the
    functions the sources call are the operations of the classes [Web3Units] and
    [EthAbi], and what the sources rely on are the laws of [Web3UnitsLaws] and
    [EthAbiLaws]. *)

From Stdlib Require Import ZArith Lia Ascii String Strings.Byte.
From stdpp Require Import base tactics list sets strings.
From S2P Require Import Prelude PyStr PyBytes PyFloat Constants.

Local Open Scope Z_scope.

(** ** Third-party packages *)

(** [Web3.toWei] on integers and on texts, [Web3.fromWei(_, 'ether')] as text. *)
Class Web3Units := {
  toWei : Z → str → result Z;
  toWei_str : str → str → result Z;
  fromWei_ether : Z → str
}.

Class Web3UnitsLaws `{Web3Units} : Prop := {
  toWei_wei : ∀ w, 0 ≤ w < 2 ^ 256 → toWei w (lit "wei") = Ok w;
  toWei_zero : toWei 0 (lit "ether") = Ok 0;
  toWei_fromWei : ∀ w, 0 ≤ w < 2 ^ 256 → toWei_str (fromWei_ether w) (lit "ether") = Ok w;
  fromWei_plain : ∀ w, 0 ≤ w < 2 ^ 256 → "_"%char ∉ fromWei_ether w
}.

(** [eth_abi.encode_single("bytes32", b)] and
    [eth_abi.encode_abi(["bytes32", "bytes32"], [a, b])]. *)
Class EthAbi := {
  encode_single_bytes32 : bytes → result bytes;
  encode_abi_bytes32_2 : bytes → bytes → result bytes
}.

Class EthAbiLaws `{EthAbi} : Prop := {
  encode_single_full : ∀ b, length b = 32%nat → encode_single_bytes32 b = Ok b;
  encode_abi_full : ∀ a b, length a = 32%nat → length b = 32%nat →
    encode_abi_bytes32_2 a b = Ok (a ++ b)
}.

(** ** Ether values *)

Module EtherValue.
Record t : Type := mk { wei : Z }.

#[export] Instance eq_dec : EqDecision t.
Proof. solve_decision. Defined.

Section ops.
Context `{Web3Units}.

(** [EtherValue(val, units)] for an integer and for a text. *)
Definition of_int (val : Z) (units : str) : result t := mk <$> toWei val units.
Definition of_str (val : str) : result t := mk <$> toWei_str val (lit "ether").

Definition add (a b : t) : result t := of_int (wei a + wei b) (lit "wei").
Definition sub (a b : t) : result t := of_int (wei a - wei b) (lit "wei").
Definition eqb (a b : t) : bool := wei a =? wei b.
Definition neb (a b : t) : bool := negb (eqb a b).
Definition ltb (a b : t) : bool := wei a <? wei b.
Definition leb (a b : t) : bool := wei a <=? wei b.
Definition gtb (a b : t) : bool := wei b <? wei a.
Definition geb (a b : t) : bool := wei b <=? wei a.
Definition truth (a : t) : bool := negb (wei a =? 0).
Definition ether (a : t) : str := fromWei_ether (wei a).
End ops.
End EtherValue.

Definition to_zeth_units (value : EtherValue.t) : result Z :=
  int_truediv (EtherValue.wei value) ZETH_PUBLIC_UNIT_VALUE.

Definition from_zeth_units `{Web3Units} (zeth_units : Z) : result EtherValue.t :=
  EtherValue.of_int (zeth_units * ZETH_PUBLIC_UNIT_VALUE) (lit "wei").

(** ** Byte and hex texts *)

Definition extend_32bytes (value : bytes) : result bytes :=
  _ ← py_assert (zlen value <=? 32);
  Ok (zero_bytes (32 - length value) ++ value).

Definition hex_extend_32bytes (element : str) : result str :=
  let res := if zlen element mod 2 =? 0 then element else lit "0" ++ element in
  b ← fromhex res;
  hex <$> extend_32bytes b.

Definition eth_address_to_bytes (eth_addr : str) : result bytes :=
  _ ← py_assert (zlen eth_addr =? 42);
  _ ← py_assert (startswith (lit "0x") eth_addr);
  fromhex (drop 2 eth_addr).

Definition eth_address_to_bytes32 (eth_addr : str) : result bytes :=
  b ← eth_address_to_bytes eth_addr;
  extend_32bytes b.

Definition eth_uint256_to_int (eth_uint256 : str) : result Z :=
  _ ← py_assert (startswith (lit "0x") eth_uint256);
  h ← hex_extend_32bytes (drop 2 eth_uint256);
  b ← fromhex h;
  Ok (int_from_bytes b).

Definition int_and_bytelen_from_hex (value_hex : str) : result (Z * Z) :=
  _ ← py_assert (zlen value_hex mod 2 =? 0);
  num_bytes ← (if startswith (lit "0x") value_hex
               then int_truediv (zlen value_hex - 2) 2
               else int_truediv (zlen value_hex) 2);
  v ← int_of_str 16 value_hex;
  Ok (v, num_bytes).

Definition int_to_hex (value : Z) (num_bytes : nat) : result str :=
  b ← int_to_bytes value num_bytes;
  Ok (lit "0x" ++ hex b).

Definition int64_to_bytes (number : Z) : result bytes := int_to_bytes number 8.
Definition int64_to_hex (number : Z) : result str := hex <$> int64_to_bytes number.

Definition digest_to_binary_string (digest : bytes) : str :=
  digest ≫= λ b, fmt_0wb 8 (byte_val b).

Definition hex_digest_to_binary_string (digest : str) : result str :=
  let digest := if zlen digest mod 2 =? 1 then lit "0" ++ digest else digest in
  parts ← mapM (λ c, v ← int_of_str 16 [c]; Ok (fmt_0wb 4 v)) digest;
  Ok (mjoin parts).

Definition short_commitment (cm : bytes) : str := hex (py_slice cm 0 4).

(** ** EVM words *)

(** The loop of [hex_to_uint256_list], one word per iteration. *)
Fixpoint uint256_words (fuel : nat) (hex_str : str) (start_idx next_idx : Z) : result (list Z) :=
  match fuel with
  | O => Err OutOfFuel
  | S f =>
      if next_idx <=? zlen hex_str then
        w ← int_of_str 16 (py_slice hex_str start_idx next_idx);
        ws ← uint256_words f hex_str next_idx (next_idx + 64);
        Ok (w :: ws)
      else Ok []
  end.

(** [list(hex_to_uint256_list(hex_str))]; each iteration advances by 64, so
    [len + 2] iterations are enough. *)
Definition hex_to_uint256_list (hex_str : str) : result (list Z) :=
  let hex_str := if startswith (lit "0x") hex_str then drop 2 hex_str else hex_str in
  _ ← py_assert (zlen hex_str mod 2 =? 0);
  k ← int_truediv (zlen hex_str - 1) 64;
  uint256_words (length hex_str + 2) hex_str 0 (zlen hex_str - k * 64).

(** A list element is a value or a list of values. *)
Inductive nested (A : Type) : Type :=
| One (a : A)
| Many (l : list A).
Arguments One {A} a.
Arguments Many {A} l.

(** The two branches of [string_list_flatten] agree: without a nested list it
    returns the elements as they are. *)
Definition string_list_flatten {A} (l : list (nested A)) : list A :=
  l ≫= λ e, match e with One a => [a] | Many k => k end.

Definition hex_list_to_uint256_list (elements : list (nested str)) : result (list Z) :=
  ws ← mapM hex_to_uint256_list (string_list_flatten elements);
  Ok (mjoin ws).

(** ** Encoding messages for hashing *)

Inductive message : Type :=
| MInt (m : Z)
| MStr (m : str).

(** The hex text of one element; [m[1]] raises on a text of one character. *)
Definition message_hex (m : message) : result str :=
  match m with
  | MInt z => Ok (fmt_0gtwX 4 z)
  | MStr s => c ← py_get s 1; Ok (if decide (c = "x"%char) then drop 2 s else s)
  end.

Definition message_to_bytes `{EthAbi} (message_list : list (nested message)) : result bytes :=
  foldM (λ data_bytes m,
    m_hex ← message_hex m;
    m_hex ← hex_extend_32bytes m_hex;
    b ← fromhex m_hex;
    e ← encode_single_bytes32 b;
    Ok (data_bytes ++ e)) [] (string_list_flatten message_list).

(** ** Ether values: lemmas *)

Section ether_lemmas.
Context `{Web3UnitsLaws}.

Lemma ether_add_wei a b :
  0 ≤ EtherValue.wei a → 0 ≤ EtherValue.wei b →
  EtherValue.wei a + EtherValue.wei b < 2 ^ 256 →
  EtherValue.add a b = Ok (EtherValue.mk (EtherValue.wei a + EtherValue.wei b)).
Proof. intros. unfold EtherValue.add, EtherValue.of_int. by rewrite toWei_wei by lia. Qed.

Lemma ether_sub_wei a b :
  EtherValue.wei b ≤ EtherValue.wei a < 2 ^ 256 → 0 ≤ EtherValue.wei b →
  EtherValue.sub a b = Ok (EtherValue.mk (EtherValue.wei a - EtherValue.wei b)).
Proof. intros. unfold EtherValue.sub, EtherValue.of_int. by rewrite toWei_wei by lia. Qed.

Lemma from_zeth_units_wei u :
  0 ≤ u < 2 ^ 64 →
  from_zeth_units u = Ok (EtherValue.mk (u * ZETH_PUBLIC_UNIT_VALUE)).
Proof.
  intros Hu. unfold from_zeth_units, EtherValue.of_int.
  rewrite toWei_wei; [done|]. unfold ZETH_PUBLIC_UNIT_VALUE. lia.
Qed.
End ether_lemmas.

Lemma to_zeth_units_exact u :
  0 ≤ u < 2 ^ 53 → to_zeth_units (EtherValue.mk (u * ZETH_PUBLIC_UNIT_VALUE)) = Ok u.
Proof.
  intros Hu. unfold to_zeth_units, ZETH_PUBLIC_UNIT_VALUE. simpl.
  apply int_truediv_exact; lia.
Qed.

(** ** Hex texts: lemmas *)

Lemma length_zero_bytes n : length (zero_bytes n) = n.
Proof. apply length_replicate. Qed.

Lemma extend_32bytes_spec b :
  (length b ≤ 32)%nat → extend_32bytes b = Ok (to_be 32 (int_from_bytes b)).
Proof.
  intros Hl. unfold extend_32bytes.
  rewrite py_assert_true by (unfold zlen; apply Z.leb_le; lia). simpl. f_equal.
  assert (length (zero_bytes (32 - length b) ++ b) = 32%nat) as Hlen
    by (rewrite length_app, length_zero_bytes; lia).
  apply int_from_bytes_inj; [by rewrite Hlen, length_to_be|].
  rewrite int_from_bytes_zeros, int_from_to_be, Z.mod_small; [done|].
  pose proof (int_from_bytes_bound b) as [? Hb]. split; [done|].
  eapply Z.lt_le_trans; [exact Hb|]. apply Z.pow_le_mono_r; unfold zlen; lia.
Qed.

Lemma extend_32bytes_too_long b :
  (32 < length b)%nat → extend_32bytes b = Err AssertionError.
Proof.
  intros Hl. unfold extend_32bytes.
  replace (zlen b <=? 32) with false; [done|].
  symmetry. apply Z.leb_gt. unfold zlen. lia.
Qed.

(** A hex text of at most 64 digits becomes the 32-byte encoding of its value. *)
Lemma hex_extend_32bytes_spec s ds :
  hex_digits s = Some ds → (length s ≤ 64)%nat →
  hex_extend_32bytes s = Ok (hex (to_be 32 (num_of 16 ds))).
Proof.
  intros Hs Hl. unfold hex_extend_32bytes.
  set (res := if zlen s mod 2 =? 0 then s else lit "0" ++ s).
  assert (∃ n ds', hex_digits res = Some ds' ∧ length res = (2 * n)%nat ∧ (n ≤ 32)%nat
                   ∧ num_of 16 ds' = num_of 16 ds) as (n & ds' & Hr & Hlen & Hn & Hv).
  { unfold res, zlen. destruct (Nat.Even_or_Odd (length s)) as [[n Hn]|[n Hn]].
    - exists n, ds. rewrite Hn, Nat2Z.inj_mul, Z.mul_comm, Z_mod_mult. simpl.
      split_and!; auto; lia.
    - exists (n + 1)%nat, ([0] ++ ds). rewrite Hn.
      replace (Z.of_nat (2 * n + 1) mod 2) with 1
        by (apply (Z.mod_unique _ 2 (Z.of_nat n)); lia).
      split; [by apply (hex_digits_app (lit "0"))|]. simpl.
      split_and!; [lia | lia |]. apply (num_of_zeros 16 1 ds). }
  destruct (fromhex_digits n res ds' Hr Hlen) as (b & -> & Hlb & Hb).
  simpl. rewrite extend_32bytes_spec by lia. simpl. by rewrite Hb, Hv.
Qed.

Lemma fmt_0gtwX_spec z :
  0 ≤ z < 2 ^ 256 →
  ∃ ds, hex_digits (fmt_0gtwX 4 z) = Some ds ∧ num_of 16 ds = z
        ∧ (length (fmt_0gtwX 4 z) ≤ 64)%nat.
Proof.
  intros Hz. unfold fmt_0gtwX, sign_str, abs_digits.
  rewrite (proj2 (Z.ltb_ge _ _)), Z.abs_eq by lia. cbn [app].
  eexists. split.
  - apply hex_digits_zpad, hex_digits_map, digits_of_range; lia.
  - rewrite num_of_zeros, digits_of_num by lia. split; [done|].
    rewrite length_zpad, length_fmap.
    pose proof (digits_of_length 16 ltac:(lia) 64 z ltac:(lia) Hz). lia.
Qed.

Lemma int64_to_hex_spec n :
  0 ≤ n < 2 ^ 64 → int64_to_hex n = Ok (hex (to_be 8 n)).
Proof. intros Hn. unfold int64_to_hex, int64_to_bytes. by rewrite int_to_bytes_Ok. Qed.

Lemma int64_to_hex_overflow n :
  ¬ (0 ≤ n < 2 ^ 64) → int64_to_hex n = Err OverflowError.
Proof.
  intros Hn. unfold int64_to_hex, int64_to_bytes, int_to_bytes.
  destruct (n <? 0) eqn:E; [done|]. prop_bool.
  change (256 ^ Z.of_nat 8) with (2 ^ 64).
  by rewrite (proj2 (Z.leb_le _ _)) by lia.
Qed.

(** ** Binary texts: lemmas *)

Lemma fmt_0wb_byte b :
  ∃ ds, mapM digit_val (fmt_0wb 8 (byte_val b)) = Some ds
    ∧ Forall (λ d, 0 ≤ d < 2) ds ∧ length ds = 8%nat ∧ num_of 2 ds = byte_val b.
Proof.
  pose proof (byte_val_range b) as Hb. unfold fmt_0wb, sign_str, abs_digits, zpad.
  rewrite (proj2 (Z.ltb_ge _ _)), Z.abs_eq by lia. cbn [app length]. rewrite length_fmap.
  pose proof (digits_of_range 2 ltac:(lia) (byte_val b) ltac:(lia)) as Hr.
  pose proof (digits_of_length 2 ltac:(lia) 8 (byte_val b) ltac:(lia) ltac:(lia)) as Hl.
  set (k := (8 - 0 - length (digits_of 2 (byte_val b)))%nat).
  assert (replicate k "0"%char = digit_char false <$> replicate k 0) as ->
    by by rewrite fmap_replicate.
  rewrite <- fmap_app.
  exists (replicate k 0 ++ digits_of 2 (byte_val b)). split_and!.
  - apply (mapM_digit_val false 2); [lia|]. apply Forall_app. split; [|done].
    apply Forall_replicate. lia.
  - apply Forall_app. split; [|done]. apply Forall_replicate. lia.
  - rewrite length_app, length_replicate. unfold k. lia.
  - by rewrite num_of_zeros, digits_of_num by lia.
Qed.

Lemma mapM_digit_val_app s t ds es :
  mapM digit_val s = Some ds → mapM digit_val t = Some es →
  mapM digit_val (s ++ t) = Some (ds ++ es).
Proof.
  revert ds. induction s as [|c s IH]; intros ds Hs Ht.
  - by injection Hs as <-.
  - rewrite mapM_cons_opt in Hs.
    apply bind_Some in Hs as (d & Hd & (ds' & Hs & [= <-])%bind_Some).
    change ((c :: s) ++ t) with (c :: (s ++ t)).
    by rewrite mapM_cons_opt, Hd, (IH _ Hs Ht).
Qed.

(** The bits of a digest, most significant first. *)
Lemma digest_to_binary_string_digits b :
  ∃ ds, mapM digit_val (digest_to_binary_string b) = Some ds
    ∧ Forall (λ d, 0 ≤ d < 2) ds ∧ length ds = (8 * length b)%nat
    ∧ num_of 2 ds = int_from_bytes b.
Proof.
  induction b as [|x b (ds & Hm & Hr & Hl & Hv)]; [by exists []|].
  destruct (fmt_0wb_byte x) as (xs & Hxm & Hxr & Hxl & Hxv).
  exists (xs ++ ds). split_and!.
  - unfold digest_to_binary_string. rewrite bind_cons. by apply mapM_digit_val_app.
  - by apply Forall_app.
  - rewrite length_app, Hxl, Hl. simpl. lia.
  - change (x :: b) with ([x] ++ b). rewrite num_of_app, int_from_bytes_app, Hv, Hxv.
    unfold zlen. rewrite Hl. f_equal. f_equal.
    rewrite Nat2Z.inj_mul, Z.pow_mul_r by lia. done.
Qed.

Lemma digest_to_binary_string_length b :
  length (digest_to_binary_string b) = (8 * length b)%nat.
Proof.
  destruct (digest_to_binary_string_digits b) as (ds & Hm & _ & <- & _).
  by eapply length_mapM.
Qed.

(** ** EVM words: lemmas *)

Lemma hex_digits_take n s ds : hex_digits s = Some ds → hex_digits (take n s) = Some (take n ds).
Proof.
  unfold hex_digits. revert n ds. induction s as [|c s IH]; intros n ds Hs.
  - injection Hs as <-. by destruct n.
  - rewrite mapM_cons_opt in Hs.
    apply bind_Some in Hs as (d & Hd & (ds' & Hs & [= <-])%bind_Some).
    destruct n as [|n]; [done|]. simpl take. by rewrite mapM_cons_opt, Hd, (IH n _ Hs).
Qed.

Lemma hex_digits_drop n s ds : hex_digits s = Some ds → hex_digits (drop n s) = Some (drop n ds).
Proof.
  unfold hex_digits. revert n ds. induction s as [|c s IH]; intros n ds Hs.
  - injection Hs as <-. by destruct n.
  - pose proof Hs as Hs'. rewrite mapM_cons_opt in Hs.
    apply bind_Some in Hs as (d & Hd & (ds' & Hs & [= <-])%bind_Some).
    destruct n as [|n]; [done|]. simpl drop. by apply IH.
Qed.

Lemma Forall_take_drop {A} (P : A → Prop) n l : Forall P l → Forall P (take n l) ∧ Forall P (drop n l).
Proof. intros H. rewrite <- (take_drop n l) in H. by apply Forall_app in H. Qed.

(** The loop on a text whose remaining part is one piece of 1 to 64 digits and
    [k] pieces of 64. *)
Lemma uint256_words_spec (k fuel : nat) s ds start next :
  hex_digits s = Some ds → 0 ≤ start → start < next ≤ start + 64 →
  next + 64 * Z.of_nat k = zlen s → (k + 1 < fuel)%nat →
  ∃ ws, uint256_words fuel s start next = Ok ws ∧ length ws = (k + 1)%nat
    ∧ Forall (λ w, 0 ≤ w < 2 ^ 256) ws
    ∧ num_of (2 ^ 256) ws = num_of 16 (drop (Z.to_nat start) ds).
Proof.
  intros Hs. revert fuel start next. induction k as [|k IH]; intros fuel start next Hst Hn Hlen Hf.
  all: destruct fuel as [|fuel]; [lia|]; cbn [uint256_words].
  all: rewrite (proj2 (Z.leb_le next (zlen s))) by lia.
  all: unfold zlen in *.
  all: set (piece := take (Z.to_nat (next - start)) (drop (Z.to_nat start) ds)).
  all: assert (length piece = Z.to_nat (next - start)) as Hpl
    by (unfold piece; rewrite length_take, length_drop, (hex_digits_length _ _ Hs); lia).
  all: assert (hex_digits (py_slice s start next) = Some piece) as Hp
    by (by apply hex_digits_take, hex_digits_drop).
  all: assert (Forall (λ d, 0 ≤ d < 16) piece) as Hpr by (by eapply hex_digits_plain).
  all: assert (0 ≤ num_of 16 piece < 2 ^ 256) as Hpb by
    (pose proof (num_of_bound 16 piece ltac:(lia) Hpr) as [? Hlt]; split; [done|];
     eapply Z.lt_le_trans; [exact Hlt|]; change (2 ^ 256) with (16 ^ 64);
     apply Z.pow_le_mono_r; unfold zlen; lia).
  all: rewrite (int_of_hex_digits (py_slice s start next) piece)
    by (try done; intros E; rewrite E in Hp; injection Hp as Hp; rewrite <- Hp in Hpl; simpl in Hpl; lia).
  - destruct fuel as [|fuel]; [lia|]. cbn [uint256_words mbind result_bind].
    rewrite (proj2 (Z.leb_gt _ _)) by (unfold zlen; lia). eexists. split; [done|]. split; [done|].
    split; [by apply Forall_singleton|].
    rewrite num_of_cons. change (zlen (@nil Z)) with 0. rewrite Z.pow_0_r, Z.mul_1_r.
    change (num_of (2 ^ 256) []) with 0. rewrite Z.add_0_r. unfold piece. rewrite take_ge; [done|].
    rewrite length_drop, (hex_digits_length _ _ Hs). lia.
  - destruct (IH fuel next (next + 64)) as (ws & -> & Hwl & Hwr & Hwv); [lia..|].
    cbn [mbind result_bind]. eexists. split; [done|]. split; [simpl; lia|].
    split; [by constructor|].
    rewrite num_of_cons, Hwv.
    rewrite <- (take_drop (Z.to_nat (next - start)) (drop (Z.to_nat start) ds)).
    rewrite num_of_app, drop_drop. fold piece.
    replace (Z.to_nat start + Z.to_nat (next - start))%nat with (Z.to_nat next) by lia.
    f_equal. f_equal. change (2 ^ 256) with (16 ^ 64). rewrite <- Z.pow_mul_r by (unfold zlen; lia).
    f_equal. unfold zlen. rewrite Hwl, length_drop, (hex_digits_length _ _ Hs). lia.
Qed.

(** Splitting a non-empty even-length hex text into words keeps its value. *)
Lemma hex_to_uint256_list_plain s ds :
  hex_digits s = Some ds → s ≠ [] → zlen s mod 2 = 0 → zlen s < 2 ^ 53 →
  ∃ ws, hex_to_uint256_list s = Ok ws ∧ zlen ws = (zlen s + 63) / 64
    ∧ Forall (λ w, 0 ≤ w < 2 ^ 256) ws ∧ num_of (2 ^ 256) ws = num_of 16 ds.
Proof.
  intros Hs Hne Heven Hlt. unfold hex_to_uint256_list.
  assert (startswith (lit "0x") s = false) as ->.
  { unfold startswith. apply bool_decide_eq_false. intros E.
    apply (hex_digits_take 2) in Hs. change (length (lit "0x")) with 2%nat in E.
    rewrite E in Hs. vm_compute in Hs. done. }
  rewrite py_assert_true by (by apply Z.eqb_eq). cbn [mbind result_bind].
  assert (0 < zlen s) as Hpos by (destruct s; [done | unfold zlen; simpl; lia]).
  replace (int_truediv (zlen s - 1) 64) with (Ok ((zlen s - 1) / 64))
    by (symmetry; apply (int_truediv_pow2 _ 6); lia).
  cbn [mbind result_bind].
  set (k := (zlen s - 1) / 64).
  pose proof (Z.div_mod (zlen s - 1) 64 ltac:(lia)) as Hdm. fold k in Hdm.
  pose proof (Z.mod_pos_bound (zlen s - 1) 64 ltac:(lia)).
  assert (0 ≤ k) by (apply Z.div_pos; lia).
  destruct (uint256_words_spec (Z.to_nat k) (length s + 2) s ds 0 (zlen s - k * 64))
    as (ws & Hw & Hl & Hr & Hv); [done | lia | lia | lia | unfold zlen in *; lia |].
  exists ws. split_and!; [done | | done | done].
  unfold zlen at 1. rewrite Hl.
  rewrite <- (Z.div_unique (zlen s + 63) 64 (k + 1) ((zlen s - 1) mod 64)); lia.
Qed.

(** ** Messages: lemmas *)

Section message_lemmas.
Context `{EthAbiLaws}.

Lemma message_to_bytes_ints_acc zs acc :
  Forall (λ z, 0 ≤ z < 2 ^ 256) zs →
  foldM (λ data_bytes m,
    m_hex ← message_hex m;
    m_hex ← hex_extend_32bytes m_hex;
    b ← fromhex m_hex;
    e ← encode_single_bytes32 b;
    Ok (data_bytes ++ e)) acc (MInt <$> zs) = Ok (acc ++ (zs ≫= to_be 32)).
Proof.
  intros Hz. revert acc. induction Hz as [|z zs Hz Hzs IH]; intros acc.
  - simpl. by rewrite app_nil_r.
  - rewrite fmap_cons. cbn [foldM message_hex mbind result_bind].
    destruct (fmt_0gtwX_spec z Hz) as (ds & Hds & Hn & Hl).
    rewrite (hex_extend_32bytes_spec _ ds), Hn by done. cbn [mbind result_bind].
    rewrite fromhex_hex. cbn [mbind result_bind].
    rewrite encode_single_full by apply length_to_be. cbn [mbind result_bind].
    etrans; [apply IH|]. by rewrite bind_cons, app_assoc.
Qed.

(** A list of 256-bit integers is encoded as the concatenation of its EVM words. *)
Lemma message_to_bytes_ints zs :
  Forall (λ z, 0 ≤ z < 2 ^ 256) zs →
  message_to_bytes (One ∘ MInt <$> zs) = Ok (zs ≫= to_be 32).
Proof.
  intros Hz. unfold message_to_bytes.
  assert (string_list_flatten (One ∘ MInt <$> zs) = MInt <$> zs) as ->.
  { clear Hz. induction zs as [|z zs IH]; [done|]. by rewrite fmap_cons, fmap_cons, <- IH. }
  by rewrite message_to_bytes_ints_acc.
Qed.
End message_lemmas.
