(* ===== verification/MerkleTree.v ===== *)
(** * The client-side Merkle tree ([client/zeth/core/merkle_tree.py])

    [MerkleTreeData], [MerkleTree], [PersistentMerkleTree] and the free functions
    of the file, with the reference semantics of the tree: [node l h i] is the
    node of height [h] and index [i] in the infinite tree over the leaves [l]
    padded with [ZERO_ENTRY].  The invariant [tree_inv] relates the layers the
    code stores to that reference while some leaves are inserted and not yet
    hashed.  A hash function is an instance of [ITreeHash]. *)

From Stdlib Require Import ZArith Lia Ascii String Strings.Byte.
From stdpp Require Import base tactics list gmap strings.
From S2P Require Import Prelude PyStr PyBytes PyFloat PyIO.

Local Open Scope Z_scope.

(** [ITreeHash]: the interface of the hash functions. *)
Class ITreeHash : Type := tree_hash : bytes → bytes → bytes.

Definition ZERO_ENTRY : bytes := zero_bytes 32.

Record MerkleTreeData : Type := mkMerkleTreeData {
  data_depth : Z;
  data_default_values : list bytes;
  data_layers : list (list bytes)
}.

Record MerkleTree : Type := mkMerkleTree {
  max_num_leaves : Z;
  depth : Z;
  tree_data : MerkleTreeData;
  num_new_leaves : Z
}.

(** ** Serialisation *)

Definition _to_list_str (l : list bytes) : list str := hex <$> l.
Definition _to_list_bytes (l : list str) : result (list bytes) :=
  mapM fromhex l.

Definition data_to_json_dict (d : MerkleTreeData) : json :=
  JDict [ (lit "depth", JInt (data_depth d));
          (lit "default_values", JList (JStr <$> _to_list_str (data_default_values d)));
          (lit "layers", JList ((λ layer, JList (JStr <$> _to_list_str layer)) <$> data_layers d)) ].

Definition data_from_json_dict (j : json) : result MerkleTreeData :=
  dj ← jget (lit "depth") j;
  d ← as_int dj;
  vj ← jget (lit "default_values") j;
  vl ← as_list vj;
  vs ← mapM as_str vl;
  default_values ← _to_list_bytes vs;
  lj ← jget (lit "layers") j;
  ll ← as_list lj;
  layers ← mapM (λ layer, l ← as_list layer; ss ← mapM as_str l; _to_list_bytes ss) ll;
  Ok (mkMerkleTreeData d default_values layers).

Section merkle_tree.
Context `{ITreeHash}.

(** ** Construction *)

(** [MerkleTree.__init__].  Every caller has [0 <= depth]. *)
Definition new_merkle_tree (data : MerkleTreeData) (depth : Z) : MerkleTree :=
  mkMerkleTree (2 ^ depth) (data_depth data) data 0.

Definition _empty_data_with_depth (depth : Z) : result MerkleTreeData :=
  default_values ← foldM (λ dv i,
      x ← py_get dv (i + 1);
      py_set dv i (tree_hash x x))
    (py_repeat ZERO_ENTRY (depth + 1)) (py_range_down depth);
  d0 ← py_get default_values 0;
  let layers := [d0] :: ((λ _, []) <$> py_range depth) in
  _ ← py_assert (zlen layers =? depth + 1);
  Ok (mkMerkleTreeData depth default_values layers).

Definition empty_with_depth (depth : Z) : result MerkleTree :=
  data ← _empty_data_with_depth depth;
  Ok (new_merkle_tree data depth).

(** [int(math.log(n, 2))]: exact on powers of two; a value that is not a power
    of two fails the assertion that follows, whatever the rounding. *)
Definition int_log2 (n : Z) : result Z :=
  if n <=? 0 then Err ValueError else Ok (Z.log2 n).

Definition empty_with_size (num_leaves : Z) : result MerkleTree :=
  depth ← int_log2 num_leaves;
  _ ← py_assert (2 ^ depth =? num_leaves);
  empty_with_depth depth.

(** ** Accessors *)

Definition get_leaves (t : MerkleTree) : result (list bytes) :=
  py_get (data_layers (tree_data t)) (depth t).

Definition get_num_entries (t : MerkleTree) : result Z :=
  zlen <$> get_leaves t.

Definition get_leaf (t : MerkleTree) (index : Z) : result bytes :=
  leaves ← get_leaves t;
  if index <? zlen leaves then py_get leaves index else Ok ZERO_ENTRY.

Definition get_node (t : MerkleTree) (layer_idx node_idx : Z) : result bytes :=
  _ ← py_assert (layer_idx <=? depth t);
  _ ← py_assert (num_new_leaves t =? 0);
  let layer_idx := depth t - layer_idx in
  layer ← py_get (data_layers (tree_data t)) layer_idx;
  if node_idx <? zlen layer then py_get layer node_idx
  else py_get (data_default_values (tree_data t)) layer_idx.

(** The sequence the iterator [_get_layers] yields when it is run to its end. *)
Definition _get_layers (t : MerkleTree) : result (list (bytes * list bytes)) :=
  mapM (λ i,
    d ← py_get (data_default_values (tree_data t)) i;
    l ← py_get (data_layers (tree_data t)) i;
    Ok (d, l)) (py_range_down (depth t + 1)).

Definition get_layers (t : MerkleTree) : result (list (bytes * list bytes)) :=
  _ ← py_assert (num_new_leaves t =? 0);
  _get_layers t.

Definition get_root (t : MerkleTree) : result bytes :=
  _ ← py_assert (num_new_leaves t =? 0);
  layer ← py_get (data_layers (tree_data t)) 0;
  py_get layer 0.

(** ** Updates *)

Definition set_layers (t : MerkleTree) (layers : list (list bytes)) (k : Z) : MerkleTree :=
  mkMerkleTree (max_num_leaves t) (depth t)
    (mkMerkleTreeData (data_depth (tree_data t)) (data_default_values (tree_data t)) layers) k.

Definition insert (t : MerkleTree) (value : bytes) : result MerkleTree :=
  leaves ← get_leaves t;
  _ ← py_assert (zlen leaves <? max_num_leaves t);
  layers ← py_set (data_layers (tree_data t)) (depth t) (leaves ++ [value]);
  Ok (set_layers t layers (num_new_leaves t + 1)).

(** The [while] loop of [_recompute_layer].  Each iteration lowers
    [child_left_idx] by two, so [child_left_idx - rend] iterations are enough. *)
Fixpoint recompute_pairs (fuel : nat) (child_layer : list bytes)
    (child_left_idx rend : Z) (parent : list bytes) : result (list bytes) :=
  if rend <? child_left_idx then
    match fuel with
    | O => Err OutOfFuel
    | S fuel =>
        let child_left_idx := child_left_idx - 2 in
        l ← py_get child_layer child_left_idx;
        r ← py_get child_layer (child_left_idx + 1);
        parent ← py_set parent (Z.shiftr child_left_idx 1) (tree_hash l r);
        recompute_pairs fuel child_layer child_left_idx rend parent
    end
  else Ok parent.

(** [_recompute_layer]: the parent layer is updated in place; the model returns
    the new parent layer with the start and end indices. *)
Definition _recompute_layer (child_layer : list bytes) (child_start_idx child_end_idx : Z)
    (child_default_value : bytes) (parent_layer : list bytes)
    : result (list bytes * (Z * Z)) :=
  new_parent_layer_length ← int_truediv (child_end_idx + 1) 2;
  let parent := parent_layer ++
    py_repeat ZERO_ENTRY (new_parent_layer_length - zlen parent_layer) in
  half ← int_truediv child_start_idx 2;
  let rend := half * 2 in
  '(child_left_idx, parent) ←
    (if negb (Z.land child_end_idx 1 =? 0) then
       let child_left_idx := child_end_idx - 1 in
       l ← py_get child_layer child_left_idx;
       parent ← py_set parent (Z.shiftr child_left_idx 1) (tree_hash l child_default_value);
       Ok (child_left_idx, parent)
     else Ok (child_end_idx, parent));
  parent ← recompute_pairs (Z.to_nat (child_left_idx - rend)) child_layer child_left_idx rend parent;
  Ok (parent, (Z.shiftr child_start_idx 1, new_parent_layer_length)).

(** One iteration of the loop of [recompute_root], with [i] the index of the
    parent layer: [layer] and [layer_default] are the entries [i + 1]. *)
Definition recompute_step (default_values : list bytes)
    (st : list (list bytes) * (Z * Z * Z)) (i : Z) : result (list (list bytes) * (Z * Z * Z)) :=
  let '(layers, (start_idx, end_idx, layer_size)) := st in
  layer_default ← py_get default_values (i + 1);
  layer ← py_get layers (i + 1);
  _ ← py_get default_values i;
  parent_layer ← py_get layers i;
  '(parent_layer, (start_idx, end_idx)) ←
    _recompute_layer layer start_idx end_idx layer_default parent_layer;
  layers ← py_set layers i parent_layer;
  layer_size ← int_truediv layer_size 2;
  Ok (layers, (start_idx, end_idx, layer_size)).

Definition recompute_root (t : MerkleTree) : result (bytes * MerkleTree) :=
  if num_new_leaves t =? 0 then
    root ← get_root t; Ok (root, t)
  else
    _ ← raise_if (depth t <? 0) (Exception "StopIteration");
    let layers := data_layers (tree_data t) in
    let default_values := data_default_values (tree_data t) in
    _ ← py_get default_values (depth t);
    layer ← py_get layers (depth t);
    let end_idx := zlen layer in
    let start_idx := end_idx - num_new_leaves t in
    '(layers, (_, _, layer_size)) ←
      foldM (recompute_step default_values)
        (layers, (start_idx, end_idx, max_num_leaves t)) (py_range_down (depth t));
    layer ← py_get layers 0;
    _ ← py_assert (zlen layer =? 1);
    _ ← py_assert (layer_size =? 1);
    root ← py_get layer 0;
    Ok (root, set_layers t layers 0).

(** ** Merkle paths *)

Fixpoint merkle_path_loop (t : MerkleTree) (address : Z) (depths : list Z) : result (list str) :=
  match depths with
  | [] => Ok []
  | d :: depths =>
      n ← (if negb (Z.land address 1 =? 0) then get_node t d (address - 1)
           else get_node t d (address + 1));
      rest ← merkle_path_loop t (Z.shiftr address 1) depths;
      Ok (hex n :: rest)
  end.

Definition compute_merkle_path (address : Z) (mk_tree : MerkleTree) : result (list str) :=
  if address =? -1 then Ok []
  else merkle_path_loop mk_tree address (py_range (depth mk_tree)).

Definition _leaf_address_to_node_address (address_leaf tree_depth : Z) : Z :=
  let address := address_leaf + (2 ^ tree_depth - 1) in
  if 2 ^ (tree_depth + 1) - 1 <? address then -1 else address.

(** ** [PersistentMerkleTree] *)

Definition open_tree (m : fs) (filename : str) (max_num_leaves : Z) : result MerkleTree :=
  depth ← int_log2 max_num_leaves;
  _ ← raise_if (1024 <=? depth) OverflowError;
  _ ← py_assert (max_num_leaves =? 2 ^ depth);
  data ← (if exists_file filename m then
            j ← read_json filename m;
            data ← data_from_json_dict j;
            _ ← py_assert (depth =? data_depth data);
            Ok data
          else _empty_data_with_depth depth);
  Ok (new_merkle_tree data depth).

Definition save_tree (filename : str) (t : MerkleTree) (m : fs) : fs :=
  write_file filename (CJson (data_to_json_dict (tree_data t))) m.

(** ** Reference semantics *)

(** The root of the empty subtree of height [h]. *)
Fixpoint default_node (h : nat) : bytes :=
  match h with
  | O => ZERO_ENTRY
  | S h => tree_hash (default_node h) (default_node h)
  end.

(** The node [i] of height [h] over the leaves [l], padded with zero entries. *)
Fixpoint node (l : list bytes) (h : nat) (i : Z) : bytes :=
  match h with
  | O => default ZERO_ENTRY (l !! Z.to_nat i)
  | S h => tree_hash (node l h (2 * i)) (node l h (2 * i + 1))
  end.

(** The root of the tree of depth [d] over [l]. *)
Definition spec_root (d : nat) (l : list bytes) : bytes := node l d 0.

(** Number of nodes of height [h] that have one of [m] leaves below them. *)
Definition touched (m : Z) (h : nat) : Z := (m + 2 ^ Z.of_nat h - 1) / 2 ^ Z.of_nat h.

(** The root of the path with the value [v] at the address [a]. *)
Fixpoint path_root (v : bytes) (a : Z) (path : list bytes) : bytes :=
  match path with
  | [] => v
  | s :: path =>
      path_root (if Z.odd a then tree_hash s v else tree_hash v s) (a / 2) path
  end.

(** [layer] holds the first [len] nodes of height [h] over [l]. *)
Definition layer_is (l : list bytes) (h : nat) (len : Z) (layer : list bytes) : Prop :=
  zlen layer = len ∧ ∀ i, 0 ≤ i < len → layer !! Z.to_nat i = Some (node l h i).

(** Layer [d - h] of a tree of depth [d] that accounts for the leaves [l]: the
    nodes above a leaf, and always the root. *)
Definition layer_ok (d : nat) (l : list bytes) (h : nat) (layers : list (list bytes)) : Prop :=
  ∃ layer, layers !! (d - h)%nat = Some layer ∧
    layer_is l h (Z.max (touched (zlen l) h) (if decide (h = d) then 1 else 0)) layer.

(** The tree of depth [d] holds the leaves [l]; its inner layers account for all
    of them but the last [num_new_leaves]. *)
Record tree_inv (d : nat) (l : list bytes) (t : MerkleTree) : Prop := {
  ti_depth : depth t = Z.of_nat d;
  ti_data_depth : data_depth (tree_data t) = Z.of_nat d;
  ti_max : max_num_leaves t = 2 ^ Z.of_nat d;
  ti_defaults : data_default_values (tree_data t) = (λ i : nat, default_node (d - i)) <$> seq 0 (S d);
  ti_layers : length (data_layers (tree_data t)) = S d;
  ti_leaves : data_layers (tree_data t) !! d = Some l;
  ti_new : 0 ≤ num_new_leaves t ≤ zlen l;
  ti_full : zlen l ≤ 2 ^ Z.of_nat d;
  ti_inner : ∀ h : nat, (1 ≤ h ≤ d)%nat →
    layer_ok d (take (Z.to_nat (zlen l - num_new_leaves t)) l) h (data_layers (tree_data t))
}.

End merkle_tree.
