(* ===== verification/MerkleTreeFacts.v ===== *)
(** * Correctness of the client-side Merkle tree

    The layers the code stores agree with the reference tree of [MerkleTree.v]:
    every operation keeps [tree_inv], [recompute_root] returns the reference
    root after hashing only the nodes above new leaves, and
    [compute_merkle_path] returns a path that authenticates the leaf. *)

From Stdlib Require Import ZArith Lia Ascii String Strings.Byte.
From stdpp Require Import base tactics list gmap strings.
From S2P Require Import Prelude PyStr PyBytes PyFloat PyIO Hashes MerkleTree.

Local Open Scope Z_scope.

(** ** Arithmetic of the layer sizes *)

Lemma pow2_pos (h : nat) : 0 < 2 ^ Z.of_nat h.
Proof. apply Z.pow_pos_nonneg; lia. Qed.

Lemma pow2_S (h : nat) : 2 ^ Z.of_nat (S h) = 2 * 2 ^ Z.of_nat h.
Proof. rewrite Nat2Z.inj_succ, Z.pow_succ_r by lia. lia. Qed.

Lemma touched_0 m : touched m 0 = m.
Proof. unfold touched. simpl. rewrite Z.div_1_r. lia. Qed.

(** The recurrence the code uses for the size of the next layer. *)
Lemma touched_S m h : touched m (S h) = (touched m h + 1) / 2.
Proof.
  unfold touched. rewrite pow2_S. pose proof (pow2_pos h) as Hp.
  rewrite (Z.mul_comm 2), <- Z.div_div by lia. f_equal.
  replace (m + 2 ^ Z.of_nat h * 2 - 1) with (m + 2 ^ Z.of_nat h - 1 + 1 * 2 ^ Z.of_nat h) by lia.
  by rewrite Z.div_add by lia.
Qed.

Lemma touched_mono m n h : m ≤ n → touched m h ≤ touched n h.
Proof. intros. apply Z.div_le_mono; [apply pow2_pos | lia]. Qed.

Lemma touched_nonneg m h : 0 ≤ m → 0 ≤ touched m h.
Proof. intros. pose proof (pow2_pos h). apply Z.div_pos; lia. Qed.

Lemma touched_pos m h : 1 ≤ m → 1 ≤ touched m h.
Proof. intros. pose proof (pow2_pos h). apply Z.div_le_lower_bound; lia. Qed.

Lemma touched_top m d : 1 ≤ m ≤ 2 ^ Z.of_nat d → touched m d = 1.
Proof.
  intros Hm. pose proof (touched_pos m d ltac:(lia)). pose proof (pow2_pos d).
  enough (touched m d < 2) by lia. apply Z.div_lt_upper_bound; lia.
Qed.

Lemma touched_le m h : 0 ≤ m → touched m h ≤ m.
Proof.
  intros Hm. pose proof (pow2_pos h).
  unfold touched. destruct (Z.eq_dec m 0) as [->|].
  - rewrite Z.div_small by lia. lia.
  - apply Z.div_le_upper_bound; nia.
Qed.

Lemma touched_below i m h : 0 ≤ i → touched m h ≤ i → m ≤ i * 2 ^ Z.of_nat h.
Proof.
  intros Hi Ht. pose proof (pow2_pos h) as Hp. unfold touched in Ht.
  destruct (Z.le_gt_cases m (i * 2 ^ Z.of_nat h)) as [|Hgt]; [done|].
  enough (i + 1 ≤ (m + 2 ^ Z.of_nat h - 1) / 2 ^ Z.of_nat h) by lia.
  apply Z.div_le_lower_bound; lia.
Qed.

Lemma floor_S m h : m / 2 ^ Z.of_nat (S h) = m / 2 ^ Z.of_nat h / 2.
Proof. rewrite pow2_S, (Z.mul_comm 2), <- Z.div_div; pose proof (pow2_pos h); lia. Qed.

Lemma floor_le_touched m h : m / 2 ^ Z.of_nat h ≤ touched m h.
Proof. apply Z.div_le_mono; pose proof (pow2_pos h); lia. Qed.

Lemma shiftr_1 a : Z.shiftr a 1 = a / 2.
Proof. by rewrite Z.shiftr_div_pow2. Qed.

Lemma land_1_odd a : negb (Z.land a 1 =? 0) = Z.odd a.
Proof.
  change 1 with (Z.ones 1) at 1. rewrite Z.land_ones by lia. change (2 ^ 1) with 2. rewrite Zmod_odd. by destruct (Z.odd a).
Qed.

Lemma half_odd a : a = 2 * (a / 2) + (if Z.odd a then 1 else 0).
Proof. rewrite <- Zmod_odd. pose proof (Z.div_mod a 2). lia. Qed.

Section facts.
Context `{ITreeHash}.

(** ** The reference tree *)

(** A node that lies within the first [m] leaves depends on those only. *)
Lemma node_take l m h i :
  0 ≤ i → (i + 1) * 2 ^ Z.of_nat h ≤ m → node (take (Z.to_nat m) l) h i = node l h i.
Proof.
  revert i. induction h as [|h IH]; intros i Hi Hm.
  - simpl. f_equal. apply lookup_take_lt. simpl in Hm. lia.
  - rewrite pow2_S in Hm. pose proof (pow2_pos h).
    simpl. f_equal; apply IH; nia.
Qed.

(** A node beyond the leaves is the default of its height. *)
Lemma node_default l h i : 0 ≤ i → zlen l ≤ i * 2 ^ Z.of_nat h → node l h i = default_node h.
Proof.
  revert i. induction h as [|h IH]; intros i Hi Hl.
  - simpl. rewrite lookup_ge_None_2; [done|]. unfold zlen in Hl. simpl in Hl. lia.
  - rewrite pow2_S in Hl. pose proof (pow2_pos h). simpl. f_equal; apply IH; nia.
Qed.

Lemma node_touched l h i : touched (zlen l) h ≤ i → 0 ≤ i → node l h i = default_node h.
Proof. intros Ht Hi. apply node_default; [done|]. by apply touched_below. Qed.

Lemma spec_root_nil d : spec_root d [] = default_node d.
Proof. apply node_default; [lia|]. unfold zlen. simpl. pose proof (pow2_pos d). lia. Qed.

(** ** [_recompute_layer] *)

(** The hash of the [j]-th pair of a child layer, with its default on the right
    where the layer ends. *)
Definition pair_hash (child : list bytes) (dflt : bytes) (j : nat) : option bytes :=
  l ← child !! (2 * j)%nat;
  Some (tree_hash l (default dflt (child !! (2 * j + 1)%nat))).

Lemma recompute_pairs_spec fuel child dflt (j r : nat) parent :
  (j - r ≤ fuel)%nat → (2 * j ≤ length child)%nat → (j ≤ length parent)%nat →
  ∃ parent', recompute_pairs fuel child (2 * Z.of_nat j) (2 * Z.of_nat r) parent = Ok parent' ∧
    length parent' = length parent ∧
    ∀ i, parent' !! i = if decide (r ≤ i < j)%nat then pair_hash child dflt i else parent !! i.
Proof.
  revert j parent. induction fuel as [|fuel IH]; intros j parent Hf Hc Hp; cbn [recompute_pairs].
  - rewrite (proj2 (Z.ltb_ge _ _)) by lia. exists parent. split_and!; [done..|].
    intros i. rewrite decide_False by lia. done.
  - destruct (2 * Z.of_nat r <? 2 * Z.of_nat j) eqn:E; prop_bool; last first.
    { exists parent. split_and!; [done..|]. intros i. rewrite decide_False by lia. done. }
    destruct j as [|j]; [lia|].
    replace (2 * Z.of_nat (S j) - 2) with (2 * Z.of_nat j) by lia.
    destruct (lookup_lt_is_Some_2 child (2 * j)%nat) as [x Hx]; [lia|].
    destruct (lookup_lt_is_Some_2 child (2 * j + 1)%nat) as [y Hy]; [lia|].
    rewrite (py_get_nonneg child (2 * Z.of_nat j) x)
      by (lia || (rewrite <- Hx; f_equal; lia)).
    rewrite (py_get_nonneg child (2 * Z.of_nat j + 1) y)
      by (lia || (rewrite <- Hy; f_equal; lia)).
    cbn [mbind result_bind]. rewrite shiftr_1, (Z.mul_comm 2), Z.div_mul by lia.
    rewrite py_set_nonneg by (unfold zlen; lia). cbn [mbind result_bind].
    rewrite Nat2Z.id, (Z.mul_comm (Z.of_nat j)).
    destruct (IH j (<[j := tree_hash x y]> parent)) as (parent' & -> & Hl & Hi);
      [lia | lia | rewrite length_insert; lia |].
    exists parent'. split; [done|]. split; [by rewrite Hl, length_insert|].
    intros i. rewrite Hi. destruct (decide (i = j)) as [->|Hne].
    + rewrite decide_False by lia. rewrite list_lookup_insert_eq by lia.
      rewrite decide_True by lia. unfold pair_hash. rewrite Hx. cbn [mbind option_bind]. by rewrite Hy.
    + rewrite list_lookup_insert_ne by done.
      destruct (decide (r ≤ i < j)%nat), (decide (r ≤ i < S j)%nat); try done; lia.
Qed.

(** The hash of an odd last child with the default. *)
Lemma recompute_odd_pair child dflt parent :
  zlen parent = (zlen child + 1) / 2 →
  ∃ parent', (if Z.odd (zlen child) then
       l ← py_get child (zlen child - 1);
       parent ← py_set parent (Z.shiftr (zlen child - 1) 1) (tree_hash l dflt);
       Ok (zlen child - 1, parent)
     else Ok (zlen child, parent)) = Ok (2 * Z.of_nat (length child / 2), parent') ∧
    length parent' = length parent ∧
    ∀ i, (i < length parent)%nat → parent' !! i =
      if decide (length child / 2 ≤ i)%nat then pair_hash child dflt i else parent !! i.
Proof.
  unfold zlen. intros Hp. set (n := length child) in *. set (k := (n / 2)%nat).
  assert (Z.of_nat n / 2 = Z.of_nat k) as Hk by (unfold k; by rewrite Nat2Z.inj_div).
  pose proof (half_odd (Z.of_nat n)) as Hodd. rewrite Hk in Hodd.
  destruct (Z.odd (Z.of_nat n)).
  - replace (Z.of_nat n + 1) with ((Z.of_nat k + 1) * 2) in Hp by lia.
    rewrite Z.div_mul in Hp by lia.
    destruct (lookup_lt_is_Some_2 child (2 * k)%nat) as [x Hx]; [lia|].
    replace (Z.of_nat n - 1) with (2 * Z.of_nat k) by lia.
    rewrite (py_get_nonneg child (2 * Z.of_nat k) x) by (lia || (rewrite <- Hx; f_equal; lia)).
    cbn [mbind result_bind]. rewrite shiftr_1, (Z.mul_comm 2 (Z.of_nat k)), Z.div_mul by lia.
    rewrite py_set_nonneg by (unfold zlen; lia). cbn [mbind result_bind]. rewrite Nat2Z.id.
    eexists. split; [done|]. split; [apply length_insert|]. intros i Hi.
    destruct (decide (i = k)) as [->|Hne].
    + rewrite list_lookup_insert_eq, decide_True by lia. unfold pair_hash. rewrite Hx. cbn [mbind option_bind].
      by rewrite lookup_ge_None_2 by lia.
    + rewrite list_lookup_insert_ne, decide_False by lia. done.
  - replace (Z.of_nat n + 1) with (1 + Z.of_nat k * 2) in Hp by lia.
    rewrite Z.div_add in Hp by lia. change (1 / 2) with 0 in Hp.
    exists parent. split; [do 2 f_equal; lia|]. split; [done|].
    intros i Hi. by rewrite decide_False by lia.
Qed.

(** The parent layer after the update: the pairs from the start index on are
    hashed again, the nodes to their left are kept. *)
Lemma recompute_layer_spec child dflt (s : Z) parent :
  0 ≤ s ≤ zlen child → zlen child + 1 < 2 ^ 53 → zlen parent ≤ (zlen child + 1) / 2 →
  ∃ parent', _recompute_layer child s (zlen child) dflt parent =
      Ok (parent', (s / 2, (zlen child + 1) / 2)) ∧
    zlen parent' = (zlen child + 1) / 2 ∧
    ∀ i, (i < length parent')%nat → parent' !! i =
      if decide (s / 2 ≤ Z.of_nat i) then pair_hash child dflt i
      else (parent ++ py_repeat ZERO_ENTRY ((zlen child + 1) / 2 - zlen parent)) !! i.
Proof.
  intros Hs Hc Hp. unfold _recompute_layer.
  rewrite int_truediv_2 by lia. cbn [mbind result_bind].
  rewrite int_truediv_2 by lia. cbn [mbind result_bind].
  set (p0 := parent ++ _). rewrite (shiftr_1 s), land_1_odd.
  assert (zlen p0 = (zlen child + 1) / 2) as Hp0.
  { unfold p0. rewrite zlen_app, zlen_py_repeat. lia. }
  destruct (recompute_odd_pair child dflt p0 Hp0) as (p1 & Hbind & Hl1 & Hi1).
  cbv zeta. rewrite Hbind. cbn [mbind result_bind].
  set (k := (length child / 2)%nat) in *.
  assert (zlen child / 2 = Z.of_nat k) as Hk by (unfold k, zlen; by rewrite Nat2Z.inj_div).
  assert (s / 2 ≤ zlen child / 2) as Hsk by (apply Z.div_le_mono; lia).
  pose proof (Z.div_pos s 2 ltac:(lia) ltac:(lia)) as Hs0.
  pose proof (Z.div_mod (zlen child) 2) as Hdm. pose proof (Z.mod_pos_bound (zlen child) 2).
  assert (zlen child / 2 ≤ (zlen child + 1) / 2) as Hkl by (apply Z.div_le_mono; lia).
  replace (s / 2 * 2) with (2 * Z.of_nat (Z.to_nat (s / 2))) by lia.
  destruct (recompute_pairs_spec (Z.to_nat (2 * Z.of_nat k - 2 * Z.of_nat (Z.to_nat (s / 2))))
              child dflt k (Z.to_nat (s / 2)) p1) as (p' & -> & Hl & Hi);
    [lia | unfold zlen in *; lia | unfold zlen in *; lia |].
  exists p'. split; [done|]. split; [unfold zlen in *; lia|]. intros i Hlt.
  rewrite Hi, Hi1 by lia.
  destruct (decide (Z.to_nat (s / 2) ≤ i < k)%nat), (decide (k ≤ i)%nat),
    (decide (s / 2 ≤ Z.of_nat i)); done || lia.
Qed.

(** ** [recompute_root] *)

Lemma layer_is_0 l : layer_is l 0 (zlen l) l.
Proof.
  split; [done|]. intros i Hi. simpl. unfold zlen in Hi.
  destruct (lookup_lt_is_Some_2 l (Z.to_nat i)) as [x Hx]; [lia|]. by rewrite Hx.
Qed.

Lemma zlen_take_Z (l : list bytes) m : 0 ≤ m ≤ zlen l → zlen (take (Z.to_nat m) l) = m.
Proof. unfold zlen. rewrite length_take. lia. Qed.

(** One layer of the recomputation: from the layer [h] over all the leaves and
    the layer [h + 1] over the first [m], the layer [h + 1] over all of them. *)
Lemma recompute_parent l m (h : nat) (r : Z) child parent :
  0 ≤ m ≤ zlen l → zlen l + 1 < 2 ^ 53 →
  layer_is l h (touched (zlen l) h) child →
  touched m (S h) ≤ r ≤ touched (zlen l) (S h) →
  layer_is (take (Z.to_nat m) l) (S h) r parent →
  ∃ parent', _recompute_layer child (m / 2 ^ Z.of_nat h) (touched (zlen l) h) (default_node h) parent =
      Ok (parent', (m / 2 ^ Z.of_nat (S h), touched (zlen l) (S h))) ∧
    layer_is l (S h) (touched (zlen l) (S h)) parent'.
Proof.
  intros Hm Hl [Hcl Hc] Hr [Hpl Hp]. pose proof (pow2_pos h).
  pose proof (floor_le_touched m h). pose proof (touched_mono m (zlen l) h ltac:(lia)).
  pose proof (touched_le (zlen l) h ltac:(lia)).
  pose proof (floor_le_touched m (S h)) as Hfl.
  destruct (recompute_layer_spec child (default_node h) (m / 2 ^ Z.of_nat h) parent)
    as (p' & Heq & Hpl' & Hi).
  { split; [apply Z.div_pos|]; lia. } { lia. } { rewrite Hcl, <- touched_S. lia. }
  rewrite Hcl, <- touched_S, <- floor_S in *. exists p'. split; [done|]. split; [done|].
  intros i Hir. rewrite Hi by (unfold zlen in *; lia). rewrite Z2Nat.id by lia.
  destruct (decide (m / 2 ^ Z.of_nat (S h) ≤ i)) as [Hge|Hlt].
  - unfold pair_hash. rewrite touched_S in Hir.
    pose proof (Z.mul_div_le (touched (zlen l) h + 1) 2 ltac:(lia)).
    replace (2 * Z.to_nat i)%nat with (Z.to_nat (2 * i)) by lia.
    rewrite Hc by lia. cbn [mbind option_bind node]. do 2 f_equal.
    replace (Z.to_nat (2 * i) + 1)%nat with (Z.to_nat (2 * i + 1)) by lia.
    destruct (Z.lt_ge_cases (2 * i + 1) (touched (zlen l) h)).
    + by rewrite Hc by lia.
    + rewrite node_touched by lia. rewrite lookup_ge_None_2; [done|]. unfold zlen in *; lia.
  - rewrite lookup_app_l by (unfold zlen in *; lia). rewrite Hp by lia.
    f_equal. apply node_take; [lia|]. pose proof (pow2_pos (S h)).
    pose proof (Z.mul_div_le m (2 ^ Z.of_nat (S h)) ltac:(lia)). nia.
Qed.

(** The state of the loop when the layers up to height [h] are recomputed. *)
Definition loop_inv (d : nat) (l : list bytes) (m : Z) (h : nat)
    (st : list (list bytes) * (Z * Z * Z)) : Prop :=
  let '(layers, (s, e, size)) := st in
  length layers = S d ∧ layers !! d = Some l ∧
  s = m / 2 ^ Z.of_nat h ∧ e = touched (zlen l) h ∧ size = 2 ^ Z.of_nat (d - h) ∧
  (∀ h' : nat, (1 ≤ h' ≤ h)%nat → layer_ok d l h' layers) ∧
  (∀ h' : nat, (h < h' ≤ d)%nat → layer_ok d (take (Z.to_nat m) l) h' layers).

Definition default_list (d : nat) : list bytes := (λ i : nat, default_node (d - i)) <$> seq 0 (S d).

Lemma default_list_get (d h : nat) : (h ≤ d)%nat →
  py_get (default_list d) (Z.of_nat (d - h)) = Ok (default_node h).
Proof.
  intros Hh. apply py_get_nonneg; [lia|]. rewrite Nat2Z.id. unfold default_list.
  rewrite list_lookup_fmap, lookup_seq_lt by lia. cbn [fmap option_fmap option_map].
  do 2 f_equal. lia.
Qed.

Lemma layer_ok_insert d l h h' (layers : list (list bytes)) p :
  (h ≠ h')%nat → (h ≤ d)%nat → (h' ≤ d)%nat →
  layer_ok d l h' layers → layer_ok d l h' (<[(d - h)%nat := p]> layers).
Proof.
  intros Hne Hh Hh' (x & Hx & Hok). exists x. split; [|done].
  rewrite list_lookup_insert_ne by lia. done.
Qed.

Lemma recompute_step_spec (d : nat) l m h st :
  (d ≤ 52)%nat → 0 ≤ m < zlen l → zlen l ≤ 2 ^ Z.of_nat d → (h < d)%nat →
  loop_inv d l m h st →
  ∃ st', recompute_step (default_list d) st (Z.of_nat (d - S h)) = Ok st' ∧ loop_inv d l m (S h) st'.
Proof.
  intros Hd Hm Hfull Hh. destruct st as [layers [[s e] size]].
  intros (Hlen & Hleaves & -> & -> & -> & Hdone & Htodo). cbn [recompute_step].
  assert (2 ^ Z.of_nat d ≤ 2 ^ 52) by (apply Z.pow_le_mono_r; lia).
  replace (Z.of_nat (d - S h) + 1) with (Z.of_nat (d - h)) by lia.
  rewrite !default_list_get by lia. cbn [mbind result_bind].
  assert (∃ child, layers !! (d - h)%nat = Some child ∧ layer_is l h (touched (zlen l) h) child)
    as (child & Hchild & Hcok).
  { destruct h as [|h].
    - exists l. rewrite Nat.sub_0_r, touched_0. split; [done | apply layer_is_0].
    - destruct (Hdone (S h)) as (c & ? & Hok); [lia|]. rewrite decide_False in Hok by lia.
      exists c. split; [done|]. rewrite Z.max_l in Hok by (apply touched_nonneg; lia). done. }
  destruct (Htodo (S h)) as (parent & Hparent & Hpok); [lia|].
  rewrite (py_get_of_nat layers _ child Hchild). cbn [mbind result_bind].
  rewrite (py_get_of_nat layers _ parent Hparent). cbn [mbind result_bind].
  rewrite zlen_take_Z in Hpok by lia.
  pose proof (touched_mono m (zlen l) (S h) ltac:(lia)).
  pose proof (touched_pos (zlen l) (S h) ltac:(lia)).
  edestruct (recompute_parent l m h) as (p' & -> & Hp'); [lia | lia | exact Hcok | | exact Hpok |].
  { case_decide; lia. }
  cbn [mbind result_bind]. rewrite py_set_nonneg by (unfold zlen; lia). cbn [mbind result_bind].
  rewrite Nat2Z.id. replace (d - h)%nat with (S (d - S h)) by lia.
  assert (2 ^ Z.of_nat (d - S h) ≤ 2 ^ Z.of_nat d) by (apply Z.pow_le_mono_r; lia).
  pose proof (pow2_pos (d - S h)).
  rewrite (int_truediv_exact _ 2) with (q := 2 ^ Z.of_nat (d - S h)) by (rewrite ?pow2_S; lia).
  cbn [mbind result_bind]. eexists. split; [reflexivity|]. unfold loop_inv.
  rewrite length_insert. split_and!; try done.
  - rewrite list_lookup_insert_ne by lia. done.
  - intros h' Hh'. destruct (decide (h' = S h)) as [->|]; [|apply layer_ok_insert; [lia..| apply Hdone; lia]].
    exists p'. rewrite list_lookup_insert_eq by lia. split; [done|].
    rewrite Z.max_l; [done|]. case_decide; lia.
  - intros h' Hh'. apply layer_ok_insert; [lia..|]. apply Htodo. lia.
Qed.

Lemma recompute_loop_spec (d j : nat) l m st :
  (d ≤ 52)%nat → 0 ≤ m < zlen l → zlen l ≤ 2 ^ Z.of_nat d → (j ≤ d)%nat →
  loop_inv d l m (d - j) st →
  ∃ st', foldM (recompute_step (default_list d)) st (py_range_down (Z.of_nat j)) = Ok st' ∧
    loop_inv d l m d st'.
Proof.
  intros Hd Hm Hfull. revert st. induction j as [|j IH]; intros st Hj Hinv.
  - rewrite Nat.sub_0_r in Hinv. by exists st.
  - rewrite py_range_down_S. cbn [foldM].
    destruct (recompute_step_spec d l m (d - S j) st) as (st' & Hst & Hinv'); [lia..|done|].
    replace (d - S (d - S j))%nat with j in Hst by lia. rewrite Hst. cbn [mbind result_bind].
    apply IH; [lia|]. replace (d - j)%nat with (S (d - S j)) by lia. done.
Qed.

(** ** The invariant is kept by every operation *)

Lemma default_list_lookup (d i : nat) : (i ≤ d)%nat → default_list d !! i = Some (default_node (d - i)).
Proof. intros. unfold default_list. by rewrite list_lookup_fmap, lookup_seq_lt by lia. Qed.

Lemma length_default_list d : length (default_list d) = S d.
Proof. unfold default_list. by rewrite length_fmap, length_seq. Qed.

Lemma empty_defaults_loop (d j : nat) : (j ≤ d)%nat →
  foldM (λ dv i, x ← py_get dv (i + 1); py_set dv i (tree_hash x x))
    (replicate j ZERO_ENTRY ++ drop j (default_list d)) (py_range_down (Z.of_nat j)) =
  Ok (default_list d).
Proof.
  induction j as [|j IH]; intros Hj; [done|].
  rewrite py_range_down_S. cbn [foldM].
  replace (Z.of_nat j + 1) with (Z.of_nat (S j)) by lia.
  erewrite py_get_of_nat.
  2: { rewrite lookup_app_r, length_replicate, Nat.sub_diag by (rewrite length_replicate; lia).
       rewrite lookup_drop, Nat.add_0_r. by apply default_list_lookup. }
  cbn [mbind result_bind]. rewrite py_set_nonneg.
  2: { rewrite zlen_app. unfold zlen. rewrite length_replicate. lia. }
  cbn [mbind result_bind]. rewrite <- IH by lia. f_equal.
  rewrite Nat2Z.id, replicate_S_end, <- app_assoc, insert_app_r_alt by (rewrite length_replicate; lia).
  rewrite length_replicate, Nat.sub_diag. f_equal.
  rewrite (drop_S (default_list d) (default_node (d - j)) j) by (apply default_list_lookup; lia).
  cbn [app insert list_insert].
  f_equal. replace (d - j)%nat with (S (d - S j)) by lia. done.
Qed.

Lemma empty_data_spec (d : nat) :
  _empty_data_with_depth (Z.of_nat d) =
  Ok (mkMerkleTreeData (Z.of_nat d) (default_list d) ([default_node d] :: replicate d [])).
Proof.
  unfold _empty_data_with_depth.
  replace (py_repeat ZERO_ENTRY (Z.of_nat d + 1))
    with (replicate d ZERO_ENTRY ++ drop d (default_list d)).
  2: { unfold py_repeat. replace (Z.to_nat (Z.of_nat d + 1)) with (S d) by lia.
       rewrite replicate_S_end. f_equal.
       rewrite (drop_S (default_list d) (default_node 0) d); [rewrite drop_ge; [done | rewrite length_default_list; lia]|].
       rewrite default_list_lookup by lia. by rewrite Nat.sub_diag. }
  rewrite empty_defaults_loop by lia. cbn [mbind result_bind].
  rewrite (py_get_nonneg _ 0 (default_node d)) by (lia || (rewrite default_list_lookup, Nat.sub_0_r by lia; done)).
  cbn [mbind result_bind].
  assert ((λ _ : Z, @nil bytes) <$> py_range (Z.of_nat d) = replicate d []) as ->.
  { unfold py_range. rewrite Nat2Z.id, <- list_fmap_compose. generalize 0%nat.
    induction d; intros n; simpl; [done | f_equal; apply IHd]. }
  rewrite py_assert_true; [done|]. apply Z.eqb_eq. unfold zlen. simpl. rewrite length_replicate. lia.
Qed.

Lemma empty_inv (d : nat) : (1 ≤ d)%nat →
  ∃ t, empty_with_depth (Z.of_nat d) = Ok t ∧ tree_inv d [] t ∧ num_new_leaves t = 0.
Proof.
  intros Hd. unfold empty_with_depth. rewrite empty_data_spec. cbn [mbind result_bind].
  eexists. split; [done|]. split; [|done]. split; simpl; try done.
  - rewrite length_replicate. done.
  - destruct d as [|d]; [lia|]. apply (lookup_replicate_2 (S d)). lia.
  - unfold zlen. simpl. pose proof (pow2_pos d). lia.
  - intros h Hh. destruct (decide (h = d)) as [->|Hne].
    + exists [default_node d]. rewrite Nat.sub_diag. split; [done|].
      rewrite decide_True by done. pose proof (pow2_pos d).
      replace (touched (zlen []) d) with 0 by (unfold touched, zlen; simpl; rewrite Z.div_small; lia).
      split; [done|]. intros i Hi. replace i with 0 by lia. simpl. f_equal. symmetry. apply spec_root_nil.
    + exists []. replace (d - h)%nat with (S (d - S h)) by lia. simpl.
      rewrite lookup_replicate_2 by lia. split; [done|]. rewrite decide_False by done.
      pose proof (pow2_pos h).
      replace (touched (zlen []) h) with 0 by (unfold touched, zlen; simpl; rewrite Z.div_small; lia).
      split; [done|]. lia.
Qed.

Section with_inv.
Context (d : nat) (Hd : (1 ≤ d)%nat).

Lemma inv_get_leaves l t : tree_inv d l t → get_leaves t = Ok l.
Proof. intros [Hdep Hddep Hmax Hdef Hlays Hlv Hnew Hfull Hinner]. unfold get_leaves. rewrite Hdep. by apply py_get_of_nat. Qed.

Lemma insert_inv l t v : tree_inv d l t → zlen l < 2 ^ Z.of_nat d →
  ∃ t', insert t v = Ok t' ∧ tree_inv d (l ++ [v]) t' ∧ num_new_leaves t' = num_new_leaves t + 1.
Proof using Hd.
  intros Hinv Hlt. unfold insert. rewrite (inv_get_leaves l t Hinv). destruct Hinv as [Hdep Hddep Hmax Hdef Hlays Hlv Hnew Hfull Hinner].
  cbn [mbind result_bind]. rewrite py_assert_true by (apply Z.ltb_lt; lia).
  cbn [mbind result_bind]. rewrite Hdep, py_set_nonneg by (unfold zlen; lia).
  cbn [mbind result_bind]. eexists. split; [done|]. split; [|done].
  assert (zlen (l ++ [v]) = zlen l + 1) as Hz by (rewrite zlen_app; done).
  split; cbn [set_layers max_num_leaves depth tree_data num_new_leaves data_depth
              data_default_values data_layers]; rewrite ?Hz; try done; try lia.
  - by rewrite length_insert.
  - rewrite Nat2Z.id. by rewrite list_lookup_insert_eq by lia.
  - intros h Hh. rewrite Nat2Z.id.
    replace (zlen l + 1 - (num_new_leaves t + 1)) with (zlen l - num_new_leaves t) by lia.
    rewrite take_app_le by (unfold zlen in *; lia).
    replace d with (d - 0)%nat at 2 by lia. apply layer_ok_insert; [lia..|]. by apply Hinner.
Qed.

Lemma insert_full l t v : tree_inv d l t → zlen l = 2 ^ Z.of_nat d →
  insert t v = Err AssertionError.
Proof using Type. clear Hd.
  intros Hinv Heq. unfold insert. rewrite (inv_get_leaves l t Hinv). destruct Hinv as [Hdep Hddep Hmax Hdef Hlays Hlv Hnew Hfull Hinner].
  cbn [mbind result_bind]. unfold py_assert. by rewrite (proj2 (Z.ltb_ge _ _)) by lia.
Qed.

(** Layer [0] of a tree whose layers account for [l] holds the reference root. *)
Lemma layer_ok_root l layers : layer_ok d l d layers → zlen l ≤ 2 ^ Z.of_nat d →
  py_get layers 0 = Ok [spec_root d l].
Proof using Type. clear Hd.
  intros (x & Hx & Hlen & Hi) Hl. rewrite Nat.sub_diag in Hx. rewrite decide_True in Hlen, Hi by done.
  assert (Z.max (touched (zlen l) d) 1 = 1) as Hm.
  { destruct (Z.eq_dec (zlen l) 0) as [->|]; [|rewrite touched_top; pose proof (zlen_nonneg l); lia].
    pose proof (touched_le 0 d). lia. }
  rewrite Hm in *. rewrite (py_get_nonneg layers 0 x) by (lia || done). f_equal.
  destruct x as [|y [|]]; try (unfold zlen in Hlen; simpl in Hlen; lia).
  specialize (Hi 0 ltac:(lia)). simpl in Hi. unfold spec_root. congruence.
Qed.

Lemma clean_layer_ok l t (h : nat) : tree_inv d l t → num_new_leaves t = 0 → (1 ≤ h ≤ d)%nat →
  layer_ok d l h (data_layers (tree_data t)).
Proof using Type. clear Hd.
  intros [Hdep Hddep Hmax Hdef Hlays Hlv Hnew Hfull Hinner] Hclean Hh. specialize (Hinner h Hh).
  rewrite Hclean, Z.sub_0_r, take_ge in Hinner by (unfold zlen; lia). done.
Qed.

Lemma get_root_inv l t : tree_inv d l t → num_new_leaves t = 0 → get_root t = Ok (spec_root d l).
Proof using Hd.
  intros Hinv Hclean. unfold get_root. rewrite py_assert_true by by apply Z.eqb_eq.
  cbn [mbind result_bind]. rewrite (layer_ok_root l) by (apply clean_layer_ok || apply Hinv; done || lia).
  done.
Qed.

Lemma recompute_root_inv l t : (d ≤ 52)%nat → tree_inv d l t →
  ∃ t', recompute_root t = Ok (spec_root d l, t') ∧ tree_inv d l t' ∧ num_new_leaves t' = 0.
Proof using Hd.
  intros Hd52 Hinv. unfold recompute_root. destruct (num_new_leaves t =? 0) eqn:E; prop_bool.
  { rewrite (get_root_inv l) by done. cbn [mbind result_bind]. by exists t. }
  pose proof (inv_get_leaves l t Hinv) as Hleaves. unfold get_leaves in Hleaves.
  destruct Hinv as [Hdep Hddep Hmax Hdef Hlays Hlv Hnew Hfull Hinner]. unfold raise_if. rewrite (proj2 (Z.ltb_ge _ _)) by lia.
  cbn [mbind result_bind]. rewrite Hdef. fold (default_list d).
  rewrite Hdep in *. rewrite (py_get_of_nat _ _ _ (default_list_lookup d d (Nat.le_refl d))). cbn [mbind result_bind]. rewrite Hleaves. cbn [mbind result_bind].
  destruct (recompute_loop_spec d d l (zlen l - num_new_leaves t)
    (data_layers (tree_data t), (zlen l - num_new_leaves t, zlen l, max_num_leaves t)))
    as ([layers [[s e] size]] & -> & Hst); [lia..| |].
  { rewrite Nat.sub_diag. cbn [loop_inv]. rewrite Z.div_1_r, touched_0, Nat.sub_0_r.
    split_and!; try done. lia. }
  cbn [mbind result_bind]. destruct Hst as (Hlen & Hl & -> & -> & -> & Hok & _).
  rewrite (layer_ok_root l) by (done || (apply Hok; lia)). cbn [mbind result_bind].
  rewrite Nat.sub_diag. eexists. split; [reflexivity|]. split; [|done].
  split; simpl; rewrite ?Hdep; try done; [lia|].
  intros h Hh. rewrite Z.sub_0_r, take_ge by (unfold zlen; lia). by apply Hok.
Qed.

(** ** Nodes and paths of a clean tree *)

Lemma get_node_inv l t (h : nat) i : tree_inv d l t → num_new_leaves t = 0 → (h ≤ d)%nat → 0 ≤ i →
  get_node t (Z.of_nat h) i = Ok (node l h i).
Proof using Hd.
  intros Hinv Hclean Hh Hi.
  assert (∃ layer len, data_layers (tree_data t) !! (d - h)%nat = Some layer ∧
    layer_is l h len layer ∧ touched (zlen l) h ≤ len) as (layer & len & Hl & [Hlen Hn] & Ht).
  { destruct h as [|h].
    - exists l, (zlen l). rewrite Nat.sub_0_r, touched_0.
      split_and!; [apply Hinv | apply layer_is_0 | done].
    - destruct (clean_layer_ok l t (S h) Hinv Hclean) as (x & Hx & Hok); [lia|].
      eexists x, _. split_and!; [done | exact Hok | lia]. }
  destruct Hinv as [Hdep Hddep Hmax Hdef Hlays Hlv Hnew Hfull Hinner].
  unfold get_node. rewrite Hdep, Hclean, (py_assert_true (_ <=? _)) by (apply Z.leb_le; lia).
  cbn [mbind result_bind py_assert Z.eqb].
  replace (Z.of_nat d - Z.of_nat h) with (Z.of_nat (d - h)) by lia.
  rewrite (py_get_of_nat _ _ _ Hl). cbn [mbind result_bind]. rewrite Hlen.
  destruct (i <? len) eqn:E; prop_bool.
  - apply py_get_nonneg; [done|]. apply Hn. lia.
  - rewrite Hdef. fold (default_list d). rewrite default_list_get by done.
    f_equal. symmetry. apply node_touched; lia.
Qed.

Lemma get_leaf_inv l t i : tree_inv d l t → 0 ≤ i → get_leaf t i = Ok (node l 0 i).
Proof using Type. clear Hd.
  intros Hinv Hi. unfold get_leaf. rewrite (inv_get_leaves l t Hinv). cbn [mbind result_bind].
  destruct (i <? zlen l) eqn:E; prop_bool; simpl.
  - destruct (py_get_is_ok l i) as (x & -> & ->); [lia | done].
  - rewrite lookup_ge_None_2; [done|]. unfold zlen in *. lia.
Qed.

(** The other child of the parent of node [a]. *)
Definition sibling (a : Z) : Z := if Z.odd a then a - 1 else a + 1.

(** The siblings of the path from node [a] of height [h], [n] levels up. *)
Fixpoint siblings (l : list bytes) (a : Z) (h n : nat) : list bytes :=
  match n with
  | O => []
  | S n => node l h (sibling a) :: siblings l (a / 2) (S h) n
  end.

Lemma merkle_path_loop_spec l t (h n : nat) a :
  tree_inv d l t → num_new_leaves t = 0 → (h + n ≤ d)%nat → 0 ≤ a →
  merkle_path_loop t a (Z.of_nat <$> seq h n) = Ok (hex <$> siblings l a h n).
Proof using Hd.
  intros Hinv Hclean. revert h a. induction n as [|n IH]; intros h a Hn Ha; [done|].
  cbn [seq fmap list_fmap merkle_path_loop siblings]. rewrite land_1_odd.
  assert ((if Z.odd a then get_node t (Z.of_nat h) (a - 1) else get_node t (Z.of_nat h) (a + 1))
    = Ok (node l h (sibling a))) as ->.
  { unfold sibling. pose proof (half_odd a). pose proof (Z.div_pos a 2 ltac:(lia) ltac:(lia)).
    destruct (Z.odd a); apply get_node_inv; done || lia. }
  cbn [mbind result_bind]. rewrite shiftr_1.
  change (Z.of_nat <$> seq (S h) n) with (list_fmap _ _ Z.of_nat (seq (S h) n)) in IH.
  unfold fmap in IH. rewrite IH by (lia || (apply Z.div_pos; lia)). done.
Qed.

Lemma path_root_siblings l (h n : nat) a :
  path_root (node l h a) a (siblings l a h n) = node l (h + n) (a / 2 ^ Z.of_nat n).
Proof using Type. clear Hd.
  revert h a. induction n as [|n IH]; intros h a.
  - rewrite Nat.add_0_r. simpl. by rewrite Z.div_1_r.
  - cbn [siblings path_root]. replace (h + S n)%nat with (S h + n)%nat by lia.
    rewrite pow2_S, <- Z.div_div by (pose proof (pow2_pos n); lia). rewrite <- IH. f_equal.
    unfold sibling. pose proof (half_odd a) as Ha. simpl.
    destruct (Z.odd a); f_equal; f_equal; lia.
Qed.

Lemma length_siblings l (h n : nat) a : length (siblings l a h n) = n.
Proof using Type. clear Hd. revert h a. induction n; intros; simpl; auto. Qed.

Lemma compute_merkle_path_inv l t a :
  tree_inv d l t → num_new_leaves t = 0 → 0 ≤ a →
  compute_merkle_path a t = Ok (hex <$> siblings l a 0 d).
Proof using Hd.
  intros Hinv Hclean Ha. unfold compute_merkle_path.
  rewrite (proj2 (Z.eqb_neq _ _)) by lia. rewrite (ti_depth _ _ _ Hinv).
  unfold py_range. rewrite Nat2Z.id. by apply merkle_path_loop_spec.
Qed.
End with_inv.

(** ** Binding

    The binding theorems are constructive: where two different values would have
    the same root, a function of the two computations returns the collision. *)

Definition hash_pair (p : bytes * bytes) : bytes := tree_hash p.1 p.2.

(** Two distinct pairs with the same hash. *)
Definition is_collision (c : (bytes * bytes) * (bytes * bytes)) : Prop :=
  c.1 ≠ c.2 ∧ hash_pair c.1 = hash_pair c.2.

#[global] Instance is_collision_dec c : Decision (is_collision c).
Proof. apply _. Defined.

Lemma not_collision_eq p q : ¬ is_collision (p, q) → hash_pair p = hash_pair q → p = q.
Proof. intros Hc Heq. destruct (decide (p = q)); [done|]. by destruct Hc. Qed.

Definition children (l : list bytes) (h : nat) (i : Z) : bytes * bytes :=
  (node l h (2 * i), node l h (2 * i + 1)).

(** The first collision on the way from the root down to the leaf [j], in the
    trees of height [h] over [l1] and [l2]. *)
Fixpoint tree_collision (l1 l2 : list bytes) (h : nat) (j : Z)
    : option ((bytes * bytes) * (bytes * bytes)) :=
  match h with
  | O => None
  | S h =>
      let i := j / 2 ^ Z.of_nat (S h) in
      let c := (children l1 h i, children l2 h i) in
      if decide (is_collision c) then Some c else tree_collision l1 l2 h j
  end.

Lemma tree_binding l1 l2 (h : nat) j : 0 ≤ j →
  node l1 h (j / 2 ^ Z.of_nat h) = node l2 h (j / 2 ^ Z.of_nat h) →
  node l1 0 j = node l2 0 j ∨ ∃ c, tree_collision l1 l2 h j = Some c ∧ is_collision c.
Proof.
  intros Hj. induction h as [|h IH]; intros Heq.
  - left. by rewrite Z.div_1_r in Heq.
  - cbn [tree_collision]. case_decide as Hc; [right; eauto|]. apply IH.
    set (i := j / 2 ^ Z.of_nat (S h)) in *.
    assert (children l1 h i = children l2 h i) as Hch by by apply not_collision_eq.
    injection Hch as H1 H2. pose proof (half_odd (j / 2 ^ Z.of_nat h)) as Hodd.
    rewrite <- floor_S in Hodd. fold i in Hodd. rewrite Hodd.
    destruct (Z.odd _); [done|]. by rewrite Z.add_0_r.
Qed.

(** The first collision on the way up from the value [v] at the address [a],
    between the path and the tree over [l]. *)
Fixpoint path_collision (l : list bytes) (h : nat) (a : Z) (v : bytes) (path : list bytes)
    : option ((bytes * bytes) * (bytes * bytes)) :=
  match path with
  | [] => None
  | s :: path =>
      let p := if Z.odd a then (s, v) else (v, s) in
      let c := (p, children l h (a / 2)) in
      if decide (is_collision c) then Some c
      else path_collision l (S h) (a / 2) (hash_pair p) path
  end.

Lemma path_binding (path : list bytes) l (h : nat) a v :
  path_root v a path = node l (h + length path) (a / 2 ^ Z.of_nat (length path)) →
  v = node l h a ∨ ∃ c, path_collision l h a v path = Some c ∧ is_collision c.
Proof.
  revert h a v. induction path as [|s path IH]; intros h a v Heq.
  - simpl in Heq. rewrite Nat.add_0_r, Z.div_1_r in Heq. by left.
  - cbn [path_root length] in Heq. replace (h + S (length path))%nat with (S h + length path)%nat in Heq by lia.
    rewrite pow2_S, <- Z.div_div in Heq by (pose proof (pow2_pos (length path)); lia).
    cbn [path_collision]. set (p := if Z.odd a then (s, v) else (v, s)).
    assert ((if Z.odd a then tree_hash s v else tree_hash v s) = hash_pair p) as Hp
      by (unfold p; by destruct (Z.odd a)).
    rewrite Hp in Heq. apply IH in Heq. case_decide as Hc; [right; eauto|].
    destruct Heq as [Heq|]; [|by right]. left.
    assert (p = children l h (a / 2)) as Hpc by by apply not_collision_eq.
    unfold p, children in Hpc. pose proof (half_odd a) as Ha.
    destruct (Z.odd a); injection Hpc; rewrite ?Z.add_0_r in Ha; rewrite Ha at 3; done.
Qed.
End facts.

(** ** Persistence *)

Lemma to_list_bytes_str l : _to_list_bytes (_to_list_str l) = Ok l.
Proof.
  unfold _to_list_bytes, _to_list_str. induction l as [|x l IH]; [done|].
  rewrite fmap_cons, mapM_cons_res, fromhex_hex. cbn [mbind result_bind]. by rewrite IH.
Qed.

Lemma mapM_as_str (l : list str) : mapM as_str (JStr <$> l) = Ok l.
Proof. induction l as [|x l IH]; [done|]. rewrite fmap_cons, mapM_cons_res. simpl. by rewrite IH. Qed.

Lemma data_json_roundtrip d : data_from_json_dict (data_to_json_dict d) = Ok d.
Proof.
  destruct d as [dep dv layers]. unfold data_from_json_dict, data_to_json_dict.
  cbn [data_depth data_default_values data_layers jget].
  change (assoc (lit "depth") _) with (Some (JInt dep)).
  change (assoc (lit "default_values") _) with (Some (JList (JStr <$> _to_list_str dv))).
  match goal with |- context [assoc (lit "layers") [_; _; (_, ?j)]] =>
    change (assoc (lit "layers") _) with (Some j) end.
  cbn [of_option mbind result_bind as_int as_list].
  rewrite mapM_as_str. cbn [mbind result_bind]. rewrite to_list_bytes_str. cbn [mbind result_bind].
  assert (∀ ls, mapM (λ layer, l ← as_list layer; ss ← mapM as_str l; _to_list_bytes ss)
    ((λ layer, JList (JStr <$> _to_list_str layer)) <$> ls) = Ok ls) as ->; [|done].
  induction ls as [|x ls IH]; [done|]. rewrite fmap_cons, mapM_cons_res. cbn [mbind result_bind as_list].
  rewrite mapM_as_str. cbn [mbind result_bind]. rewrite to_list_bytes_str. cbn [mbind result_bind].
  by rewrite IH.
Qed.

Section persistence.
Context `{ITreeHash} (d : nat) (Hd : (1 ≤ d < 1024)%nat).

Lemma int_log2_pow2 : int_log2 (2 ^ Z.of_nat d) = Ok (Z.of_nat d).
Proof.
  unfold int_log2. pose proof (pow2_pos d). rewrite (proj2 (Z.leb_gt _ _)) by lia.
  by rewrite Z.log2_pow2 by lia.
Qed.

Lemma open_tree_checks (m : fs) (filename : str) :
  open_tree m filename (2 ^ Z.of_nat d) =
  (data ← (if exists_file filename m then
            j ← read_json filename m;
            data ← data_from_json_dict j;
            _ ← py_assert (Z.of_nat d =? data_depth data);
            Ok data
          else _empty_data_with_depth (Z.of_nat d));
   Ok (new_merkle_tree data (Z.of_nat d))).
Proof using Hd.
  unfold open_tree. rewrite int_log2_pow2. cbn [mbind result_bind]. unfold raise_if.
  rewrite (proj2 (Z.leb_gt _ _)) by lia. cbn [mbind result_bind].
  rewrite (py_assert_true (2 ^ _ =? _)) by (by apply Z.eqb_eq). done.
Qed.

Lemma open_save_inv (m : fs) (filename : str) l t :
  tree_inv d l t → num_new_leaves t = 0 →
  open_tree (save_tree filename t m) filename (2 ^ Z.of_nat d) = Ok t.
Proof using Hd.
  intros Hinv Hclean. rewrite open_tree_checks. unfold save_tree.
  rewrite (proj2 (exists_file_true _ _)) by (unfold write_file; rewrite lookup_insert_eq; eauto).
  rewrite read_write_json. cbn [mbind result_bind]. rewrite data_json_roundtrip. cbn [mbind result_bind].
  rewrite (ti_data_depth _ _ _ Hinv), Z.eqb_refl. cbn [py_assert mbind result_bind].
  destruct t as [mx dep data k]. unfold new_merkle_tree. destruct Hinv. simpl in *. congruence.
Qed.

Lemma open_fresh (m : fs) (filename : str) :
  m !! filename = None → open_tree m filename (2 ^ Z.of_nat d) = empty_with_depth (Z.of_nat d).
Proof using Hd.
  intros Hm. rewrite open_tree_checks. by rewrite (proj2 (exists_file_false _ _)).
Qed.
End persistence.

(** ** Reachable trees *)

(** The trees a client can hold: created empty, extended and recomputed, and
    reopened from the file a clean tree was saved to. *)
Inductive tree_reach `{ITreeHash} (d : nat) : list bytes → MerkleTree → Prop :=
| reach_empty t : empty_with_depth (Z.of_nat d) = Ok t → tree_reach d [] t
| reach_insert l t v t' : tree_reach d l t → insert t v = Ok t' → tree_reach d (l ++ [v]) t'
| reach_recompute l t r t' :
    tree_reach d l t → recompute_root t = Ok (r, t') → tree_reach d l t'
| reach_reopen l t t' (m : fs) (filename : str) :
    tree_reach d l t → num_new_leaves t = 0 →
    open_tree (save_tree filename t m) filename (2 ^ Z.of_nat d) = Ok t' → tree_reach d l t'.

Section claims.
Context `{ITreeHash} (d : nat).
Context (Hd : (1 ≤ d ≤ 52)%nat).

Lemma insert_cases l t v : tree_inv d l t →
  (zlen l < 2 ^ Z.of_nat d ∧ ∃ t', insert t v = Ok t' ∧ tree_inv d (l ++ [v]) t') ∨
  (zlen l = 2 ^ Z.of_nat d ∧ insert t v = Err AssertionError).
Proof using Hd.
  intros Hinv. destruct (Z.lt_ge_cases (zlen l) (2 ^ Z.of_nat d)) as [Hlt|Hge].
  - left. split; [done|]. destruct (insert_inv d ltac:(lia) l t v Hinv Hlt) as (t' & ? & ? & _). eauto.
  - right. pose proof (ti_full _ _ _ Hinv). assert (zlen l = 2 ^ Z.of_nat d) by lia.
    split; [done|]. by apply (insert_full d l).
Qed.

Lemma tree_reach_inv l t : tree_reach d l t → tree_inv d l t.
Proof using Hd.
  induction 1 as [t Hok | l t v t' _ IH Hok | l t r t' _ IH Hok | l t t' m f _ IH Hclean Hok].
  - destruct (empty_inv d ltac:(lia)) as (t' & Heq & ? & _). congruence.
  - destruct (insert_cases l t v IH) as [(_ & t'' & ? & ?)|(_ & ?)]; congruence.
  - destruct (recompute_root_inv d ltac:(lia) l t ltac:(lia) IH) as (t'' & ? & ? & _). congruence.
  - rewrite (open_save_inv d ltac:(lia) m f l t IH Hclean) in Hok. congruence.
Qed.

Lemma insert_all_inv vs l t : tree_inv d l t → zlen l + zlen vs ≤ 2 ^ Z.of_nat d →
  ∃ t', foldM insert t vs = Ok t' ∧ tree_inv d (l ++ vs) t'.
Proof using Hd.
  revert l t. induction vs as [|v vs IH]; intros l t Hinv Hlen.
  - exists t. rewrite app_nil_r. done.
  - unfold zlen in *. cbn [length] in Hlen. cbn [foldM].
    destruct (insert_inv d ltac:(lia) l t v Hinv) as (t1 & -> & Hinv1 & _); [unfold zlen; lia|].
    cbn [mbind result_bind]. destruct (IH (l ++ [v]) t1 Hinv1) as (t' & -> & Hinv').
    { rewrite length_app. simpl. lia. }
    exists t'. split; [done|]. by rewrite <- app_assoc in Hinv'.
Qed.
End claims.

(** A batch of insertions followed by a recomputation, as [Wallet] does it. *)
Definition add_batch `{ITreeHash} (t : MerkleTree) (vs : list bytes) : result MerkleTree :=
  t ← foldM insert t vs;
  '(_, t) ← recompute_root t;
  Ok t.

Lemma add_batches_inv `{ITreeHash} (d : nat) (Hd : (1 ≤ d ≤ 52)%nat) batches l t :
  tree_inv d l t → num_new_leaves t = 0 → zlen l + zlen (concat batches) ≤ 2 ^ Z.of_nat d →
  ∃ t', foldM add_batch t batches = Ok t' ∧ tree_inv d (l ++ concat batches) t' ∧ num_new_leaves t' = 0.
Proof.
  revert l t. induction batches as [|b bs IH]; intros l t Hinv Hclean Hlen.
  - exists t. simpl. rewrite app_nil_r. done.
  - cbn [concat] in *. rewrite zlen_app in Hlen. pose proof (zlen_nonneg (concat bs)).
    destruct (insert_all_inv d Hd b l t Hinv) as (t1 & Hb & Hinv1); [lia|].
    destruct (recompute_root_inv d ltac:(lia) (l ++ b) t1 ltac:(lia) Hinv1) as (t2 & Hr & Hinv2 & Hc2).
    cbn [foldM].
    assert (add_batch t b = Ok t2) as ->.
    { unfold add_batch. rewrite Hb. cbn [mbind result_bind]. by rewrite Hr. }
    cbn [mbind result_bind]. destruct (IH (l ++ b) t2 Hinv2 Hc2) as (t' & -> & ? & ?).
    { rewrite zlen_app. lia. }
    exists t'. by rewrite app_assoc.
Qed.

(** ** Properties *)

(** C1: building the tree in batches (each batch of [insert]s followed by
    [recompute_root]) never fails while the leaves fit, stores exactly the leaves
    in order and ends with the root of the reference tree over all of them: the
    incremental computation is equivalent to hashing the whole padded tree. *)
Theorem merkle_batches_root `{ITreeHash} (d : nat) (batches : list (list bytes))
  (Hd : (1 ≤ d ≤ 52)%nat) (Hfit : zlen (concat batches) ≤ 2 ^ Z.of_nat d) :
  ∃ t0 t, empty_with_depth (Z.of_nat d) = Ok t0 ∧ foldM add_batch t0 batches = Ok t ∧
    get_leaves t = Ok (concat batches) ∧
    get_root t = Ok (spec_root d (concat batches)).
Proof.
  destruct (empty_inv d ltac:(lia)) as (t0 & H0 & Hinv & Hclean).
  destruct (add_batches_inv d Hd batches [] t0 Hinv Hclean) as (t & Ht & Hinv' & Hclean'); [done|].
  exists t0, t. split_and!; [done | done | by apply (inv_get_leaves d) | ].
  by apply (get_root_inv d); [lia|..].
Qed.

(** Every tree reachable by [insert], [recompute_root] and saving and
    reopening satisfies the layer invariant; [recompute_root] succeeds on it and
    returns the reference root of its leaves, and [insert] fails, with the
    assertion of the code, exactly when the tree is full. *)
Theorem merkle_reachable `{ITreeHash} (d : nat) l t (v : bytes)
  (Hd : (1 ≤ d ≤ 52)%nat) (Hr : tree_reach d l t) :
  tree_inv d l t ∧
  (∃ t', recompute_root t = Ok (spec_root d l, t') ∧ get_root t' = Ok (spec_root d l)) ∧
  (insert t v = Err AssertionError ↔ zlen l = 2 ^ Z.of_nat d).
Proof.
  pose proof (tree_reach_inv d Hd l t Hr) as Hinv. split; [done|]. split.
  - destruct (recompute_root_inv d ltac:(lia) l t ltac:(lia) Hinv) as (t' & ? & ? & ?).
    exists t'. split; [done|]. by apply (get_root_inv d); [lia|..].
  - destruct (insert_cases d Hd l t v Hinv) as [(Hlt & t' & -> & _)|(-> & ->)]; [|done].
    split; [done | lia].
Qed.

(** In a clean tree, [compute_merkle_path] returns one sibling per level and
    folding them over the leaf, by the bits of its address, gives [get_root]. *)
Theorem merkle_path_authenticates `{ITreeHash} (d : nat) l t a
  (Hd : (1 ≤ d ≤ 52)%nat) (Hr : tree_reach d l t) (Hclean : num_new_leaves t = 0)
  (Ha : 0 ≤ a < 2 ^ Z.of_nat d) :
  ∃ leaf path, get_leaf t a = Ok leaf ∧ compute_merkle_path a t = Ok (hex <$> path) ∧
    length path = d ∧ get_root t = Ok (path_root leaf a path).
Proof.
  pose proof (tree_reach_inv d Hd l t Hr) as Hinv. pose proof (proj1 Hd) as Hd1.
  exists (node l 0 a), (siblings l a 0 d). split_and!.
  - apply (get_leaf_inv d l t a Hinv). lia.
  - apply (compute_merkle_path_inv d Hd1 l t a Hinv Hclean). lia.
  - apply length_siblings.
  - rewrite path_root_siblings, Z.div_small by lia. by apply (get_root_inv d); [lia|..].
Qed.

(** A path of the tree's depth that authenticates a value against the root
    of a clean tree either authenticates the leaf the tree holds at that address,
    or [path_collision] finds on it a collision of the tree hash. *)
Theorem merkle_path_sound `{ITreeHash} (d : nat) l t a v path
  (Hd : (1 ≤ d ≤ 52)%nat) (Hr : tree_reach d l t) (Hclean : num_new_leaves t = 0)
  (Ha : 0 ≤ a < 2 ^ Z.of_nat d) (Hlen : length path = d)
  (Hroot : get_root t = Ok (path_root v a path)) :
  get_leaf t a = Ok v ∨ ∃ c, path_collision l 0 a v path = Some c ∧ is_collision c.
Proof.
  pose proof (tree_reach_inv d Hd l t Hr) as Hinv.
  rewrite (get_root_inv d ltac:(lia) l t Hinv Hclean) in Hroot. injection Hroot as Hroot.
  destruct (path_binding path l 0 a v) as [->|]; [|left|by right].
  - rewrite Hlen, Z.div_small by lia. done.
  - apply (get_leaf_inv d l t a Hinv). lia.
Qed.

(** C35: two clean trees of the same depth with the same root hold the same leaf
    at every address, or [tree_collision] finds a collision of the tree hash among
    the nodes above that address. *)
Theorem merkle_root_binding `{ITreeHash} (d : nat) l1 l2 t1 t2 a
  (Hd : (1 ≤ d ≤ 52)%nat) (Hr1 : tree_reach d l1 t1) (Hr2 : tree_reach d l2 t2)
  (Hc1 : num_new_leaves t1 = 0) (Hc2 : num_new_leaves t2 = 0)
  (Heq : get_root t1 = get_root t2) (Ha : 0 ≤ a < 2 ^ Z.of_nat d) :
  get_leaf t1 a = get_leaf t2 a ∨ ∃ c, tree_collision l1 l2 d a = Some c ∧ is_collision c.
Proof.
  pose proof (tree_reach_inv d Hd l1 t1 Hr1) as Hi1.
  pose proof (tree_reach_inv d Hd l2 t2 Hr2) as Hi2.
  rewrite (get_root_inv d ltac:(lia) l1 t1 Hi1 Hc1), (get_root_inv d ltac:(lia) l2 t2 Hi2 Hc2) in Heq.
  injection Heq as Heq. rewrite (get_leaf_inv d l1 t1 a Hi1) by lia.
  rewrite (get_leaf_inv d l2 t2 a Hi2) by lia.
  destruct (tree_binding l1 l2 d a) as [->|]; [lia | | by left | by right].
  by rewrite Z.div_small by lia.
Qed.

(** Saving a clean tree and opening the file again gives the tree back,
    whatever else the file system holds; opening a missing file gives the empty
    tree of the requested size. *)
Theorem merkle_persist_roundtrip `{ITreeHash} (d : nat) (l : list bytes) (t : MerkleTree) (m : fs) (filename : str)
  (Hd : (1 ≤ d ≤ 52)%nat) (Hr : tree_reach d l t) (Hclean : num_new_leaves t = 0) :
  open_tree (save_tree filename t m) filename (2 ^ Z.of_nat d) = Ok t ∧
  open_tree (delete filename m) filename (2 ^ Z.of_nat d) = empty_with_depth (Z.of_nat d).
Proof.
  split.
  - apply (open_save_inv d ltac:(lia) m filename l); [|done]. by apply tree_reach_inv.
  - apply open_fresh; [lia|]. apply lookup_delete_eq.
Qed.

(** ** A concrete tree: three leaves, depth two, a linear hash *)

Module Sample.
#[local] Instance toy_tree : ITreeHash := λ l r, to_be 32 (int_from_bytes l + 3 * int_from_bytes r + 1).

Definition leaf (n : Z) : bytes := to_be 32 n.
Definition leaves : list bytes := [leaf 7; leaf 8; leaf 9].

Definition dummy : MerkleTree := mkMerkleTree 0 0 (mkMerkleTreeData 0 [] []) 0.
Definition tree : MerkleTree :=
  match (t ← empty_with_depth 2; add_batch t leaves) with Ok t => t | Err _ => dummy end.

Lemma tree_reachable : tree_reach 2 leaves tree.
Proof.
  set (t0 := match empty_with_depth 2 with Ok t => t | Err _ => dummy end).
  set (ins t v := match insert t v with Ok t => t | Err _ => dummy end).
  set (t3 := ins (ins (ins t0 (leaf 7)) (leaf 8)) (leaf 9)).
  apply (reach_recompute 2 leaves t3 (spec_root 2 leaves)); [|by vm_compute].
  apply (reach_insert 2 [leaf 7; leaf 8] (ins (ins t0 (leaf 7)) (leaf 8))); [|by vm_compute].
  apply (reach_insert 2 [leaf 7] (ins t0 (leaf 7))); [|by vm_compute].
  apply (reach_insert 2 [] t0); [|by vm_compute].
  apply reach_empty. by vm_compute.
Qed.

Lemma merkle_batches_root_witness : ∃ t0 t, empty_with_depth 2 = Ok t0 ∧
  foldM add_batch t0 [[leaf 7]; []; [leaf 8; leaf 9]] = Ok t ∧
  get_leaves t = Ok leaves ∧ get_root t = Ok (spec_root 2 leaves).
Proof. apply (merkle_batches_root 2 [[leaf 7]; []; [leaf 8; leaf 9]]); [lia | vm_compute; done]. Defined.

Lemma merkle_reachable_witness : tree_inv 2 leaves tree ∧
  (∃ t', recompute_root tree = Ok (spec_root 2 leaves, t') ∧ get_root t' = Ok (spec_root 2 leaves)) ∧
  (insert tree (leaf 1) = Err AssertionError ↔ zlen leaves = 2 ^ 2).
Proof. apply (merkle_reachable 2 leaves tree (leaf 1)); [lia | apply tree_reachable]. Defined.

Lemma merkle_path_authenticates_witness :
  ∃ lf path, get_leaf tree 2 = Ok lf ∧ compute_merkle_path 2 tree = Ok (hex <$> path) ∧
    length path = 2%nat ∧ get_root tree = Ok (path_root lf 2 path).
Proof.
  apply (merkle_path_authenticates 2 leaves tree 2);
    [lia | apply tree_reachable | by vm_compute | lia].
Defined.

Lemma merkle_path_sound_witness : get_leaf tree 2 = Ok (leaf 9) ∨
  ∃ c, path_collision leaves 0 2 (leaf 9) (siblings leaves 2 0 2) = Some c ∧ is_collision c.
Proof.
  apply (merkle_path_sound 2 leaves tree 2 (leaf 9) (siblings leaves 2 0 2));
    [lia | apply tree_reachable | by vm_compute | lia | done | by vm_compute].
Defined.

Lemma merkle_root_binding_witness : get_leaf tree 1 = get_leaf tree 1 ∨
  ∃ c, tree_collision leaves leaves 2 1 = Some c ∧ is_collision c.
Proof.
  apply (merkle_root_binding 2 leaves leaves tree tree 1);
    [lia | apply tree_reachable | apply tree_reachable | by vm_compute | by vm_compute | done | lia].
Defined.

Lemma merkle_persist_roundtrip_witness :
  open_tree (save_tree (lit "t") tree ∅) (lit "t") 4 = Ok tree ∧
  open_tree (delete (lit "t") ∅) (lit "t") 4 = empty_with_depth 2.
Proof.
  apply (merkle_persist_roundtrip 2 leaves tree ∅ (lit "t"));
    [lia | apply tree_reachable | by vm_compute].
Defined.
End Sample.
