(* ===== verification/MimcFacts.v ===== *)
(** * Correctness of MiMC and of the input hasher

    The cipher runs through the constants [generate_round_constants] returns, is
    a permutation of the field for every key, and the hashes built on it are
    total, in range and, for [InputHasher], collision resistant up to the
    compression function. *)

From Stdlib Require Import ZArith Lia Ascii String Strings.Byte Znumtheory ZmodInv Zpow_facts.
From stdpp Require Import base tactics list strings.
From S2P Require Import Prelude PyStr PyBytes Hashes Constants MerkleTree Mimc.

Local Open Scope Z_scope.

(** ** The 17th power modulo a prime *)

(** [17] has an inverse modulo [p - 1]. *)
Lemma exponent_inverse p : 2 ≤ p → Z.gcd 17 (p - 1) = 1 →
  ∃ e k, 0 ≤ e ∧ 0 ≤ k ∧ 17 * e = 1 + k * (p - 1).
Proof.
  intros Hp Hg. destruct (Z.eq_dec p 2) as [->|Hne].
  { exists 1, 16. lia. }
  destruct (Z.gcd_bezout 17 (p - 1) 1 Hg) as (u & v & Huv).
  exists (u mod (p - 1)). pose proof (Z.mod_pos_bound u (p - 1) ltac:(lia)) as Hm.
  pose proof (Z.div_mod u (p - 1) ltac:(lia)) as Hdm.
  exists (- v - 17 * (u / (p - 1))).
  assert (17 * (u mod (p - 1)) = 1 + (- v - 17 * (u / (p - 1))) * (p - 1)) as He by nia.
  split_and!; [lia | | done].
  destruct (Z.lt_ge_cases (- v - 17 * (u / (p - 1))) 0); [nia | lia].
Qed.

Lemma pow17_inverse p : Z.prime p → Z.gcd 17 (p - 1) = 1 →
  ∃ e, 0 ≤ e ∧ ∀ x, ((x ^ 17) mod p) ^ e mod p = x mod p.
Proof.
  intros Hp Hg. pose proof (Z.prime_ge_2 p Hp) as H2.
  destruct (exponent_inverse p H2 Hg) as (e & k & He & Hk & Heq).
  exists e. split; [done|]. intros x.
  rewrite <- Zpower_mod by lia. rewrite <- Z.pow_mul_r by lia. rewrite Heq.
  rewrite Z.pow_add_r, Z.pow_1_r, (Z.mul_comm k), Z.pow_mul_r by nia.
  destruct (Z.eq_dec (x mod p) 0) as [Hz|Hnz].
  - rewrite Z.mul_mod, Hz by lia. simpl. by rewrite Z.mod_0_l by lia.
  - rewrite Z.mul_mod, (Zpower_mod (x ^ (p - 1))) by lia.
    rewrite Z.fermat_nz by done. rewrite Z.pow_1_l by lia.
    rewrite (Z.mod_small 1) by lia. by rewrite Z.mul_1_r, Zmod_mod.
Qed.

Lemma mimc17_round_inj p m1 m2 k rc : Z.prime p → Z.gcd 17 (p - 1) = 1 →
  mimc17_round p m1 k rc = mimc17_round p m2 k rc → m1 mod p = m2 mod p.
Proof.
  intros Hp Hg Heq. pose proof (Z.prime_ge_2 p Hp).
  destruct (pow17_inverse p Hp Hg) as (e & _ & He).
  assert ((m1 + k + rc) mod p = (m2 + k + rc) mod p) as Hs.
  { rewrite <- (He (m1 + k + rc)), <- (He (m2 + k + rc)). unfold mimc17_round in Heq. by rewrite Heq. }
  apply (f_equal (λ z, (z - (k + rc)) mod p)) in Hs. cbv beta in Hs.
  rewrite !Zminus_mod_idemp_l in Hs.
  by replace (m1 + k + rc - (k + rc)) with m1 in Hs by lia;
    replace (m2 + k + rc - (k + rc)) with m2 in Hs by lia.
Qed.

Lemma rounds_inj p key rcs m1 m2 : Z.prime p → Z.gcd 17 (p - 1) = 1 →
  foldl (λ r c, mimc17_round p r key c) m1 rcs mod p =
  foldl (λ r c, mimc17_round p r key c) m2 rcs mod p → m1 mod p = m2 mod p.
Proof.
  intros Hp Hg. revert m1 m2. induction rcs as [|c rcs IH]; intros m1 m2 Heq; [done|].
  simpl in Heq. apply IH in Heq. unfold mimc17_round in Heq. rewrite !Zmod_mod in Heq.
  by apply (mimc17_round_inj p m1 m2 key c).
Qed.

(** The round as the comment of [mimc_round] spells it out. *)
Definition mimc17_round_manual (p message key rc : Z) : Z :=
  let a := (message + key + rc) mod p in
  let a_2 := (a * a) mod p in
  let a_4 := (a_2 * a_2) mod p in
  let a_8 := (a_4 * a_4) mod p in
  let a_16 := (a_8 * a_8) mod p in
  (a_16 * a) mod p.

Lemma mimc17_round_manual_eq p message key rc :
  mimc17_round_manual p message key rc = mimc17_round p message key rc.
Proof.
  unfold mimc17_round_manual, mimc17_round. set (x := message + key + rc).
  assert (∀ y, (y mod p * (y mod p)) mod p = (y * y) mod p) as Hsq by (intros y; by rewrite <- Zmult_mod).
  cbv zeta. rewrite (Hsq x), (Hsq (x * x)), (Hsq (x * x * (x * x))), Hsq, <- Zmult_mod.
  f_equal. ring.
Qed.

(** ** Round constants *)

Section facts.
Context (keccak_256 : bytes → bytes) `{!Digest256 keccak_256}.

Definition next_rc (rc : Z) : Z := _keccak_256 keccak_256 (to_be 32 rc).

Fixpoint rc_list (n : nat) (rc : Z) : list Z :=
  match n with O => [] | S n => next_rc rc :: rc_list n (next_rc rc) end.

Lemma keccak_range b : 0 ≤ _keccak_256 keccak_256 b < 2 ^ 256.
Proof using Type*. apply digest256_range. done. Qed.

Lemma update_rc_ok rc : 0 ≤ rc < 2 ^ 256 → _update_round_constant keccak_256 rc = Ok (next_rc rc).
Proof. intros Hrc. unfold _update_round_constant, _int_to_bytes32. by rewrite int_to_bytes_Ok. Qed.

Lemma next_rc_range rc : 0 ≤ next_rc rc < 2 ^ 256.
Proof using Type*. apply keccak_range. Qed.

Lemma length_rc_list n rc : length (rc_list n rc) = n.
Proof. revert rc. induction n; intros; simpl; auto. Qed.

Lemma encrypt_rounds_spec self n res key rc : 0 ≤ rc < 2 ^ 256 →
  encrypt_rounds keccak_256 self n res key rc =
  Ok (foldl (λ r c, mimc_round self r key c) res (rc_list n rc)).
Proof using Type*.
  revert res rc. induction n as [|n IH]; intros res rc Hrc; [done|].
  cbn [encrypt_rounds]. rewrite update_rc_ok by done. cbn [mbind result_bind].
  rewrite IH by apply next_rc_range. done.
Qed.

Lemma gen_loop_spec {A} (l : list A) acc rc : 0 ≤ rc < 2 ^ 256 → ∃ rc',
  foldM (λ '(rcs, rc) _, rc ← _update_round_constant keccak_256 rc; Ok (rcs ++ [rc], rc))
    (acc, rc) l = Ok (acc ++ rc_list (length l) rc, rc').
Proof using Type*.
  revert acc rc. induction l as [|x l IH]; intros acc rc Hrc.
  - exists rc. cbn. by rewrite app_nil_r.
  - cbn [foldM]. rewrite update_rc_ok by done. cbn [mbind result_bind].
    destruct (IH (acc ++ [next_rc rc]) (next_rc rc) (next_rc_range rc)) as (rc' & ->).
    exists rc'. by rewrite <- app_assoc.
Qed.

Lemma generate_round_constants_spec s b n : encode_ascii s = Ok b → 1 ≤ n →
  generate_round_constants keccak_256 s n =
  Ok (0 :: rc_list (Z.to_nat (n - 1)) (_keccak_256 keccak_256 b)).
Proof using Type*.
  intros Hs Hn. unfold generate_round_constants. rewrite Hs. cbn [mbind result_bind].
  destruct (gen_loop_spec (py_range (n - 1)) [0] _ (keccak_range b)) as (rc' & ->).
  cbn [mbind result_bind]. unfold py_range. rewrite length_fmap, length_seq.
  rewrite py_assert_true; [done|]. apply Z.eqb_eq. unfold zlen. simpl. rewrite length_rc_list. lia.
Qed.

Lemma generate_round_constants_nonpos s b n : encode_ascii s = Ok b → n ≤ 0 →
  generate_round_constants keccak_256 s n = Err AssertionError.
Proof using Type*.
  intros Hs Hn. unfold generate_round_constants. rewrite Hs. cbn [mbind result_bind].
  destruct (gen_loop_spec (py_range (n - 1)) [0] _ (keccak_range b)) as (rc' & ->).
  cbn [mbind result_bind]. unfold py_range. rewrite length_fmap, length_seq.
  replace (Z.to_nat (n - 1)) with 0%nat by lia. unfold py_assert.
  by rewrite (proj2 (Z.eqb_neq _ _)) by (unfold zlen; simpl; lia).
Qed.

(** ** The cipher and the compression function *)

(** A well-formed object: a seed from a digest and a positive modulus. *)
Record mimc_wf (self : MiMCBase) : Prop := {
  mw_seed : 0 ≤ seed self < 2 ^ 256;
  mw_prime : 0 < prime self
}.

Definition all_rounds (self : MiMCBase) (m key : Z) : Z :=
  foldl (λ r c, mimc_round self r key c) m
    (0 :: rc_list (Z.to_nat (num_rounds self - 1)) (seed self)).

Lemma encrypt_spec self m ek : mimc_wf self →
  encrypt keccak_256 self m ek =
  Ok ((all_rounds self (m mod prime self) (ek mod prime self) + ek mod prime self) mod prime self).
Proof using Type*.
  intros []. unfold encrypt. by rewrite encrypt_rounds_spec.
Qed.

Lemma hash_int_ok self x y : mimc_wf self → x < prime self → y < prime self →
  ∃ h, hash_int keccak_256 self x y = Ok h ∧ 0 ≤ h < prime self.
Proof using Type*.
  intros Hwf Hx Hy. unfold hash_int.
  rewrite (proj2 (Z.ltb_lt x _)), (proj2 (Z.ltb_lt y _)) by done. cbn [mbind result_bind py_assert].
  rewrite encrypt_spec by done. cbn [mbind result_bind]. eexists. split; [done|].
  apply Z.mod_pos_bound. apply Hwf.
Qed.

Lemma hash_int_err self x y : prime self ≤ x ∨ prime self ≤ y →
  hash_int keccak_256 self x y = Err AssertionError.
Proof.
  intros Hxy. unfold hash_int. destruct (x <? prime self) eqn:E; [|done]. prop_bool.
  destruct Hxy; [lia|]. by rewrite (proj2 (Z.ltb_ge y _)) by done.
Qed.

Lemma hash_int_range self x y h : mimc_wf self → hash_int keccak_256 self x y = Ok h →
  x < prime self ∧ y < prime self ∧ 0 ≤ h < prime self.
Proof using Type*.
  intros Hwf Hh.
  destruct (Z.lt_ge_cases x (prime self)); [|by rewrite hash_int_err in Hh by auto].
  destruct (Z.lt_ge_cases y (prime self)); [|by rewrite hash_int_err in Hh by auto].
  destruct (hash_int_ok self x y) as (h' & Heq & ?); [done..|]. rewrite Hh in Heq.
  injection Heq as ->. done.
Qed.

Lemma mimc_hash_ok self l r : mimc_wf self → prime self ≤ 2 ^ 256 →
  ∃ h, hash_int keccak_256 self (int_from_bytes l mod prime self) (int_from_bytes r mod prime self) = Ok h ∧
    0 ≤ h < prime self ∧ mimc_hash keccak_256 self l r = Ok (to_be 32 h).
Proof using Type*.
  intros Hwf Hp. pose proof (mw_prime _ Hwf).
  pose proof (Z.mod_pos_bound (int_from_bytes l) (prime self) ltac:(lia)).
  pose proof (Z.mod_pos_bound (int_from_bytes r) (prime self) ltac:(lia)).
  destruct (hash_int_ok self (int_from_bytes l mod prime self) (int_from_bytes r mod prime self))
    as (h & Hh & ?); [done | lia | lia |].
  exists h. split; [done|]. split; [done|]. unfold mimc_hash. rewrite Hh. cbn [mbind result_bind].
  apply int_to_bytes_Ok. change (256 ^ Z.of_nat 32) with (2 ^ 256). lia.
Qed.

Lemma mimc_tree_hash_spec self l r : mimc_wf self → prime self ≤ 2 ^ 256 →
  mimc_hash keccak_256 self l r = Ok (mimc_tree_hash keccak_256 self l r) ∧
  length (mimc_tree_hash keccak_256 self l r) = 32%nat ∧
  0 ≤ int_from_bytes (mimc_tree_hash keccak_256 self l r) < prime self ∧
  ∀ l' r', int_from_bytes l' mod prime self = int_from_bytes l mod prime self →
    int_from_bytes r' mod prime self = int_from_bytes r mod prime self →
    mimc_tree_hash keccak_256 self l' r' = mimc_tree_hash keccak_256 self l r.
Proof using Type*.
  intros Hwf Hp. destruct (mimc_hash_ok self l r Hwf Hp) as (h & Hh & Hr & Hm).
  assert (mimc_tree_hash keccak_256 self l r = to_be 32 h) as -> by (unfold mimc_tree_hash; by rewrite Hm).
  split_and!; [done | apply length_to_be | | |].
  1-2: rewrite int_from_to_be, Z.mod_small; [lia|]; change (256 ^ Z.of_nat 32) with (2 ^ 256); lia.
  intros l' r' El Er. unfold mimc_tree_hash, mimc_hash. rewrite El, Er, Hh. cbn [mbind result_bind].
  by rewrite int_to_bytes_Ok by (change (256 ^ Z.of_nat 32) with (2 ^ 256); lia).
Qed.

Lemma mimc17_wf s p n self : 0 < p → mimc17 keccak_256 s p n = Ok self →
  mimc_wf self ∧ prime self = p ∧ num_rounds self = n ∧ mimc_round self = mimc17_round p.
Proof using Type*.
  intros Hp Hs. unfold mimc17 in Hs. destruct (encode_ascii s); [|done]. simpl in Hs.
  injection Hs as <-. split; [|done]. split; [apply keccak_range | done].
Qed.
End facts.

(** ** The input hasher *)

Section input_hasher.
Context (keccak_256 : bytes → bytes) {HD : Digest256 keccak_256}.
Context (self : InputHasher) (Hwf : mimc_wf (compression_fn self)) (Hiv : iv self < prime (compression_fn self)).

Local Abbreviation hash2 := (hash_int keccak_256 (compression_fn self)).
Local Abbreviation p := (prime (compression_fn self)).

Lemma chain_ok values c : c < p → Forall (λ v, v < p) values →
  ∃ c', foldM hash2 c values = Ok c' ∧ c' < p.
Proof using Hwf HD.
  intros Hc Hv. revert c Hc. induction Hv as [|v values Hlt _ IH]; intros c Hc; [eauto|].
  cbn [foldM]. destruct (hash_int_ok keccak_256 (compression_fn self) c v) as (h & -> & ?); [done..|].
  cbn [mbind result_bind]. apply IH. lia.
Qed.

Lemma chain_err values c : c < p → ¬ Forall (λ v, v < p) values →
  foldM hash2 c values = Err AssertionError.
Proof using Hwf HD.
  revert c. induction values as [|v values IH]; intros c Hc Hv; [destruct Hv; constructor|].
  cbn [foldM]. destruct (Z.lt_ge_cases v p) as [Hlt|Hge].
  - destruct (hash_int_ok keccak_256 (compression_fn self) c v) as (h & -> & ?); [done..|].
    cbn [mbind result_bind]. apply IH; [lia|]. intros Hall. apply Hv. by constructor.
  - by rewrite hash_int_err by auto.
Qed.

(** Two distinct inputs of the compression function with the same output. *)
Definition comp_collision (c : (Z * Z) * (Z * Z)) : Prop :=
  c.1 ≠ c.2 ∧ is_ok (hash2 c.1.1 c.1.2) = true ∧ hash2 c.1.1 c.1.2 = hash2 c.2.1 c.2.2.

#[global] Instance comp_collision_dec c : Decision (comp_collision c).
Proof. apply _. Defined.

(** The first collision of two chains run side by side. *)
Fixpoint chain_collision (c1 c2 : Z) (xs ys : list Z) : option ((Z * Z) * (Z * Z)) :=
  match xs, ys with
  | x :: xs, y :: ys =>
      if decide (comp_collision ((c1, x), (c2, y))) then Some ((c1, x), (c2, y))
      else match hash2 c1 x, hash2 c2 y with
           | Ok c1, Ok c2 => chain_collision c1 c2 xs ys
           | _, _ => None
           end
  | _, _ => None
  end.

Lemma chain_binding xs ys c1 c2 r : length xs = length ys →
  foldM hash2 c1 xs = Ok r → foldM hash2 c2 ys = Ok r →
  (c1 = c2 ∧ xs = ys) ∨ ∃ c, chain_collision c1 c2 xs ys = Some c ∧ comp_collision c.
Proof using Type.
  revert ys c1 c2. induction xs as [|x xs IH]; intros [|y ys] c1 c2 Hl H1 H2; try done.
  { cbn in H1, H2. left. split; [congruence | done]. }
  cbn [foldM] in H1, H2. cbn [chain_collision]. case_decide as Hc; [right; eauto|].
  apply bind_Ok_inv in H1 as (d1 & E1 & H1). apply bind_Ok_inv in H2 as (d2 & E2 & H2).
  rewrite E1, E2. destruct (IH ys d1 d2) as [[-> ->]|]; [by injection Hl | done | done | | by right].
  left. destruct (decide ((c1, x) = (c2, y))) as [E|Hne]; [by injection E as -> -> |].
  destruct Hc. split; [done|]. simpl. rewrite E1, E2. done.
Qed.

(** The collision behind two inputs with the same hash. *)
Definition input_collision (vs ws : list Z) : option ((Z * Z) * (Z * Z)) :=
  if decide (length vs = length ws) then
    chain_collision (iv self) (iv self) (vs ++ [zlen vs]) (ws ++ [zlen ws])
  else match foldM hash2 (iv self) vs, foldM hash2 (iv self) ws with
       | Ok c1, Ok c2 => Some ((c1, zlen vs), (c2, zlen ws))
       | _, _ => None
       end.

Lemma input_hash_chain values :
  input_hash keccak_256 self values = foldM hash2 (iv self) (values ++ [zlen values]).
Proof using Type.
  unfold input_hash. rewrite foldM_app. destruct (foldM _ _ values) as [c|]; [|done].
  cbn [mbind result_bind foldM]. by destruct (hash2 c (zlen values)).
Qed.

Lemma input_binding vs ws h : input_hash keccak_256 self vs = Ok h → input_hash keccak_256 self ws = Ok h →
  vs = ws ∨ ∃ c, input_collision vs ws = Some c ∧ comp_collision c.
Proof using Type.
  intros H1 H2. unfold input_collision. case_decide as Hlen.
  - rewrite input_hash_chain in H1, H2.
    destruct (chain_binding (vs ++ [zlen vs]) (ws ++ [zlen ws]) (iv self) (iv self) h)
      as [[_ E]|]; [by rewrite !length_app, Hlen | done | done | left | by right].
    by apply app_inj_tail in E as [-> _].
  - right. unfold input_hash in H1, H2.
    apply bind_Ok_inv in H1 as (c1 & -> & H1). apply bind_Ok_inv in H2 as (c2 & -> & H2).
    eexists. split; [done|]. unfold comp_collision. simpl. rewrite H1, H2. split; [|done].
    intros E. injection E. unfold zlen. lia.
Qed.
End input_hasher.

(** ** Properties *)

(** C39: for a prime modulus [p] with 17 prime to [p - 1] the cipher is, under
    every key, a permutation of the field: it never fails, its outputs are field
    elements and two messages have the same ciphertext exactly when they are the
    same field element.  17 is prime to [r - 1] for both curves of the code. *)
Theorem mimc_permutation (keccak_256 : bytes → bytes) `{!Digest256 keccak_256}
  (s : str) (p n : Z) (self : MiMCBase) (m1 m2 ek : Z)
  (Hp : Z.prime p) (Hg : Z.gcd 17 (p - 1) = 1) (Hs : mimc17 keccak_256 s p n = Ok self) :
  (∃ c, encrypt keccak_256 self m1 ek = Ok c ∧ 0 ≤ c < p) ∧
  (encrypt keccak_256 self m1 ek = encrypt keccak_256 self m2 ek ↔ m1 mod p = m2 mod p) ∧
  Z.gcd 17 (ALT_BN128_R - 1) = 1 ∧ Z.gcd 17 (BLS12_377_R - 1) = 1.
Proof.
  pose proof (Z.prime_ge_2 p Hp) as H2.
  destruct (mimc17_wf keccak_256 s p n self ltac:(lia) Hs) as (Hwf & Ep & En & Er).
  rewrite !(encrypt_spec keccak_256) by done. rewrite Ep. split; [|split; [|done]].
  - eexists. split; [done|]. apply Z.mod_pos_bound. lia.
  - split; [|by intros ->]. intros Heq. injection Heq as Heq. unfold all_rounds in Heq. rewrite Er in Heq.
    apply (f_equal (λ z, (z - ek mod p) mod p)) in Heq. cbv beta in Heq.
    rewrite !Zminus_mod_idemp_l, !Z.add_simpl_r in Heq.
    apply rounds_inj in Heq; [|done..]. by rewrite !Zmod_mod in Heq.
Qed.

(** Encryption runs exactly the rounds of [generate_round_constants] in
    order, starting with the constant 0, and adds the key at the end; with no
    round to run the constants are refused by the assertion of the code. *)
Theorem mimc_encrypt_round_constants (keccak_256 : bytes → bytes) `{!Digest256 keccak_256}
  (s : str) (p n : Z) (self : MiMCBase) (m ek : Z)
  (Hp : 0 < p) (Hs : mimc17 keccak_256 s p n = Ok self) :
  (1 ≤ n → ∃ rcs, generate_round_constants keccak_256 s n = Ok rcs ∧ zlen rcs = n ∧ head rcs = Some 0 ∧
    encrypt keccak_256 self m ek =
      Ok ((foldl (λ r rc, mimc17_round_manual p r (ek mod p) rc) (m mod p) rcs + ek mod p) mod p)) ∧
  (n ≤ 0 → generate_round_constants keccak_256 s n = Err AssertionError).
Proof.
  destruct (mimc17_wf keccak_256 s p n self Hp Hs) as (Hwf & Ep & En & Er).
  unfold mimc17 in Hs. destruct (encode_ascii s) as [b|] eqn:Eb; [|done]. cbn in Hs. injection Hs as Hs.
  split; intros Hn; [|by apply generate_round_constants_nonpos with b].
  exists (0 :: rc_list keccak_256 (Z.to_nat (n - 1)) (_keccak_256 keccak_256 b)).
  split_and!; [by apply generate_round_constants_spec | | done |].
  { unfold zlen. simpl. rewrite length_rc_list. lia. }
  rewrite (encrypt_spec keccak_256) by done. unfold all_rounds. rewrite Ep, En, Er, <- Hs. cbn [seed].
  do 3 f_equal. generalize (m mod p). generalize (0 :: rc_list keccak_256 (Z.to_nat (n - 1)) (_keccak_256 keccak_256 b)).
  intros l. induction l as [|c l IH]; intros z; [done|]. simpl. by rewrite mimc17_round_manual_eq.
Qed.

(** The tree hash selected for a pairing exists for the two supported
    pairings and no other, never raises, and returns 32 bytes that encode a field
    element; it depends only on the residues of its arguments. *)
Theorem mimc_tree_hash_total (keccak_256 : bytes → bytes) `{!Digest256 keccak_256} (name : str) :
  match get_tree_hash_for_pairing keccak_256 name with
  | Ok self => (name = lit "alt-bn128" ∧ prime self = ALT_BN128_R ∨
                name = lit "bls12-377" ∧ prime self = BLS12_377_R) ∧
      ∀ l r, mimc_hash keccak_256 self l r = Ok (mimc_tree_hash keccak_256 self l r) ∧
        length (mimc_tree_hash keccak_256 self l r) = 32%nat ∧
        0 ≤ int_from_bytes (mimc_tree_hash keccak_256 self l r) < prime self ∧
        ∀ l' r', int_from_bytes l' mod prime self = int_from_bytes l mod prime self →
          int_from_bytes r' mod prime self = int_from_bytes r mod prime self →
          mimc_tree_hash keccak_256 self l' r' = mimc_tree_hash keccak_256 self l r
  | Err e => name ≠ lit "alt-bn128" ∧ name ≠ lit "bls12-377" ∧ e = Exception "no tree hash for pairing"
  end.
Proof.
  unfold get_tree_hash_for_pairing. case_decide as E1; [|case_decide as E2; [|done]].
  - destruct (MiMCAltBN128 keccak_256 MIMC_MT_SEED) as [self|] eqn:E; [|done].
    apply mimc17_wf in E as (Hwf & Ep & _ & _); [|done..]. split; [by left|]. intros l r.
    apply (mimc_tree_hash_spec keccak_256); [done|]. by rewrite Ep.
  - destruct (MiMCBLS12_377 keccak_256 MIMC_MT_SEED) as [self|] eqn:E; [|done].
    apply mimc17_wf in E as (Hwf & Ep & _ & _); [|done..]. split; [by right|]. intros l r.
    apply (mimc_tree_hash_spec keccak_256); [done|]. by rewrite Ep.
Qed.

(** An [InputHasher] hashes every list of field elements whose length is
    below the modulus, refuses any other with the assertion of the compression
    function, and two lists with the same hash are equal or yield a collision of
    the compression function. *)
Theorem input_hasher_correct (keccak_256 : bytes → bytes) `{!Digest256 keccak_256}
  (s : str) (p n iv0 : Z) (m : MiMCBase) (self : InputHasher) (vs ws : list Z)
  (Hp : 0 < p) (Hm : mimc17 keccak_256 s p n = Ok m) (Hself : new_InputHasher m iv0 = Ok self) :
  (Forall (λ v, v < p) vs ∧ zlen vs < p →
     ∃ h, input_hash keccak_256 self vs = Ok h ∧ 0 ≤ h < p) ∧
  (¬ (Forall (λ v, v < p) vs ∧ zlen vs < p) →
     input_hash keccak_256 self vs = Err AssertionError) ∧
  (∀ h, input_hash keccak_256 self vs = Ok h → input_hash keccak_256 self ws = Ok h →
     vs = ws ∨ ∃ c, input_collision keccak_256 self vs ws = Some c ∧ comp_collision keccak_256 self c).
Proof.
  destruct (mimc17_wf keccak_256 s p n m Hp Hm) as (Hwf & Ep & _ & _).
  unfold new_InputHasher in Hself. inv_ok. subst self.
  assert (iv0 mod prime m < prime m) as Hiv by (apply Z.mod_pos_bound; lia).
  set (self := mkInputHasher m (iv0 mod prime m)) in *. split_and!.
  - intros [Hvs Hlen]. unfold input_hash.
    destruct (chain_ok keccak_256 self Hwf vs (iv0 mod prime m) Hiv) as (c & Hc & ?).
    { cbn. by rewrite Ep. }
    cbn in *. rewrite Hc. cbn [mbind result_bind].
    destruct (hash_int_ok keccak_256 m c (zlen vs)) as (h & -> & ?); [done | done | lia |].
    exists h. rewrite <- Ep. done.
  - intros Hn. unfold input_hash. cbn [iv compression_fn self].
    destruct (decide (Forall (λ v, v < p) vs)) as [Hvs|Hvs].
    + destruct (chain_ok keccak_256 self Hwf vs (iv0 mod prime m) Hiv) as (c & Hc & ?).
      { cbn. by rewrite Ep. }
      cbn in *. rewrite Hc. cbn [mbind result_bind]. apply hash_int_err. right.
      rewrite Ep. destruct (Z.lt_ge_cases (zlen vs) p); [tauto | done].
    + pose proof (chain_err keccak_256 self Hwf vs (iv0 mod prime m) Hiv) as He. cbn in He.
      rewrite He by by rewrite Ep. done.
  - intros h H1 H2. by apply (input_binding keccak_256 self vs ws h).
Qed.

(** ** Concrete instances

    SHA-256 stands in for Keccak-256 and 19 for the field modulus. *)

Module MimcSample.
Lemma prime_19 : Z.prime 19.
Proof.
  split; [lia|]. intros n Hn [k Hk].
  assert (n = 2 ∨ n = 3 ∨ n = 4 ∨ n = 5 ∨ n = 6 ∨ n = 7 ∨ n = 8 ∨ n = 9 ∨ n = 10 ∨ n = 11 ∨
    n = 12 ∨ n = 13 ∨ n = 14 ∨ n = 15 ∨ n = 16 ∨ n = 17 ∨ n = 18) as Hc by lia.
  repeat destruct Hc as [->|Hc]; subst; lia.
Qed.

Definition mimc : MiMCBase := mkMiMC (_keccak_256 sha256 [Byte.x61]) 19 5 (mimc17_round 19).

Lemma mimc_permutation_witness :
  (∃ c, encrypt sha256 mimc 3 7 = Ok c ∧ 0 ≤ c < 19) ∧
  (encrypt sha256 mimc 3 7 = encrypt sha256 mimc 22 7 ↔ 3 mod 19 = 22 mod 19) ∧
  Z.gcd 17 (ALT_BN128_R - 1) = 1 ∧ Z.gcd 17 (BLS12_377_R - 1) = 1.
Proof. apply (mimc_permutation sha256 (lit "a") 19 5 mimc 3 22 7); [apply prime_19 | done | done]. Defined.

Lemma mimc_encrypt_round_constants_witness :
  (1 ≤ 5 → ∃ rcs, generate_round_constants sha256 (lit "a") 5 = Ok rcs ∧ zlen rcs = 5 ∧ head rcs = Some 0 ∧
    encrypt sha256 mimc 3 7 =
      Ok ((foldl (λ r rc, mimc17_round_manual 19 r (7 mod 19) rc) (3 mod 19) rcs + 7 mod 19) mod 19)) ∧
  (5 ≤ 0 → generate_round_constants sha256 (lit "a") 5 = Err AssertionError).
Proof. apply (mimc_encrypt_round_constants sha256 (lit "a") 19 5 mimc 3 7); [lia | done]. Defined.

Definition hasher : InputHasher := mkInputHasher mimc (DEFAULT_IV_UINT256 mod 19).

Lemma input_hasher_correct_witness :
  (Forall (λ v, v < 19) [1; 2] ∧ zlen [1; 2] < 19 →
     ∃ h, input_hash sha256 hasher [1; 2] = Ok h ∧ 0 ≤ h < 19) ∧
  (¬ (Forall (λ v, v < 19) [1; 2] ∧ zlen [1; 2] < 19) →
     input_hash sha256 hasher [1; 2] = Err AssertionError) ∧
  (∀ h, input_hash sha256 hasher [1; 2] = Ok h → input_hash sha256 hasher [3] = Ok h →
     [1; 2] = [3] ∨ ∃ c, input_collision sha256 hasher [1; 2] [3] = Some c ∧ comp_collision sha256 hasher c).
Proof.
  apply (input_hasher_correct sha256 (lit "a") 19 5 DEFAULT_IV_UINT256 mimc hasher [1; 2] [3]); [lia | done | done].
Defined.
Lemma mimc_tree_hash_total_witness :
  match get_tree_hash_for_pairing sha256 (lit "alt-bn128") with
  | Ok self => prime self = ALT_BN128_R ∧
      ∀ l r, 0 ≤ int_from_bytes (mimc_tree_hash sha256 self l r) < prime self
  | Err _ => False
  end.
Proof.
  pose proof (mimc_tree_hash_total sha256 (lit "alt-bn128")) as Ht.
  destruct (get_tree_hash_for_pairing sha256 (lit "alt-bn128")) as [self|e].
  - destruct Ht as [[[_ Hp]|[Hn _]] Hh]; [|discriminate Hn]. split; [exact Hp|].
    intros l r. exact (proj1 (proj2 (proj2 (Hh l r)))).
  - destruct Ht as [Hn _]. exact (Hn eq_refl).
Defined.
End MimcSample.
