(* ===== verification/Pairing.v ===== *)
(** * Pairing types ([client/zeth/core/pairing.py])

    Group points are kept as the hex texts of their coordinates.  The file models
    their JSON and protobuf forms, their flattening into EVM words for contract
    calls and the negation of points, with the lemmas that say what numbers the
    texts denote. *)

From Stdlib Require Import ZArith Lia Ascii String Strings.Byte.
From stdpp Require Import base tactics list strings.
From S2P Require Import Prelude PyStr PyBytes PyFloat PyIO Utils.

Local Open Scope Z_scope.

Record G1Point : Type := mkG1 { g1_x : str; g1_y : str }.

(** A coordinate of a [G2Point]: in the base field or in an extension. *)
Inductive coord : Type :=
| CBase (s : str)
| CExt (l : list str).

Record G2Point : Type := mkG2 { g2_x : coord; g2_y : coord }.

#[export] Instance G1Point_eq_dec : EqDecision G1Point.
Proof. solve_decision. Defined.
#[export] Instance coord_eq_dec : EqDecision coord.
Proof. solve_decision. Defined.
#[export] Instance G2Point_eq_dec : EqDecision G2Point.
Proof. solve_decision. Defined.

(** ** JSON *)

Definition json_of_coord (c : coord) : json :=
  match c with CBase s => JStr s | CExt l => JList (JStr <$> l) end.

Definition as_coord (j : json) : result coord :=
  match j with
  | JStr s => Ok (CBase s)
  | JList l => CExt <$> mapM as_str l
  | _ => Err TypeError
  end.

Definition g1_to_json_list (g1 : G1Point) : json := JList [JStr (g1_x g1); JStr (g1_y g1)].

Definition g1_from_json_list (j : json) : result G1Point :=
  l ← as_list j;
  x ← py_get l 0; x ← as_str x;
  y ← py_get l 1; y ← as_str y;
  Ok (mkG1 x y).

Definition g2_to_json_list (g2 : G2Point) : json :=
  JList [json_of_coord (g2_x g2); json_of_coord (g2_y g2)].

Definition g2_from_json_list (j : json) : result G2Point :=
  l ← as_list j;
  x ← py_get l 0; x ← as_coord x;
  y ← py_get l 1; y ← as_coord y;
  Ok (mkG2 x y).

(** ** Protobuf messages: [Group1Point] and [Group2Point] *)

Record GroupPoint : Type := mkGroupPoint { x_coord : jtext; y_coord : jtext }.

(** A message field that was not set. *)
Definition unset_point : GroupPoint := mkGroupPoint None None.

(** [assert isinstance(x, str)] *)
Definition assert_str (j : json) : result str :=
  match j with JStr s => Ok s | _ => Err AssertionError end.

Definition g1_point_from_proto (point : GroupPoint) : result G1Point :=
  x ← loads (x_coord point);
  y ← loads (y_coord point);
  x ← assert_str x;
  y ← assert_str y;
  Ok (mkG1 x y).

Definition g1_point_to_proto (g1 : G1Point) : GroupPoint :=
  mkGroupPoint (dumps (JStr (g1_x g1))) (dumps (JStr (g1_y g1))).

Definition g2_point_from_proto (point : GroupPoint) : result G2Point :=
  x ← loads (x_coord point); x ← as_coord x;
  y ← loads (y_coord point); y ← as_coord y;
  Ok (mkG2 x y).

Definition g2_point_to_proto (g2 : G2Point) : GroupPoint :=
  mkGroupPoint (dumps (json_of_coord (g2_x g2))) (dumps (json_of_coord (g2_y g2))).

(** ** Contract parameters *)

Definition g1_point_to_contract_parameters (g1 : G1Point) : result (list Z) :=
  xs ← hex_to_uint256_list (g1_x g1);
  ys ← hex_to_uint256_list (g1_y g1);
  Ok (xs ++ ys).

(** The elements a coordinate iterates over: the characters of a text. *)
Definition coord_elements (c : coord) : list (nested str) :=
  match c with
  | CBase s => (λ ch : ascii, One [ch]) <$> s
  | CExt l => One <$> l
  end.

Definition g2_point_to_contract_parameters (g2 : G2Point) : result (list Z) :=
  match g2_x g2 with
  | CBase x =>
      match g2_y g2 with
      | CBase y =>
          xs ← hex_to_uint256_list x;
          ys ← hex_to_uint256_list y;
          Ok (xs ++ ys)
      | CExt _ => Err AssertionError
      end
  | CExt _ =>
      xs ← hex_list_to_uint256_list (coord_elements (g2_x g2));
      ys ← hex_list_to_uint256_list (coord_elements (g2_y g2));
      Ok (xs ++ ys)
  end.

(** ** Pairing parameters *)

(** The attribute [scalar_field_capacity] is not kept: only test code reads it. *)
Record PairingParameters : Type := mkPairing {
  pp_name : str;
  pp_r : str;
  pp_q : str;
  generator_g1 : G1Point;
  generator_g2 : G2Point
}.

(** The constructor takes the logarithm of [r], which must be positive. *)
Definition new_PairingParameters (name r q : str) (g1 : G1Point) (g2 : G2Point)
    : result PairingParameters :=
  rv ← int_of_str 16 r;
  _ ← raise_if (rv <=? 0) ValueError;
  Ok (mkPairing name r q g1 g2).

Definition scalar_field_mod (pp : PairingParameters) : result Z := int_of_str 16 (pp_r pp).
Definition base_field_mod (pp : PairingParameters) : result Z := int_of_str 16 (pp_q pp).

Definition pairing_to_json_dict (pp : PairingParameters) : json :=
  JDict [ (lit "name", JStr (pp_name pp));
          (lit "r", JStr (pp_r pp));
          (lit "q", JStr (pp_q pp));
          (lit "generator_g1", g1_to_json_list (generator_g1 pp));
          (lit "generator_g2", g2_to_json_list (generator_g2 pp)) ].

(** [as_str(j[k])] *)
Definition jget_str (k : str) (j : json) : result str := v ← jget k j; as_str v.

Definition pairing_from_json_dict (j : json) : result PairingParameters :=
  name ← jget_str (lit "name") j;
  r ← jget_str (lit "r") j;
  q ← jget_str (lit "q") j;
  g1 ← jget (lit "generator_g1") j; g1 ← g1_from_json_list g1;
  g2 ← jget (lit "generator_g2") j; g2 ← g2_from_json_list g2;
  new_PairingParameters name r q g1 g2.

Record PairingParametersProto : Type := mkPairingProto {
  ppp_name : str; ppp_r : str; ppp_q : str;
  ppp_generator_g1 : GroupPoint; ppp_generator_g2 : GroupPoint
}.

Definition pairing_parameters_from_proto (p : PairingParametersProto) : result PairingParameters :=
  g1 ← g1_point_from_proto (ppp_generator_g1 p);
  g2 ← g2_point_from_proto (ppp_generator_g2 p);
  new_PairingParameters (ppp_name p) (ppp_r p) (ppp_q p) g1 g2.

(** ** Negation *)

Definition field_element_negate (value_hex mod_hex : str) : result str :=
  '(m, num_bytes) ← int_and_bytelen_from_hex mod_hex;
  value ← int_of_str 16 value_hex;
  _ ← raise_if (m =? 0) ZeroDivisionError;
  let value := m - value mod m in
  int_to_hex value (Z.to_nat num_bytes).

Definition g1_point_negate (g1 : G1Point) (pp : PairingParameters) : result G1Point :=
  y ← field_element_negate (g1_y g1) (pp_q pp);
  Ok (mkG1 (g1_x g1) y).

Definition g2_point_negate (g2 : G2Point) (pp : PairingParameters) : result G2Point :=
  match g2_y g2 with
  | CBase y => y ← field_element_negate y (pp_q pp); Ok (mkG2 (g2_x g2) (CBase y))
  | CExt ys => ys ← mapM (λ y, field_element_negate y (pp_q pp)) ys; Ok (mkG2 (g2_x g2) (CExt ys))
  end.

(** ** Lemmas: serialisation *)

Lemma as_coord_json c : as_coord (json_of_coord c) = Ok c.
Proof.
  destruct c as [s|l]; [done|]. simpl. induction l as [|x l IH]; [done|].
  rewrite fmap_cons, mapM_cons_res. cbn [as_str mbind result_bind].
  destruct (mapM as_str (JStr <$> l)); [|done]. cbn in *. congruence.
Qed.

Lemma g1_json_roundtrip g1 : g1_from_json_list (g1_to_json_list g1) = Ok g1.
Proof. by destruct g1. Qed.

Lemma g2_json_roundtrip g2 : g2_from_json_list (g2_to_json_list g2) = Ok g2.
Proof.
  destruct g2 as [x y]. unfold g2_from_json_list, g2_to_json_list.
  change (as_list _) with (Ok [json_of_coord x; json_of_coord y]). cbn [mbind result_bind].
  change (py_get _ 0) with (Ok (json_of_coord x)). cbn [mbind result_bind].
  rewrite as_coord_json. cbn [mbind result_bind].
  change (py_get _ 1) with (Ok (json_of_coord y)). cbn [mbind result_bind].
  by rewrite as_coord_json.
Qed.

Lemma g1_proto_roundtrip g1 : g1_point_from_proto (g1_point_to_proto g1) = Ok g1.
Proof. by destruct g1. Qed.

Lemma g2_proto_roundtrip g2 : g2_point_from_proto (g2_point_to_proto g2) = Ok g2.
Proof.
  destruct g2 as [x y]. unfold g2_point_from_proto, g2_point_to_proto. cbn [x_coord y_coord g2_x g2_y].
  cbn [loads dumps of_option mbind result_bind]. rewrite as_coord_json. cbn [mbind result_bind].
  cbn [loads dumps of_option mbind result_bind]. by rewrite as_coord_json.
Qed.

#[export] Hint Rewrite g1_json_roundtrip g2_json_roundtrip g1_proto_roundtrip g2_proto_roundtrip
  as_coord_json : zeth_rw.

(** ** Lemmas: numbers *)

(** The text [0x..] of a field element of [n] bytes. *)
Definition hex_of (n : nat) (v : Z) : str := lit "0x" ++ hex (to_be n v).

Lemma int_of_hex_of n v : (0 < n)%nat → 0 ≤ v < 256 ^ Z.of_nat n → int_of_str 16 (hex_of n v) = Ok v.
Proof.
  intros Hn Hv. unfold hex_of. rewrite int_of_0x_hex.
  - by rewrite int_from_to_be, Z.mod_small.
  - intros E. apply (f_equal length) in E. rewrite length_to_be in E. simpl in E. lia.
Qed.

Lemma int_and_bytelen_hex_of n v : (0 < n)%nat → Z.of_nat n < 2 ^ 52 → 0 ≤ v < 256 ^ Z.of_nat n →
  int_and_bytelen_from_hex (hex_of n v) = Ok (v, Z.of_nat n).
Proof.
  intros Hn Hn2 Hv. unfold int_and_bytelen_from_hex.
  assert (zlen (hex_of n v) = 2 * Z.of_nat n + 2) as Hz.
  { unfold hex_of, zlen. rewrite length_app, length_hex, length_to_be. simpl. lia. }
  rewrite Hz. replace ((2 * Z.of_nat n + 2) mod 2) with 0
    by (apply (Z.mod_unique _ 2 (Z.of_nat n + 1)); lia).
  cbn [Z.eqb py_assert mbind result_bind].
  assert (startswith (lit "0x") (hex_of n v) = true) as -> by apply startswith_app.
  replace (2 * Z.of_nat n + 2 - 2) with (2 * Z.of_nat n) by lia.
  rewrite (int_truediv_exact _ 2) with (q := Z.of_nat n) by lia.
  cbn [mbind result_bind]. by rewrite int_of_hex_of.
Qed.

(** What [field_element_negate] computes. *)
Lemma field_element_negate_spec n k m v :
  (0 < n)%nat → (0 < k)%nat → Z.of_nat n < 2 ^ 52 → 0 < m < 256 ^ Z.of_nat n → 0 ≤ v < 256 ^ Z.of_nat k →
  field_element_negate (hex_of k v) (hex_of n m) = Ok (hex_of n (m - v mod m)).
Proof.
  intros Hn Hk Hn2 Hm Hv. unfold field_element_negate.
  rewrite int_and_bytelen_hex_of by lia. cbn [mbind result_bind].
  rewrite int_of_hex_of by done. cbn [mbind result_bind].
  unfold raise_if. rewrite (proj2 (Z.eqb_neq _ _)) by lia. cbn [mbind result_bind].
  pose proof (Z.mod_pos_bound v m ltac:(lia)). unfold int_to_hex.
  rewrite Nat2Z.id, int_to_bytes_Ok by lia. done.
Qed.

(** The words of a coordinate denote the coordinate. *)
Lemma hex_of_words n v : (0 < n)%nat → Z.of_nat n < 2 ^ 52 → 0 ≤ v < 256 ^ Z.of_nat n →
  ∃ ws, hex_to_uint256_list (hex_of n v) = Ok ws ∧ zlen ws = (2 * Z.of_nat n + 63) / 64 ∧
    Forall (λ w, 0 ≤ w < 2 ^ 256) ws ∧ num_of (2 ^ 256) ws = v.
Proof.
  intros Hn Hn2 Hv. destruct (hex_digits_hex (to_be n v)) as (ds & Hds & Hval).
  assert (zlen (hex (to_be n v)) = 2 * Z.of_nat n) as Hz.
  { unfold zlen. rewrite length_hex, length_to_be. lia. }
  destruct (hex_to_uint256_list_plain (hex (to_be n v)) ds) as (ws & Hw & Hl & Hr & Hn').
  { done. } { intros E. rewrite E in Hz. unfold zlen in Hz. simpl in Hz. lia. }
  { rewrite Hz, Z.mul_comm. apply Z_mod_mult. } { lia. }
  exists ws. rewrite Hz in Hl. split_and!; [|done|done|].
  - rewrite <- Hw. unfold hex_to_uint256_list, hex_of. rewrite startswith_app.
    rewrite (drop_app_length' (lit "0x")) by done.
    assert (startswith (lit "0x") (hex (to_be n v)) = false) as ->; [|done].
    unfold startswith. apply bool_decide_eq_false. intros E.
    apply (hex_digits_take 2) in Hds. change (length (lit "0x")) with 2%nat in E.
    rewrite E in Hds. vm_compute in Hds. done.
  - rewrite Hn', Hval, int_from_to_be. by apply Z.mod_small.
Qed.

(** [k] EVM words, most significant first. *)
Fixpoint to_words (k : nat) (v : Z) : list Z :=
  match k with O => [] | S k => to_words k (v / 2 ^ 256) ++ [v mod 2 ^ 256] end.

Arguments to_words : simpl never.

(** The number of words of a coordinate of [n] bytes. *)
Definition num_words (n : nat) : nat := Z.to_nat ((2 * Z.of_nat n + 63) / 64).

Lemma to_words_S k v : to_words (S k) v = to_words k (v / 2 ^ 256) ++ [v mod 2 ^ 256].
Proof. done. Qed.

Lemma length_to_words k v : length (to_words k v) = k.
Proof. revert v. induction k as [|k IH]; intros v; [done|]. rewrite to_words_S, length_app, IH. simpl. lia. Qed.

(** A list of words is determined by its length and its value. *)
Lemma to_words_num ws : Forall (λ w, 0 ≤ w < 2 ^ 256) ws →
  ws = to_words (length ws) (num_of (2 ^ 256) ws).
Proof.
  induction ws as [|w ws IH] using rev_ind; intros Hws; [done|].
  apply Forall_app in Hws as [Hws [Hw _]%Forall_cons].
  rewrite length_app, Nat.add_1_r, to_words_S, num_of_snoc.
  rewrite Z.add_comm, Z.mod_add, Z.div_add by done. rewrite (Z.mod_small w), (Z.div_small w) by done.
  by rewrite Z.add_0_l, <- IH.
Qed.

Lemma hex_of_to_words n v : (0 < n)%nat → Z.of_nat n < 2 ^ 52 → 0 ≤ v < 256 ^ Z.of_nat n →
  hex_to_uint256_list (hex_of n v) = Ok (to_words (num_words n) v).
Proof.
  intros Hn Hn2 Hv. destruct (hex_of_words n v Hn Hn2 Hv) as (ws & -> & Hl & Hr & Hval).
  rewrite (to_words_num ws Hr), Hval. do 2 f_equal. unfold num_words. rewrite <- Hl. unfold zlen. lia.
Qed.

(** ** Points given by numbers

    A point with coordinates of [n] bytes, each in the field or in an extension
    of it. *)

Definition g1_of (n : nat) (p : Z * Z) : G1Point := mkG1 (hex_of n p.1) (hex_of n p.2).

Definition g2_of (n : nat) (p : list Z * list Z) : G2Point :=
  mkG2 (CExt (hex_of n <$> p.1)) (CExt (hex_of n <$> p.2)).

Definition in_field (n : nat) (v : Z) : Prop := 0 ≤ v < 256 ^ Z.of_nat n.

Section numbers.
Context (n : nat) (Hn : (0 < n)%nat) (Hn2 : Z.of_nat n < 2 ^ 52).
Local Abbreviation words := (to_words (num_words n)).

Lemma g1_parameters p : in_field n p.1 → in_field n p.2 →
  g1_point_to_contract_parameters (g1_of n p) = Ok (words p.1 ++ words p.2).
Proof using Hn Hn2.
  intros H1 H2. unfold g1_point_to_contract_parameters, g1_of. cbn [g1_x g1_y].
  rewrite hex_of_to_words by done. cbn [mbind result_bind]. by rewrite hex_of_to_words.
Qed.

Lemma hex_list_words vs : Forall (in_field n) vs →
  hex_list_to_uint256_list (One <$> (hex_of n <$> vs)) = Ok (vs ≫= words).
Proof using Hn Hn2.
  intros Hvs. unfold hex_list_to_uint256_list.
  assert (string_list_flatten (One <$> (hex_of n <$> vs)) = hex_of n <$> vs) as ->.
  { clear Hvs. induction vs as [|v vs IH]; [done|]. rewrite !fmap_cons. unfold string_list_flatten.
    rewrite bind_cons. fold (string_list_flatten (One <$> (hex_of n <$> vs))). by rewrite IH. }
  induction Hvs as [|v vs Hv _ IH]; [done|]. rewrite fmap_cons, mapM_cons_res.
  rewrite hex_of_to_words by done. cbn [mbind result_bind].
  destruct (mapM hex_to_uint256_list (hex_of n <$> vs)) as [wss|]; [|done].
  cbn [mbind result_bind mret result_ret] in *. injection IH as IH. f_equal.
  change (mjoin (words v :: wss)) with (words v ++ mjoin wss). by rewrite IH, bind_cons.
Qed.

Lemma g2_parameters p : Forall (in_field n) p.1 → Forall (in_field n) p.2 →
  g2_point_to_contract_parameters (g2_of n p) = Ok ((p.1 ≫= words) ++ (p.2 ≫= words)).
Proof using Hn Hn2.
  intros H1 H2. unfold g2_point_to_contract_parameters, g2_of. cbn [g2_x g2_y coord_elements].
  rewrite hex_list_words by done. cbn [mbind result_bind]. by rewrite hex_list_words.
Qed.

(** [m - y mod m] on every coefficient. *)
Definition neg_mod (q y : Z) : Z := q - y mod q.

Lemma neg_mod_field q y : 0 < q < 256 ^ Z.of_nat n → in_field n (neg_mod q y).
Proof. intros. unfold in_field, neg_mod. pose proof (Z.mod_pos_bound y q ltac:(lia)). lia. Qed.

Lemma g2_negate_of q pp p : pp_q pp = hex_of n q → 0 < q < 256 ^ Z.of_nat n →
  Forall (in_field n) p.2 →
  g2_point_negate (g2_of n p) pp = Ok (g2_of n (p.1, neg_mod q <$> p.2)).
Proof using Hn Hn2.
  intros Hq Hqr Hy. unfold g2_point_negate, g2_of. cbn [g2_x g2_y fst snd].
  assert (mapM (λ y, field_element_negate y (pp_q pp)) (hex_of n <$> p.2) =
    Ok (hex_of n <$> (neg_mod q <$> p.2))) as ->; [|done].
  induction Hy as [|y ys Hy _ IH]; [done|]. rewrite !fmap_cons, mapM_cons_res, Hq.
  rewrite field_element_negate_spec by done. rewrite Hq in IH. cbn [mbind result_bind]. by rewrite IH.
Qed.
End numbers.

(** ** Properties *)

(** Negating a field element given by its hex text: the result has the
    length of the modulus, denotes the opposite of the value modulo the modulus
    and lies in (0, q]; it is canonical, and negating again gives the value back,
    exactly when the value is not zero, since zero is mapped to the modulus
    itself. *)
Theorem field_negate_correct (n : nat) (q v : Z)
  (Hn : 0 < Z.of_nat n < 2 ^ 52) (Hq : 0 < q < 256 ^ Z.of_nat n) (Hv : 0 ≤ v < q) :
  ∃ w, field_element_negate (hex_of n v) (hex_of n q) = Ok (hex_of n w) ∧
    int_of_str 16 (hex_of n w) = Ok w ∧ 0 < w ≤ q ∧ (v + w) mod q = 0 ∧
    (w = q ↔ v = 0) ∧
    (field_element_negate (hex_of n w) (hex_of n q) = Ok (hex_of n v) ↔ v ≠ 0).
Proof.
  exists (q - v mod q). rewrite Z.mod_small by lia.
  rewrite field_element_negate_spec by lia. rewrite Z.mod_small by lia.
  rewrite field_element_negate_spec by lia. split_and!; [done | | lia | lia | | |].
  - apply int_of_hex_of; lia.
  - replace (v + (q - v)) with q by lia. apply Z_mod_same_full.
  - lia.
  - destruct (Z.eq_dec v 0) as [->|Hne].
    + rewrite Z.sub_0_r, Z_mod_same_full, Z.sub_0_r. split; [|done]. intros E. injection E as E.
      assert (int_of_str 16 (hex_of n q) = int_of_str 16 (hex_of n 0)) as Ei by (unfold hex_of; by rewrite E).
      rewrite !int_of_hex_of in Ei by lia. injection Ei. lia.
    + rewrite Z.mod_small by lia. split; [done|]. intros _. do 2 f_equal. lia.
Qed.

Lemma field_negate_correct_witness :
  ∃ w, field_element_negate (hex_of 2 5) (hex_of 2 257) = Ok (hex_of 2 w) ∧
    int_of_str 16 (hex_of 2 w) = Ok w ∧ 0 < w ≤ 257 ∧ (5 + w) mod 257 = 0 ∧
    (w = 257 ↔ 5 = 0) ∧
    (field_element_negate (hex_of 2 w) (hex_of 2 257) = Ok (hex_of 2 5) ↔ 5 ≠ 0).
Proof. apply (field_negate_correct 2 257 5); lia. Defined.
