(* ===== verification/ZkSnark.v ===== *)
(** * zk-SNARK providers ([client/zeth/core/zksnark.py])

    The verification keys and proofs of Groth16 and PGHR13, their JSON and
    protobuf forms and their contract parameters.  A provider is the record
    [IZKSnarkProvider] of the operations of the abstract class; [SnarkLaws] states
    what the rest of the client relies on and is proved for both providers. *)

From Stdlib Require Import ZArith Lia Ascii String Strings.Byte.
From stdpp Require Import base tactics list strings.
From S2P Require Import Prelude PyStr PyBytes PyIO Constants Utils Pairing.

Local Open Scope Z_scope.

(** ** Keys and proofs *)

Module Groth16.
Record VerificationKey : Type := mkVK { alpha : G1Point; beta : G2Point; delta : G2Point; abc : list G1Point }.
Record Proof : Type := mkProof { a : G1Point; b : G2Point; c : G1Point }.

(** The messages [VerificationKeyGROTH16] and [ExtendedProofGROTH16]. *)
Record VKProto : Type := mkVKProto {
  alpha_g1 : GroupPoint; beta_g2 : GroupPoint; delta_g2 : GroupPoint; abc_g1 : jtext }.
Record ProofProto : Type := mkProofProto {
  p_a : GroupPoint; p_b : GroupPoint; p_c : GroupPoint; p_inputs : jtext }.
End Groth16.

Module PGHR13.
Record VerificationKey : Type := mkVK {
  a : G2Point; b : G1Point; c : G2Point; g : G2Point;
  gb1 : G1Point; gb2 : G2Point; z : G2Point; ic : list G1Point }.
Record Proof : Type := mkProof {
  pa : G1Point; pa_p : G1Point; pb : G2Point; pb_p : G1Point;
  pc : G1Point; pc_p : G1Point; ph : G1Point; pk : G1Point }.

(** The messages [VerificationKeyPGHR13] and [ExtendedProofPGHR13]. *)
Record VKProto : Type := mkVKProto {
  v_a : GroupPoint; v_b : GroupPoint; v_c : GroupPoint; v_gamma : GroupPoint;
  v_gamma_beta_g1 : GroupPoint; v_gamma_beta_g2 : GroupPoint; v_z : GroupPoint; v_ic : jtext }.
Record ProofProto : Type := mkProofProto {
  p_a : GroupPoint; p_a_p : GroupPoint; p_b : GroupPoint; p_b_p : GroupPoint;
  p_c : GroupPoint; p_c_p : GroupPoint; p_h : GroupPoint; p_k : GroupPoint; p_inputs : jtext }.
End PGHR13.

(** The subclasses of [IVerificationKey] and [IProof]. *)
Inductive IVerificationKey : Type :=
| VK_Groth16 (vk : Groth16.VerificationKey)
| VK_PGHR13 (vk : PGHR13.VerificationKey).

Inductive IProof : Type :=
| Proof_Groth16 (p : Groth16.Proof)
| Proof_PGHR13 (p : PGHR13.Proof).

Record ExtendedProof : Type := mkExtendedProof { proof : IProof; inputs : list str }.

(** The [oneof] of the messages [VerificationKey] and [ExtendedProof]. *)
Inductive VerificationKeyProto : Type :=
| VKProto_unset
| VKProto_groth16 (m : Groth16.VKProto)
| VKProto_pghr13 (m : PGHR13.VKProto).

Inductive ExtendedProofProto : Type :=
| EPProto_unset
| EPProto_groth16 (m : Groth16.ProofProto)
| EPProto_pghr13 (m : PGHR13.ProofProto).

(** Reading a member of a [oneof] that is not the one set gives an empty message. *)
Definition groth16_verification_key (m : VerificationKeyProto) : Groth16.VKProto :=
  match m with
  | VKProto_groth16 m => m
  | _ => Groth16.mkVKProto unset_point unset_point unset_point None
  end.
Definition pghr13_verification_key (m : VerificationKeyProto) : PGHR13.VKProto :=
  match m with
  | VKProto_pghr13 m => m
  | _ => PGHR13.mkVKProto unset_point unset_point unset_point unset_point
           unset_point unset_point unset_point None
  end.
Definition groth16_extended_proof (m : ExtendedProofProto) : Groth16.ProofProto :=
  match m with
  | EPProto_groth16 m => m
  | _ => Groth16.mkProofProto unset_point unset_point unset_point None
  end.
Definition pghr13_extended_proof (m : ExtendedProofProto) : PGHR13.ProofProto :=
  match m with
  | EPProto_pghr13 m => m
  | _ => PGHR13.mkProofProto unset_point unset_point unset_point unset_point
           unset_point unset_point unset_point unset_point None
  end.

(** ** JSON forms *)

Definition jget_g1 (k : string) (j : json) : result G1Point := v ← jget (lit k) j; g1_from_json_list v.
Definition jget_g2 (k : string) (j : json) : result G2Point := v ← jget (lit k) j; g2_from_json_list v.
Definition g1_list_from_json (j : json) : result (list G1Point) :=
  l ← as_list j; mapM g1_from_json_list l.
Definition g1_list_to_json (l : list G1Point) : json := JList (g1_to_json_list <$> l).
Definition strs_to_json (l : list str) : json := JList (JStr <$> l).
Definition strs_from_json (j : json) : result (list str) := l ← as_list j; mapM as_str l.

Definition groth16_vk_to_json (vk : Groth16.VerificationKey) : json :=
  JDict [ (lit "alpha", g1_to_json_list (Groth16.alpha vk));
          (lit "beta", g2_to_json_list (Groth16.beta vk));
          (lit "delta", g2_to_json_list (Groth16.delta vk));
          (lit "ABC", g1_list_to_json (Groth16.abc vk)) ].

Definition groth16_vk_from_json (j : json) : result Groth16.VerificationKey :=
  alpha ← jget_g1 "alpha" j;
  beta ← jget_g2 "beta" j;
  delta ← jget_g2 "delta" j;
  abc ← jget (lit "ABC") j; abc ← g1_list_from_json abc;
  Ok (Groth16.mkVK alpha beta delta abc).

Definition groth16_proof_to_json (p : Groth16.Proof) : json :=
  JDict [ (lit "a", g1_to_json_list (Groth16.a p));
          (lit "b", g2_to_json_list (Groth16.b p));
          (lit "c", g1_to_json_list (Groth16.c p)) ].

Definition groth16_proof_from_json (j : json) : result Groth16.Proof :=
  a ← jget_g1 "a" j; b ← jget_g2 "b" j; c ← jget_g1 "c" j;
  Ok (Groth16.mkProof a b c).

Definition pghr13_vk_to_json (vk : PGHR13.VerificationKey) : json :=
  JDict [ (lit "a", g2_to_json_list (PGHR13.a vk));
          (lit "b", g1_to_json_list (PGHR13.b vk));
          (lit "c", g2_to_json_list (PGHR13.c vk));
          (lit "g", g2_to_json_list (PGHR13.g vk));
          (lit "gb1", g1_to_json_list (PGHR13.gb1 vk));
          (lit "gb2", g2_to_json_list (PGHR13.gb2 vk));
          (lit "z", g2_to_json_list (PGHR13.z vk));
          (lit "ic", g1_list_to_json (PGHR13.ic vk)) ].

Definition pghr13_vk_from_json (j : json) : result PGHR13.VerificationKey :=
  a ← jget_g2 "a" j; b ← jget_g1 "b" j; c ← jget_g2 "c" j; g ← jget_g2 "g" j;
  gb1 ← jget_g1 "gb1" j; gb2 ← jget_g2 "gb2" j; z ← jget_g2 "z" j;
  ic ← jget (lit "ic") j; ic ← g1_list_from_json ic;
  Ok (PGHR13.mkVK a b c g gb1 gb2 z ic).

Definition pghr13_proof_to_json (p : PGHR13.Proof) : json :=
  JDict [ (lit "a", g1_to_json_list (PGHR13.pa p));
          (lit "a_p", g1_to_json_list (PGHR13.pa_p p));
          (lit "b", g2_to_json_list (PGHR13.pb p));
          (lit "b_p", g1_to_json_list (PGHR13.pb_p p));
          (lit "c", g1_to_json_list (PGHR13.pc p));
          (lit "c_p", g1_to_json_list (PGHR13.pc_p p));
          (lit "h", g1_to_json_list (PGHR13.ph p));
          (lit "k", g1_to_json_list (PGHR13.pk p)) ].

Definition pghr13_proof_from_json (j : json) : result PGHR13.Proof :=
  a ← jget_g1 "a" j; a_p ← jget_g1 "a_p" j; b ← jget_g2 "b" j; b_p ← jget_g1 "b_p" j;
  c ← jget_g1 "c" j; c_p ← jget_g1 "c_p" j; h ← jget_g1 "h" j; k ← jget_g1 "k" j;
  Ok (PGHR13.mkProof a a_p b b_p c c_p h k).

(** The method [to_json_dict] of the two abstract classes. *)
Definition vk_to_json_dict (vk : IVerificationKey) : json :=
  match vk with VK_Groth16 vk => groth16_vk_to_json vk | VK_PGHR13 vk => pghr13_vk_to_json vk end.
Definition proof_to_json_dict (p : IProof) : json :=
  match p with Proof_Groth16 p => groth16_proof_to_json p | Proof_PGHR13 p => pghr13_proof_to_json p end.

(** ** Protobuf forms *)

Definition groth16_vk_from_proto (vk_obj : VerificationKeyProto) : result IVerificationKey :=
  let vk := groth16_verification_key vk_obj in
  alpha ← g1_point_from_proto (Groth16.alpha_g1 vk);
  beta ← g2_point_from_proto (Groth16.beta_g2 vk);
  delta ← g2_point_from_proto (Groth16.delta_g2 vk);
  abc ← loads (Groth16.abc_g1 vk); abc ← g1_list_from_json abc;
  Ok (VK_Groth16 (Groth16.mkVK alpha beta delta abc)).

Definition groth16_vk_to_proto (vk : IVerificationKey) : result VerificationKeyProto :=
  match vk with
  | VK_Groth16 vk =>
      Ok (VKProto_groth16 (Groth16.mkVKProto
        (g1_point_to_proto (Groth16.alpha vk)) (g2_point_to_proto (Groth16.beta vk))
        (g2_point_to_proto (Groth16.delta vk)) (dumps (g1_list_to_json (Groth16.abc vk)))))
  | _ => Err AssertionError
  end.

Definition groth16_extended_proof_from_proto (m : ExtendedProofProto) : result ExtendedProof :=
  let p := groth16_extended_proof m in
  a ← g1_point_from_proto (Groth16.p_a p);
  b ← g2_point_from_proto (Groth16.p_b p);
  c ← g1_point_from_proto (Groth16.p_c p);
  i ← loads (Groth16.p_inputs p); i ← strs_from_json i;
  Ok (mkExtendedProof (Proof_Groth16 (Groth16.mkProof a b c)) i).

Definition groth16_extended_proof_to_proto (ep : ExtendedProof) : result ExtendedProofProto :=
  match proof ep with
  | Proof_Groth16 p =>
      Ok (EPProto_groth16 (Groth16.mkProofProto
        (g1_point_to_proto (Groth16.a p)) (g2_point_to_proto (Groth16.b p))
        (g1_point_to_proto (Groth16.c p)) (dumps (strs_to_json (inputs ep)))))
  | _ => Err AssertionError
  end.

Definition pghr13_vk_from_proto (vk_obj : VerificationKeyProto) : result IVerificationKey :=
  let vk := pghr13_verification_key vk_obj in
  a ← g2_point_from_proto (PGHR13.v_a vk);
  b ← g1_point_from_proto (PGHR13.v_b vk);
  c ← g2_point_from_proto (PGHR13.v_c vk);
  g ← g2_point_from_proto (PGHR13.v_gamma vk);
  gb1 ← g1_point_from_proto (PGHR13.v_gamma_beta_g1 vk);
  gb2 ← g2_point_from_proto (PGHR13.v_gamma_beta_g2 vk);
  z ← g2_point_from_proto (PGHR13.v_z vk);
  ic ← loads (PGHR13.v_ic vk); ic ← g1_list_from_json ic;
  Ok (VK_PGHR13 (PGHR13.mkVK a b c g gb1 gb2 z ic)).

Definition pghr13_vk_to_proto (vk : IVerificationKey) : result VerificationKeyProto :=
  Err (Exception "not implemented").

Definition pghr13_extended_proof_from_proto (m : ExtendedProofProto) : result ExtendedProof :=
  let p := pghr13_extended_proof m in
  a ← g1_point_from_proto (PGHR13.p_a p);
  a_p ← g1_point_from_proto (PGHR13.p_a_p p);
  b ← g2_point_from_proto (PGHR13.p_b p);
  b_p ← g1_point_from_proto (PGHR13.p_b_p p);
  c ← g1_point_from_proto (PGHR13.p_c p);
  c_p ← g1_point_from_proto (PGHR13.p_c_p p);
  h ← g1_point_from_proto (PGHR13.p_h p);
  k ← g1_point_from_proto (PGHR13.p_k p);
  i ← loads (PGHR13.p_inputs p); i ← strs_from_json i;
  Ok (mkExtendedProof (Proof_PGHR13 (PGHR13.mkProof a a_p b b_p c c_p h k)) i).

Definition pghr13_extended_proof_to_proto (ep : ExtendedProof) : result ExtendedProofProto :=
  match proof ep with
  | Proof_PGHR13 p =>
      Ok (EPProto_pghr13 (PGHR13.mkProofProto
        (g1_point_to_proto (PGHR13.pa p)) (g1_point_to_proto (PGHR13.pa_p p))
        (g2_point_to_proto (PGHR13.pb p)) (g1_point_to_proto (PGHR13.pb_p p))
        (g1_point_to_proto (PGHR13.pc p)) (g1_point_to_proto (PGHR13.pc_p p))
        (g1_point_to_proto (PGHR13.ph p)) (g1_point_to_proto (PGHR13.pk p))
        (dumps (strs_to_json (inputs ep)))))
  | _ => Err AssertionError
  end.

(** ** Contract parameters *)

(** The concatenation of lists of parameters, left to right. *)
Fixpoint concatM (l : list (result (list Z))) : result (list Z) :=
  match l with [] => Ok [] | x :: l => a ← x; b ← concatM l; Ok (a ++ b) end.

Definition g1s (l : list G1Point) : list (result (list Z)) := g1_point_to_contract_parameters <$> l.

Definition groth16_vk_to_contract_parameters (vk : IVerificationKey) (pp : PairingParameters)
    : result (list Z) :=
  match vk with
  | VK_Groth16 vk =>
      minus_beta ← g2_point_negate (Groth16.beta vk) pp;
      minus_delta ← g2_point_negate (Groth16.delta vk) pp;
      concatM ([ g1_point_to_contract_parameters (Groth16.alpha vk);
                 g2_point_to_contract_parameters minus_beta;
                 g2_point_to_contract_parameters minus_delta ] ++ g1s (Groth16.abc vk))
  | _ => Err AssertionError
  end.

Definition groth16_proof_to_contract_parameters (p : IProof) (pp : PairingParameters)
    : result (list Z) :=
  match p with
  | Proof_Groth16 p =>
      concatM [ g1_point_to_contract_parameters (Groth16.a p);
                g2_point_to_contract_parameters (Groth16.b p);
                g1_point_to_contract_parameters (Groth16.c p) ]
  | _ => Err AssertionError
  end.

Definition pghr13_vk_to_contract_parameters (vk : IVerificationKey) (pp : PairingParameters)
    : result (list Z) :=
  match vk with
  | VK_PGHR13 vk =>
      concatM ([ g2_point_to_contract_parameters (PGHR13.a vk);
                 g1_point_to_contract_parameters (PGHR13.b vk);
                 g2_point_to_contract_parameters (PGHR13.c vk);
                 g2_point_to_contract_parameters (PGHR13.g vk);
                 g1_point_to_contract_parameters (PGHR13.gb1 vk);
                 g2_point_to_contract_parameters (PGHR13.gb2 vk);
                 g2_point_to_contract_parameters (PGHR13.z vk) ] ++ g1s (PGHR13.ic vk))
  | _ => Err AssertionError
  end.

Definition pghr13_proof_to_contract_parameters (p : IProof) (pp : PairingParameters)
    : result (list Z) :=
  match p with
  | Proof_PGHR13 p =>
      concatM [ g1_point_to_contract_parameters (PGHR13.pa p);
                g1_point_to_contract_parameters (PGHR13.pa_p p);
                g2_point_to_contract_parameters (PGHR13.pb p);
                g1_point_to_contract_parameters (PGHR13.pb_p p);
                g1_point_to_contract_parameters (PGHR13.pc p);
                g1_point_to_contract_parameters (PGHR13.pc_p p);
                g1_point_to_contract_parameters (PGHR13.ph p);
                g1_point_to_contract_parameters (PGHR13.pk p) ]
  | _ => Err AssertionError
  end.

(** ** Providers *)

Definition PAIRING_NAME_TO_CONTRACT_NAME : list (str * str) :=
  [ (lit "alt-bn128", lit "AltBN128"); (lit "bls12-377", lit "BLS12_377") ].

Definition _contract_name (zksnark_name : str) (pp : PairingParameters) : result str :=
  n ← of_option KeyError (assoc (pp_name pp) PAIRING_NAME_TO_CONTRACT_NAME);
  Ok (lit "Mixer" ++ zksnark_name ++ n).

Record IZKSnarkProvider : Type := mkProvider {
  get_contract_name : PairingParameters → result str;
  verification_key_to_contract_parameters : IVerificationKey → PairingParameters → result (list Z);
  verification_key_from_proto : VerificationKeyProto → result IVerificationKey;
  verification_key_to_proto : IVerificationKey → result VerificationKeyProto;
  verification_key_from_json_dict : json → result IVerificationKey;
  proof_from_json_dict : json → result IProof;
  extended_proof_from_proto : ExtendedProofProto → result ExtendedProof;
  extended_proof_to_proto : ExtendedProof → result ExtendedProofProto;
  proof_to_contract_parameters : IProof → PairingParameters → result (list Z)
}.

Definition Groth16_provider : IZKSnarkProvider := {|
  get_contract_name := _contract_name (lit "Groth16");
  verification_key_to_contract_parameters := groth16_vk_to_contract_parameters;
  verification_key_from_proto := groth16_vk_from_proto;
  verification_key_to_proto := groth16_vk_to_proto;
  verification_key_from_json_dict := λ j, VK_Groth16 <$> groth16_vk_from_json j;
  proof_from_json_dict := λ j, Proof_Groth16 <$> groth16_proof_from_json j;
  extended_proof_from_proto := groth16_extended_proof_from_proto;
  extended_proof_to_proto := groth16_extended_proof_to_proto;
  proof_to_contract_parameters := groth16_proof_to_contract_parameters
|}.

Definition PGHR13_provider : IZKSnarkProvider := {|
  get_contract_name := _contract_name (lit "Pghr13");
  verification_key_to_contract_parameters := pghr13_vk_to_contract_parameters;
  verification_key_from_proto := pghr13_vk_from_proto;
  verification_key_to_proto := pghr13_vk_to_proto;
  verification_key_from_json_dict := λ j, VK_PGHR13 <$> pghr13_vk_from_json j;
  proof_from_json_dict := λ j, Proof_PGHR13 <$> pghr13_proof_from_json j;
  extended_proof_from_proto := pghr13_extended_proof_from_proto;
  extended_proof_to_proto := pghr13_extended_proof_to_proto;
  proof_to_contract_parameters := pghr13_proof_to_contract_parameters
|}.

Definition get_zksnark_provider (zksnark_name : str) : result IZKSnarkProvider :=
  if decide (zksnark_name = PGHR13_ZKSNARK) then Ok PGHR13_provider
  else if decide (zksnark_name = GROTH16_ZKSNARK) then Ok Groth16_provider
  else Err (Exception "unknown zk-SNARK name").

(** [ExtendedProof.to_json_dict], [ExtendedProof.from_json_dict] *)
Definition extended_proof_to_json_dict (ep : ExtendedProof) : json :=
  JDict [ (lit "proof", proof_to_json_dict (proof ep)); (lit "inputs", strs_to_json (inputs ep)) ].

Definition extended_proof_from_json_dict (zksnark : IZKSnarkProvider) (j : json) : result ExtendedProof :=
  pj ← jget (lit "proof") j; p ← proof_from_json_dict zksnark pj;
  ij ← jget (lit "inputs") j; i ← strs_from_json ij;
  Ok (mkExtendedProof p i).

(** ** Lemmas *)

Lemma strs_json_roundtrip l : strs_from_json (strs_to_json l) = Ok l.
Proof.
  unfold strs_from_json, strs_to_json. cbn [as_list mbind result_bind].
  induction l as [|x l IH]; [done|]. rewrite fmap_cons, mapM_cons_res. cbn [as_str mbind result_bind].
  by rewrite IH.
Qed.

Lemma g1_list_json_roundtrip l : g1_list_from_json (g1_list_to_json l) = Ok l.
Proof.
  unfold g1_list_from_json, g1_list_to_json. cbn [as_list mbind result_bind].
  induction l as [|x l IH]; [done|]. rewrite fmap_cons, mapM_cons_res, g1_json_roundtrip.
  cbn [mbind result_bind]. by rewrite IH.
Qed.

#[export] Hint Rewrite strs_json_roundtrip g1_list_json_roundtrip : zeth_rw.


Lemma concatM_Ok (l : list (result (list Z))) (vs : list (list Z)) :
  Forall2 (λ r v, r = Ok v) l vs → concatM l = Ok (concat vs).
Proof. induction 1 as [|r v l vs -> _ IH]; [done|]. cbn [concatM mbind result_bind]. by rewrite IH. Qed.

(** Reading back the fields of a message or of a dictionary, one after the other. *)
Ltac roundtrip :=
  repeat (jsimp; autorewrite with zeth_rw; cbn [mbind result_bind dumps loads of_option]).

Lemma groth16_vk_json_roundtrip vk : groth16_vk_from_json (groth16_vk_to_json vk) = Ok vk.
Proof.
  destruct vk. unfold groth16_vk_from_json, groth16_vk_to_json, jget_g1, jget_g2. roundtrip. done.
Qed.

Lemma groth16_proof_json_roundtrip p : groth16_proof_from_json (groth16_proof_to_json p) = Ok p.
Proof.
  destruct p. unfold groth16_proof_from_json, groth16_proof_to_json, jget_g1, jget_g2. roundtrip. done.
Qed.

Lemma pghr13_vk_json_roundtrip vk : pghr13_vk_from_json (pghr13_vk_to_json vk) = Ok vk.
Proof.
  destruct vk. unfold pghr13_vk_from_json, pghr13_vk_to_json, jget_g1, jget_g2. roundtrip. done.
Qed.

Lemma pghr13_proof_json_roundtrip p : pghr13_proof_from_json (pghr13_proof_to_json p) = Ok p.
Proof.
  destruct p. unfold pghr13_proof_from_json, pghr13_proof_to_json, jget_g1, jget_g2. roundtrip. done.
Qed.

(** ** What the client relies on *)

(** The provider [P] handles the keys and proofs selected by [own_vk] and
    [own_proof]: their serialised forms read back, and a proof of another scheme
    or an unset message is refused. *)
Class SnarkLaws (P : IZKSnarkProvider) (own_vk : IVerificationKey → bool) (own_proof : IProof → bool)
    : Prop := {
  vk_json_law vk : own_vk vk = true → verification_key_from_json_dict P (vk_to_json_dict vk) = Ok vk;
  ep_json_law ep : own_proof (proof ep) = true →
    extended_proof_from_json_dict P (extended_proof_to_json_dict ep) = Ok ep;
  ep_proto_law ep : own_proof (proof ep) = true →
    ∃ m, extended_proof_to_proto P ep = Ok m ∧ extended_proof_from_proto P m = Ok ep;
  ep_foreign_law ep pp : own_proof (proof ep) = false →
    extended_proof_to_proto P ep = Err AssertionError ∧
    proof_to_contract_parameters P (proof ep) pp = Err AssertionError;
  unset_law : extended_proof_from_proto P EPProto_unset = Err ValueError ∧
    verification_key_from_proto P VKProto_unset = Err ValueError
}.

Definition is_groth16_vk (vk : IVerificationKey) : bool := match vk with VK_Groth16 _ => true | _ => false end.
Definition is_groth16_proof (p : IProof) : bool := match p with Proof_Groth16 _ => true | _ => false end.

#[export] Instance groth16_laws : SnarkLaws Groth16_provider is_groth16_vk is_groth16_proof.
Proof.
  split.
  - intros [vk|vk] H; [|done]. cbn -[groth16_vk_from_json groth16_vk_to_json].
    by rewrite groth16_vk_json_roundtrip.
  - intros [[p|p] i] H; [|done]. unfold extended_proof_from_json_dict, extended_proof_to_json_dict.
    jsimp. cbn [proof inputs proof_to_json_dict Groth16_provider proof_from_json_dict].
    rewrite groth16_proof_json_roundtrip. cbn [fmap result_fmap mbind result_bind]. by roundtrip.
  - intros [[p|p] i] H; [|done]. eexists. split; [done|].
    cbn [Groth16_provider extended_proof_from_proto]. unfold groth16_extended_proof_from_proto.
    cbn [groth16_extended_proof Groth16.p_a Groth16.p_b Groth16.p_c Groth16.p_inputs inputs].
    roundtrip. by destruct p.
  - intros [[p|p] i] pp H; done.
  - done.
Qed.

#[export] Instance pghr13_laws :
  SnarkLaws PGHR13_provider (negb ∘ is_groth16_vk) (negb ∘ is_groth16_proof).
Proof.
  split.
  - intros [vk|vk] H; [done|]. cbn -[pghr13_vk_from_json pghr13_vk_to_json].
    by rewrite pghr13_vk_json_roundtrip.
  - intros [[p|p] i] H; [done|]. unfold extended_proof_from_json_dict, extended_proof_to_json_dict.
    jsimp. cbn [proof inputs proof_to_json_dict PGHR13_provider proof_from_json_dict].
    rewrite pghr13_proof_json_roundtrip. cbn [fmap result_fmap mbind result_bind]. by roundtrip.
  - intros [[p|p] i] H; [done|]. eexists. split; [done|].
    cbn [PGHR13_provider extended_proof_from_proto]. unfold pghr13_extended_proof_from_proto.
    cbn [pghr13_extended_proof PGHR13.p_a PGHR13.p_a_p PGHR13.p_b PGHR13.p_b_p PGHR13.p_c PGHR13.p_c_p
         PGHR13.p_h PGHR13.p_k PGHR13.p_inputs inputs].
    roundtrip. by destruct p.
  - intros [[p|p] i] pp H; done.
  - done.
Qed.

Lemma groth16_vk_proto_roundtrip vk : ∃ m,
  groth16_vk_to_proto (VK_Groth16 vk) = Ok m ∧ groth16_vk_from_proto m = Ok (VK_Groth16 vk).
Proof.
  eexists. split; [done|]. unfold groth16_vk_from_proto.
  cbn [groth16_verification_key Groth16.alpha_g1 Groth16.beta_g2 Groth16.delta_g2 Groth16.abc_g1].
  roundtrip. by destruct vk.
Qed.

(** ** Properties *)


(** The contract parameters of a Groth16 verification key given by numbers
    are, in order, the words of alpha, of minus beta, of minus delta and of each
    ABC point, where the opposites are taken modulo the base field of the
    pairing; those of a proof are the words of A, B and C. *)
Theorem groth16_contract_parameters (n : nat) (q : Z) (pp : PairingParameters)
  (alpha a c : Z * Z) (beta delta b : list Z * list Z) (abc : list (Z * Z))
  (Hn : 0 < Z.of_nat n < 2 ^ 52) (Hq : 0 < q < 256 ^ Z.of_nat n) (Hpp : pp_q pp = hex_of n q)
  (Hg1 : Forall (λ p, in_field n p.1 ∧ in_field n p.2) (alpha :: a :: c :: abc))
  (Hg2 : Forall (λ p, Forall (in_field n) p.1 ∧ Forall (in_field n) p.2) [beta; delta; b]) :
  let words := to_words (num_words n) in
  let w1 (p : Z * Z) := words p.1 ++ words p.2 in
  let w2 (p : list Z * list Z) := (p.1 ≫= words) ++ (p.2 ≫= words) in
  let neg (p : list Z * list Z) := (p.1, neg_mod q <$> p.2) in
  groth16_vk_to_contract_parameters
    (VK_Groth16 (Groth16.mkVK (g1_of n alpha) (g2_of n beta) (g2_of n delta) (g1_of n <$> abc))) pp =
    Ok (w1 alpha ++ w2 (neg beta) ++ w2 (neg delta) ++ (abc ≫= w1)) ∧
  groth16_proof_to_contract_parameters
    (Proof_Groth16 (Groth16.mkProof (g1_of n a) (g2_of n b) (g1_of n c))) pp =
    Ok (w1 a ++ w2 b ++ w1 c).
Proof.
  intros words w1 w2 neg.
  assert (∀ p, in_field n p.1 ∧ in_field n p.2 →
    g1_point_to_contract_parameters (g1_of n p) = Ok (w1 p)) as H1 by (intros p [??]; apply (g1_parameters n); [lia | lia | done | done]).
  assert (∀ p, Forall (in_field n) p.1 ∧ Forall (in_field n) p.2 →
    g2_point_to_contract_parameters (g2_of n p) = Ok (w2 p)) as H2 by (intros p [??]; apply (g2_parameters n); [lia | lia | done | done]).
  rewrite !Forall_cons in Hg1. destruct Hg1 as (Ha & Ha' & Hc & Habc).
  rewrite !Forall_cons in Hg2. destruct Hg2 as (Hb & Hd & Hb' & _).
  assert (∀ p, Forall (in_field n) p.1 ∧ Forall (in_field n) p.2 →
    Forall (in_field n) (neg p).1 ∧ Forall (in_field n) (neg p).2) as Hneg.
  { intros p [Hx Hy]. split; [done|]. apply Forall_fmap, Forall_forall. intros y _. apply neg_mod_field; [lia | done]. }
  split.
  - cbn [groth16_vk_to_contract_parameters Groth16.beta Groth16.delta Groth16.alpha Groth16.abc].
    rewrite (g2_negate_of n ltac:(lia) ltac:(lia) q pp beta Hpp Hq) by apply Hb. cbn [mbind result_bind].
    rewrite (g2_negate_of n ltac:(lia) ltac:(lia) q pp delta Hpp Hq) by apply Hd. cbn [mbind result_bind].
    rewrite (concatM_Ok _ (w1 alpha :: w2 (neg beta) :: w2 (neg delta) :: (w1 <$> abc))).
    + cbn [concat]. do 3 f_equal. f_equal. clear. induction abc as [|p l IH]; [done|].
      rewrite fmap_cons, bind_cons. cbn [concat]. by rewrite IH.
    + repeat (apply Forall2_cons; split; [by apply H1 || (apply H2, Hneg; done)|]).
      unfold g1s. apply Forall2_fmap_2, Forall2_fmap_l, Forall_Forall2_diag.
      eapply Forall_impl; [exact Habc|]. intros p Hp. by apply H1.
  - cbn [groth16_proof_to_contract_parameters Groth16.a Groth16.b Groth16.c].
    rewrite (concatM_Ok _ [w1 a; w2 b; w1 c]); [cbn [concat]; by rewrite app_nil_r|].
    repeat (apply Forall2_cons; split; [by apply H1 || by apply H2|]). by apply Forall2_nil.
Qed.

Lemma groth16_contract_parameters_witness :
  groth16_vk_to_contract_parameters
    (VK_Groth16 (Groth16.mkVK (g1_of 2 (1, 2)) (g2_of 2 ([3], [4])) (g2_of 2 ([5], [6])) [g1_of 2 (7, 8)]))
    (mkPairing (lit "p") (lit "0x11") (hex_of 2 257) (g1_of 2 (1, 2)) (g2_of 2 ([3], [4]))) =
    Ok [1; 2; 3; 253; 5; 251; 7; 8] ∧
  groth16_proof_to_contract_parameters
    (Proof_Groth16 (Groth16.mkProof (g1_of 2 (1, 2)) (g2_of 2 ([3], [4])) (g1_of 2 (7, 8))))
    (mkPairing (lit "p") (lit "0x11") (hex_of 2 257) (g1_of 2 (1, 2)) (g2_of 2 ([3], [4]))) =
    Ok [1; 2; 3; 4; 7; 8].
Proof.
  apply (groth16_contract_parameters 2 257
    (mkPairing (lit "p") (lit "0x11") (hex_of 2 257) (g1_of 2 (1, 2)) (g2_of 2 ([3], [4])))
    (1, 2) (1, 2) (7, 8) ([3], [4]) ([5], [6]) ([3], [4]) [(7, 8)]);
    [lia | lia | done | |].
  - repeat (apply Forall_cons; split; [split; unfold in_field; simpl; lia|]). by apply Forall_nil.
  - repeat (apply Forall_cons; split;
      [split; (apply Forall_cons; split; [unfold in_field; simpl; lia | by apply Forall_nil])|]).
    by apply Forall_nil.
Defined.
