(* ===== verification/Signing.v ===== *)
(** * One-time Schnorr signatures ([client/zeth/core/signing.py])

    Keys, signatures and their encodings.  The curve comes from the third-party
    package [py_ecc]: its operations are the class [BN128] and what the signature
    scheme relies on, that they form a cyclic group of the stated order, are the
    laws of [BN128Laws].  A point is [None] at infinity and a pair of field
    elements elsewhere, as in the package; an [FQ] value is kept as its
    representative [n]. *)

From Stdlib Require Import ZArith Lia Ascii String Strings.Byte Zdivisibility.
From stdpp Require Import base tactics list strings.
From S2P Require Import Prelude PyStr PyBytes PyIO PyFloat Hashes.

Local Open Scope Z_scope.

Abbreviation G1 := (option (Z * Z)).

Class BN128 := {
  curve_order : Z;
  field_modulus : Z;
  ec_G1 : G1;
  ec_multiply : G1 → Z → G1;
  ec_add : G1 → G1 → G1;
  ec_eq : G1 → G1 → bool
}.

Class BN128Laws `{BN128} : Prop := {
  order_bounds : 1 < curve_order < field_modulus;
  modulus_bounds : field_modulus < 2 ^ 256;
  ec_eq_spec P Q : ec_eq P Q = true ↔ P = Q;
  ec_multiply_add a b : 0 ≤ a → 0 ≤ b →
    ec_add (ec_multiply ec_G1 a) (ec_multiply ec_G1 b) = ec_multiply ec_G1 (a + b);
  ec_multiply_mul a b : 0 ≤ a → 0 ≤ b →
    ec_multiply (ec_multiply ec_G1 a) b = ec_multiply ec_G1 (a * b);
  ec_multiply_eq a b : 0 ≤ a → 0 ≤ b →
    (ec_multiply ec_G1 a = ec_multiply ec_G1 b ↔ a mod curve_order = b mod curve_order);
  ec_multiply_zero : ec_multiply ec_G1 0 = None;
  ec_multiply_range a x y : ec_multiply ec_G1 a = Some (x, y) →
    0 ≤ x < field_modulus ∧ 0 ≤ y < field_modulus
}.

(** [FQ(v).n] *)
Definition FQ `{BN128} (v : Z) : Z := v mod field_modulus.

Record SigningVerificationKey : Type := mkSVK { ppk : G1; spk : G1 }.
Record SigningSecretKey : Type := mkSSK { psk : Z; ssk_y : Z; ssk_y_g1 : G1 }.
Record SigningKeyPair : Type := mkSigningKeyPair { kp_sk : SigningSecretKey; kp_vk : SigningVerificationKey }.

Section signing.
Context `{BN128}.

(** ** Encodings *)

Definition fq_to_bytes (fq_element : Z) : result bytes := int_to_bytes fq_element 32.
Definition fq_from_bytes (fq_bytes : bytes) : Z := FQ (int_from_bytes fq_bytes).
Definition fq_to_hex (fq_element : Z) : result str := hex <$> fq_to_bytes fq_element.
Definition fq_from_hex (fq_hex : str) : result Z := fq_from_bytes <$> fromhex fq_hex.

(** Indexing the point at infinity raises [TypeError]. *)
Definition g1_coords (group_el : G1) : result (Z * Z) := of_option TypeError group_el.

Definition g1_to_bytes (group_el : G1) : result bytes :=
  '(x, y) ← g1_coords group_el;
  bx ← int_to_bytes x 32;
  by_ ← int_to_bytes y 32;
  Ok (bx ++ by_).

Definition g1_to_json_dict (group_el : G1) : result json :=
  '(x, y) ← g1_coords group_el;
  hx ← fq_to_hex x;
  hy ← fq_to_hex y;
  Ok (JDict [ (lit "x", JStr hx); (lit "y", JStr hy) ]).

Definition jget_fq (k : string) (j : json) : result Z :=
  v ← jget (lit k) j; s ← as_str v; fq_from_hex s.

Definition g1_from_json_dict (j : json) : result G1 :=
  x ← jget_fq "x" j;
  y ← jget_fq "y" j;
  Ok (Some (x, y)).

Definition svk_to_bytes (vk : SigningVerificationKey) : result bytes :=
  p ← g1_to_bytes (ppk vk);
  s ← g1_to_bytes (spk vk);
  Ok (p ++ s).

Definition svk_to_json_dict (vk : SigningVerificationKey) : result json :=
  p ← g1_to_json_dict (ppk vk);
  s ← g1_to_json_dict (spk vk);
  Ok (JDict [ (lit "ppk", p); (lit "spk", s) ]).

Definition jget_point (k : string) (j : json) : result G1 := v ← jget (lit k) j; g1_from_json_dict v.

Definition svk_from_json_dict (j : json) : result SigningVerificationKey :=
  p ← jget_point "ppk" j;
  s ← jget_point "spk" j;
  Ok (mkSVK p s).

Definition ssk_to_json_dict (sk : SigningSecretKey) : result json :=
  x ← fq_to_hex (psk sk);
  y ← fq_to_hex (ssk_y sk);
  g ← g1_to_json_dict (ssk_y_g1 sk);
  Ok (JDict [ (lit "psk", JStr x); (lit "ssk_y", JStr y); (lit "ssk_y_g1", g) ]).

Definition ssk_from_json_dict (j : json) : result SigningSecretKey :=
  x ← jget_fq "psk" j;
  y ← jget_fq "ssk_y" j;
  g ← jget_point "ssk_y_g1" j;
  Ok (mkSSK x y g).

Definition keypair_to_json_dict (kp : SigningKeyPair) : result json :=
  sk ← ssk_to_json_dict (kp_sk kp);
  vk ← svk_to_json_dict (kp_vk kp);
  Ok (JDict [ (lit "sk", sk); (lit "vk", vk) ]).

Definition keypair_from_json_dict (j : json) : result SigningKeyPair :=
  skj ← jget (lit "sk") j; sk ← ssk_from_json_dict skj;
  vkj ← jget (lit "vk") j; vk ← svk_from_json_dict vkj;
  Ok (mkSigningKeyPair sk vk).

Definition signature_to_bytes (signature : Z) : result bytes := int_to_bytes signature 32.
Definition signature_from_bytes (sig_bytes : bytes) : Z := int_from_bytes sig_bytes.

Definition verification_key_as_mix_parameter (vk : SigningVerificationKey) : result (list Z) :=
  p ← g1_coords (ppk vk);
  s ← g1_coords (spk vk);
  Ok [p.1; p.2; s.1; s.2].

Definition verification_key_from_mix_parameter (param : list Z) : result SigningVerificationKey :=
  a ← py_get param 0;
  b ← py_get param 1;
  c ← py_get param 2;
  d ← py_get param 3;
  Ok (mkSVK (Some (FQ a, FQ b)) (Some (FQ c, FQ d))).

Definition signature_as_mix_parameter (signature : Z) : Z := signature.
Definition signature_from_mix_parameter (param : Z) : Z := param.

(** ** Keys and signatures *)

(** [gen_signing_keypair], with the bytes of its two calls of [urandom]. *)
Definition gen_signing_keypair (rand_x rand_y : bytes) : result SigningKeyPair :=
  vx ← int_of_str 16 (hex rand_x);
  vy ← int_of_str 16 (hex rand_y);
  let x := FQ (vx mod curve_order) in
  let y := FQ (vy mod curve_order) in
  let X := ec_multiply ec_G1 x in
  let Y := ec_multiply ec_G1 y in
  Ok (mkSigningKeyPair (mkSSK x y Y) (mkSVK X Y)).

(** [int(sha256(d).hexdigest(), 16) % curve_order] *)
Definition challenge (d : bytes) : result Z :=
  c ← int_of_str 16 (hex (sha256 d));
  Ok (c mod curve_order).

Definition sign (sk : SigningSecretKey) (m : bytes) : result Z :=
  g ← g1_to_bytes (ssk_y_g1 sk);
  c ← challenge (g ++ m);
  Ok ((ssk_y sk + c * psk sk) mod curve_order).

Definition verify (vk : SigningVerificationKey) (m : bytes) (sigma : Z) : result bool :=
  g ← g1_to_bytes (spk vk);
  c ← challenge (g ++ m);
  let left_part := ec_multiply ec_G1 (FQ sigma) in
  let right_part := ec_add (spk vk) (ec_multiply (ppk vk) (FQ c)) in
  Ok (ec_eq left_part right_part).

End signing.

Section lemmas.
Context `{BN128Laws}.

Lemma FQ_small v : 0 ≤ v < field_modulus → FQ v = v.
Proof. apply Z.mod_small. Qed.

Lemma fq_hex_roundtrip v : 0 ≤ v < field_modulus →
  ∃ s, fq_to_hex v = Ok s ∧ fq_from_hex s = Ok v.
Proof.
  intros Hv. pose proof modulus_bounds. unfold fq_to_hex, fq_to_bytes, fq_from_hex, fq_from_bytes.
  assert (0 ≤ v < 256 ^ Z.of_nat 32) as Hv' by (change (256 ^ Z.of_nat 32) with (2 ^ 256); lia).
  rewrite int_to_bytes_Ok by done. cbn [fmap result_fmap]. eexists. split; [done|].
  rewrite fromhex_hex. cbn [fmap result_fmap]. rewrite int_from_to_be, Z.mod_small by done.
  by rewrite FQ_small.
Qed.

(** A finite point whose coordinates are field elements. *)
Definition finite_point (P : G1) : Prop :=
  ∃ x y, P = Some (x, y) ∧ 0 ≤ x < field_modulus ∧ 0 ≤ y < field_modulus.

Lemma g1_json_dict_roundtrip P : finite_point P →
  ∃ j, g1_to_json_dict P = Ok j ∧ g1_from_json_dict j = Ok P.
Proof.
  intros (x & y & -> & Hx & Hy). destruct (fq_hex_roundtrip x Hx) as (sx & Ex & Ex').
  destruct (fq_hex_roundtrip y Hy) as (sy & Ey & Ey').
  unfold g1_to_json_dict. cbn [g1_coords of_option mbind result_bind]. rewrite Ex. cbn [mbind result_bind].
  rewrite Ey. cbn [mbind result_bind]. eexists. split; [done|].
  unfold g1_from_json_dict, jget_fq. jsimp. cbn [as_str mbind result_bind]. rewrite Ex'. cbn [mbind result_bind].
  jsimp. cbn [as_str mbind result_bind]. by rewrite Ey'.
Qed.

Lemma svk_json_dict_roundtrip X Y : finite_point X → finite_point Y →
  ∃ j, svk_to_json_dict (mkSVK X Y) = Ok j ∧ svk_from_json_dict j = Ok (mkSVK X Y).
Proof.
  intros HX HY. destruct (g1_json_dict_roundtrip X HX) as (jx & HjX & HjX').
  destruct (g1_json_dict_roundtrip Y HY) as (jy & HjY & HjY').
  unfold svk_to_json_dict. cbn [ppk spk]. rewrite HjX. cbn [mbind result_bind]. rewrite HjY.
  cbn [mbind result_bind]. eexists. split; [done|]. unfold svk_from_json_dict, jget_point. jsimp.
  rewrite HjX'. cbn [mbind result_bind]. jsimp. by rewrite HjY'.
Qed.

Lemma ssk_json_dict_roundtrip x y Y : 0 ≤ x < field_modulus → 0 ≤ y < field_modulus → finite_point Y →
  ∃ j, ssk_to_json_dict (mkSSK x y Y) = Ok j ∧ ssk_from_json_dict j = Ok (mkSSK x y Y).
Proof.
  intros Hx Hy HY. destruct (fq_hex_roundtrip x Hx) as (sx & Ex & Ex').
  destruct (fq_hex_roundtrip y Hy) as (sy & Ey & Ey').
  destruct (g1_json_dict_roundtrip Y HY) as (jy & HjY & HjY').
  unfold ssk_to_json_dict. cbn [psk ssk_y ssk_y_g1]. rewrite Ex. cbn [mbind result_bind]. rewrite Ey.
  cbn [mbind result_bind]. rewrite HjY. cbn [mbind result_bind]. eexists. split; [done|].
  unfold ssk_from_json_dict, jget_fq, jget_point. jsimp. cbn [as_str mbind result_bind].
  rewrite Ex'. cbn [mbind result_bind]. jsimp. cbn [as_str mbind result_bind]. rewrite Ey'.
  cbn [mbind result_bind]. jsimp. by rewrite HjY'.
Qed.

Lemma g1_bytes_ok P : finite_point P → ∃ b, g1_to_bytes P = Ok b ∧ length b = 64%nat.
Proof.
  intros (x & y & -> & Hx & Hy). pose proof modulus_bounds. unfold g1_to_bytes.
  cbn [g1_coords of_option mbind result_bind].
  rewrite int_to_bytes_Ok by (change (256 ^ Z.of_nat 32) with (2 ^ 256); lia). cbn [mbind result_bind].
  rewrite int_to_bytes_Ok by (change (256 ^ Z.of_nat 32) with (2 ^ 256); lia). cbn [mbind result_bind].
  eexists. split; [done|]. by rewrite length_app, !length_to_be.
Qed.

Lemma challenge_ok d : ∃ c, challenge d = Ok c ∧ 0 ≤ c < curve_order.
Proof.
  pose proof order_bounds. unfold challenge. rewrite int_of_hex.
  - cbn [mbind result_bind]. eexists. split; [done|]. apply Z.mod_pos_bound. lia.
  - intros E. apply (f_equal length) in E. by rewrite sha256_length in E.
Qed.

(** A nonzero multiple of the generator is a finite point. *)
Lemma multiple_finite y : 0 < y < curve_order → finite_point (ec_multiply ec_G1 y).
Proof.
  intros Hy. pose proof order_bounds. destruct (ec_multiply ec_G1 y) as [[px py]|] eqn:E.
  - exists px, py. split; [done|]. by apply ec_multiply_range with y.
  - rewrite <- ec_multiply_zero in E. apply ec_multiply_eq in E; [|lia..].
    rewrite (Z.mod_small y), (Z.mod_small 0) in E by lia. lia.
Qed.

Lemma gen_keypair_ok rx ry : rx ≠ [] → ry ≠ [] →
  ∃ x y, 0 ≤ x < curve_order ∧ 0 ≤ y < curve_order ∧
    x = int_from_bytes rx mod curve_order ∧ y = int_from_bytes ry mod curve_order ∧
    gen_signing_keypair rx ry = Ok (mkSigningKeyPair
      (mkSSK x y (ec_multiply ec_G1 y)) (mkSVK (ec_multiply ec_G1 x) (ec_multiply ec_G1 y))).
Proof.
  intros Hx Hy. pose proof order_bounds. unfold gen_signing_keypair.
  rewrite !int_of_hex by done. cbn [mbind result_bind].
  assert (0 < curve_order) as Hpos by lia.
  pose proof (Z.mod_pos_bound (int_from_bytes rx) curve_order Hpos).
  pose proof (Z.mod_pos_bound (int_from_bytes ry) curve_order Hpos).
  rewrite !FQ_small by lia. eauto 10.
Qed.

(** The equation [verify] checks, on an honest key. *)
Lemma verify_equation x y c s : 0 ≤ x → 0 ≤ y → 0 ≤ c < curve_order →
  ec_eq (ec_multiply ec_G1 (FQ s))
    (ec_add (ec_multiply ec_G1 y) (ec_multiply (ec_multiply ec_G1 x) (FQ c))) = true ↔
  FQ s mod curve_order = (y + c * x) mod curve_order.
Proof.
  intros Hx Hy Hc. pose proof order_bounds. rewrite (FQ_small c) by lia.
  rewrite ec_eq_spec, ec_multiply_mul, ec_multiply_add by nia.
  assert (0 ≤ FQ s) by (apply Z.mod_pos_bound; lia).
  rewrite ec_multiply_eq by nia. by replace (x * c) with (c * x) by lia.
Qed.

(** What is signed with a generated key verifies. *)
Lemma sign_verify_ok rx ry kp m sigma : rx ≠ [] → ry ≠ [] →
  gen_signing_keypair rx ry = Ok kp → sign (kp_sk kp) m = Ok sigma → verify (kp_vk kp) m sigma = Ok true.
Proof.
  intros Hx Hy Hgen Hs. destruct (gen_keypair_ok rx ry Hx Hy) as (x & y & Hxr & Hyr & _ & _ & Hgen').
  rewrite Hgen in Hgen'. apply Ok_inj in Hgen' as ->. cbn [kp_sk kp_vk] in *.
  unfold sign in Hs. cbn [ssk_y_g1 ssk_y psk] in Hs. apply bind_Ok_inv in Hs as (g & Hg & Hs).
  apply bind_Ok_inv in Hs as (c & Hc & Hs). apply Ok_inj in Hs as <-.
  unfold verify. cbn [spk ppk]. rewrite Hg. cbn [mbind result_bind]. rewrite Hc. cbn [mbind result_bind].
  f_equal. destruct (challenge_ok (g ++ m)) as (c' & Hc' & Hcr). rewrite Hc in Hc'. apply Ok_inj in Hc' as <-.
  pose proof order_bounds. assert (0 < curve_order) as Hpos by lia.
  pose proof (Z.mod_pos_bound (y + c * x) curve_order Hpos).
  apply verify_equation; [lia..|]. rewrite FQ_small by lia. apply Zmod_mod.
Qed.
End lemmas.

(** ** Properties *)

(** C13: with a key pair from [gen_signing_keypair] whose second secret is not
    zero modulo the order, signing never fails, the signature fits the 32-byte
    encoding and reads back, it verifies, and [verify] accepts an integer exactly
    when its residue modulo the field modulus is the signature modulo the curve
    order (so it accepts other integers than the signature). *)
Theorem signature_correct `{BN128Laws} (rx ry m : bytes) (s : Z)
  (Hx : rx ≠ []) (Hy : ry ≠ []) (Hnz : int_from_bytes ry mod curve_order ≠ 0) :
  ∃ kp sigma b, gen_signing_keypair rx ry = Ok kp ∧ sign (kp_sk kp) m = Ok sigma ∧
    0 ≤ sigma < curve_order ∧
    signature_to_bytes sigma = Ok b ∧ signature_from_bytes b = sigma ∧
    verify (kp_vk kp) m sigma = Ok true ∧
    ∃ ok, verify (kp_vk kp) m s = Ok ok ∧
      (ok = true ↔ (s mod field_modulus) mod curve_order = sigma).
Proof.
  pose proof order_bounds. pose proof modulus_bounds.
  destruct (gen_keypair_ok rx ry Hx Hy) as (x & y & Hxr & Hyr & Ex & Ey & Hgen).
  destruct (g1_bytes_ok (ec_multiply ec_G1 y)) as (g & Hg & _); [apply multiple_finite; lia|].
  destruct (challenge_ok (g ++ m)) as (c & Hc & Hcr).
  assert (0 < curve_order) as Hpos by lia.
  pose proof (Z.mod_pos_bound (y + c * x) curve_order Hpos) as Hs.
  set (sigma := (y + c * x) mod curve_order) in *.
  assert (0 ≤ sigma < 256 ^ Z.of_nat 32) as Hs32 by (change (256 ^ Z.of_nat 32) with (2 ^ 256); lia).
  assert (∀ z, ∃ ok, verify (mkSVK (ec_multiply ec_G1 x) (ec_multiply ec_G1 y)) m z = Ok ok ∧
    (ok = true ↔ (z mod field_modulus) mod curve_order = sigma)) as Hv.
  { intros z. unfold verify. cbn [spk ppk]. rewrite Hg. cbn [mbind result_bind]. rewrite Hc.
    cbn [mbind result_bind]. eexists. split; [done|]. apply verify_equation; lia. }
  eexists _, sigma, (to_be 32 sigma). split; [exact Hgen|]. cbn [kp_sk kp_vk].
  split_and!; [|lia|lia| | |..|apply Hv].
  - unfold sign. cbn [ssk_y_g1 ssk_y psk]. rewrite Hg. cbn [mbind result_bind]. rewrite Hc. done.
  - by apply int_to_bytes_Ok.
  - unfold signature_from_bytes. by rewrite int_from_to_be, Z.mod_small.
  - destruct (Hv sigma) as (ok & -> & Hok). f_equal. apply Hok.
    rewrite (Z.mod_small sigma field_modulus), Z.mod_small by lia. done.
Qed.

(** Key pairs and verification keys survive their JSON form and the four
    words of the mix call, provided the points are finite: the point at infinity
    cannot be encoded and raises [TypeError]. *)
Theorem signing_key_roundtrips `{BN128Laws} (x y : Z) (X Y : G1)
  (Hx : 0 ≤ x < field_modulus) (Hy : 0 ≤ y < field_modulus)
  (HX : finite_point X) (HY : finite_point Y) :
  let kp := mkSigningKeyPair (mkSSK x y Y) (mkSVK X Y) in
  (∃ j, keypair_to_json_dict kp = Ok j ∧ keypair_from_json_dict j = Ok kp) ∧
  (∃ p, verification_key_as_mix_parameter (kp_vk kp) = Ok p ∧
    verification_key_from_mix_parameter p = Ok (kp_vk kp)) ∧
  svk_to_bytes (mkSVK None Y) = Err TypeError.
Proof.
  intros kp. split; [|split; [|done]].
  - destruct (ssk_json_dict_roundtrip x y Y Hx Hy HY) as (js & Hs & Hs').
    destruct (svk_json_dict_roundtrip X Y HX HY) as (jv & Hv & Hv').
    unfold keypair_to_json_dict. cbn [kp kp_sk kp_vk]. rewrite Hs. cbn [mbind result_bind].
    rewrite Hv. cbn [mbind result_bind]. eexists. split; [done|].
    unfold keypair_from_json_dict. jsimp. rewrite Hs'. cbn [mbind result_bind]. jsimp. by rewrite Hv'.
  - destruct HX as (x1 & x2 & -> & ? & ?), HY as (y1 & y2 & -> & ? & ?). exists [x1; x2; y1; y2]. split; [done|].
    change (verification_key_from_mix_parameter [x1; x2; y1; y2])
      with (Ok (mkSVK (Some (FQ x1, FQ x2)) (Some (FQ y1, FQ y2)))). by rewrite !FQ_small.
Qed.

(** ** A concrete group

    The integers modulo 7, written as points, with the field modulus 11. *)

Module ToyCurve.
Definition pt (k : Z) : G1 := if k mod 7 =? 0 then None else Some (k mod 7, k mod 7).
Definition val (P : G1) : Z := match P with Some (x, _) => x | None => 0 end.

#[local] Instance toy : BN128 := {|
  curve_order := 7;
  field_modulus := 11;
  ec_G1 := pt 1;
  ec_multiply P n := pt (val P * n);
  ec_add P Q := pt (val P + val Q);
  ec_eq P Q := bool_decide (P = Q)
|}.

Lemma val_pt k : val (pt k) = k mod 7.
Proof. unfold pt, val. destruct (k mod 7 =? 0) eqn:E; prop_bool; done. Qed.

Lemma pt_mod j k : j mod 7 = k mod 7 → pt j = pt k.
Proof. unfold pt. by intros ->. Qed.

Lemma pt_inj j k : pt j = pt k → j mod 7 = k mod 7.
Proof. intros E. by rewrite <- !val_pt, E. Qed.

#[local] Instance toy_laws : BN128Laws.
Proof.
  split; cbn [toy curve_order field_modulus ec_G1 ec_multiply ec_add ec_eq].
  - lia.
  - lia.
  - intros P Q. apply bool_decide_eq_true.
  - intros a b _ _. rewrite !val_pt. apply pt_mod. rewrite <- Z.add_mod by lia. change (1 mod 7) with 1. f_equal. lia.
  - intros a b _ _. rewrite !val_pt. apply pt_mod. rewrite Z.mul_mod_idemp_l by lia. change (1 mod 7) with 1. f_equal. lia.
  - intros a b _ _. rewrite !val_pt. change (1 mod 7) with 1. rewrite !Z.mul_1_l. split; [apply pt_inj | apply pt_mod].
  - done.
  - intros a x y. generalize (val (pt 1) * a). intros k. unfold pt. destruct (_ =? 0); [done|].
    intros [= <- <-]. pose proof (Z.mod_pos_bound k 7). lia.
Qed.

Lemma signature_correct_witness :
  ∃ kp sigma b, gen_signing_keypair [Byte.x05] [Byte.x03] = Ok kp ∧ sign (kp_sk kp) [Byte.x61] = Ok sigma ∧
    0 ≤ sigma < curve_order ∧ signature_to_bytes sigma = Ok b ∧ signature_from_bytes b = sigma ∧
    verify (kp_vk kp) [Byte.x61] sigma = Ok true ∧
    ∃ ok, verify (kp_vk kp) [Byte.x61] 20 = Ok ok ∧ (ok = true ↔ (20 mod field_modulus) mod curve_order = sigma).
Proof. apply (signature_correct [Byte.x05] [Byte.x03] [Byte.x61] 20); [done | done | vm_compute; done]. Defined.

Lemma signing_key_roundtrips_witness :
  let kp := mkSigningKeyPair (mkSSK 5 3 (pt 3)) (mkSVK (pt 5) (pt 3)) in
  (∃ j, keypair_to_json_dict kp = Ok j ∧ keypair_from_json_dict j = Ok kp) ∧
  (∃ p, verification_key_as_mix_parameter (kp_vk kp) = Ok p ∧
    verification_key_from_mix_parameter p = Ok (kp_vk kp)) ∧
  svk_to_bytes (mkSVK None (pt 3)) = Err TypeError.
Proof.
  apply (signing_key_roundtrips 5 3 (pt 5) (pt 3)); [done | done | |].
  - exists 5, 5. split_and!; done.
  - exists 3, 3. split_and!; done.
Defined.
End ToyCurve.
