(* ===== verification/Encryption.v ===== *)
(** * Note encryption ([client/zeth/core/encryption.py])

    The hybrid scheme that encrypts notes: an ephemeral X25519 exchange, a key
    derivation with BLAKE2b, ChaCha20 and Poly1305.  The primitives come from the
    third-party package [cryptography]: they are the operations of the class
    [NoteCrypto] and what the scheme relies on are the laws of [NoteCryptoLaws]. *)

From Stdlib Require Import ZArith Lia Ascii String Strings.Byte.
From stdpp Require Import base tactics list strings.
From S2P Require Import Prelude PyStr PyBytes Hashes Constants.

Local Open Scope Z_scope.

Class NoteCrypto := {
  EncryptionSecretKey : Type;
  EncryptionPublicKey : Type;
  sk_private_bytes : EncryptionSecretKey → bytes;
  sk_from_private_bytes : bytes → result EncryptionSecretKey;
  sk_public_key : EncryptionSecretKey → EncryptionPublicKey;
  pk_public_bytes : EncryptionPublicKey → bytes;
  pk_from_public_bytes : bytes → result EncryptionPublicKey;
  x25519_exchange : EncryptionSecretKey → EncryptionPublicKey → result bytes;
  chacha20 : bytes → bytes → bytes → bytes;
  poly1305 : bytes → bytes → bytes;
  blake2b_64 : bytes → bytes
}.

Class NoteCryptoLaws `{NoteCrypto} : Prop := {
  sk_roundtrip sk : sk_from_private_bytes (sk_private_bytes sk) = Ok sk;
  pk_roundtrip pk : pk_from_public_bytes (pk_public_bytes pk) = Ok pk;
  pk_length pk : length (pk_public_bytes pk) = 32%nat;
  pk_from_32_bytes b : length b = 32%nat → ∃ pk, pk_from_public_bytes b = Ok pk;
  exchange_error sk pk e : x25519_exchange sk pk = Err e → e = ValueError;
  exchange_comm a b : x25519_exchange a (sk_public_key b) = x25519_exchange b (sk_public_key a);
  chacha20_involutive k n m : chacha20 k n (chacha20 k n m) = m;
  chacha20_length k n m : length (chacha20 k n m) = length m;
  poly1305_length k m : length (poly1305 k m) = 16%nat;
  blake2b_length m : length (blake2b_64 m) = 64%nat
}.

Definition _SYM_KEY_LENGTH_BYTES : Z := byte_length 256.
Definition _MAC_KEY_LENGTH_BYTES : Z := byte_length 256.
Definition _KEY_MATERIAL_LENGTH_BYTES : Z := _SYM_KEY_LENGTH_BYTES + _MAC_KEY_LENGTH_BYTES.
Definition _TAG_LENGTH_BYTES : Z := byte_length 128.
Definition _SYM_NONCE_LENGTH_BYTES : Z := byte_length 128.
Definition _SYM_NONCE_VALUE : bytes := py_repeat Byte.x00 _SYM_NONCE_LENGTH_BYTES.
Definition _KDF_TAG : bytes :=
  [Byte.x5a; Byte.x65; Byte.x74; Byte.x68; Byte.x45; Byte.x6e; Byte.x63].
Definition EC_PUBLIC_KEY_LENGTH_BYTES : Z := byte_length 256.
Definition ENCRYPTED_NOTE_LENGTH_BYTES : Z :=
  EC_PUBLIC_KEY_LENGTH_BYTES + NOTE_LENGTH_BYTES + _TAG_LENGTH_BYTES.

Section encryption.
Context `{NoteCrypto}.

(** ** Keys *)

Definition encode_encryption_secret_key (sk : EncryptionSecretKey) : bytes := sk_private_bytes sk.
Definition decode_encryption_secret_key (b : bytes) : result EncryptionSecretKey := sk_from_private_bytes b.
Definition encryption_secret_key_as_hex (sk : EncryptionSecretKey) : str :=
  hex (encode_encryption_secret_key sk).
Definition encryption_secret_key_from_hex (s : str) : result EncryptionSecretKey :=
  b ← fromhex s; sk_from_private_bytes b.

Definition get_encryption_public_key (sk : EncryptionSecretKey) : EncryptionPublicKey := sk_public_key sk.
Definition encode_encryption_public_key (pk : EncryptionPublicKey) : bytes := pk_public_bytes pk.
Definition decode_encryption_public_key (b : bytes) : result EncryptionPublicKey := pk_from_public_bytes b.
Definition encryption_public_key_as_hex (pk : EncryptionPublicKey) : str :=
  hex (encode_encryption_public_key pk).
Definition encryption_public_key_from_hex (s : str) : result EncryptionPublicKey :=
  b ← fromhex s; decode_encryption_public_key b.

Record EncryptionKeyPair : Type := mkEncKeyPair { k_sk : EncryptionSecretKey; k_pk : EncryptionPublicKey }.

(** [generate_encryption_keypair], with the secret key that was generated. *)
Definition generate_encryption_keypair (sk : EncryptionSecretKey) : EncryptionKeyPair :=
  mkEncKeyPair sk (get_encryption_public_key sk).

(** ** The scheme *)

Definition _exchange (sk : EncryptionSecretKey) (pk : EncryptionPublicKey) : result bytes :=
  x25519_exchange sk pk.

Definition _kdf (eph_pk shared_key : bytes) : result (bytes * bytes) :=
  let key_material_bytes := blake2b_64 (_KDF_TAG ++ eph_pk ++ shared_key) in
  _ ← py_assert (zlen key_material_bytes =? _KEY_MATERIAL_LENGTH_BYTES);
  Ok (take (Z.to_nat _SYM_KEY_LENGTH_BYTES) key_material_bytes,
      drop (Z.to_nat _SYM_KEY_LENGTH_BYTES) key_material_bytes).

(** [encrypt], with the ephemeral secret key it generates. *)
Definition encrypt (eph : EncryptionSecretKey) (message : bytes) (pk_receiver : EncryptionPublicKey)
    : result bytes :=
  _ ← py_assert (zlen message =? NOTE_LENGTH_BYTES);
  let eph_keypair := generate_encryption_keypair eph in
  shared_key ← _exchange (k_sk eph_keypair) pk_receiver;
  let pk_sender_bytes := encode_encryption_public_key (k_pk eph_keypair) in
  '(sym_key, mac_key) ← _kdf pk_sender_bytes shared_key;
  let sym_ciphertext := chacha20 sym_key _SYM_NONCE_VALUE message in
  let tag := poly1305 mac_key sym_ciphertext in
  Ok (pk_sender_bytes ++ sym_ciphertext ++ tag).

(** The type of [sk_receiver] discharges the [isinstance] assertion. *)
Definition decrypt (encrypted_message : bytes) (sk_receiver : EncryptionSecretKey) : result bytes :=
  _ ← py_assert (zlen encrypted_message =? ENCRYPTED_NOTE_LENGTH_BYTES);
  let pk_sender_bytes := py_slice encrypted_message 0 EC_PUBLIC_KEY_LENGTH_BYTES in
  pk_sender ← decode_encryption_public_key pk_sender_bytes;
  shared_key ← _exchange sk_receiver pk_sender;
  '(sym_key, mac_key) ← _kdf pk_sender_bytes shared_key;
  let ct_sym := py_slice encrypted_message EC_PUBLIC_KEY_LENGTH_BYTES
                  (EC_PUBLIC_KEY_LENGTH_BYTES + NOTE_LENGTH_BYTES) in
  let tag := py_slice encrypted_message (EC_PUBLIC_KEY_LENGTH_BYTES + NOTE_LENGTH_BYTES)
               (EC_PUBLIC_KEY_LENGTH_BYTES + NOTE_LENGTH_BYTES + _TAG_LENGTH_BYTES) in
  _ ← raise_if (negb (bool_decide (poly1305 mac_key ct_sym = tag))) InvalidSignature;
  Ok (chacha20 sym_key _SYM_NONCE_VALUE ct_sym).

End encryption.

(** ** Lemmas *)

(** Cutting [a ++ b ++ c] at the lengths of its pieces. *)
Lemma py_slice_app3 {A} (a b c : list A) :
  py_slice (a ++ b ++ c) 0 (zlen a) = a ∧
  py_slice (a ++ b ++ c) (zlen a) (zlen a + zlen b) = b ∧
  py_slice (a ++ b ++ c) (zlen a + zlen b) (zlen a + zlen b + zlen c) = c.
Proof.
  unfold py_slice, zlen. split_and!.
  - rewrite Z.sub_0_r, Nat2Z.id, drop_0. by apply take_app_length'.
  - rewrite Nat2Z.id, drop_app_length' by done. apply take_app_length'. lia.
  - rewrite app_assoc, drop_app_length' by (rewrite length_app; lia). apply take_ge. lia.
Qed.

Section lemmas.
Context `{NoteCryptoLaws}.

Lemma kdf_ok eph shared : ∃ keys, _kdf eph shared = Ok keys.
Proof. unfold _kdf. unfold zlen. rewrite blake2b_length. simpl. eauto. Qed.

(** What a ciphertext is made of. *)
Lemma encrypt_inv eph m pk c : encrypt eph m pk = Ok c →
  ∃ shared keys, zlen m = NOTE_LENGTH_BYTES ∧ x25519_exchange eph pk = Ok shared ∧
    _kdf (pk_public_bytes (sk_public_key eph)) shared = Ok keys ∧
    let ct := chacha20 keys.1 _SYM_NONCE_VALUE m in
    c = pk_public_bytes (sk_public_key eph) ++ ct ++ poly1305 keys.2 ct.
Proof.
  unfold encrypt, _exchange. intros Hc. destruct (zlen m =? NOTE_LENGTH_BYTES) eqn:E; [|done]. prop_bool.
  cbn [py_assert mbind result_bind] in Hc. cbn [generate_encryption_keypair k_sk k_pk] in Hc.
  apply bind_Ok_inv in Hc as (shared & Hs & Hc). apply bind_Ok_inv in Hc as ([k1 k2] & Hk & Hc).
  injection Hc as <-. eauto 10.
Qed.

Lemma encrypt_ok eph m pk shared : zlen m = NOTE_LENGTH_BYTES → x25519_exchange eph pk = Ok shared →
  ∃ c, encrypt eph m pk = Ok c.
Proof.
  intros Hm Hs. unfold encrypt. rewrite (proj2 (Z.eqb_eq _ _)) by done. cbn [py_assert mbind result_bind].
  unfold _exchange. cbn [generate_encryption_keypair k_sk]. rewrite Hs. cbn [mbind result_bind k_pk].
  destruct (_kdf _ shared) as [[k1 k2]|e] eqn:E; [cbn [mbind result_bind]; eauto|].
  match type of E with _kdf ?p _ = _ => destruct (kdf_ok p shared) as (keys & Hk) end. congruence.
Qed.

(** [decrypt] on a message cut into its three fields. *)
Lemma decrypt_fields pkb ct tag sk : zlen pkb = 32 → zlen ct = NOTE_LENGTH_BYTES → zlen tag = 16 →
  decrypt (pkb ++ ct ++ tag) sk =
  (pk ← pk_from_public_bytes pkb;
   shared ← x25519_exchange sk pk;
   '(sym_key, mac_key) ← _kdf pkb shared;
   _ ← raise_if (negb (bool_decide (poly1305 mac_key ct = tag))) InvalidSignature;
   Ok (chacha20 sym_key _SYM_NONCE_VALUE ct)).
Proof.
  intros Hp Hc Ht. unfold decrypt.
  rewrite !zlen_app, Hp, Hc, Ht. cbn [Z.add]. rewrite py_assert_true by done. cbn [mbind result_bind].
  destruct (py_slice_app3 pkb ct tag) as (E1 & E2 & E3). rewrite Hp in E1. rewrite Hp, Hc in E2. rewrite Hp, Hc, Ht in E3.
  change EC_PUBLIC_KEY_LENGTH_BYTES with 32. change _TAG_LENGTH_BYTES with 16.
  by rewrite E1, E2, E3.
Qed.

Lemma decrypt_encrypt eph m sk c : encrypt eph m (sk_public_key sk) = Ok c → decrypt c sk = Ok m.
Proof.
  intros Hc. destruct (encrypt_inv _ _ _ _ Hc) as (shared' & [k1 k2] & Hm & Hs' & Hk & ->).
  rewrite decrypt_fields; [| | |].
  - rewrite pk_roundtrip. cbn [mbind result_bind].
    rewrite exchange_comm, Hs'. cbn [mbind result_bind]. rewrite Hk. cbn [mbind result_bind fst snd].
    rewrite bool_decide_true by done. cbn [negb raise_if mbind result_bind].
    by rewrite chacha20_involutive.
  - unfold zlen. by rewrite pk_length.
  - rewrite <- Hm. unfold zlen. by rewrite chacha20_length.
  - unfold zlen. by rewrite poly1305_length.
Qed.

Lemma encrypt_length eph m pk c : encrypt eph m pk = Ok c → zlen c = ENCRYPTED_NOTE_LENGTH_BYTES.
Proof.
  intros Hc. destruct (encrypt_inv _ _ _ _ Hc) as (shared' & [k1 k2] & Hm & _ & _ & ->).
  unfold zlen in *. rewrite !length_app, pk_length, chacha20_length, poly1305_length.
  rewrite !Nat2Z.inj_add, Hm. done.
Qed.

(** On a ciphertext of the right length, [decrypt] returns a note's bytes or
    raises one of the two exceptions its caller handles. *)
Lemma decrypt_total c sk : zlen c = ENCRYPTED_NOTE_LENGTH_BYTES →
  (∃ m, decrypt c sk = Ok m ∧ zlen m = NOTE_LENGTH_BYTES) ∨
  decrypt c sk = Err InvalidSignature ∨ decrypt c sk = Err ValueError.
Proof.
  intros Hc. unfold decrypt. rewrite Hc, Z.eqb_refl. cbn [py_assert mbind result_bind].
  unfold decode_encryption_public_key.
  assert (∀ a b, 0 ≤ a ≤ b → b ≤ 152 → length (py_slice c a b) = Z.to_nat (b - a)) as Hs.
  { intros a b Ha Hb. apply length_py_slice; [done|]. rewrite Hc. done. }
  destruct (pk_from_32_bytes (py_slice c 0 EC_PUBLIC_KEY_LENGTH_BYTES)) as [pk ->]; [by rewrite Hs|].
  cbn [mbind result_bind]. unfold _exchange.
  destruct (x25519_exchange sk pk) as [sh|e] eqn:E; [|apply exchange_error in E as ->; by right; right].
  cbn [mbind result_bind]. destruct (kdf_ok (py_slice c 0 EC_PUBLIC_KEY_LENGTH_BYTES) sh) as [[k1 k2] ->].
  cbn [mbind result_bind]. case_bool_decide; [|by right; left]. left. eexists. split; [reflexivity|].
  unfold zlen. rewrite chacha20_length, Hs by done. done.
Qed.
End lemmas.

(** ** Properties *)

(** What one encrypts to a public key, its owner decrypts: encryption
    succeeds on every message of the note length whose key exchange succeeds, the
    ciphertext has the fixed length and decrypts to the message; any other message
    length is refused. *)
Theorem encryption_roundtrip `{NoteCryptoLaws} (eph sk : EncryptionSecretKey) (m shared : bytes)
  (Hs : x25519_exchange eph (sk_public_key sk) = Ok shared) :
  (zlen m = NOTE_LENGTH_BYTES → ∃ c, encrypt eph m (sk_public_key sk) = Ok c ∧
     zlen c = ENCRYPTED_NOTE_LENGTH_BYTES ∧ decrypt c sk = Ok m) ∧
  (zlen m ≠ NOTE_LENGTH_BYTES → encrypt eph m (sk_public_key sk) = Err AssertionError).
Proof.
  split.
  - intros Hm. destruct (encrypt_ok eph m _ shared Hm Hs) as (c & Hc). exists c. split; [done|].
    split; [by apply encrypt_length in Hc | by apply decrypt_encrypt in Hc].
  - intros Hm. unfold encrypt. by rewrite (proj2 (Z.eqb_neq _ _)).
Qed.

(** Decryption authenticates: a message of the right length whose key
    exchange succeeds is decrypted exactly when its last 16 bytes are the tag of
    its ciphertext under the derived key, and raises [InvalidSignature] otherwise;
    a message of another length is refused. *)
Theorem decryption_authenticates `{NoteCryptoLaws} (sk : EncryptionSecretKey) (pkb ct tag c shared : bytes)
  (pk : EncryptionPublicKey)
  (Hpk : pk_from_public_bytes pkb = Ok pk) (Hs : x25519_exchange sk pk = Ok shared)
  (Hl1 : zlen pkb = 32) (Hl2 : zlen ct = NOTE_LENGTH_BYTES) (Hl3 : zlen tag = 16) :
  (∃ sym_key mac_key, _kdf pkb shared = Ok (sym_key, mac_key) ∧
    decrypt (pkb ++ ct ++ tag) sk =
      if bool_decide (tag = poly1305 mac_key ct) then Ok (chacha20 sym_key _SYM_NONCE_VALUE ct)
      else Err InvalidSignature) ∧
  (zlen c ≠ ENCRYPTED_NOTE_LENGTH_BYTES → decrypt c sk = Err AssertionError).
Proof.
  split.
  - destruct (kdf_ok pkb shared) as ([k1 k2] & Hk). exists k1, k2. split; [done|].
    rewrite decrypt_fields by done. rewrite Hpk. cbn [mbind result_bind]. rewrite Hs. cbn [mbind result_bind].
    rewrite Hk. cbn [mbind result_bind]. case_bool_decide as E1; case_bool_decide as E2; done || congruence.
  - intros Hc. unfold decrypt. by rewrite (proj2 (Z.eqb_neq _ _)).
Qed.

(** ** A concrete instance

    Keys are single bytes, the exchange multiplies them, the cipher complements
    every byte and the digests are built from SHA-256. *)

Module ToyCrypto.
Definition key_bytes (k : Byte.byte) : bytes := k :: zero_bytes 31.
Definition flip (b : Byte.byte) : Byte.byte := byte_of (255 - byte_val b).

#[local] Instance toy : NoteCrypto := {|
  EncryptionSecretKey := Byte.byte;
  EncryptionPublicKey := Byte.byte;
  sk_private_bytes := key_bytes;
  sk_from_private_bytes b := of_option ValueError (head b);
  sk_public_key k := k;
  pk_public_bytes := key_bytes;
  pk_from_public_bytes b := of_option ValueError (head b);
  x25519_exchange a b := Ok (to_be 32 (byte_val a * byte_val b));
  chacha20 k n m := flip <$> m;
  poly1305 k m := to_be 16 (int_from_bytes k + int_from_bytes m);
  blake2b_64 m := to_be 64 (int_from_bytes m)
|}.

#[local] Instance toy_laws : NoteCryptoLaws.
Proof.
  split; cbn [toy sk_from_private_bytes sk_private_bytes pk_from_public_bytes pk_public_bytes
    x25519_exchange sk_public_key chacha20 poly1305 blake2b_64]; try done.
  - intros [|x b] Hb; [done | by exists x].
  - intros a b. by rewrite Z.mul_comm.
  - intros _ _ m. rewrite <- list_fmap_compose. rewrite <- (list_fmap_id m) at 2. apply list_fmap_ext.
    intros _ b _. unfold compose, flip. pose proof (byte_val_range b).
    rewrite byte_val_of, Z.mod_small by lia. replace (255 - (255 - byte_val b)) with (byte_val b) by lia.
    apply byte_of_val.
  - intros _ _ m. apply length_fmap.
Qed.

Definition k5 : EncryptionSecretKey := Byte.x05.
Definition k7 : EncryptionSecretKey := Byte.x07.
Definition p7 : EncryptionPublicKey := Byte.x07.
Definition message : bytes := zero_bytes 104.

Lemma encryption_roundtrip_witness :
  (zlen message = NOTE_LENGTH_BYTES → ∃ c, encrypt k7 message (sk_public_key k5) = Ok c ∧
     zlen c = ENCRYPTED_NOTE_LENGTH_BYTES ∧ decrypt c k5 = Ok message) ∧
  (zlen message ≠ NOTE_LENGTH_BYTES → encrypt k7 message (sk_public_key k5) = Err AssertionError).
Proof. apply (encryption_roundtrip k7 k5 message (to_be 32 35)). reflexivity. Defined.

Lemma decryption_authenticates_witness :
  (∃ sym_key mac_key, _kdf (key_bytes Byte.x07) (to_be 32 35) = Ok (sym_key, mac_key) ∧
    decrypt (key_bytes Byte.x07 ++ message ++ zero_bytes 16) k5 =
      if bool_decide (zero_bytes 16 = poly1305 mac_key message)
      then Ok (chacha20 sym_key _SYM_NONCE_VALUE message) else Err InvalidSignature) ∧
  (zlen (@nil Byte.byte) ≠ ENCRYPTED_NOTE_LENGTH_BYTES → decrypt [] k5 = Err AssertionError).
Proof.
  apply (decryption_authenticates k5 (key_bytes Byte.x07) message (zero_bytes 16) [] (to_be 32 35) p7);
    reflexivity.
Defined.
End ToyCrypto.
