(* ===== verification/Notes.v ===== *)
(** * Zeth notes and addresses

    [client/zeth/core/proto_utils.py] (the notes and their binary format),
    [ownership.py] (the payment keys) and [zeth_address.py] (the address formed by
    an ownership and an encryption key pair). *)

From Stdlib Require Import ZArith Lia Ascii String Strings.Byte.
From stdpp Require Import base tactics list sets strings.
From S2P Require Import Prelude PyStr PyBytes PyIO Hashes Constants Utils Encryption.

Local Open Scope Z_scope.

(** ** Notes *)

(** The message [ZethNote]: its fields are hex texts. *)
Record ZethNote : Type := mkZethNote { apk : str; value : str; rho : str; trap_r : str }.

#[export] Instance ZethNote_eq_dec : EqDecision ZethNote.
Proof. solve_decision. Defined.

Definition _APK_OFFSET_BYTES : Z := 0.
Definition _VALUE_OFFSET_BYTES : Z := _APK_OFFSET_BYTES + APK_LENGTH_BYTES.
Definition _RHO_OFFSET_BYTES : Z := _VALUE_OFFSET_BYTES + PUBLIC_VALUE_LENGTH_BYTES.
Definition _TRAPR_OFFSET_BYTES : Z := _RHO_OFFSET_BYTES + RHO_LENGTH_BYTES.

Definition zeth_note_to_json_dict (note : ZethNote) : json :=
  JDict [ (lit "a_pk", JStr (apk note)); (lit "value", JStr (value note));
          (lit "rho", JStr (rho note)); (lit "trap_r", JStr (trap_r note)) ].

Definition jget_text (k : string) (j : json) : result str := v ← jget (lit k) j; as_str v.

Definition zeth_note_from_json_dict (j : json) : result ZethNote :=
  a ← jget_text "a_pk" j;
  v ← jget_text "value" j;
  r ← jget_text "rho" j;
  t ← jget_text "trap_r" j;
  Ok (mkZethNote a v r t).

Definition zeth_note_to_bytes (note : ZethNote) : result bytes :=
  apk_bytes ← fromhex (apk note);
  value_bytes ← fromhex (value note);
  rho_bytes ← fromhex (rho note);
  trap_r_bytes ← fromhex (trap_r note);
  let note_bytes := apk_bytes ++ value_bytes ++ rho_bytes ++ trap_r_bytes in
  _ ← py_assert (zlen note_bytes =? NOTE_LENGTH_BYTES);
  Ok note_bytes.

Definition zeth_note_from_bytes (note_bytes : bytes) : result ZethNote :=
  _ ← raise_if (negb (zlen note_bytes =? NOTE_LENGTH_BYTES)) ValueError;
  let apk := py_slice note_bytes _APK_OFFSET_BYTES (_APK_OFFSET_BYTES + APK_LENGTH_BYTES) in
  let value := py_slice note_bytes _VALUE_OFFSET_BYTES
                 (_VALUE_OFFSET_BYTES + PUBLIC_VALUE_LENGTH_BYTES) in
  let rho := py_slice note_bytes _RHO_OFFSET_BYTES (_RHO_OFFSET_BYTES + RHO_LENGTH_BYTES) in
  let trap_r := drop (Z.to_nat _TRAPR_OFFSET_BYTES) note_bytes in
  Ok (mkZethNote (hex apk) (hex value) (hex rho) (hex trap_r)).

(** ** Ownership keys *)

Record OwnershipKeyPair : Type := mkOwnership { a_sk : bytes; a_pk : bytes }.

Definition ownership_key_as_hex (key : bytes) : result str := hex_extend_32bytes (hex key).
Definition ownership_public_key_from_hex (key_hex : str) : result bytes := fromhex key_hex.
Definition ownership_secret_key_from_hex (key_hex : str) : result bytes := fromhex key_hex.

Definition _derive_a_pk `{EthAbi} (a_sk : bytes) : result bytes :=
  let binary_a_sk := digest_to_binary_string a_sk in
  let first_252bits_ask := take 252 binary_a_sk in
  let left_leg_bin := lit "1100" ++ first_252bits_ask in
  v ← int_of_str 2 left_leg_bin;
  let left_leg_hex := fmt_0gtwX 4 v in
  l ← fromhex left_leg_hex;
  z ← fromhex (replicate 64 "0"%char);
  e ← encode_abi_bytes32_2 l z;
  Ok (blake2s e).

(** [gen_ownership_keypair], with the random bytes it draws. *)
Definition gen_ownership_keypair `{EthAbi} (a_sk : bytes) : result OwnershipKeyPair :=
  a_pk ← _derive_a_pk a_sk;
  Ok (mkOwnership a_sk a_pk).

(** ** Addresses *)

Section address.
Context `{NoteCrypto}.

Record ZethAddressPub : Type := mkAddrPub { pub_a_pk : bytes; pub_k_pk : EncryptionPublicKey }.
Record ZethAddressPriv : Type := mkAddrPriv { priv_a_sk : bytes; priv_k_sk : EncryptionSecretKey }.
Record ZethAddress : Type := mkAddr { addr_pk : ZethAddressPub; addr_sk : ZethAddressPriv }.

Definition address_str (addr : ZethAddressPub) : result str :=
  a_pk_hex ← ownership_key_as_hex (pub_a_pk addr);
  Ok (a_pk_hex ++ lit ":" ++ encryption_public_key_as_hex (pub_k_pk addr)).

Definition address_parse (key_hex : str) : result ZethAddressPub :=
  let owner_enc := split_on ":"%char key_hex in
  _ ← raise_if (negb (zlen owner_enc =? 2)) (Exception "invalid JoinSplitPublicKey format");
  o ← py_get owner_enc 0;
  a_pk ← ownership_public_key_from_hex o;
  e ← py_get owner_enc 1;
  k_pk ← encryption_public_key_from_hex e;
  Ok (mkAddrPub a_pk k_pk).

Definition priv_to_json_dict (addr : ZethAddressPriv) : result json :=
  a ← ownership_key_as_hex (priv_a_sk addr);
  Ok (JDict [ (lit "a_sk", JStr a); (lit "k_sk", JStr (encryption_secret_key_as_hex (priv_k_sk addr))) ]).

Definition priv_from_json_dict (j : json) : result ZethAddressPriv :=
  a ← jget_text "a_sk" j; a_sk ← ownership_secret_key_from_hex a;
  k ← jget_text "k_sk" j; k_sk ← encryption_secret_key_from_hex k;
  Ok (mkAddrPriv a_sk k_sk).

Definition priv_to_json (addr : ZethAddressPriv) : result jtext := dumps <$> priv_to_json_dict addr.
Definition priv_from_json (t : jtext) : result ZethAddressPriv := j ← loads t; priv_from_json_dict j.

Definition from_key_pairs (ownership : OwnershipKeyPair) (encryption : EncryptionKeyPair) : ZethAddress :=
  mkAddr (mkAddrPub (a_pk ownership) (k_pk encryption)) (mkAddrPriv (a_sk ownership) (k_sk encryption)).

Definition from_secret_public (js_secret : ZethAddressPriv) (js_public : ZethAddressPub) : ZethAddress :=
  mkAddr js_public js_secret.

Definition ownership_keypair (addr : ZethAddress) : OwnershipKeyPair :=
  mkOwnership (priv_a_sk (addr_sk addr)) (pub_a_pk (addr_pk addr)).

Definition generate_zeth_address `{EthAbi} (a_sk : bytes) (k_sk : EncryptionSecretKey) : result ZethAddress :=
  ownership_keypair ← gen_ownership_keypair a_sk;
  Ok (from_key_pairs ownership_keypair (generate_encryption_keypair k_sk)).
End address.

(** ** Lemmas *)

Lemma hex_extend_hex b : (length b ≤ 32)%nat → hex_extend_32bytes (hex b) = Ok (hex (to_be 32 (int_from_bytes b))).
Proof.
  intros Hl. destruct (hex_digits_hex b) as (ds & Hds & <-).
  apply hex_extend_32bytes_spec; [done|]. rewrite length_hex. lia.
Qed.

Lemma ownership_key_hex b : length b = 32%nat → ownership_key_as_hex b = Ok (hex b).
Proof.
  intros Hl. unfold ownership_key_as_hex. rewrite hex_extend_hex by lia. do 2 f_equal.
  rewrite <- Hl. apply to_be_from_bytes.
Qed.

Lemma digit_char_not_colon upper d : 0 ≤ d < 16 → digit_char upper d ≠ ":"%char.
Proof.
  intros Hd. assert (Forall (λ d, digit_char upper d ≠ ":"%char) (Z.of_nat <$> seq 0 16)) as Hall.
  { destruct upper; apply (bool_decide_unpack _); by vm_compute. }
  rewrite Forall_forall in Hall. apply Hall, list_elem_of_fmap.
  exists (Z.to_nat d). rewrite elem_of_seq. lia.
Qed.

Lemma colon_not_hex b : ":"%char ∉ hex b.
Proof.
  induction b as [|x b IH]; [apply not_elem_of_nil|]. rewrite hex_cons, not_elem_of_app. split; [|done].
  destruct (byte_nibbles x). unfold hex_byte. rewrite !not_elem_of_cons.
  split_and!; [| | apply not_elem_of_nil]; apply not_eq_sym; by apply digit_char_not_colon.
Qed.

(** The binary text of a digest cut to its first [n] bits. *)
Lemma binary_prefix b (n : nat) : (n ≤ 8 * length b)%nat →
  ∃ ds, mapM digit_val (take n (digest_to_binary_string b)) = Some ds ∧ Forall (λ d, 0 ≤ d < 2) ds ∧
    length ds = n ∧ num_of 2 ds = int_from_bytes b / 2 ^ Z.of_nat (8 * length b - n).
Proof.
  intros Hn. destruct (digest_to_binary_string_digits b) as (ds & Hm & Hr & Hl & Hv).
  exists (take n ds). destruct (Forall_take_drop _ n ds Hr) as [Ht Hd]. split_and!.
  - clear -Hm. revert n ds Hm. generalize (digest_to_binary_string b). intros s.
    induction s as [|c s IH]; intros n ds Hm; [injection Hm as <-; by destruct n|].
    rewrite mapM_cons_opt in Hm. apply bind_Some in Hm as (d & Hd & (ds' & Hm & [= <-])%bind_Some).
    destruct n as [|n]; [done|]. simpl take. by rewrite mapM_cons_opt, Hd, (IH n _ Hm).
  - done.
  - rewrite length_take. lia.
  - pose proof (num_of_app 2 (take n ds) (drop n ds)) as Hs. rewrite take_drop, Hv in Hs.
    pose proof (num_of_bound 2 (drop n ds) ltac:(lia) Hd) as Hb.
    assert (zlen (drop n ds) = Z.of_nat (8 * length b - n)) as Hz by (unfold zlen; rewrite length_drop; lia).
    rewrite Hz in *. rewrite Hs, Z.add_comm, Z.div_add, (Z.div_small (num_of 2 (drop n ds))) by lia. done.
Qed.

(** Four tag bits and the first 252 bits of a digest, read as a number. *)
Definition tagged_leg (tag : Z) (b : bytes) : Z := tag * 2 ^ 252 + int_from_bytes b / 16.

Lemma tagged_leg_bits tag ds b :
  mapM digit_val tag = Some ds → Forall (λ d, 0 ≤ d < 2) ds → tag ≠ [] → length b = 32%nat →
  int_of_str 2 (tag ++ take 252 (digest_to_binary_string b)) = Ok (tagged_leg (num_of 2 ds) b).
Proof.
  intros Ht Hd Hne Hl. destruct (binary_prefix b 252) as (es & Hm & Hr & Hlen & Hv); [lia|].
  rewrite (int_of_digits 2 _ (ds ++ es)).
  - rewrite num_of_app, Hv. unfold zlen. rewrite Hlen, Hl. done.
  - lia.
  - by destruct tag.
  - by apply mapM_digit_val_app.
  - by apply Forall_app.
Qed.

Lemma first_252_range b : length b = 32%nat → 0 ≤ int_from_bytes b / 16 < 2 ^ 252.
Proof.
  intros Hl. pose proof (int_from_bytes_bound b) as Hb. unfold zlen in Hb. rewrite Hl in Hb.
  change (256 ^ Z.of_nat 32) with (16 * 2 ^ 252) in Hb.
  split; [apply Z.div_pos; lia | apply Z.div_lt_upper_bound; lia].
Qed.

Lemma tagged_leg_range tag b : 0 ≤ tag < 16 → length b = 32%nat →
  tag * 2 ^ 252 ≤ tagged_leg tag b < (tag + 1) * 2 ^ 252 ∧ 0 ≤ tagged_leg tag b < 256 ^ Z.of_nat 32.
Proof.
  intros Ht Hl. pose proof (first_252_range b Hl). unfold tagged_leg.
  change (256 ^ Z.of_nat 32) with (16 * 2 ^ 252). lia.
Qed.

(** The left leg of the derivation of a payment key. *)
Definition left_leg (a_sk : bytes) : Z := tagged_leg 12 a_sk.

Lemma left_leg_bits a_sk : length a_sk = 32%nat →
  int_of_str 2 (lit "1100" ++ take 252 (digest_to_binary_string a_sk)) = Ok (left_leg a_sk).
Proof.
  intros Hl. apply (tagged_leg_bits (lit "1100") [1; 1; 0; 0]); [done | | done | done].
  repeat (apply Forall_cons; split; [lia|]). by apply Forall_nil.
Qed.

(** A number of exactly 64 hex digits is written as 32 bytes. *)
Lemma fmt_64_digits z : 16 ^ 63 ≤ z < 16 ^ 64 → fromhex (fmt_0gtwX 4 z) = Ok (to_be 32 z).
Proof.
  intros Hz. assert (0 ≤ z < 2 ^ 256) as Hz2 by (change (2 ^ 256) with (16 ^ 64); lia).
  destruct (fmt_0gtwX_spec z Hz2) as (ds & Hds & Hn & Hl).
  destruct (hex_digits_plain _ _ Hds) as (_ & Hr & _).
  pose proof (num_of_bound 16 ds ltac:(lia) Hr) as Hb. rewrite Hn in Hb.
  pose proof (hex_digits_length _ _ Hds) as Hlen.
  assert (length (fmt_0gtwX 4 z) = 64%nat) as H64.
  { destruct (decide (length (fmt_0gtwX 4 z) < 64)%nat); [|lia]. exfalso.
    assert (16 ^ zlen ds ≤ 16 ^ 63) by (apply Z.pow_le_mono_r; unfold zlen; lia). lia. }
  destruct (fromhex_digits 32 _ ds Hds) as (b & -> & Hbl & Hbv); [lia|].
  f_equal. rewrite <- Hn, <- Hbv, <- Hbl. symmetry. apply to_be_from_bytes.
Qed.

Lemma left_leg_range a_sk : length a_sk = 32%nat → 16 ^ 63 ≤ left_leg a_sk < 16 ^ 64.
Proof.
  intros Hl. destruct (tagged_leg_range 12 a_sk ltac:(lia) Hl) as [? ?]. unfold left_leg.
  change (16 ^ 63) with (2 ^ 252). change (16 ^ 64) with (16 * 2 ^ 252). lia.
Qed.

Lemma derive_a_pk_spec `{EthAbiLaws} a_sk : length a_sk = 32%nat →
  _derive_a_pk a_sk = Ok (blake2s (to_be 32 (left_leg a_sk) ++ zero_bytes 32)).
Proof.
  intros Hl. unfold _derive_a_pk. rewrite left_leg_bits by done. cbn [mbind result_bind].
  rewrite fmt_64_digits by by apply left_leg_range. cbn [mbind result_bind].
  change (fromhex (replicate 64 "0"%char)) with (Ok (zero_bytes 32)). cbn [mbind result_bind].
  by rewrite encode_abi_full by (apply length_to_be || done).
Qed.

Lemma address_parse_pair `{NoteCrypto} s x y : split_on ":"%char s = [x; y] →
  address_parse s = (a ← fromhex x; k ← encryption_public_key_from_hex y; Ok (mkAddrPub a k)).
Proof. intros E. unfold address_parse. by rewrite E. Qed.

(** The fields of a note cut from its bytes. *)
Lemma note_fields (a v r t : bytes) :
  length a = 32%nat → length v = 8%nat → length r = 32%nat → length t = 32%nat →
  zeth_note_from_bytes (a ++ v ++ r ++ t) = Ok (mkZethNote (hex a) (hex v) (hex r) (hex t)).
Proof.
  intros Ha Hv Hr Ht. unfold zeth_note_from_bytes.
  assert (zlen (a ++ v ++ r ++ t) = NOTE_LENGTH_BYTES) as Hz.
  { unfold zlen. rewrite !length_app, Ha, Hv, Hr, Ht. done. }
  rewrite Hz, Z.eqb_refl. cbn [negb raise_if mbind result_bind].
  destruct (py_slice_app3 a v (r ++ t)) as (E1 & E2 & _).
  destruct (py_slice_app3 (a ++ v) r t) as (_ & E3 & _).
  unfold zlen in *. rewrite Ha in E1. rewrite Ha, Hv in E2. rewrite length_app, Ha, Hv, Hr, <- app_assoc in E3.
  change (_APK_OFFSET_BYTES + APK_LENGTH_BYTES) with (Z.of_nat 32). change _APK_OFFSET_BYTES with 0.
  change (_VALUE_OFFSET_BYTES + PUBLIC_VALUE_LENGTH_BYTES) with (Z.of_nat 32 + Z.of_nat 8).
  change _VALUE_OFFSET_BYTES with (Z.of_nat 32).
  change (_RHO_OFFSET_BYTES + RHO_LENGTH_BYTES) with (Z.of_nat (32 + 8) + Z.of_nat 32).
  change _RHO_OFFSET_BYTES with (Z.of_nat (32 + 8)).
  rewrite E1, E2, E3. change (Z.to_nat _TRAPR_OFFSET_BYTES) with (32 + 8 + 32)%nat.
  replace (a ++ v ++ r ++ t) with ((a ++ v ++ r) ++ t) by by rewrite <- !app_assoc.
  rewrite drop_app_length' by (rewrite !length_app; lia). done.
Qed.

(** Every byte string of the note length is cut into fields. *)
Lemma note_cut (b : bytes) : zlen b = NOTE_LENGTH_BYTES → ∃ a v r t : bytes, b = a ++ v ++ r ++ t ∧
  length a = 32%nat ∧ length v = 8%nat ∧ length r = 32%nat ∧ length t = 32%nat.
Proof.
  change NOTE_LENGTH_BYTES with 104. unfold zlen. intros Hb.
  exists (take 32 b), (take 8 (drop 32 b)), (take 32 (drop 40 b)), (drop 72 b).
  split; [|rewrite ?length_take, ?length_drop; lia].
  by rewrite <- (take_drop 32 b) at 1; f_equal; rewrite <- (take_drop 8 (drop 32 b)) at 1; f_equal;
    rewrite drop_drop, <- (take_drop 32 (drop (32 + 8) b)) at 1; f_equal; rewrite drop_drop.
Qed.

(** ** Properties *)

(** The binary format of notes is a bijection: a byte string of the note
    length reads as a note that is written back to the same bytes; a note whose
    fields have their lengths is written to bytes that read back to it; other
    lengths are refused with [ValueError] and an assertion. *)
Theorem note_bytes_bijection (b a v r t : bytes)
  (Hb : zlen b = NOTE_LENGTH_BYTES)
  (Hl : length a = 32%nat ∧ length v = 8%nat ∧ length r = 32%nat ∧ length t = 32%nat) :
  (∃ note, zeth_note_from_bytes b = Ok note ∧ zeth_note_to_bytes note = Ok b) ∧
  (∃ c, zeth_note_to_bytes (mkZethNote (hex a) (hex v) (hex r) (hex t)) = Ok c ∧
     zeth_note_from_bytes c = Ok (mkZethNote (hex a) (hex v) (hex r) (hex t))) ∧
  zeth_note_from_bytes (Byte.x00 :: b) = Err ValueError ∧
  zeth_note_to_bytes (mkZethNote (hex (Byte.x00 :: a)) (hex v) (hex r) (hex t)) = Err AssertionError.
Proof.
  assert (∀ a v r t, zeth_note_to_bytes (mkZethNote (hex a) (hex v) (hex r) (hex t)) =
    (_ ← py_assert (zlen (a ++ v ++ r ++ t) =? NOTE_LENGTH_BYTES); Ok (a ++ v ++ r ++ t))) as Hto.
  { intros. unfold zeth_note_to_bytes. cbn [apk value rho trap_r].
    by rewrite !fromhex_hex. }
  destruct Hl as (Ha & Hv & Hr & Ht). split_and!.
  - destruct (note_cut b Hb) as (a' & v' & r' & t' & -> & ? & ? & ? & ?). rewrite note_fields by done.
    eexists. split; [done|]. by rewrite Hto, Hb, Z.eqb_refl.
  - rewrite Hto, (proj2 (Z.eqb_eq _ _)) by (unfold zlen; rewrite !length_app, Ha, Hv, Hr, Ht; done).
    cbn [py_assert mbind result_bind]. eexists. split; [done|]. by apply note_fields.
  - unfold zeth_note_from_bytes. rewrite (proj2 (Z.eqb_neq _ _)); [done|].
    unfold zlen in *. cbn [length]. lia.
  - rewrite Hto. rewrite (proj2 (Z.eqb_neq _ _)); [done|].
    change NOTE_LENGTH_BYTES with 104. unfold zlen. rewrite !length_app, Hv, Hr, Ht. cbn [length]. lia.
Qed.

#[local] Opaque blake2s.

(** A payment key is the BLAKE2s digest of the tag 1100, the first 252 bits
    of the secret key and 256 zero bits; it is derived for every 32-byte secret.
    Two secrets have the same payment key when they agree on those bits, and
    otherwise two equal keys exhibit a collision of BLAKE2s. *)
Theorem payment_key_derivation `{EthAbiLaws} (s1 s2 : bytes)
  (H1 : length s1 = 32%nat) (H2 : length s2 = 32%nat) :
  let m s := to_be 32 (12 * 2 ^ 252 + int_from_bytes s / 16) ++ zero_bytes 32 in
  gen_ownership_keypair s1 = Ok (mkOwnership s1 (blake2s (m s1))) ∧
  length (blake2s (m s1)) = 32%nat ∧
  (_derive_a_pk s1 = _derive_a_pk s2 ↔
     int_from_bytes s1 / 16 = int_from_bytes s2 / 16 ∨ m s1 ≠ m s2 ∧ blake2s (m s1) = blake2s (m s2)).
Proof.
  intros m. unfold gen_ownership_keypair. rewrite !derive_a_pk_spec by done.
  fold (tagged_leg 12 s1). fold (tagged_leg 12 s2). fold (left_leg s1). fold (left_leg s2). split; [done|]. split; [apply blake2s_length|].
  split.
  - intros Heq%Ok_inj. destruct (decide (m s1 = m s2)) as [E|Hne]; [left | right; split; [exact Hne | exact Heq]].
    apply app_inj_1 in E as [E _]; [|by rewrite !length_to_be].
    pose proof (left_leg_range s1 H1). pose proof (left_leg_range s2 H2).
    fold (tagged_leg 12 s1) in E. fold (tagged_leg 12 s2) in E.
    apply to_be_inj in E; [unfold tagged_leg in E; lia | apply tagged_leg_range; lia..].
  - intros [E|[_ E]].
    + unfold left_leg, tagged_leg. rewrite E. reflexivity.
    + apply (f_equal Ok). exact E.
Qed.

(** The text form of a public address reads back to the address, and the JSON
    form of a private address to it, for 32-byte ownership keys; a text without
    exactly one colon is refused. *)
Theorem address_roundtrip `{NoteCryptoLaws} (a s : bytes) (k : EncryptionPublicKey) (ks : EncryptionSecretKey)
  (Ha : length a = 32%nat) (Hs : length s = 32%nat) :
  (∃ t, address_str (mkAddrPub a k) = Ok t ∧ address_parse t = Ok (mkAddrPub a k)) ∧
  (∃ j, priv_to_json (mkAddrPriv s ks) = Ok j ∧ priv_from_json j = Ok (mkAddrPriv s ks)) ∧
  address_parse (hex a) = Err (Exception "invalid JoinSplitPublicKey format").
Proof.
  split_and!.
  - unfold address_str. cbn [pub_a_pk pub_k_pk]. rewrite ownership_key_hex by done. cbn [mbind result_bind].
    eexists. split; [done|].
    rewrite (address_parse_pair _ (hex a) (encryption_public_key_as_hex k)).
    + unfold encryption_public_key_from_hex, encryption_public_key_as_hex, encode_encryption_public_key.
      rewrite !fromhex_hex. cbn [mbind result_bind]. unfold decode_encryption_public_key. by rewrite pk_roundtrip.
    + change (lit ":" ++ ?x) with (":"%char :: x). rewrite split_on_app by apply colon_not_hex.
      by rewrite split_on_none by apply colon_not_hex.
  - unfold priv_to_json, priv_to_json_dict. cbn [priv_a_sk priv_k_sk]. rewrite ownership_key_hex by done.
    cbn [mbind result_bind fmap result_fmap]. eexists. split; [done|].
    unfold priv_from_json, priv_from_json_dict, dumps, loads, jget_text. cbn [of_option mbind result_bind].
    jsimp. cbn [as_str mbind result_bind]. unfold ownership_secret_key_from_hex. rewrite fromhex_hex.
    cbn [mbind result_bind]. jsimp. cbn [as_str mbind result_bind].
    unfold encryption_secret_key_from_hex, encryption_secret_key_as_hex, encode_encryption_secret_key.
    rewrite fromhex_hex. cbn [mbind result_bind]. by rewrite sk_roundtrip.
  - unfold address_parse. by rewrite split_on_none by apply colon_not_hex.
Qed.

#[local] Transparent blake2s.

(** ** Concrete inputs *)

Module NotesSample.
#[local] Instance abi : EthAbi := {|
  encode_single_bytes32 b := Ok b;
  encode_abi_bytes32_2 a b := Ok (a ++ b)
|}.
#[local] Instance abi_laws : EthAbiLaws.
Proof. by split. Qed.

Lemma note_bytes_bijection_witness :
  (∃ note, zeth_note_from_bytes (zero_bytes 104) = Ok note ∧ zeth_note_to_bytes note = Ok (zero_bytes 104)) ∧
  (∃ c, zeth_note_to_bytes (mkZethNote (hex (zero_bytes 32)) (hex (zero_bytes 8)) (hex (zero_bytes 32))
       (hex (zero_bytes 32))) = Ok c ∧
     zeth_note_from_bytes c = Ok (mkZethNote (hex (zero_bytes 32)) (hex (zero_bytes 8)) (hex (zero_bytes 32))
       (hex (zero_bytes 32)))) ∧
  zeth_note_from_bytes (Byte.x00 :: zero_bytes 104) = Err ValueError ∧
  zeth_note_to_bytes (mkZethNote (hex (Byte.x00 :: zero_bytes 32)) (hex (zero_bytes 8)) (hex (zero_bytes 32))
    (hex (zero_bytes 32))) = Err AssertionError.
Proof.
  apply (note_bytes_bijection (zero_bytes 104) (zero_bytes 32) (zero_bytes 8) (zero_bytes 32) (zero_bytes 32));
    [reflexivity | split_and!; reflexivity].
Defined.

Lemma payment_key_derivation_witness :
  let m s := to_be 32 (12 * 2 ^ 252 + int_from_bytes s / 16) ++ zero_bytes 32 in
  gen_ownership_keypair (to_be 32 5) = Ok (mkOwnership (to_be 32 5) (blake2s (m (to_be 32 5)))) ∧
  length (blake2s (m (to_be 32 5))) = 32%nat ∧
  (_derive_a_pk (to_be 32 5) = _derive_a_pk (to_be 32 7) ↔
     int_from_bytes (to_be 32 5) / 16 = int_from_bytes (to_be 32 7) / 16 ∨
     m (to_be 32 5) ≠ m (to_be 32 7) ∧ blake2s (m (to_be 32 5)) = blake2s (m (to_be 32 7))).
Proof. apply (payment_key_derivation (to_be 32 5) (to_be 32 7)); reflexivity. Defined.

#[local] Existing Instance ToyCrypto.toy.
#[local] Existing Instance ToyCrypto.toy_laws.

Lemma address_roundtrip_witness :
  (∃ t, address_str (mkAddrPub (to_be 32 5) ToyCrypto.p7) = Ok t ∧
     address_parse t = Ok (mkAddrPub (to_be 32 5) ToyCrypto.p7)) ∧
  (∃ j, priv_to_json (mkAddrPriv (to_be 32 6) ToyCrypto.k5) = Ok j ∧
     priv_from_json j = Ok (mkAddrPriv (to_be 32 6) ToyCrypto.k5)) ∧
  address_parse (hex (to_be 32 5)) = Err (Exception "invalid JoinSplitPublicKey format").
Proof. apply (address_roundtrip (to_be 32 5) (to_be 32 6) ToyCrypto.p7 ToyCrypto.k5); reflexivity. Defined.
End NotesSample.
