(* ===== verification/Contracts.v ===== *)
(** * Event logs ([client/zeth/core/contracts.py])

    The batched query for the events of a contract and the extraction of events
    from a transaction receipt.  The Ethereum node and the web3 contract object
    are external: [getLogs] is the RPC call for the logs of the contract's address
    in a range of blocks, [processLog] decodes a log. *)

From Stdlib Require Import ZArith Lia Ascii String.
From stdpp Require Import base tactics list strings.
From S2P Require Import Prelude PyStr PyIO Utils.

Local Open Scope Z_scope.

Definition SYNC_BLOCKS_PER_BATCH : Z := 1000.

(** [InstanceDescription] *)
Record InstanceDescription : Type := mkInstance { inst_address : str; inst_abi : json }.

Definition instance_to_json_dict (d : InstanceDescription) : json :=
  JDict [ (lit "address", JStr (inst_address d)); (lit "abi", inst_abi d) ].

Definition instance_from_json_dict (j : json) : result InstanceDescription :=
  aj ← jget (lit "address") j; a ← as_str aj;
  abi ← jget (lit "abi") j;
  Ok (mkInstance a abi).

(** The fields of [tx_desc] that [send_contract_call] and [local_contract_call]
    fill: a zero value or gas is left out. *)
Record TxDesc : Type := mkTxDesc { tx_from : str; tx_value : option Z; tx_gas : option Z }.

Definition contract_call_desc (sender_eth_addr : str) (value : option EtherValue.t) (gas : option Z) : TxDesc :=
  mkTxDesc sender_eth_addr
    (match value with Some v => if EtherValue.truth v then Some (EtherValue.wei v) else None | None => None end)
    (match gas with Some g => if g =? 0 then None else Some g | None => None end).

Section logs.
(** A log has an emitting address and topics; [Ev] is the type of decoded events. *)
Context {Log Ev : Type} (log_address : Log → str) (log_topics : Log → list str)
  (processLog : Log → result Ev).

(** The body of the [for log in logs] loop: the events of the logs whose first
    topic is [log_topic], in order. *)
Fixpoint matching_events (log_topic : str) (logs : list Log) : result (list Ev) :=
  match logs with
  | [] => Ok []
  | log :: logs =>
      t ← py_get (log_topics log) 0;
      if decide (log_topic = t) then
        e ← processLog log;
        es ← matching_events log_topic logs;
        Ok (e :: es)
      else matching_events log_topic logs
  end.

(** The [while] loop: each iteration queries one batch of blocks. *)
Fixpoint event_batches (fuel : nat) (getLogs : Z → Z → list Log) (log_topic : str)
    (start_block end_block batch_size : Z) : result (list Ev) :=
  if start_block <=? end_block then
    match fuel with
    | O => Err OutOfFuel
    | S fuel =>
        let to_block := Z.min (start_block + batch_size - 1) end_block in
        es ← matching_events log_topic (getLogs start_block to_block);
        rest ← event_batches fuel getLogs log_topic (to_block + 1) end_block batch_size;
        Ok (es ++ rest)
    end
  else Ok [].

(** [list(get_event_logs(...))]; [batch_size or SYNC_BLOCKS_PER_BATCH] takes the
    default for [None] and for zero.  A positive batch moves the start forward, so
    one iteration per block is enough. *)
Definition effective_batch (batch_size : option Z) : Z :=
  match batch_size with
  | Some b => if b =? 0 then SYNC_BLOCKS_PER_BATCH else b
  | None => SYNC_BLOCKS_PER_BATCH
  end.

Definition get_event_logs (getLogs : Z → Z → list Log) (log_topic : str)
    (start_block end_block : Z) (batch_size : option Z) : result (list Ev) :=
  event_batches (Z.to_nat (end_block - start_block + 1)) getLogs log_topic
    start_block end_block (effective_batch batch_size).

Fixpoint get_event_logs_from_tx_receipt (contract_address log_topic : str) (logs : list Log)
    : result (list Ev) :=
  match logs with
  | [] => Ok []
  | log :: logs =>
      hit ← (if decide (log_address log = contract_address) then
               t ← py_get (log_topics log) 0; Ok (bool_decide (log_topic = t))
             else Ok false);
      if (hit : bool) then
        e ← processLog log;
        es ← get_event_logs_from_tx_receipt contract_address log_topic logs;
        Ok (e :: es)
      else get_event_logs_from_tx_receipt contract_address log_topic logs
  end.

(** ** Lemmas *)

Lemma matching_events_app topic l1 l2 : matching_events topic (l1 ++ l2) =
  (e1 ← matching_events topic l1; e2 ← matching_events topic l2; Ok (e1 ++ e2)).
Proof.
  induction l1 as [|x l1 IH].
  - cbn. by destruct (matching_events topic l2).
  - cbn [app matching_events]. destruct (py_get (log_topics x) 0) as [t|]; [|done].
    cbn [mbind result_bind]. case_decide; [|apply IH].
    destruct (processLog x) as [e|]; [|done]. cbn [mbind result_bind]. rewrite IH.
    destruct (matching_events topic l1); [|done]. cbn [mbind result_bind].
    by destruct (matching_events topic l2).
Qed.

(** A node answers a query for adjacent ranges with the concatenation of the
    answers for the ranges, and an empty range with nothing. *)
Class NodeLogs (getLogs : Z → Z → list Log) : Prop := {
  getLogs_split a m b : a ≤ m + 1 → m ≤ b → getLogs a b = getLogs a m ++ getLogs (m + 1) b;
  getLogs_empty a b : b < a → getLogs a b = []
}.

Lemma event_batches_spec (getLogs : Z → Z → list Log) `{!NodeLogs getLogs} fuel topic s e b :
  0 < b → (Z.to_nat (e - s + 1) ≤ fuel)%nat →
  event_batches fuel getLogs topic s e b = matching_events topic (getLogs s e).
Proof.
  intros Hb. revert s. induction fuel as [|fuel IH]; intros s Hf; cbn [event_batches].
  - rewrite (proj2 (Z.leb_gt s e)) by lia. by rewrite getLogs_empty by lia.
  - destruct (s <=? e) eqn:E; prop_bool; [|by rewrite getLogs_empty by lia].
    rewrite IH by lia. set (m := Z.min (s + b - 1) e).
    by rewrite (getLogs_split s m e), matching_events_app by lia.
Qed.

Lemma event_batches_negative getLogs fuel topic s e b (evs : Z → Z → list Ev) :
  (∀ x y, matching_events topic (getLogs x y) = Ok (evs x y)) →
  b < 0 → s ≤ e → event_batches fuel getLogs topic s e b = Err OutOfFuel.
Proof.
  intros Hev Hb. revert s. induction fuel as [|fuel IH]; intros s Hs; cbn [event_batches].
  all: rewrite (proj2 (Z.leb_le s e)) by lia.
  { done. }
  rewrite Hev. cbn [mbind result_bind]. by rewrite IH by lia.
Qed.
End logs.

(** ** Properties *)

(** C38: reading the logs in batches is equivalent to one query over the whole
    range: for every start, end and batch size that is not negative (or absent)
    the loop terminates and yields exactly the events of the contract with the
    right topic, in order and once each; an unreadable log raises in both. *)
Theorem event_logs_batching {Log Ev : Type} (log_topics : Log → list str) (processLog : Log → result Ev)
  (getLogs : Z → Z → list Log) `{!NodeLogs getLogs} (topic : str) (s e : Z) (batch : option Z)
  (Hb : match batch with Some b => 0 ≤ b | None => True end) :
  get_event_logs log_topics processLog getLogs topic s e batch =
  matching_events log_topics processLog topic (getLogs s e).
Proof.
  unfold get_event_logs. apply event_batches_spec; [done | | done].
  destruct batch as [b|]; [|done]. cbn. destruct (b =? 0) eqn:E; [done|]. prop_bool. lia.
Qed.

(** With a negative batch size, which the callers do not exclude, the loop
    runs forever on a non-empty range: no number of iterations ends it, since the
    start of the range moves backwards. *)
Theorem event_logs_negative_batch {Log Ev : Type} (log_topics : Log → list str)
  (processLog : Log → result Ev) (getLogs : Z → Z → list Log) (topic : str) (s e b : Z)
  (evs : Z → Z → list Ev) (fuel : nat)
  (Hev : ∀ x y, matching_events log_topics processLog topic (getLogs x y) = Ok (evs x y))
  (Hb : b < 0) (Hs : s ≤ e) :
  event_batches log_topics processLog fuel getLogs topic s e (effective_batch (Some b)) = Err OutOfFuel.
Proof.
  apply event_batches_negative with evs; [done | | done]. cbn.
  rewrite (proj2 (Z.eqb_neq _ _)); lia.
Qed.

(** ** A concrete chain: one log per block, alternating topics *)

Module LogsSample.
Definition topics (n : Z) : list str := [if Z.even n then lit "mix" else lit "other"].
Definition logs (a b : Z) : list Z := seqZ a (b - a + 1).

#[local] Instance node : NodeLogs logs.
Proof.
  split; unfold logs.
  - intros a m b Ha Hb. replace (b - a + 1) with ((m - a + 1) + (b - (m + 1) + 1)) by lia.
    rewrite seqZ_app by lia. do 2 f_equal. lia.
  - intros a b Hab. apply seqZ_nil. lia.
Qed.

Lemma event_logs_batching_witness :
  get_event_logs topics (@Ok Z) logs (lit "mix") 2 6 (Some 2) = Ok [2; 4; 6].
Proof.
  rewrite (event_logs_batching topics (@Ok Z) logs (lit "mix") 2 6 (Some 2)); [|lia].
  vm_compute. reflexivity.
Defined.

Lemma event_logs_negative_batch_witness :
  event_batches topics (@Ok Z) 50 (λ _ _, []) (lit "mix") 2 6 (effective_batch (Some (-1))) = Err OutOfFuel.
Proof.
  apply (event_logs_negative_batch topics (@Ok Z) (λ _ _, []) (lit "mix") 2 6 (-1) (λ _ _, []) 50); [done | lia | lia].
Defined.
End LogsSample.
