(* ===== verification/MixerClient.v ===== *)
(** * The mixer client ([client/zeth/core/mixer_client.py])

    Building the inputs of the prover, the parameters of a mix call and its
    signature; commitments, nullifiers and the pseudo-random values of a
    joinsplit; receiving notes.  Random values are arguments.  The prover server
    is the parameter [get_proof]. *)

From Stdlib Require Import ZArith Lia Ascii String Strings.Byte.
From stdpp Require Import base tactics list strings.
From S2P Require Import Prelude PyStr PyBytes PyFloat PyIO Hashes Constants Utils MerkleTree Pairing ZkSnark Signing Encryption Notes Contracts.

Local Open Scope Z_scope.

Definition ZERO_UNITS_HEX : str := lit "0000000000000000".
Definition ZERO_ADDRESS : str := lit "0x0000000000000000000000000000000000000000".

(** ** Commitments and pseudo-random functions *)

Definition compute_commitment (zeth_note : ZethNote) (pp : PairingParameters) : result bytes :=
  r ← fromhex (trap_r zeth_note);
  a ← fromhex (apk zeth_note);
  rh ← fromhex (rho zeth_note);
  v ← fromhex (value zeth_note);
  let cm := blake2s (r ++ a ++ rh ++ v) in
  m ← scalar_field_mod pp;
  _ ← raise_if (m =? 0) ZeroDivisionError;
  let cm_field := int_from_bytes cm mod m in
  n ← int_truediv DIGEST_LENGTH 8;
  int_to_bytes cm_field (Z.to_nat n).

Definition compute_nullifier (zeth_note : ZethNote) (spending_authority_ask : bytes) : result bytes :=
  let binary_ask := digest_to_binary_string spending_authority_ask in
  let first_252bits_ask := take 252 binary_ask in
  let left_leg_bin := lit "1110" ++ first_252bits_ask in
  v ← int_of_str 2 left_leg_bin;
  left_leg ← int_to_bytes v 32;
  r ← fromhex (rho zeth_note);
  Ok (blake2s (left_leg ++ r)).

Definition _compute_rho_i (phi hsig : bytes) (i : Z) : result bytes :=
  _ ← py_assert (i <? JS_OUTPUTS);
  let index_bits := Z.log2_up JS_OUTPUTS in
  let index_bin := fmt_b i in
  let index_bin := py_repeat "0"%char (index_bits - zlen index_bin) ++ index_bin in
  _ ← py_assert (zlen index_bin =? index_bits);
  let phi_truncated_bits := 256 - 1 - index_bits - 2 in
  let phi_truncated_bin := take (Z.to_nat phi_truncated_bits) (digest_to_binary_string phi) in
  _ ← py_assert (zlen phi_truncated_bin =? phi_truncated_bits);
  let left_leg_bin := lit "0" ++ index_bin ++ lit "10" ++ phi_truncated_bin in
  _ ← py_assert (zlen left_leg_bin =? 256);
  v ← int_of_str 2 left_leg_bin;
  left_leg ← int_to_bytes v 32;
  Ok (blake2s (left_leg ++ hsig)).

(** [_trap_r_randomness], [_get_dummy_rho], with the random bytes drawn. *)
Definition _trap_r_randomness (rand : bytes) : result str :=
  _ ← py_assert (Z.shiftl TRAPR_LENGTH_BYTES 3 =? TRAPR_LENGTH);
  Ok (hex rand).
Definition _get_dummy_rho (rand : bytes) : result str :=
  _ ← py_assert (Z.shiftl RHO_LENGTH_BYTES 3 =? RHO_LENGTH);
  Ok (hex rand).

Section with_curve.
Context `{BN128}.

Definition compute_h_sig (nullifiers : list bytes) (sign_vk : SigningVerificationKey) : result bytes :=
  vk ← svk_to_bytes sign_vk;
  Ok (sha256 (concat nullifiers ++ vk)).

(** ** Mix parameters *)

Record MixParameters : Type := mkMixParameters {
  extended_proof : ExtendedProof;
  public_data : list Z;
  signature_vk : SigningVerificationKey;
  signature : Z;
  ciphertexts : list bytes
}.

Definition mix_parameters_to_json_dict (p : MixParameters) : result json :=
  vk ← verification_key_as_mix_parameter (signature_vk p);
  Ok (JDict [ (lit "extended_proof", extended_proof_to_json_dict (extended_proof p));
              (lit "public_data", strs_to_json (hex_of_int <$> public_data p));
              (lit "signature_vk", strs_to_json (str_of_int <$> vk));
              (lit "signature", JStr (str_of_int (signature_as_mix_parameter (signature p))));
              (lit "ciphertexts", strs_to_json (hex <$> ciphertexts p)) ]).

Definition mix_parameters_from_json_dict (zksnark : IZKSnarkProvider) (j : json) : result MixParameters :=
  ej ← jget (lit "extended_proof") j; ext_proof ← extended_proof_from_json_dict zksnark ej;
  pj ← jget (lit "public_data") j; ps ← strs_from_json pj;
  public_data ← mapM (int_of_str 16) ps;
  vj ← jget (lit "signature_vk") j; vs ← strs_from_json vj;
  signature_pk_param ← mapM (int_of_str 10) vs;
  signature_pk ← verification_key_from_mix_parameter signature_pk_param;
  sj ← jget_text "signature" j; s ← int_of_str 10 sj;
  let signature := signature_from_mix_parameter s in
  cj ← jget (lit "ciphertexts") j; cs ← strs_from_json cj;
  ciphertexts ← mapM fromhex cs;
  Ok (mkMixParameters ext_proof public_data signature_pk signature ciphertexts).

(** The arguments of the [mix] method of the contract. *)
Definition mix_parameters_to_contract_arguments (zksnark : IZKSnarkProvider) (pp : PairingParameters)
    (p : MixParameters) : result (list Z * list Z * Z * list Z * list bytes) :=
  proof_contract_params ← proof_to_contract_parameters zksnark (proof (extended_proof p)) pp;
  vk ← verification_key_as_mix_parameter (signature_vk p);
  Ok (proof_contract_params, vk, signature_as_mix_parameter (signature p), public_data p, ciphertexts p).

(** ** Signing a joinsplit *)

Section sign.
Context `{EthAbi}.

Definition _proof_and_inputs_to_bytes (snark : IZKSnarkProvider) (pp : PairingParameters)
    (extproof : ExtendedProof) (public_data : list Z) : result (bytes * bytes) :=
  params ← proof_to_contract_parameters snark (proof extproof) pp;
  p ← message_to_bytes (One ∘ MInt <$> params);
  i ← message_to_bytes (One ∘ MInt <$> public_data);
  Ok (p, i).

(** The digest [joinsplit_sign] signs. *)
Definition joinsplit_digest (zksnark : IZKSnarkProvider) (pp : PairingParameters)
    (sender_eth_address : str) (ciphertexts : list bytes) (extproof : ExtendedProof)
    (public_data : list Z) (for_dispatch_call : bool) : result bytes :=
  _ ← py_assert (zlen ciphertexts =? JS_INPUTS);
  addr ← eth_address_to_bytes32 sender_eth_address;
  '(proof_bytes, pub_inputs_bytes) ← _proof_and_inputs_to_bytes zksnark pp extproof public_data;
  Ok (sha256 (addr ++ concat ciphertexts ++ (if for_dispatch_call then [] else proof_bytes)
              ++ pub_inputs_bytes)).

Definition joinsplit_sign (zksnark : IZKSnarkProvider) (pp : PairingParameters)
    (signing_keypair : SigningKeyPair) (sender_eth_address : str) (ciphertexts : list bytes)
    (extproof : ExtendedProof) (public_data : list Z) (for_dispatch_call : bool) : result Z :=
  message_digest ← joinsplit_digest zksnark pp sender_eth_address ciphertexts extproof public_data
                     for_dispatch_call;
  sign (kp_sk signing_keypair) message_digest.
End sign.

(** ** Notes of a joinsplit *)

(** [_create_api_zeth_notes], with the random bytes drawn for each note. *)
Definition _create_api_zeth_note (phi hsig : bytes) (out_index : Z) (recipient : bytes) (value : Z)
    (rand : bytes) : result ZethNote :=
  rho ← _compute_rho_i phi hsig out_index;
  trap_r ← _trap_r_randomness rand;
  apk ← ownership_key_as_hex recipient;
  v ← int64_to_hex value;
  Ok (mkZethNote apk v (hex rho) trap_r).

Fixpoint create_notes_from (phi hsig : bytes) (idx : Z) (outputs : list (bytes * Z)) (rands : Z → bytes)
    : result (list ZethNote) :=
  match outputs with
  | [] => Ok []
  | (recipient, v) :: outputs =>
      note ← _create_api_zeth_note phi hsig idx recipient v (rands idx);
      notes ← create_notes_from phi hsig (idx + 1) outputs rands;
      Ok (note :: notes)
  end.

Definition _create_api_zeth_notes (phi hsig : bytes) (outputs : list (bytes * Z)) (rands : Z → bytes)
    : result (list ZethNote) :=
  create_notes_from phi hsig 0 outputs rands.

Definition get_dummy_input_and_address (a_pk rand_rho rand_trap : bytes) : result (Z * ZethNote) :=
  apk ← ownership_key_as_hex a_pk;
  rho ← _get_dummy_rho rand_rho;
  trap_r ← _trap_r_randomness rand_trap;
  Ok (0, mkZethNote apk ZERO_UNITS_HEX rho trap_r).

(** The message [JoinsplitInput]. *)
Record JoinsplitInput : Type := mkJoinsplitInput {
  merkle_path : list str; address : Z; note : ZethNote; spending_ask : str; nullifier : str
}.

Definition create_api_joinsplit_input (merkle_path : list str) (address : Z) (note : ZethNote)
    (a_sk nullifier : bytes) : result JoinsplitInput :=
  ask ← ownership_key_as_hex a_sk;
  Ok (mkJoinsplitInput merkle_path address note ask (hex nullifier)).

(** The message [ProofInputs]. *)
Record ProofInputs : Type := mkProofInputs {
  mk_root : str; js_inputs : list JoinsplitInput; js_outputs : list ZethNote;
  pub_in_value : str; pub_out_value : str; pi_h_sig : str; pi_phi : str
}.

(** ** Mix calls *)

Section with_notes.
Context `{NoteCrypto} `{Web3Units}.

Record MixCallDescription : Type := mkMixCall {
  mc_tree : MerkleTree;
  mc_sender : OwnershipKeyPair;
  mc_inputs : list (Z * ZethNote);
  mc_outputs : list (ZethAddressPub * EtherValue.t);
  mc_v_in : EtherValue.t;
  mc_v_out : EtherValue.t;
  mc_h_sig : option (list bytes → SigningVerificationKey → result bytes)
}.

(** [MixCallDescription.__init__]; [dummies] are the random bytes of the dummy
    inputs, [dummy_k_sk] the secret key drawn for the dummy outputs. *)
Definition new_mix_call (tree : MerkleTree) (sender : OwnershipKeyPair) (inputs : list (Z * ZethNote))
    (outputs : list (ZethAddressPub * EtherValue.t)) (v_in v_out : EtherValue.t)
    (h_sig : option (list bytes → SigningVerificationKey → result bytes))
    (dummies : Z → bytes * bytes) (dummy_k_sk : EncryptionSecretKey) : result MixCallDescription :=
  _ ← py_assert (zlen inputs <=? JS_INPUTS);
  _ ← py_assert (zlen outputs <=? JS_OUTPUTS);
  let sender_a_pk := a_pk sender in
  dummy_inputs ← mapM (λ i, get_dummy_input_and_address sender_a_pk (dummies i).1 (dummies i).2)
                   (py_range (JS_INPUTS - zlen inputs));
  outputs ← (if zlen outputs <? JS_OUTPUTS then
               let dummy_addr_pk := mkAddrPub sender_a_pk (k_pk (generate_encryption_keypair dummy_k_sk)) in
               zero ← EtherValue.of_int 0 (lit "ether");
               Ok (outputs ++ ((λ _, (dummy_addr_pk, zero)) <$> py_range (JS_OUTPUTS - zlen outputs)))
             else Ok outputs);
  Ok (mkMixCall tree sender (inputs ++ dummy_inputs) outputs v_in v_out h_sig).

(** The random values of [create_prover_inputs]. *)
Record MixRandomness : Type := mkMixRandomness {
  mr_sign_x : bytes; mr_sign_y : bytes; mr_phi : bytes; mr_traps : Z → bytes
}.

Definition _create_api_input (tree : MerkleTree) (sender_ask : bytes) (input : Z * ZethNote)
    : result JoinsplitInput :=
  let '(input_address, input_note) := input in
  mk_path ← compute_merkle_path input_address tree;
  input_nullifier ← compute_nullifier input_note sender_ask;
  create_api_joinsplit_input mk_path input_address input_note sender_ask input_nullifier.

Definition create_prover_inputs (desc : MixCallDescription) (rand : MixRandomness)
    : result (ProofInputs * SigningKeyPair) :=
  let mk_tree := mc_tree desc in
  let sender_ask := a_sk (mc_sender desc) in
  api_inputs ← mapM (_create_api_input mk_tree sender_ask) (mc_inputs desc);
  mk_root ← get_root mk_tree;
  outputs_with_a_pk ← mapM (λ '(zeth_addr, value), u ← to_zeth_units value; Ok (pub_a_pk zeth_addr, u))
                        (mc_outputs desc);
  public_in ← to_zeth_units (mc_v_in desc);
  public_out ← to_zeth_units (mc_v_out desc);
  signing_keypair ← gen_signing_keypair (mr_sign_x rand) (mr_sign_y rand);
  nullifiers ← mapM (λ input, fromhex (nullifier input)) api_inputs;
  h_sig ← (default compute_h_sig (mc_h_sig desc)) nullifiers (kp_vk signing_keypair);
  let phi := mr_phi rand in
  api_outputs ← _create_api_zeth_notes phi h_sig outputs_with_a_pk (mr_traps rand);
  in_hex ← int64_to_hex public_in;
  out_hex ← int64_to_hex public_out;
  Ok (mkProofInputs (hex mk_root) api_inputs api_outputs in_hex out_hex (hex h_sig) (hex phi), signing_keypair).

(** [encrypt_notes], with the ephemeral secret key drawn for each note. *)
Fixpoint encrypt_notes_from (idx : Z) (notes : list (ZethNote * EncryptionPublicKey))
    (ephs : Z → EncryptionSecretKey) : result (list bytes) :=
  match notes with
  | [] => Ok []
  | (n, pk) :: notes =>
      b ← zeth_note_to_bytes n;
      c ← encrypt (ephs idx) b pk;
      cs ← encrypt_notes_from (idx + 1) notes ephs;
      Ok (c :: cs)
  end.

Definition encrypt_notes (notes : list (ZethNote * EncryptionPublicKey)) (ephs : Z → EncryptionSecretKey)
    : result (list bytes) :=
  encrypt_notes_from 0 notes ephs.

Record MixOutputEvents : Type := mkMixOutputEvents { commitment : bytes; ciphertext : bytes }.

Record MixResult : Type := mkMixResult {
  new_merkle_root : bytes; nullifiers : list bytes; output_events : list MixOutputEvents
}.

Definition event_args_to_mix_result (root : bytes) (nullifiers commitments ciphertexts : list bytes)
    : MixResult :=
  mkMixResult root nullifiers (zip_with mkMixOutputEvents commitments ciphertexts).

Definition receive_note (out_ev : MixOutputEvents) (receiver_k_sk : EncryptionSecretKey)
    : result (option (bytes * ZethNote)) :=
  match (plaintext ← decrypt (ciphertext out_ev) receiver_k_sk;
         n ← zeth_note_from_bytes plaintext;
         Ok (commitment out_ev, n)) with
  | Ok r => Ok (Some r)
  | Err InvalidSignature => Ok None
  | Err ValueError => Ok None
  | Err e => Err e
  end.

Section mix.
Context `{EthAbi}.
(** The configuration of the prover: the zk-SNARK and the pairing. *)
Context (zksnark_name : str) (pp : PairingParameters).

Definition create_mix_parameters_from_proof (desc : MixCallDescription) (prover_inputs : ProofInputs)
    (signing_keypair : SigningKeyPair) (ext_proof : ExtendedProof) (public_data : list Z)
    (sender_eth_address : str) (for_dispatch_call : bool) (ephs : Z → EncryptionSecretKey)
    : result MixParameters :=
  let output_notes_with_k_pk :=
    zip_with (λ out n, (n, pub_k_pk out.1)) (mc_outputs desc) (js_outputs prover_inputs) in
  ciphertexts ← encrypt_notes output_notes_with_k_pk ephs;
  zksnark ← get_zksnark_provider zksnark_name;
  signature ← joinsplit_sign zksnark pp signing_keypair sender_eth_address ciphertexts ext_proof
                public_data for_dispatch_call;
  Ok (mkMixParameters ext_proof public_data (kp_vk signing_keypair) signature ciphertexts).

(** [create_mix_parameters_and_signing_key] from the description on. *)
Definition create_mix_parameters_and_signing_key
    (get_proof : ProofInputs → result (ExtendedProof * list Z))
    (desc : MixCallDescription) (rand : MixRandomness) (ephs : Z → EncryptionSecretKey)
    (sender_eth_address : str) (for_dispatch_call : bool) : result (MixParameters * SigningKeyPair) :=
  _ ← py_assert (zlen (mc_inputs desc) =? JS_INPUTS);
  _ ← py_assert (zlen (mc_outputs desc) =? JS_OUTPUTS);
  '(prover_inputs, signing_keypair) ← create_prover_inputs desc rand;
  _ ← py_assert (zlen (js_inputs prover_inputs) =? JS_INPUTS);
  _ ← py_assert (zlen (js_outputs prover_inputs) =? JS_OUTPUTS);
  '(ext_proof, public_data) ← get_proof prover_inputs;
  mix_params ← create_mix_parameters_from_proof desc prover_inputs signing_keypair ext_proof
                 public_data sender_eth_address for_dispatch_call ephs;
  Ok (mix_params, signing_keypair).

(** [MixerClient.mix]: the arguments of the contract method and the transaction
    that is sent. *)
Definition mix (p : MixParameters) (sender_eth_address : str) (tx_value : EtherValue.t) (call_gas : option Z)
    : result ((list Z * list Z * Z * list Z * list bytes) * TxDesc) :=
  zksnark ← get_zksnark_provider zksnark_name;
  args ← mix_parameters_to_contract_arguments zksnark pp p;
  Ok (args, contract_call_desc sender_eth_address (Some tx_value) call_gas).

(** [a or b] on ether values: zero is false. *)
Definition value_or (a : option EtherValue.t) (b : EtherValue.t) : EtherValue.t :=
  match a with Some v => if EtherValue.truth v then v else b | None => b end.

(** [MixerClient.joinsplit], from the random values of the call. *)
Definition joinsplit (get_proof : ProofInputs → result (ExtendedProof * list Z))
    (tree : MerkleTree) (sender : OwnershipKeyPair) (sender_eth_address : str)
    (inputs : list (Z * ZethNote)) (outputs : list (ZethAddressPub * EtherValue.t))
    (v_in v_out : EtherValue.t) (tx_value : option EtherValue.t)
    (h_sig : option (list bytes → SigningVerificationKey → result bytes))
    (dummies : Z → bytes * bytes) (dummy_k_sk : EncryptionSecretKey)
    (rand : MixRandomness) (ephs : Z → EncryptionSecretKey)
    : result ((list Z * list Z * Z * list Z * list bytes) * TxDesc) :=
  desc ← new_mix_call tree sender inputs outputs v_in v_out h_sig dummies dummy_k_sk;
  '(mix_params, _) ← create_mix_parameters_and_signing_key get_proof desc rand ephs sender_eth_address false;
  mix mix_params sender_eth_address (value_or tx_value v_in) None.

(** [MixerClient.deposit]: without outputs the whole amount goes to the sender. *)
Definition deposit (get_proof : ProofInputs → result (ExtendedProof * list Z))
    (tree : MerkleTree) (zeth_address : ZethAddress) (sender_eth_address : str) (eth_amount : EtherValue.t)
    (outputs : option (list (ZethAddressPub * EtherValue.t))) (tx_value : option EtherValue.t)
    (dummies : Z → bytes * bytes) (dummy_k_sk : EncryptionSecretKey)
    (rand : MixRandomness) (ephs : Z → EncryptionSecretKey)
    : result ((list Z * list Z * Z * list Z * list bytes) * TxDesc) :=
  let outputs := match outputs with
                 | None | Some [] => [(addr_pk zeth_address, eth_amount)]
                 | Some outputs => outputs
                 end in
  zero ← EtherValue.of_int 0 (lit "ether");
  joinsplit get_proof tree (ownership_keypair zeth_address) sender_eth_address [] outputs
    eth_amount zero tx_value None dummies dummy_k_sk rand ephs.
End mix.
End with_notes.
End with_curve.
