(* ===== verification/MixerFacts.v ===== *)
(** * Correctness of the mixer client

    Commitments and the pseudo-random functions compute what the protocol says,
    on disjoint domains; the parameters of a mix call carry a signature that
    verifies and ciphertexts that their receivers can open; serialised parameters
    read back. *)

From Stdlib Require Import ZArith Lia Ascii String Strings.Byte.
From stdpp Require Import base tactics list strings.
From S2P Require Import Prelude PyStr PyBytes PyFloat PyIO Hashes Constants Utils MerkleTree MerkleTreeFacts Pairing ZkSnark Signing Encryption Notes Contracts MixerClient.

Local Open Scope Z_scope.

#[local] Opaque blake2s sha256.

(** ** Pseudo-random functions *)

(** What the three functions hash. *)
Definition apk_input (a_sk : bytes) : bytes := to_be 32 (tagged_leg 12 a_sk) ++ zero_bytes 32.
Definition nf_input (a_sk rho : bytes) : bytes := to_be 32 (tagged_leg 14 a_sk) ++ rho.
Definition rho_input (phi hsig : bytes) (i : Z) : bytes := to_be 32 (tagged_leg (2 + 4 * i) phi) ++ hsig.

Lemma compute_nullifier_spec note a_sk r : length a_sk = 32%nat → rho note = hex r →
  compute_nullifier note a_sk = Ok (blake2s (nf_input a_sk r)).
Proof.
  intros Hl Hr. unfold compute_nullifier.
  rewrite (tagged_leg_bits (lit "1110") [1; 1; 1; 0]); [|done| |done|done].
  2: { repeat (apply Forall_cons; split; [lia|]). by apply Forall_nil. }
  cbn [mbind result_bind]. rewrite int_to_bytes_Ok by (apply tagged_leg_range; [done|done]).
  cbn [mbind result_bind]. by rewrite Hr, fromhex_hex.
Qed.

Lemma compute_rho_spec phi hsig i : length phi = 32%nat → 0 ≤ i < JS_OUTPUTS →
  _compute_rho_i phi hsig i = Ok (blake2s (rho_input phi hsig i)).
Proof.
  intros Hl Hi. unfold _compute_rho_i. rewrite (proj2 (Z.ltb_lt _ _)) by lia.
  cbn [py_assert mbind result_bind]. change (Z.log2_up JS_OUTPUTS) with 1.
  change (Z.to_nat (256 - 1 - 1 - 2)) with 252%nat. change (256 - 1 - 1 - 2) with 252.
  assert (zlen (take 252 (digest_to_binary_string phi)) = 252) as Hz.
  { unfold zlen. rewrite length_take, digest_to_binary_string_length. lia. }
  assert (i = 0 ∨ i = 1) as [->| ->] by (unfold JS_OUTPUTS in Hi; lia).
  all: cbn [py_assert mbind result_bind].
  all: match goal with |- context [py_repeat ?c ?n ++ ?x] =>
    let v := eval vm_compute in (py_repeat c n ++ x) in change (py_repeat c n ++ x) with v end.
  all: cbn [zlen length Z.of_nat Pos.of_succ_nat Z.eqb Pos.eqb py_assert mbind result_bind].
  all: rewrite Hz; cbn [Z.eqb Pos.eqb py_assert mbind result_bind].
  all: rewrite !zlen_app, Hz; cbn [mbind result_bind].
  all: rewrite py_assert_true by done; cbn [mbind result_bind].
  all: rewrite !app_assoc.
  - rewrite (tagged_leg_bits (lit "0010") [0; 0; 1; 0]); [|done| |done|done].
    2: { repeat (apply Forall_cons; split; [lia|]). by apply Forall_nil. }
    cbn [mbind result_bind]. rewrite int_to_bytes_Ok by (apply tagged_leg_range; done). done.
  - rewrite (tagged_leg_bits (lit "0110") [0; 1; 1; 0]); [|done| |done|done].
    2: { repeat (apply Forall_cons; split; [lia|]). by apply Forall_nil. }
    cbn [mbind result_bind]. rewrite int_to_bytes_Ok by (apply tagged_leg_range; done). done.
Qed.

Lemma compute_rho_index_error phi hsig i : ¬ (0 ≤ i < JS_OUTPUTS) → 
  _compute_rho_i phi hsig i = Err AssertionError.
Proof.
  intros Hi. unfold _compute_rho_i. destruct (i <? JS_OUTPUTS) eqn:E; [|done]. prop_bool.
  cbn [py_assert mbind result_bind]. change (Z.log2_up JS_OUTPUTS) with 1.
  replace (zlen (py_repeat "0"%char (1 - zlen (fmt_b i)) ++ fmt_b i) =? 1) with false; [done|].
  symmetry. apply Z.eqb_neq. rewrite zlen_app, zlen_py_repeat. unfold fmt_b, sign_str.
  rewrite (proj2 (Z.ltb_lt i 0)) by lia. unfold abs_digits. rewrite zlen_app, zlen_fmap.
  pose proof (digits_of_nonempty 2 ltac:(lia) (Z.abs i)) as Hne.
  assert (1 ≤ zlen (digits_of 2 (Z.abs i))).
  { destruct (digits_of 2 (Z.abs i)); [done|]. unfold zlen. cbn [length]. lia. }
  change (zlen (lit "-")) with 1. lia.
Qed.

Lemma tagged_inputs_differ t1 t2 b1 b2 x y :
  0 ≤ t1 < 16 → 0 ≤ t2 < 16 → t1 ≠ t2 → length b1 = 32%nat → length b2 = 32%nat →
  to_be 32 (tagged_leg t1 b1) ++ x ≠ to_be 32 (tagged_leg t2 b2) ++ y.
Proof.
  intros H1 H2 Hne Hb1 Hb2 E. apply app_inj_1 in E as [E _]; [|by rewrite !length_to_be].
  destruct (tagged_leg_range t1 b1 H1 Hb1) as [? ?]. destruct (tagged_leg_range t2 b2 H2 Hb2) as [? ?].
  apply to_be_inj in E; [|done..]. nia.
Qed.

(** ** Commitments *)

Lemma compute_commitment_spec note pp (m : Z) (a v r t : bytes) :
  apk note = hex a → value note = hex v → rho note = hex r → trap_r note = hex t →
  scalar_field_mod pp = Ok m → 0 < m ≤ 2 ^ 256 →
  compute_commitment note pp = Ok (to_be 32 (int_from_bytes (blake2s (t ++ a ++ r ++ v)) mod m)).
Proof.
  intros Ea Ev Er Et Hm Hr. unfold compute_commitment. rewrite Ea, Ev, Er, Et.
  rewrite !fromhex_hex. cbn [mbind result_bind]. rewrite Hm. cbn [mbind result_bind].
  unfold raise_if. rewrite (proj2 (Z.eqb_neq _ _)) by lia. cbn [mbind result_bind].
  change (int_truediv DIGEST_LENGTH 8) with (Ok 32). cbn [mbind result_bind].
  change (Z.to_nat 32) with 32%nat. apply int_to_bytes_Ok.
  pose proof (Z.mod_pos_bound (int_from_bytes (blake2s (t ++ a ++ r ++ v))) m).
  change (256 ^ Z.of_nat 32) with (2 ^ 256). lia.
Qed.

(** ** Notes *)

(** A note whose fields are the hex texts of byte strings of their lengths. *)
Definition note_wf (n : ZethNote) : Prop := ∃ a v r t : bytes,
  n = mkZethNote (hex a) (hex v) (hex r) (hex t) ∧
  length a = 32%nat ∧ length v = 8%nat ∧ length r = 32%nat ∧ length t = 32%nat.

Lemma note_wf_bytes n : note_wf n → ∃ b, zeth_note_to_bytes n = Ok b ∧ zlen b = NOTE_LENGTH_BYTES ∧
  zeth_note_from_bytes b = Ok n.
Proof.
  intros (a & v & r & t & -> & Ha & Hv & Hr & Ht). exists (a ++ v ++ r ++ t).
  assert (zlen (a ++ v ++ r ++ t) = NOTE_LENGTH_BYTES) as Hz
    by (unfold zlen; rewrite !length_app, Ha, Hv, Hr, Ht; done).
  split_and!; [|done|by apply note_fields].
  unfold zeth_note_to_bytes. cbn [apk value rho trap_r]. rewrite !fromhex_hex. cbn [mbind result_bind].
  by rewrite Hz.
Qed.

Section notes.
Context `{NoteCryptoLaws}.

Lemma encrypt_receive eph n b c sk cm : note_wf n → zeth_note_to_bytes n = Ok b →
  encrypt eph b (sk_public_key sk) = Ok c →
  receive_note (mkMixOutputEvents cm c) sk = Ok (Some (cm, n)).
Proof.
  intros Hn Hb Hc. destruct (note_wf_bytes n Hn) as (b' & Hb' & Hz & Hf). rewrite Hb in Hb'.
  apply Ok_inj in Hb' as <-. unfold receive_note. cbn [ciphertext commitment].
  rewrite (decrypt_encrypt eph b sk c) by done. cbn [mbind result_bind]. by rewrite Hf.
Qed.

(** Receiving an output succeeds exactly when its ciphertext has the right length:
    either it is not ours or it is a well-formed note. *)
Lemma receive_note_total ev sk : zlen (ciphertext ev) = ENCRYPTED_NOTE_LENGTH_BYTES →
  receive_note ev sk = Ok None ∨ ∃ n, receive_note ev sk = Ok (Some (commitment ev, n)) ∧ note_wf n.
Proof.
  intros Hc. unfold receive_note.
  destruct (decrypt_total (ciphertext ev) sk Hc) as [(m & -> & Hm)|[-> | ->]]; [|by left..].
  cbn [mbind result_bind]. destruct (note_cut m Hm) as (a & v & r & t & -> & ? & ? & ? & ?).
  rewrite note_fields by done. right. eexists. split; [reflexivity|]. by exists a, v, r, t.
Qed.

Lemma receive_note_malformed ev sk : zlen (ciphertext ev) ≠ ENCRYPTED_NOTE_LENGTH_BYTES →
  receive_note ev sk = Err AssertionError.
Proof. intros Hc. unfold receive_note, decrypt. by rewrite (proj2 (Z.eqb_neq _ _)). Qed.

Lemma encrypt_notes_receive notes idx ephs cs : encrypt_notes_from idx notes ephs = Ok cs →
  length cs = length notes ∧
  ∀ j n sk, notes !! j = Some (n, sk_public_key sk) → note_wf n →
    ∃ c, cs !! j = Some c ∧ ∀ cm, receive_note (mkMixOutputEvents cm c) sk = Ok (Some (cm, n)).
Proof.
  revert idx cs. induction notes as [|[n0 pk] notes IH]; intros idx cs Hcs.
  - apply Ok_inj in Hcs as <-. split; [done|]. intros j n sk Hj. by rewrite lookup_nil in Hj.
  - cbn [encrypt_notes_from] in Hcs. apply bind_Ok_inv in Hcs as (b & Hb & Hcs).
    apply bind_Ok_inv in Hcs as (c & Hc & Hcs). apply bind_Ok_inv in Hcs as (cs' & Hcs' & Hcs).
    apply Ok_inj in Hcs as <-. destruct (IH _ _ Hcs') as [Hl Hrec]. split; [cbn; by rewrite Hl|].
    intros [|j] n sk Hj Hn.
    + injection Hj as -> ->. exists c. split; [done|]. intros cm. by apply encrypt_receive with (ephs idx) b.
    + by apply Hrec.
Qed.
End notes.

(** ** Serialised parameters *)

Lemma mapM_hex_of_int l : Forall (λ z, 0 ≤ z) l → mapM (int_of_str 16) (hex_of_int <$> l) = Ok l.
Proof.
  induction 1 as [|z l Hz _ IH]; [done|]. rewrite fmap_cons, mapM_cons_res, int_of_hex_of_int by done.
  cbn [mbind result_bind]. by rewrite IH.
Qed.

Lemma mapM_str_of_int l : Forall (λ z, 0 ≤ z) l → mapM (int_of_str 10) (str_of_int <$> l) = Ok l.
Proof.
  induction 1 as [|z l Hz _ IH]; [done|]. rewrite fmap_cons, mapM_cons_res, int_of_str_of_int by done.
  cbn [mbind result_bind]. by rewrite IH.
Qed.

Lemma mapM_fromhex_hex l : mapM fromhex (hex <$> l) = Ok l.
Proof.
  induction l as [|b l IH]; [done|]. rewrite fmap_cons, mapM_cons_res, fromhex_hex.
  cbn [mbind result_bind]. by rewrite IH.
Qed.

(** ** The inputs of the prover *)

Lemma ownership_key_hex_short b : (length b ≤ 32)%nat →
  ownership_key_as_hex b = Ok (hex (to_be 32 (int_from_bytes b))).
Proof. apply hex_extend_hex. Qed.

(** The note of an output: value [v] units to the payment key [pk]. *)
Definition output_note (phi hsig : bytes) (rands : Z → bytes) (i : Z) (pk : bytes) (v : Z) : ZethNote :=
  mkZethNote (hex pk) (hex (to_be 8 v)) (hex (blake2s (rho_input phi hsig i))) (hex (rands i)).

Lemma create_note_spec phi hsig rands i pk v :
  length phi = 32%nat → 0 ≤ i < JS_OUTPUTS → length pk = 32%nat → 0 ≤ v < 2 ^ 64 →
  _create_api_zeth_note phi hsig i pk v (rands i) = Ok (output_note phi hsig rands i pk v).
Proof.
  intros Hphi Hi Hpk Hv. unfold _create_api_zeth_note. rewrite compute_rho_spec by done.
  cbn [mbind result_bind]. change (_trap_r_randomness (rands i)) with (Ok (hex (rands i))).
  cbn [mbind result_bind]. rewrite ownership_key_hex by done. cbn [mbind result_bind].
  by rewrite int64_to_hex_spec.
Qed.

Lemma create_notes_spec phi hsig rands (outs : list (bytes * Z)) idx :
  length phi = 32%nat → 0 ≤ idx → idx + zlen outs ≤ JS_OUTPUTS →
  Forall (λ o, length o.1 = 32%nat ∧ 0 ≤ o.2 < 2 ^ 64) outs →
  create_notes_from phi hsig idx outs rands =
  Ok (imap (λ k o, output_note phi hsig rands (idx + Z.of_nat k) o.1 o.2) outs).
Proof.
  intros Hphi Hidx Hlen Houts. revert idx Hidx Hlen.
  induction Houts as [|[pk v] outs [Hpk Hv] _ IH]; intros idx Hidx Hlen; [done|].
  unfold zlen in Hlen. cbn [length] in Hlen. cbn [create_notes_from].
  rewrite create_note_spec by (done || (split; [lia|]; unfold JS_OUTPUTS in *; lia)). cbn [mbind result_bind].
  rewrite IH by (unfold zlen; lia). cbn [mbind result_bind]. rewrite imap_cons. do 2 f_equal.
  - f_equal. lia.
  - apply imap_ext. intros k o _. unfold compose.
    by replace (idx + Z.of_nat (S k)) with (idx + 1 + Z.of_nat k) by lia.
Qed.

(** What a joinsplit input is made of. *)
Lemma create_api_input_spec `{ITreeHash} (d : nat) l t ask a n r :
  (1 ≤ d)%nat → tree_inv d l t → num_new_leaves t = 0 → 0 ≤ a →
  length ask = 32%nat → rho n = hex r →
  _create_api_input t ask (a, n) =
  Ok (mkJoinsplitInput (hex <$> siblings l a 0 d) a n (hex ask) (hex (blake2s (nf_input ask r)))).
Proof.
  intros Hd Hinv Hclean Ha Hask Hr. cbn [_create_api_input].
  rewrite (compute_merkle_path_inv d Hd l) by done. cbn [mbind result_bind].
  rewrite (compute_nullifier_spec n ask r) by done. cbn [mbind result_bind].
  unfold create_api_joinsplit_input. by rewrite ownership_key_hex.
Qed.

Section prover_inputs.
Context `{ITreeHash} `{BN128Laws} `{NoteCrypto}.
Context (d : nat) (l : list bytes) (desc : MixCallDescription) (rand : MixRandomness).

(** A description whose parts are well formed: keys of 32 bytes, addresses within
    the tree, amounts in whole units below [2^53]. *)
Record desc_wf (ins : list (Z * ZethNote * bytes)) (outs : list (bytes * Z)) (u_in u_out : Z) : Prop := {
  dw_depth : (1 ≤ d)%nat;
  dw_tree : tree_inv d l (mc_tree desc);
  dw_clean : num_new_leaves (mc_tree desc) = 0;
  dw_ask : length (a_sk (mc_sender desc)) = 32%nat;
  dw_ins : mc_inputs desc = fst <$> ins;
  dw_addr : Forall (λ x, 0 ≤ x.1.1 ∧ rho x.1.2 = hex x.2) ins;
  dw_outs : Forall2 (λ o x, pub_a_pk o.1 = x.1 ∧ length x.1 = 32%nat ∧ 0 ≤ x.2 < 2 ^ 53 ∧
    EtherValue.wei o.2 = x.2 * ZETH_PUBLIC_UNIT_VALUE) (mc_outputs desc) outs;
  dw_num : zlen outs ≤ JS_OUTPUTS;
  dw_in : 0 ≤ u_in < 2 ^ 53 ∧ EtherValue.wei (mc_v_in desc) = u_in * ZETH_PUBLIC_UNIT_VALUE;
  dw_out : 0 ≤ u_out < 2 ^ 53 ∧ EtherValue.wei (mc_v_out desc) = u_out * ZETH_PUBLIC_UNIT_VALUE;
  dw_hsig : mc_h_sig desc = None
}.

(** Random values of the right lengths, with nonzero signing secrets. *)
Record rand_wf : Prop := {
  rw_x : mr_sign_x rand ≠ []; rw_y : mr_sign_y rand ≠ [];
  rw_xnz : int_from_bytes (mr_sign_x rand) mod curve_order ≠ 0;
  rw_ynz : int_from_bytes (mr_sign_y rand) mod curve_order ≠ 0;
  rw_phi : length (mr_phi rand) = 32%nat
}.

Definition input_msg (x : Z * ZethNote * bytes) : JoinsplitInput :=
  let ask := a_sk (mc_sender desc) in
  mkJoinsplitInput (hex <$> siblings l x.1.1 0 d) x.1.1 x.1.2 (hex ask) (hex (blake2s (nf_input ask x.2))).

Lemma api_inputs_spec ins : (1 ≤ d)%nat → tree_inv d l (mc_tree desc) →
  num_new_leaves (mc_tree desc) = 0 → length (a_sk (mc_sender desc)) = 32%nat →
  Forall (λ x : Z * ZethNote * bytes, 0 ≤ x.1.1 ∧ rho x.1.2 = hex x.2) ins →
  mapM (_create_api_input (mc_tree desc) (a_sk (mc_sender desc))) (fst <$> ins) = Ok (input_msg <$> ins).
Proof using Type.
  intros Hd Hinv Hclean Hask Hins.
  induction Hins as [|[[a n] r] ins [Ha Hr] _ IH]; [done|].
  rewrite !fmap_cons, mapM_cons_res. cbn [fst snd] in *.
  rewrite (create_api_input_spec d l _ _ a n r) by done.
  cbn [mbind result_bind]. by rewrite IH.
Qed.

Lemma outputs_spec (os : list (ZethAddressPub * EtherValue.t)) (outs : list (bytes * Z)) :
  Forall2 (λ o x, pub_a_pk o.1 = x.1 ∧ length x.1 = 32%nat ∧ 0 ≤ x.2 < 2 ^ 53 ∧
    EtherValue.wei o.2 = x.2 * ZETH_PUBLIC_UNIT_VALUE) os outs →
  mapM (λ '(zeth_addr, value), u ← to_zeth_units value; Ok (pub_a_pk zeth_addr, u)) os = Ok outs.
Proof using Type.
  induction 1 as [|[addr [w]] [pk u] os outs (E1 & _ & Hu & E2) _ IH]; [done|].
  rewrite mapM_cons_res. cbn [fst snd EtherValue.wei] in *. subst w.
  rewrite to_zeth_units_exact by done. cbn [mbind result_bind]. rewrite IH. by rewrite E1.
Qed.

Lemma nullifiers_spec ins : mapM (λ i, fromhex (nullifier i)) (input_msg <$> ins) =
  Ok ((λ x, blake2s (nf_input (a_sk (mc_sender desc)) x.2)) <$> ins).
Proof using Type.
  induction ins as [|x ins IH]; [done|]. rewrite !fmap_cons, mapM_cons_res. cbn [input_msg nullifier].
  rewrite fromhex_hex. cbn [mbind result_bind]. by rewrite IH.
Qed.

Lemma svk_bytes_ok x y : 0 < x < curve_order → 0 < y < curve_order →
  ∃ b, svk_to_bytes (mkSVK (ec_multiply ec_G1 x) (ec_multiply ec_G1 y)) = Ok b.
Proof using Type*.
  intros Hx Hy. destruct (g1_bytes_ok _ (multiple_finite x Hx)) as (bx & Hbx & _).
  destruct (g1_bytes_ok _ (multiple_finite y Hy)) as (by_ & Hby & _).
  unfold svk_to_bytes. cbn [ppk spk]. rewrite Hbx. cbn [mbind result_bind]. rewrite Hby. eauto.
Qed.

(** The inputs of the prover for a well-formed description. *)
Lemma create_prover_inputs_spec ins outs u_in u_out : desc_wf ins outs u_in u_out → rand_wf →
  ∃ kp vkb, gen_signing_keypair (mr_sign_x rand) (mr_sign_y rand) = Ok kp ∧
    svk_to_bytes (kp_vk kp) = Ok vkb ∧
    let ask := a_sk (mc_sender desc) in
    let hsig := sha256 (concat ((λ x, blake2s (nf_input ask x.2)) <$> ins) ++ vkb) in
    create_prover_inputs desc rand = Ok (mkProofInputs (hex (spec_root d l)) (input_msg <$> ins)
      (imap (λ k o, output_note (mr_phi rand) hsig (mr_traps rand) (Z.of_nat k) o.1 o.2) outs)
      (hex (to_be 8 u_in)) (hex (to_be 8 u_out)) (hex hsig) (hex (mr_phi rand)), kp).
Proof using Type*.
  intros [Hd Hinv Hclean Hask Hins Haddr Houts Hnum [Hin Ein] [Hout Eout] Hh] [Hx Hy Hxnz Hynz Hphi].
  pose proof order_bounds. destruct (gen_keypair_ok _ _ Hx Hy) as (x & y & Hxr & Hyr & Ex & Ey & Hgen).
  destruct (svk_bytes_ok x y ltac:(lia) ltac:(lia)) as (vkb & Hvkb).
  eexists _, vkb. split; [exact Hgen|]. split; [exact Hvkb|]. intros ask hsig.
  unfold create_prover_inputs. rewrite Hins, api_inputs_spec by done. cbn [mbind result_bind].
  rewrite (get_root_inv d Hd l) by done. cbn [mbind result_bind].
  rewrite (outputs_spec _ outs Houts). cbn [mbind result_bind].
  destruct (mc_v_in desc) as [win], (mc_v_out desc) as [wout]. cbn [EtherValue.wei] in *. subst win wout.
  rewrite !to_zeth_units_exact by done. cbn [mbind result_bind]. rewrite Hgen. cbn [mbind result_bind].
  rewrite nullifiers_spec. cbn [mbind result_bind]. rewrite Hh. cbn [default from_option id].
  unfold compute_h_sig. cbn [kp_vk]. rewrite Hvkb. cbn [mbind result_bind]. fold ask. fold hsig.
  unfold _create_api_zeth_notes. rewrite create_notes_spec; [|done|done|done|].
  2: { clear -Houts. induction Houts as [|o p os ps (_ & Hlen & Hrng & _) _ IH]; [by constructor|].
       constructor; [split; [done | lia] | done]. }
  cbn [mbind result_bind]. rewrite !int64_to_hex_spec by lia. done.
Qed.
End prover_inputs.

(** ** Properties *)

(** The payment key, the nullifier and the two output randomness functions
    hash messages of pairwise disjoint forms, whatever keys and randomness they
    are given: no message of one is a message of another, so their outputs are
    unrelated hashes.  An output index outside the joinsplit is refused. *)
Theorem prf_domain_separation `{EthAbiLaws} (ask1 ask2 phi r hsig : bytes) (n : ZethNote) (i : Z)
  (H1 : length ask1 = 32%nat) (H2 : length ask2 = 32%nat) (H3 : length phi = 32%nat) (Hr : rho n = hex r) :
  ∃ m_apk m_nf m_0 m_1,
    _derive_a_pk ask1 = Ok (blake2s m_apk) ∧ compute_nullifier n ask2 = Ok (blake2s m_nf) ∧
    _compute_rho_i phi hsig 0 = Ok (blake2s m_0) ∧ _compute_rho_i phi hsig 1 = Ok (blake2s m_1) ∧
    NoDup [m_apk; m_nf; m_0; m_1] ∧
    (_compute_rho_i phi hsig i = Err AssertionError ↔ ¬ (0 ≤ i < JS_OUTPUTS)).
Proof.
  exists (apk_input ask1), (nf_input ask2 r), (rho_input phi hsig 0), (rho_input phi hsig 1).
  split_and!.
  - by rewrite derive_a_pk_spec.
  - by apply compute_nullifier_spec.
  - by apply compute_rho_spec.
  - by apply compute_rho_spec.
  - unfold apk_input, nf_input, rho_input.
    repeat (apply NoDup_cons; split; [rewrite ?not_elem_of_cons, ?list_elem_of_nil;
      split_and?; try apply not_elem_of_nil; apply tagged_inputs_differ; done || lia|]).
    by apply NoDup_nil.
  - split; [|apply compute_rho_index_error]. intros E Hi. rewrite compute_rho_spec in E by done. done.
Qed.

(** A commitment is the BLAKE2s digest of the note's fields reduced to the
    scalar field, in 32 bytes; two well-formed notes with the same commitment are
    the same note unless their digests are congruent. *)
Theorem commitment_correct (n1 n2 : ZethNote) (pp : PairingParameters) (m : Z)
  (Hn1 : note_wf n1) (Hn2 : note_wf n2) (Hm : scalar_field_mod pp = Ok m) (Hr : 0 < m ≤ 2 ^ 256) :
  ∃ c1 c2 d1 d2, compute_commitment n1 pp = Ok c1 ∧ compute_commitment n2 pp = Ok c2 ∧
    length c1 = 32%nat ∧ int_from_bytes c1 = int_from_bytes (blake2s d1) mod m ∧
    (c1 = c2 → n1 = n2 ∨
      d1 ≠ d2 ∧ int_from_bytes (blake2s d1) mod m = int_from_bytes (blake2s d2) mod m).
Proof.
  destruct Hn1 as (a & v & r & t & -> & Ha & Hv & Hrr & Ht).
  destruct Hn2 as (a' & v' & r' & t' & -> & Ha' & Hv' & Hr' & Ht').
  eexists _, _, (t ++ a ++ r ++ v), (t' ++ a' ++ r' ++ v').
  split; [by apply compute_commitment_spec|]. split; [by apply compute_commitment_spec|].
  split; [apply length_to_be|].
  pose proof (Z.mod_pos_bound (int_from_bytes (blake2s (t ++ a ++ r ++ v))) m ltac:(lia)).
  pose proof (Z.mod_pos_bound (int_from_bytes (blake2s (t' ++ a' ++ r' ++ v'))) m ltac:(lia)).
  split.
  { rewrite int_from_to_be, Z.mod_small; [done|]. change (256 ^ Z.of_nat 32) with (2 ^ 256). lia. }
  intros Heq. apply to_be_inj in Heq; [|change (256 ^ Z.of_nat 32) with (2 ^ 256); lia..].
  destruct (decide (t ++ a ++ r ++ v = t' ++ a' ++ r' ++ v')) as [E|Hne]; [left | by right].
  apply app_inj_1 in E as [-> E]; [|congruence]. apply app_inj_1 in E as [-> E]; [|congruence].
  apply app_inj_1 in E as [-> ->]; [done | congruence].
Qed.

(** C12: the inputs of the prover for a well-formed mix call: they are always
    produced; the root is the tree's; every input carries its address, its
    nullifier and a Merkle path that authenticates the leaf at the address against
    that root; every output note has the receiver's key, the value in units and
    its own randomness; the public values are the amounts in units. *)
Theorem prover_inputs_correct `{ITreeHash} `{BN128Laws} `{NoteCrypto}
  (d : nat) (l : list bytes) (desc : MixCallDescription) (rand : MixRandomness)
  (ins : list (Z * ZethNote * bytes)) (outs : list (bytes * Z)) (u_in u_out : Z)
  (Hwf : desc_wf d l desc ins outs u_in u_out) (Hrand : rand_wf rand)
  (Haddr : Forall (λ x, x.1.1 < 2 ^ Z.of_nat d) ins) :
  ∃ pi kp root hsig, create_prover_inputs desc rand = Ok (pi, kp) ∧
    get_root (mc_tree desc) = Ok root ∧ mk_root pi = hex root ∧
    length (js_inputs pi) = length ins ∧
    (∀ j a n r, ins !! j = Some (a, n, r) → ∃ i leaf path, js_inputs pi !! j = Some i ∧
       address i = a ∧ note i = n ∧
       nullifier i = hex (blake2s (nf_input (a_sk (mc_sender desc)) r)) ∧
       get_leaf (mc_tree desc) a = Ok leaf ∧ merkle_path i = hex <$> path ∧
       length path = d ∧ path_root leaf a path = root) ∧
    js_outputs pi = imap (λ k o, output_note (mr_phi rand) hsig (mr_traps rand) (Z.of_nat k) o.1 o.2) outs ∧
    pub_in_value pi = hex (to_be 8 u_in) ∧ pub_out_value pi = hex (to_be 8 u_out) ∧
    pi_h_sig pi = hex hsig.
Proof.
  destruct (create_prover_inputs_spec d l desc rand ins outs u_in u_out Hwf Hrand) as (kp & vkb & _ & _ & Hpi).
  destruct Hwf as [Hd Hinv Hclean Hask _ Ha _ _ _ _ _].
  eexists _, kp, (spec_root d l), _. split; [exact Hpi|]. cbn [mk_root js_inputs js_outputs pub_in_value pub_out_value pi_h_sig].
  split_and!; try done; [by apply (get_root_inv d Hd) | by rewrite length_fmap |].
  intros j a n r Hj. eexists (input_msg d l desc (a, n, r)), (node l 0 a), (siblings l a 0 d).
  assert (0 ≤ a < 2 ^ Z.of_nat d) as Har.
  { pose proof (Forall_lookup_1 _ _ _ _ Ha Hj) as [? _]. pose proof (Forall_lookup_1 _ _ _ _ Haddr Hj).
    cbn [fst] in *. done. }
  split_and!; try done.
  - by rewrite list_lookup_fmap, Hj.
  - apply (get_leaf_inv d l); [done | lia].
  - apply length_siblings.
  - rewrite path_root_siblings, Z.div_small by lia. done.
Qed.

(** C14: the parameters built from a proof: the signature verifies under the
    one-time key on the digest recomputed from the parameters themselves, there is
    one ciphertext per output, and the holder of the secret key of an output
    address receives exactly the note of that output with its commitment. *)
Theorem mix_parameters_valid `{BN128Laws} `{NoteCryptoLaws} `{EthAbi}
  (name : str) (pp : PairingParameters) (desc : MixCallDescription) (pi : ProofInputs)
  (rx ry : bytes) (kp : SigningKeyPair) (ep : ExtendedProof) (data : list Z) (eth_addr : str)
  (dispatch : bool) (ephs : Z → EncryptionSecretKey) (p : MixParameters)
  (Hx : rx ≠ []) (Hy : ry ≠ []) (Hkp : gen_signing_keypair rx ry = Ok kp)
  (Hp : create_mix_parameters_from_proof name pp desc pi kp ep data eth_addr dispatch ephs = Ok p) :
  (∃ zksnark digest, get_zksnark_provider name = Ok zksnark ∧
    joinsplit_digest zksnark pp eth_addr (ciphertexts p) (extended_proof p) (public_data p) dispatch = Ok digest ∧
    verify (signature_vk p) digest (signature p) = Ok true) ∧
  zlen (ciphertexts p) = JS_INPUTS ∧
  (∀ j addr v n sk, mc_outputs desc !! j = Some (addr, v) → js_outputs pi !! j = Some n → note_wf n →
     pub_k_pk addr = sk_public_key sk →
     ∃ c, ciphertexts p !! j = Some c ∧
       ∀ cm, receive_note (mkMixOutputEvents cm c) sk = Ok (Some (cm, n))).
Proof.
  unfold create_mix_parameters_from_proof in Hp. apply bind_Ok_inv in Hp as (cs & Hcs & Hp).
  apply bind_Ok_inv in Hp as (zk & Hzk & Hp). apply bind_Ok_inv in Hp as (sigma & Hsig & Hp).
  apply Ok_inj in Hp as <-. cbn [ciphertexts extended_proof public_data signature_vk signature].
  unfold joinsplit_sign in Hsig. apply bind_Ok_inv in Hsig as (digest & Hdig & Hsig). split_and!.
  - exists zk, digest. split_and!; [done | done |]. by apply (sign_verify_ok rx ry).
  - unfold joinsplit_digest in Hdig. apply bind_Ok_inv in Hdig as (u & Hu & _). destruct u.
    apply py_assert_Ok in Hu. by apply Z.eqb_eq in Hu.
  - intros j addr v n sk Ho Hn Hnwf Hk.
    destruct (encrypt_notes_receive _ _ _ _ Hcs) as [_ Hrec]. apply (Hrec j n sk); [|done].
    rewrite lookup_zip_with, Ho, Hn. cbn [mbind option_bind fst]. by rewrite Hk.
Qed.

(** Mix parameters survive their JSON form, for each provider's own proofs,
    finite key points and non-negative public values and signature. *)
Theorem mix_parameters_json_roundtrip `{BN128Laws} (P : IZKSnarkProvider)
  (own_vk : IVerificationKey → bool) (own_proof : IProof → bool) `{!SnarkLaws P own_vk own_proof}
  (p : MixParameters) (Hown : own_proof (proof (extended_proof p)) = true)
  (Hd : Forall (λ z, 0 ≤ z) (public_data p)) (Hs : 0 ≤ signature p)
  (HX : finite_point (ppk (signature_vk p))) (HY : finite_point (spk (signature_vk p))) :
  ∃ j, mix_parameters_to_json_dict p = Ok j ∧ mix_parameters_from_json_dict P j = Ok p.
Proof.
  destruct p as [ep data [X Y] sig cs]. cbn [extended_proof public_data signature_vk signature ciphertexts ppk spk] in *.
  destruct HX as (x1 & x2 & -> & Hx1 & Hx2), HY as (y1 & y2 & -> & Hy1 & Hy2).
  eexists. split; [reflexivity|]. unfold mix_parameters_from_json_dict, jget_text.
  cbn [extended_proof public_data signature ciphertexts fst snd].
  jsimp. rewrite (ep_json_law ep Hown). cbn [mbind result_bind].
  jsimp. rewrite !strs_json_roundtrip. cbn [mbind result_bind]. rewrite mapM_hex_of_int by done.
  cbn [mbind result_bind].
  rewrite mapM_str_of_int by (repeat (apply Forall_cons; split; [lia|]); by apply Forall_nil).
  cbn [mbind result_bind].
  change (verification_key_from_mix_parameter [x1; x2; y1; y2])
    with (Ok (mkSVK (Some (FQ x1, FQ x2)) (Some (FQ y1, FQ y2)))). rewrite !FQ_small by done.
  cbn [as_str mbind result_bind]. unfold signature_as_mix_parameter, signature_from_mix_parameter.
  rewrite int_of_str_of_int by done. cbn [mbind result_bind]. by rewrite mapM_fromhex_hex.
Qed.

(** ** A concrete joinsplit *)

#[local] Transparent blake2s sha256.

Module MixerSample.
#[local] Existing Instance ToyCurve.toy.
#[local] Existing Instance ToyCurve.toy_laws.
#[local] Existing Instance ToyCrypto.toy.
#[local] Existing Instance ToyCrypto.toy_laws.
#[local] Existing Instance NotesSample.abi.
#[local] Existing Instance NotesSample.abi_laws.
#[local] Existing Instance MerkleTreeFacts.Sample.toy_tree.

Definition b32 (z : Z) : bytes := to_be 32 z.
Definition a_note (z : Z) : ZethNote := mkZethNote (hex (b32 z)) (hex (to_be 8 3)) (hex (b32 11)) (hex (b32 12)).

Lemma a_note_wf z : note_wf (a_note z).
Proof. exists (b32 z), (to_be 8 3), (b32 11), (b32 12). split_and!; try done; apply length_to_be. Qed.

Definition pairing : PairingParameters :=
  mkPairing (lit "alt-bn128") (lit "0x101") (hex_of 2 257) (g1_of 2 (1, 2)) (g2_of 2 ([3], [4])).

Definition to_p7 : ZethAddressPub := mkAddrPub (b32 9) ToyCrypto.p7.
Definition three : EtherValue.t := EtherValue.mk (3 * ZETH_PUBLIC_UNIT_VALUE).
Definition desc : MixCallDescription :=
  mkMixCall MerkleTreeFacts.Sample.tree (mkOwnership (b32 5) (b32 6)) [(2, a_note 1)]
    [(to_p7, three); (to_p7, three)] three (EtherValue.mk 0) None.
Definition rand : MixRandomness := mkMixRandomness [Byte.x05] [Byte.x03] (b32 77) (λ i, b32 i).

Lemma prf_domain_separation_witness :
  ∃ m_apk m_nf m_0 m_1,
    _derive_a_pk (b32 5) = Ok (blake2s m_apk) ∧ compute_nullifier (a_note 1) (b32 6) = Ok (blake2s m_nf) ∧
    _compute_rho_i (b32 7) [] 0 = Ok (blake2s m_0) ∧ _compute_rho_i (b32 7) [] 1 = Ok (blake2s m_1) ∧
    NoDup [m_apk; m_nf; m_0; m_1] ∧
    (_compute_rho_i (b32 7) [] (-1) = Err AssertionError ↔ ¬ (0 ≤ -1 < JS_OUTPUTS)).
Proof.
  apply (prf_domain_separation (b32 5) (b32 6) (b32 7) (b32 11) [] (a_note 1) (-1));
    [apply length_to_be.. | reflexivity].
Defined.

Lemma commitment_correct_witness :
  ∃ c1 c2 d1 d2, compute_commitment (a_note 1) pairing = Ok c1 ∧ compute_commitment (a_note 2) pairing = Ok c2 ∧
    length c1 = 32%nat ∧ int_from_bytes c1 = int_from_bytes (blake2s d1) mod 257 ∧
    (c1 = c2 → a_note 1 = a_note 2 ∨
      d1 ≠ d2 ∧ int_from_bytes (blake2s d1) mod 257 = int_from_bytes (blake2s d2) mod 257).
Proof.
  apply (commitment_correct (a_note 1) (a_note 2) pairing 257);
    [apply a_note_wf | apply a_note_wf | reflexivity | lia].
Defined.

Lemma prover_inputs_correct_witness :
  ∃ pi kp root hsig, create_prover_inputs desc rand = Ok (pi, kp) ∧
    get_root (mc_tree desc) = Ok root ∧ mk_root pi = hex root ∧
    length (js_inputs pi) = 1%nat ∧
    (∀ j a n r, [(2, a_note 1, b32 11)] !! j = Some (a, n, r) → ∃ i leaf path, js_inputs pi !! j = Some i ∧
       address i = a ∧ note i = n ∧
       nullifier i = hex (blake2s (nf_input (a_sk (mc_sender desc)) r)) ∧
       get_leaf (mc_tree desc) a = Ok leaf ∧ merkle_path i = hex <$> path ∧
       length path = 2%nat ∧ path_root leaf a path = root) ∧
    js_outputs pi = imap (λ k o, output_note (mr_phi rand) hsig (mr_traps rand) (Z.of_nat k) o.1 o.2)
      [(b32 9, 3); (b32 9, 3)] ∧
    pub_in_value pi = hex (to_be 8 3) ∧ pub_out_value pi = hex (to_be 8 0) ∧
    pi_h_sig pi = hex hsig.
Proof.
  apply (prover_inputs_correct 2 MerkleTreeFacts.Sample.leaves desc rand
    [(2, a_note 1, b32 11)] [(b32 9, 3); (b32 9, 3)] 3 0).
  - split.
    + lia.
    + apply (tree_reach_inv 2); [lia | apply MerkleTreeFacts.Sample.tree_reachable].
    + vm_compute. reflexivity.
    + apply length_to_be.
    + reflexivity.
    + apply Forall_singleton. split; [cbn; lia | reflexivity].
    + repeat (apply Forall2_cons; split; [split_and!; [reflexivity | apply length_to_be | cbn; lia.. | reflexivity]|]).
      apply Forall2_nil. exact I.
    + vm_compute. discriminate.
    + split; [lia | reflexivity].
    + split; [lia | reflexivity].
    + reflexivity.
  - split; [discriminate | discriminate | vm_compute; discriminate | vm_compute; discriminate | apply length_to_be].
  - apply Forall_singleton. cbn. lia.
Defined.

Definition kp : SigningKeyPair :=
  mkSigningKeyPair (mkSSK 5 3 (ToyCurve.pt 3)) (mkSVK (ToyCurve.pt 5) (ToyCurve.pt 3)).
Definition a_proof : ExtendedProof :=
  mkExtendedProof (Proof_Groth16 (Groth16.mkProof (g1_of 2 (1, 2)) (g2_of 2 ([3], [4])) (g1_of 2 (7, 8)))) [lit "0x1"].
Definition some_inputs : ProofInputs := mkProofInputs [] [] [a_note 1; a_note 2] [] [] [] [].
Definition eth : str := lit "0x00112233445566778899aabbccddeeff00112233".

Definition mix_result : result MixParameters :=
  create_mix_parameters_from_proof GROTH16_ZKSNARK pairing desc some_inputs kp a_proof [1; 2] eth false
    (λ _, ToyCrypto.k5).

Definition params : MixParameters :=
  match mix_result with Ok p => p | Err _ => mkMixParameters a_proof [] (kp_vk kp) 0 [] end.

Lemma mix_parameters_valid_witness :
  (∃ zksnark digest, get_zksnark_provider GROTH16_ZKSNARK = Ok zksnark ∧
    joinsplit_digest zksnark pairing eth (ciphertexts params) (extended_proof params) (public_data params) false = Ok digest ∧
    verify (signature_vk params) digest (signature params) = Ok true) ∧
  zlen (ciphertexts params) = JS_INPUTS ∧
  (∀ j addr v n sk, mc_outputs desc !! j = Some (addr, v) → js_outputs some_inputs !! j = Some n → note_wf n →
     pub_k_pk addr = sk_public_key sk →
     ∃ c, ciphertexts params !! j = Some c ∧
       ∀ cm, receive_note (mkMixOutputEvents cm c) sk = Ok (Some (cm, n))).
Proof.
  apply (mix_parameters_valid GROTH16_ZKSNARK pairing desc some_inputs [Byte.x05] [Byte.x03] kp a_proof
    [1; 2] eth false (λ _, ToyCrypto.k5) params); [done | done | vm_compute; reflexivity | vm_compute; reflexivity].
Defined.

Lemma mix_parameters_json_roundtrip_witness :
  ∃ j, mix_parameters_to_json_dict params = Ok j ∧ mix_parameters_from_json_dict Groth16_provider j = Ok params.
Proof.
  apply (mix_parameters_json_roundtrip Groth16_provider is_groth16_vk is_groth16_proof params).
  - vm_compute. reflexivity.
  - apply (bool_decide_unpack _). vm_compute. reflexivity.
  - vm_compute. done.
  - exists 5, 5. split_and!; vm_compute; done.
  - exists 3, 3. split_and!; vm_compute; done.
Defined.
End MixerSample.
