(* ===== verification/Wallet.v ===== *)
(** * The wallet ([client/zeth/core/wallet.py]) and [do_sync] ([cli/utils.py])

    The wallet keeps one file per note in its directory, moves the files of spent
    notes to a subdirectory, and stores the Merkle tree and its own state next to
    them.  The two directories are maps from file names to contents; [glob]
    patterns are matched against the names. *)

From Stdlib Require Import ZArith Lia Ascii String Strings.Byte.
From stdpp Require Import base tactics list gmap sorting strings.
From S2P Require Import Prelude PyStr PyBytes PyIO Constants Utils MerkleTree Pairing Signing Encryption Notes Contracts MixerClient.

Local Open Scope Z_scope.

(** ** [glob]

    [*] matches any text and [?] any character; a character class is not
    modelled, no pattern of the wallet has one. *)

Inductive gtok : Type := GLit (c : ascii) | GAny | GStar.

Definition glob_tokens (s : str) : list gtok :=
  (λ c, if decide (c = "*"%char) then GStar else if decide (c = "?"%char) then GAny else GLit c) <$> s.

Fixpoint suffixes (s : str) : list str :=
  s :: match s with [] => [] | _ :: s => suffixes s end.

Fixpoint glob_match (p : list gtok) (s : str) : bool :=
  match p with
  | [] => bool_decide (s = [])
  | GLit c :: p => match s with [] => false | x :: s => bool_decide (c = x) && glob_match p s end
  | GAny :: p => match s with [] => false | _ :: s => glob_match p s end
  | GStar :: p => existsb (glob_match p) (suffixes s)
  end.

(** The names in a directory that match a pattern, in no particular order. *)
Definition glob (pattern : str) (dir : fs) : list str :=
  filter (λ name, glob_match (glob_tokens pattern) name = true) (map_to_list dir).*1.

(** ** Notes and state *)

Section wallet.
Context `{NoteCrypto} `{Web3Units} `{ITreeHash}.

Record ZethNoteDescription : Type := mkNoteDesc { nd_note : ZethNote; nd_address : Z; nd_commitment : bytes }.

Definition as_input (d : ZethNoteDescription) : Z * ZethNote := (nd_address d, nd_note d).

(** [int(v)] of a JSON value *)
Definition py_int (v : json) : result Z :=
  match v with
  | JInt z => Ok z
  | JStr s => int_of_str 10 s
  | JBool b => Ok (if b then 1 else 0)
  | _ => Err TypeError
  end.

Definition jget_int (k : string) (j : json) : result Z := v ← jget (lit k) j; py_int v.

Definition note_desc_to_json (d : ZethNoteDescription) : json :=
  JDict [ (lit "note", zeth_note_to_json_dict (nd_note d));
          (lit "address", JStr (str_of_int (nd_address d)));
          (lit "commitment", JStr (hex (nd_commitment d))) ].

Definition note_desc_from_json (j : json) : result ZethNoteDescription :=
  nj ← jget (lit "note") j; note ← zeth_note_from_json_dict nj;
  address ← jget_int "address" j;
  cj ← jget_text "commitment" j; commitment ← fromhex cj;
  Ok (mkNoteDesc note address commitment).

Record WalletState : Type := mkWalletState {
  next_block : Z; num_notes : Z; nullifier_map : gmap str str
}.

Definition state_to_json (s : WalletState) : json :=
  JDict [ (lit "next_block", JInt (next_block s));
          (lit "num_notes", JInt (num_notes s));
          (lit "nullifier_map", JDict (prod_map id JStr <$> map_to_list (nullifier_map s))) ].

Definition as_str_dict (j : json) : result (gmap str str) :=
  match j with
  | JDict d => l ← mapM (λ kv, v ← as_str kv.2; Ok (kv.1, v)) d; Ok (list_to_map l)
  | _ => Err TypeError
  end.

Definition state_from_json (j : json) : result WalletState :=
  nb ← jget_int "next_block" j;
  nn ← jget_int "num_notes" j;
  mj ← jget (lit "nullifier_map") j; m ← as_str_dict mj;
  Ok (mkWalletState nb nn m).

(** The wallet directory and its subdirectory [spent]. *)
Record WalletDir : Type := mkWalletDir { wd_top : fs; wd_spent : fs }.

Definition MERKLE_TREE_FILE : str := lit "merkle-tree.dat".
Definition state_file (username : str) : str := lit "state_" ++ username.

Definition _load_state_or_default (file : str) (dir : WalletDir) : result WalletState :=
  if negb (exists_file file (wd_top dir)) then Ok (mkWalletState 1 0 ∅)
  else j ← read_json file (wd_top dir); state_from_json j.

Definition write_top (file : str) (c : content) (dir : WalletDir) : WalletDir :=
  mkWalletDir (write_file file c (wd_top dir)) (wd_spent dir).

Definition _save_state (file : str) (s : WalletState) (dir : WalletDir) : WalletDir :=
  write_top file (CJson (state_to_json s)) dir.

(** ** The wallet *)

Record Wallet : Type := mkWallet {
  username : str;
  w_a_sk : bytes;
  k_sk_receiver : EncryptionSecretKey;
  state : WalletState;
  merkle_tree : MerkleTree;
  merkle_tree_changed : bool;
  next_addr : Z
}.

Definition set_state (w : Wallet) (s : WalletState) : Wallet :=
  mkWallet (username w) (w_a_sk w) (k_sk_receiver w) s (merkle_tree w) (merkle_tree_changed w) (next_addr w).
Definition set_tree (w : Wallet) (t : MerkleTree) : Wallet :=
  mkWallet (username w) (w_a_sk w) (k_sk_receiver w) (state w) t (merkle_tree_changed w) (next_addr w).
Definition set_changed (w : Wallet) (b : bool) : Wallet :=
  mkWallet (username w) (w_a_sk w) (k_sk_receiver w) (state w) (merkle_tree w) b (next_addr w).
Definition set_next_addr (w : Wallet) (a : Z) : Wallet :=
  mkWallet (username w) (w_a_sk w) (k_sk_receiver w) (state w) (merkle_tree w) (merkle_tree_changed w) a.

Definition open_wallet (user : str) (secret : ZethAddressPriv) (dir : WalletDir) : result Wallet :=
  _ ← py_assert (negb (bool_decide ("_"%char ∈ user)));
  s ← _load_state_or_default (state_file user) dir;
  t ← open_tree (wd_top dir) MERKLE_TREE_FILE (2 ^ ZETH_MERKLE_TREE_DEPTH);
  n ← get_num_entries t;
  Ok (mkWallet user (priv_a_sk secret) (priv_k_sk secret) s t false n).

Definition _note_basename (user : str) (d : ZethNoteDescription) : result str :=
  v ← int_of_str 16 (value (nd_note d));
  e ← from_zeth_units v;
  Ok (lit "note_" ++ user ++ lit "_" ++ fmt_0wd 4 (nd_address d) ++ lit "_" ++
      short_commitment (nd_commitment d) ++ lit "_" ++ EtherValue.ether e).

Definition _decode_basename (filename : str) : result (Z * str * EtherValue.t) :=
  let components := split_on "_"%char filename in
  a ← py_get components 2; addr ← int_of_str 10 a;
  short_commit ← py_get components 3;
  v ← py_get components 4; val ← EtherValue.of_str v;
  Ok (addr, short_commit, val).

(** Names sort by the codes of their characters. *)
Fixpoint str_le (a b : str) : Prop :=
  match a, b with
  | [], _ => True
  | _ :: _, [] => False
  | x :: a, y :: b => (nat_of_ascii x < nat_of_ascii y)%nat ∨ x = y ∧ str_le a b
  end.

#[global] Instance str_le_dec a b : Decision (str_le a b).
Proof. revert b. induction a as [|x a IH]; intros [|y b]; cbn [str_le]; apply _. Defined.

Fixpoint decode_names (names : list str) : result (list (Z * str * EtherValue.t)) :=
  match names with
  | [] => Ok []
  | n :: names =>
      match _decode_basename n with
      | Ok x => xs ← decode_names names; Ok (x :: xs)
      | Err ValueError => decode_names names
      | Err e => Err e
      end
  end.

Definition _decode_note_files_in_dir (w : Wallet) (dir : fs) : result (list (Z * str * EtherValue.t)) :=
  decode_names (merge_sort str_le (glob (lit "note_" ++ username w ++ lit "_*") dir)).

Definition note_summaries (w : Wallet) (dir : WalletDir) := _decode_note_files_in_dir w (wd_top dir).
Definition spent_note_summaries (w : Wallet) (dir : WalletDir) := _decode_note_files_in_dir w (wd_spent dir).

Definition _find_note_file (w : Wallet) (dir : WalletDir) (key : str) : option str :=
  let wildcard :=
    if zlen key <? 5 then
      match int_of_str 10 key with
      | Ok a => Some (lit "note_" ++ username w ++ lit "_" ++ fmt_0wd 4 a ++ lit "_*")
      | Err _ => None
      end
    else Some (lit "note_" ++ username w ++ lit "_*_" ++ key ++ lit "_*") in
  match wildcard with
  | None => None
  | Some p => match glob p (wd_top dir) with [f] => Some f | _ => None end
  end.

Definition find_note (w : Wallet) (dir : WalletDir) (note_id : str) : result ZethNoteDescription :=
  match _find_note_file w dir note_id with
  | None => Err (Exception "no note with id")
  | Some f => j ← read_json f (wd_top dir); note_desc_from_json j
  end.

Definition _write_note (w : Wallet) (d : ZethNoteDescription) (dir : WalletDir) : result WalletDir :=
  f ← _note_basename (username w) d;
  Ok (write_top f (CJson (note_desc_to_json d)) dir).

Definition _check_note (commit : bytes) (note : ZethNote) (pp : PairingParameters) : result bool :=
  cm ← compute_commitment note pp;
  Ok (bool_decide (commit = cm)).

Definition set_nullifiers (s : WalletState) (m : gmap str str) : WalletState :=
  mkWalletState (next_block s) (num_notes s) m.

(** [Wallet.receive_note] *)
Definition wallet_receive_note (w : Wallet) (dir : WalletDir) (comm_addr : Z) (out_ev : MixOutputEvents)
    (pp : PairingParameters) : result (option ZethNoteDescription * (Wallet * WalletDir)) :=
  our_note ← receive_note out_ev (k_sk_receiver w);
  match our_note with
  | None => Ok (None, (w, dir))
  | Some (commit, note) =>
      good ← _check_note commit note pp;
      if negb good then Ok (None, (w, dir))
      else
        let note_desc := mkNoteDesc note comm_addr commit in
        dir ← _write_note w note_desc dir;
        nullifier ← compute_nullifier (nd_note note_desc) (w_a_sk w);
        let m := <[hex nullifier := short_commitment commit]> (nullifier_map (state w)) in
        Ok (Some note_desc, (set_state w (set_nullifiers (state w) m), dir))
  end.

(** One iteration of the loop of [receive_notes]. *)
Definition receive_step (pp : PairingParameters)
    (st : list ZethNoteDescription * (Wallet * WalletDir)) (out_ev : MixOutputEvents)
    : result (list ZethNoteDescription * (Wallet * WalletDir)) :=
  let '(new_notes, (w, dir)) := st in
  t ← insert (merkle_tree w) (commitment out_ev);
  let w := set_tree w t in
  '(note_desc, (w, dir)) ← wallet_receive_note w dir (next_addr w) out_ev pp;
  Ok (new_notes ++ option_list note_desc, (set_next_addr w (next_addr w + 1), dir)).

Definition receive_notes (w : Wallet) (dir : WalletDir) (output_events : list MixOutputEvents)
    (pp : PairingParameters) : result (list ZethNoteDescription * (Wallet * WalletDir)) :=
  let w := set_changed w (negb (zlen output_events =? 0)) in
  '(new_notes, (w, dir)) ← foldM (receive_step pp) ([], (w, dir)) output_events;
  let s := state w in
  Ok (new_notes, (set_state w (mkWalletState (next_block s) (num_notes s + zlen output_events)
                                 (nullifier_map s)), dir)).

(** [_mark_note_spent]: move the file, then delete the map entry. *)
Definition _mark_note_spent (w : Wallet) (dir : WalletDir) (nullifier_hex short_commit : str)
    : result (Wallet * WalletDir) :=
  match _find_note_file w dir short_commit with
  | None => Err (Exception "expected to find file for commit")
  | Some f =>
      c ← of_option FileNotFoundError (wd_top dir !! f);
      let dir := mkWalletDir (delete f (wd_top dir)) (<[f := c]> (wd_spent dir)) in
      _ ← of_option KeyError (nullifier_map (state w) !! nullifier_hex);
      Ok (set_state w (set_nullifiers (state w) (delete nullifier_hex (nullifier_map (state w)))), dir)
  end.

Definition mark_step (st : list str * (Wallet * WalletDir)) (nullifier : bytes)
    : result (list str * (Wallet * WalletDir)) :=
  let '(commits, (w, dir)) := st in
  let nullifier_hex := hex nullifier in
  match nullifier_map (state w) !! nullifier_hex with
  | Some (c :: cs) =>
      '(w, dir) ← _mark_note_spent w dir nullifier_hex (c :: cs);
      Ok (commits ++ [c :: cs], (w, dir))
  | _ => Ok st
  end.

Definition mark_nullifiers_used (w : Wallet) (dir : WalletDir) (nullifiers : list bytes)
    : result (list str * (Wallet * WalletDir)) :=
  foldM mark_step ([], (w, dir)) nullifiers.

Definition _save_merkle_tree_if_changed (w : Wallet) (dir : WalletDir) : result (Wallet * WalletDir) :=
  if merkle_tree_changed w then
    '(_, t) ← recompute_root (merkle_tree w);
    let w := set_tree (set_changed w false) t in
    Ok (w, mkWalletDir (save_tree MERKLE_TREE_FILE t (wd_top dir)) (wd_spent dir))
  else Ok (w, dir).

Definition get_next_block (w : Wallet) : Z := next_block (state w).

Definition update_and_save_state (w : Wallet) (dir : WalletDir) (block : Z) : result (Wallet * WalletDir) :=
  let w := set_state w (mkWalletState block (num_notes (state w)) (nullifier_map (state w))) in
  let dir := _save_state (state_file (username w)) (state w) dir in
  _save_merkle_tree_if_changed w dir.

(** ** [do_sync]

    One iteration of the loop over the results of [get_mix_results]. *)
Definition sync_step (pp : PairingParameters)
    (st : option bytes * (list ZethNoteDescription * (Wallet * WalletDir))) (r : MixResult)
    : result (option bytes * (list ZethNoteDescription * (Wallet * WalletDir))) :=
  let '(_, (reported, (w, dir))) := st in
  '(new_notes, (w, dir)) ← receive_notes w dir (output_events r) pp;
  '(_, (w, dir)) ← mark_nullifiers_used w dir (nullifiers r);
  Ok (Some (new_merkle_root r), (reported ++ new_notes, (w, dir))).

(** [_do_sync]: [results] are the results of the mix calls from the wallet's next
    block to the chain's head; the notes are those the callback is called on. *)
Definition _do_sync (w : Wallet) (dir : WalletDir) (pp : PairingParameters) (chain_block_number : Z)
    (results : list MixResult) : result (list ZethNoteDescription * (Wallet * WalletDir)) :=
  if get_next_block w <=? chain_block_number then
    '(new_merkle_root, (notes, (w, dir))) ← foldM (sync_step pp) (None, ([], (w, dir))) results;
    '(w, dir) ← update_and_save_state w dir (chain_block_number + 1);
    match new_merkle_root with
    | Some (b :: root) =>
        our_merkle_root ← get_root (merkle_tree w);
        _ ← py_assert (bool_decide (b :: root = our_merkle_root));
        Ok (notes, (w, dir))
    | _ => Ok (notes, (w, dir))
    end
  else Ok ([], (w, dir)).

End wallet.
