(* ===== verification/WalletFacts.v ===== *)
(** * Patterns and file names of the wallet

    What a [glob] pattern matches, the names of the note files and how a name is
    read back. *)

From Stdlib Require Import ZArith Lia Ascii String Strings.Byte.
From stdpp Require Import base tactics list gmap sets strings.
From S2P Require Import Prelude PyStr PyBytes PyIO Hashes Constants Utils MerkleTree Pairing Signing Encryption Notes Contracts MixerClient Wallet.

Local Open Scope Z_scope.

#[local] Opaque blake2s sha256.

(** ** Texts *)

Lemma split_on_nonempty c s : split_on c s ≠ [].
Proof.
  destruct s as [|x s]; simpl; [done|]. case_decide; [done|]. by destruct (split_on c s).
Qed.

Lemma split_on_app_gen c a b : split_on c (a ++ c :: b) = split_on c a ++ split_on c b.
Proof.
  induction a as [|x a IH]; simpl; [by rewrite decide_True by done|].
  rewrite IH. case_decide; [done|].
  pose proof (split_on_nonempty c a). by destruct (split_on c a).
Qed.

Lemma split_on_single c s t : split_on c s = [t] → s = t ∧ c ∉ s.
Proof.
  revert t. induction s as [|x s IH]; intros t Hs; simpl in Hs.
  - injection Hs as <-. split; [done | apply not_elem_of_nil].
  - case_decide as E; [pose proof (split_on_nonempty c s); by destruct (split_on c s)|].
    destruct (split_on c s) as [|w ws] eqn:Ew; [by pose proof (split_on_nonempty c s)|].
    injection Hs as <- ->. destruct (IH w eq_refl) as [-> Hc]. split; [done|].
    rewrite not_elem_of_cons. done.
Qed.

(** A text cut at two separators in one way only. *)
Lemma three_parts c (a b d x y z : str) : c ∉ a → c ∉ b → c ∉ d →
  a ++ c :: b ++ c :: d = x ++ c :: y ++ c :: z → c ∉ y → x = a ∧ y = b ∧ z = d.
Proof.
  intros Ha Hb Hd E Hy. apply (f_equal (split_on c)) in E. rewrite !split_on_app_gen in E.
  rewrite (split_on_none c a Ha), (split_on_none c b Hb), (split_on_none c d Hd), (split_on_none c y Hy) in E.
  pose proof (split_on_nonempty c x) as Hx. pose proof (split_on_nonempty c z) as Hz.
  assert (length (split_on c x) = 1%nat ∧ length (split_on c z) = 1%nat) as [Lx Lz].
  { apply (f_equal length) in E. rewrite !length_app in E. simpl in E.
    destruct (split_on c x), (split_on c z); try done. simpl in *. lia. }
  destruct (split_on c x) as [|x' [|]] eqn:Ex; try done. destruct (split_on c z) as [|z' [|]] eqn:Ez; try done.
  apply split_on_single in Ex as [-> _]. apply split_on_single in Ez as [-> _].
  simpl in E. injection E as -> -> ->. done.
Qed.

(** ** [glob] *)

(** A text without the special characters of a pattern. *)
Definition plain (s : str) : Prop := Forall (λ c, c ≠ "*"%char ∧ c ≠ "?"%char ∧ c ≠ "["%char) s.

Lemma glob_tokens_plain s : plain s → glob_tokens s = GLit <$> s.
Proof.
  induction 1 as [|c s (H1 & H2 & _) _ IH]; [done|]. unfold glob_tokens in *. rewrite !fmap_cons, IH.
  rewrite !decide_False by done. done.
Qed.

Lemma glob_tokens_app a b : glob_tokens (a ++ b) = glob_tokens a ++ glob_tokens b.
Proof. apply fmap_app. Qed.

Lemma suffixes_spec s y : y ∈ suffixes s ↔ ∃ x, s = x ++ y.
Proof.
  split.
  - revert y. induction s as [|c s IH]; intros y Hy; simpl in Hy.
    + apply list_elem_of_singleton in Hy as ->. by exists [].
    + apply elem_of_cons in Hy as [->|Hy]; [by exists []|]. destruct (IH y Hy) as [x ->]. by exists (c :: x).
  - intros [x ->]. induction x as [|c x IH]; simpl.
    + destruct y; simpl; by left.
    + by right.
Qed.

Lemma glob_match_star p s : glob_match (GStar :: p) s = true ↔ ∃ x y, s = x ++ y ∧ glob_match p y = true.
Proof.
  cbn [glob_match]. rewrite existsb_exists. split.
  - intros (y & Hy%list_elem_of_In & Hm). apply suffixes_spec in Hy as [x ->]. eauto.
  - intros (x & y & -> & Hm). exists y. split; [|done]. apply list_elem_of_In, suffixes_spec. eauto.
Qed.

Lemma glob_match_lits a p s :
  glob_match ((GLit <$> a) ++ p) s = true ↔ ∃ y, s = a ++ y ∧ glob_match p y = true.
Proof.
  revert s. induction a as [|c a IH]; intros s; simpl.
  - split; [eauto | by intros (y & -> & Hm)].
  - destruct s as [|x s]; [split; [done | by intros (y & ? & _)]|].
    rewrite andb_true_iff, bool_decide_eq_true. setoid_rewrite IH. split.
    + intros [-> (y & -> & Hm)]. eauto.
    + intros (y & E & Hm). injection E as -> ->. eauto.
Qed.

Lemma glob_match_star_end s : glob_match [GStar] s = true.
Proof. apply glob_match_star. exists s, []. by rewrite app_nil_r. Qed.

Lemma elem_of_glob (pat : str) (dir : fs) (f : str) :
  f ∈ glob pat dir ↔ is_Some (dir !! f) ∧ glob_match (glob_tokens pat) f = true.
Proof.
  unfold glob. rewrite list_elem_of_filter, list_elem_of_fmap. split.
  - intros [Hm ([g c] & -> & Hin)]. apply elem_of_map_to_list in Hin. eauto.
  - intros [[c Hc] Hm]. split; [done|]. exists (f, c). split; [done|]. by apply elem_of_map_to_list.
Qed.

Lemma NoDup_glob (pat : str) (dir : fs) : NoDup (glob pat dir).
Proof. unfold glob. apply NoDup_filter, NoDup_fst_map_to_list. Qed.

(** A pattern with exactly one match. *)
Lemma glob_unique (pat : str) (dir : fs) (f : str) : is_Some (dir !! f) → glob_match (glob_tokens pat) f = true →
  (∀ g, is_Some (dir !! g) → glob_match (glob_tokens pat) g = true → g = f) → glob pat dir = [f].
Proof.
  intros Hf Hm Hu. assert (f ∈ glob pat dir) as Hin by by apply elem_of_glob.
  pose proof (NoDup_glob pat dir) as Hnd.
  assert (∀ g, g ∈ glob pat dir → g = f) as Hall by (intros g [? ?]%elem_of_glob; auto).
  destruct (glob pat dir) as [|x [|y l]].
  - by apply not_elem_of_nil in Hin.
  - by rewrite (Hall x) by by left.
  - apply NoDup_cons in Hnd as [Hx _]. destruct Hx.
    rewrite (Hall x), (Hall y) by (try (by left); right; by left). by left.
Qed.

(** ** File names *)

Definition alphabet : str := lit "0123456789abcdef".

Lemma digit_char_alphabet d : 0 ≤ d < 16 → digit_char false d ∈ alphabet.
Proof.
  intros Hd. assert (Forall (λ d, digit_char false d ∈ alphabet) (Z.of_nat <$> seq 0 16)) as Hall.
  { apply (bool_decide_unpack _). by vm_compute. }
  rewrite Forall_forall in Hall. apply Hall, list_elem_of_fmap.
  exists (Z.to_nat d). rewrite elem_of_seq. lia.
Qed.

Lemma hex_alphabet b : Forall (λ c, c ∈ alphabet) (hex b).
Proof.
  induction b as [|x b IH]; [by apply Forall_nil|]. rewrite hex_cons. apply Forall_app. split; [|done].
  destruct (byte_nibbles x). unfold hex_byte.
  apply Forall_cons. split; [by apply digit_char_alphabet|].
  apply Forall_cons. split; [by apply digit_char_alphabet | by apply Forall_nil].
Qed.

Lemma not_in_alphabet (c : ascii) s : c ∉ alphabet → Forall (λ c, c ∈ alphabet) s → c ∉ s.
Proof. intros Hc Hs Hin. rewrite Forall_forall in Hs. by apply Hc, Hs. Qed.

Lemma alphabet_plain s : Forall (λ c, c ∈ alphabet) s → plain s.
Proof.
  intros Hs. eapply Forall_impl; [exact Hs|]. intros c Hc.
  assert ("*"%char ∉ alphabet) by (apply (bool_decide_unpack _); by vm_compute).
  assert ("?"%char ∉ alphabet) by (apply (bool_decide_unpack _); by vm_compute).
  assert ("["%char ∉ alphabet) by (apply (bool_decide_unpack _); by vm_compute).
  split_and!; intros ->; contradiction.
Qed.

Lemma underscore_not_alphabet : "_"%char ∉ alphabet.
Proof. apply (bool_decide_unpack _). by vm_compute. Qed.

(** The decimal text of an address, padded to four digits. *)
Lemma fmt_addr_alphabet a : 0 ≤ a → Forall (λ c, c ∈ alphabet) (fmt_0wd 4 a).
Proof.
  intros Ha. unfold fmt_0wd, sign_str. rewrite (proj2 (Z.ltb_ge _ _)) by lia. cbn [app length].
  unfold zpad, abs_digits. apply Forall_app. split.
  - apply Forall_replicate. apply (bool_decide_unpack _). by vm_compute.
  - apply Forall_fmap. rewrite Z.abs_eq by lia.
    eapply Forall_impl; [apply (digits_of_range 10 ltac:(lia) a Ha)|].
    intros d Hd. apply digit_char_alphabet. cbn in *. lia.
Qed.

Lemma int_of_fmt_addr a : 0 ≤ a → int_of_str 10 (fmt_0wd 4 a) = Ok a.
Proof.
  intros Ha. unfold fmt_0wd, sign_str. rewrite (proj2 (Z.ltb_ge _ _)) by lia. cbn [app length].
  unfold zpad, abs_digits. rewrite Z.abs_eq, length_fmap by lia.
  pose proof (digits_of_range 10 ltac:(lia) a Ha) as Hr.
  set (k := (4 - 0 - length (digits_of 10 a))%nat).
  assert (replicate k "0"%char = digit_char false <$> replicate k 0) as -> by by rewrite fmap_replicate.
  rewrite <- fmap_app.
  assert (Forall (λ d, 0 ≤ d < 10) (replicate k 0 ++ digits_of 10 a)) as Hall.
  { apply Forall_app. split; [apply Forall_replicate; lia | done]. }
  rewrite (int_of_digits 10 _ (replicate k 0 ++ digits_of 10 a)).
  - by rewrite num_of_zeros, digits_of_num by lia.
  - lia.
  - intros E. apply fmap_nil_inv in E. apply app_nil in E as [_ E].
    by apply (digits_of_nonempty 10 ltac:(lia) a).
  - by apply (mapM_digit_val false 10).
  - done.
Qed.

Section names.
Context `{NoteCrypto} `{Web3UnitsLaws}.

Definition note_name (user a c v : str) : str :=
  lit "note_" ++ user ++ lit "_" ++ a ++ lit "_" ++ c ++ lit "_" ++ v.

(** The value of a note in units and in wei. *)
Definition note_units (n : ZethNote) : option Z :=
  match int_of_str 16 (value n) with Ok v => Some v | Err _ => None end.

(** A description the wallet can store: a non-negative address and a value of 64
    bits. *)
Definition desc_ok (d : ZethNoteDescription) (v : Z) : Prop :=
  0 ≤ nd_address d ∧ int_of_str 16 (value (nd_note d)) = Ok v ∧ 0 ≤ v < 2 ^ 64.

Definition desc_name (user : str) (d : ZethNoteDescription) (v : Z) : str :=
  note_name user (fmt_0wd 4 (nd_address d)) (short_commitment (nd_commitment d))
    (fromWei_ether (v * ZETH_PUBLIC_UNIT_VALUE)).

Lemma units_wei_range v : 0 ≤ v < 2 ^ 64 → 0 ≤ v * ZETH_PUBLIC_UNIT_VALUE < 2 ^ 256.
Proof. unfold ZETH_PUBLIC_UNIT_VALUE. lia. Qed.

Lemma note_basename_ok user d v : desc_ok d v → _note_basename user d = Ok (desc_name user d v).
Proof.
  intros (Ha & Hv & Hr). unfold _note_basename. rewrite Hv. cbn [mbind result_bind].
  rewrite from_zeth_units_wei by done. done.
Qed.

Lemma desc_parts_plain d v : desc_ok d v →
  ("_"%char ∉ fmt_0wd 4 (nd_address d)) ∧ ("_"%char ∉ short_commitment (nd_commitment d)) ∧
  ("_"%char ∉ fromWei_ether (v * ZETH_PUBLIC_UNIT_VALUE)).
Proof.
  intros (Ha & _ & Hr). split_and!.
  - apply not_in_alphabet; [apply underscore_not_alphabet | by apply fmt_addr_alphabet].
  - apply not_in_alphabet; [apply underscore_not_alphabet | apply hex_alphabet].
  - by apply fromWei_plain, units_wei_range.
Qed.

(** The pattern for a commitment matches the notes with that short commitment
    and no others. *)
Lemma commit_pattern_match user key d v : plain user → plain key → "_"%char ∉ key → desc_ok d v →
  glob_match (glob_tokens (lit "note_" ++ user ++ lit "_*_" ++ key ++ lit "_*")) (desc_name user d v) = true ↔
  short_commitment (nd_commitment d) = key.
Proof.
  intros Hu Hk Hk_ Hd. destruct (desc_parts_plain d v Hd) as (P1 & P2 & P3).
  rewrite !glob_tokens_app, (glob_tokens_plain user), (glob_tokens_plain key) by done.
  change (glob_tokens (lit "note_")) with (GLit <$> lit "note_").
  change (glob_tokens (lit "_*_")) with ((GLit <$> lit "_") ++ [GStar] ++ (GLit <$> lit "_")).
  change (glob_tokens (lit "_*")) with ((GLit <$> lit "_") ++ [GStar]).
  rewrite <- !app_assoc. unfold desc_name, note_name. split.
  - intros Hm. apply glob_match_lits in Hm as (y1 & E1 & Hm). apply app_inv_head in E1 as <-.
    apply glob_match_lits in Hm as (y2 & E2 & Hm). apply app_inv_head in E2 as <-.
    apply glob_match_lits in Hm as (y3 & E3 & Hm). apply app_inv_head in E3 as <-.
    apply glob_match_star in Hm as (x & y4 & E4 & Hm).
    apply glob_match_lits in Hm as (y5 & E5 & Hm). subst y4.
    apply glob_match_lits in Hm as (y6 & E6 & Hm). subst y5.
    apply glob_match_lits in Hm as (z & E7 & _). subst y6.
    destruct (three_parts "_"%char _ _ _ x key z P1 P2 P3 E4 Hk_) as (_ & -> & _). done.
  - intros <-. apply glob_match_lits. eexists. split; [done|].
    apply glob_match_lits. eexists. split; [done|]. apply glob_match_lits. eexists. split; [done|].
    apply glob_match_star. eexists _, _. split; [done|]. apply glob_match_lits. eexists. split; [done|].
    apply glob_match_lits. eexists. split; [done|]. apply glob_match_lits. eexists. split; [done|].
    apply glob_match_star_end.
Qed.

(** Reading a file name gives back the address, the short commitment and the
    value. *)
Lemma decode_basename_ok user d v : "_"%char ∉ user → desc_ok d v →
  _decode_basename (desc_name user d v) =
  Ok (nd_address d, short_commitment (nd_commitment d), EtherValue.mk (v * ZETH_PUBLIC_UNIT_VALUE)).
Proof.
  intros Hu Hd. destruct (desc_parts_plain d v Hd) as (P1 & P2 & P3). destruct Hd as (Ha & Hv & Hr).
  unfold _decode_basename.
  assert (split_on "_"%char (desc_name user d v) = [lit "note"; user; fmt_0wd 4 (nd_address d);
    short_commitment (nd_commitment d); fromWei_ether (v * ZETH_PUBLIC_UNIT_VALUE)]) as ->.
  { unfold desc_name, note_name. change (lit "note_") with (lit "note" ++ lit "_"). rewrite <- app_assoc.
    assert (∀ x, lit "_" ++ x = "_"%char :: x) as Hc by done. rewrite !Hc, !split_on_app_gen.
    rewrite (split_on_none _ user), (split_on_none _ (fmt_0wd _ _)), (split_on_none _ (short_commitment _)),
      (split_on_none _ (fromWei_ether _)) by done. reflexivity. }
  change (py_get [?a; ?b; ?c; ?d; ?e] 2) with (Ok c). cbn [mbind result_bind].
  rewrite int_of_fmt_addr by done. cbn [mbind result_bind].
  change (py_get [?a; ?b; ?c; ?d; ?e] 3) with (Ok d). cbn [mbind result_bind].
  change (py_get [?a; ?b; ?c; ?d; ?e] 4) with (Ok e). cbn [mbind result_bind].
  unfold EtherValue.of_str. by rewrite toWei_fromWei by by apply units_wei_range.
Qed.
End names.
