(* ===== verification/WalletSync.v ===== *)
(** * Correctness of the wallet

    Receiving notes keeps the client's tree and addresses in step with the
    contract's; a synchronisation ends with the contract's root and a state that
    reopens; notes are found by their short commitment and spent notes leave the
    wallet. *)

From Stdlib Require Import ZArith Lia Ascii String Strings.Byte.
From stdpp Require Import base tactics list gmap sets strings.
From S2P Require Import Prelude PyStr PyBytes PyIO Hashes Constants Utils MerkleTree MerkleTreeFacts Pairing Signing Encryption Notes Contracts MixerClient MixerFacts Wallet WalletFacts.

Local Open Scope Z_scope.

#[local] Opaque blake2s sha256.

(** ** Stored values *)

Section stored.
Context `{NoteCryptoLaws} `{Web3UnitsLaws} `{ITreeHash}.

Lemma note_wf_value n : note_wf n → ∃ v, int_of_str 16 (value n) = Ok v ∧ 0 ≤ v < 2 ^ 64.
Proof.
  intros (a & v & r & t & -> & Ha & Hv & Hr & Ht). exists (int_from_bytes v). cbn [value]. split.
  - apply int_of_hex. by intros ->.
  - pose proof (int_from_bytes_bound v) as Hb. unfold zlen in Hb. rewrite Hv in Hb. done.
Qed.

Lemma note_wf_nullifier n a_sk : note_wf n → length a_sk = 32%nat → ∃ nf, compute_nullifier n a_sk = Ok nf.
Proof.
  intros (a & v & r & t & -> & _) Hl. eexists. by apply compute_nullifier_spec.
Qed.

Lemma note_wf_commitment n pp m : note_wf n → scalar_field_mod pp = Ok m → 0 < m ≤ 2 ^ 256 →
  ∃ cm, compute_commitment n pp = Ok cm.
Proof.
  intros (a & v & r & t & -> & _) Hm Hr. eexists. by apply (compute_commitment_spec _ pp m a v r t).
Qed.

Lemma note_desc_json_roundtrip d : 0 ≤ nd_address d → note_desc_from_json (note_desc_to_json d) = Ok d.
Proof.
  destruct d as [[a v r t] addr cm]. cbn [nd_address]. intros Ha.
  unfold note_desc_from_json, note_desc_to_json, jget_int, jget_text. cbn [nd_note nd_address nd_commitment].
  jsimp. unfold zeth_note_from_json_dict, zeth_note_to_json_dict, jget_text. cbn [apk value rho trap_r].
  jsimp. cbn [as_str mbind result_bind py_int]. jsimp. cbn [as_str mbind result_bind py_int].
  rewrite int_of_str_of_int by done. cbn [mbind result_bind]. by rewrite fromhex_hex.
Qed.

Lemma note_desc_to_json_inj d1 d2 : 0 ≤ nd_address d1 → 0 ≤ nd_address d2 →
  note_desc_to_json d1 = note_desc_to_json d2 → d1 = d2.
Proof.
  intros H1' H2' E. apply Ok_inj. rewrite <- (note_desc_json_roundtrip d1), <- (note_desc_json_roundtrip d2) by done.
  by rewrite E.
Qed.

Lemma mapM_str_dict (l : list (str * str)) :
  mapM (λ kv, v ← as_str kv.2; Ok (kv.1, v)) (prod_map id JStr <$> l) = Ok l.
Proof.
  induction l as [|[k v] l IH]; [done|]. rewrite fmap_cons, mapM_cons_res.
  cbn [prod_map fst snd id as_str mbind result_bind]. by rewrite IH.
Qed.

Lemma state_json_roundtrip s : state_from_json (state_to_json s) = Ok s.
Proof.
  destruct s as [nb nn m]. unfold state_from_json, state_to_json, jget_int.
  cbn [next_block num_notes nullifier_map]. jsimp. cbn [py_int mbind result_bind]. jsimp.
  cbn [py_int mbind result_bind as_str_dict]. rewrite mapM_str_dict. cbn [mbind result_bind].
  by rewrite list_to_map_to_list.
Qed.
End stored.

(** ** Invariant *)

Section inv.
Context `{NoteCrypto} `{Web3Units} `{ITreeHash} (pp : PairingParameters) (d : nat).

Definition desc_units (nd : ZethNoteDescription) : Z :=
  match int_of_str 16 (value (nd_note nd)) with Ok v => v | Err _ => 0 end.

(** The name of the file of a note. *)
Definition note_file (user : str) (nd : ZethNoteDescription) : str := desc_name user nd (desc_units nd).

(** A note of the tree with the leaves [l]: well formed, with the commitment that
    is stored at its address. *)
Definition good_note (l : list bytes) (nd : ZethNoteDescription) : Prop :=
  0 ≤ nd_address nd ∧ note_wf (nd_note nd) ∧ compute_commitment (nd_note nd) pp = Ok (nd_commitment nd) ∧
  l !! Z.to_nat (nd_address nd) = Some (nd_commitment nd).

Definition has_note (user : str) (dir : fs) (nd : ZethNoteDescription) : Prop :=
  dir !! note_file user nd = Some (CJson (note_desc_to_json nd)).

Definition note_pattern (user : str) : str := lit "note_" ++ user ++ lit "_*".

(** The wallet holds the tree over the leaves [l] and addresses the next leaf;
    the note files of the user are notes of the tree, under their names, and
    every known nullifier is the nullifier of one of them; an address has at most
    one note. *)
Record wallet_inv (l : list bytes) (w : Wallet) (dir : WalletDir) : Prop := {
  wi_tree : tree_inv d l (merkle_tree w);
  wi_addr : next_addr w = zlen l;
  wi_a_sk : length (w_a_sk w) = 32%nat;
  wi_user : plain (username w) ∧ "_"%char ∉ username w;
  wi_files : ∀ f c, wd_top dir !! f = Some c →
    glob_match (glob_tokens (note_pattern (username w))) f = true →
    ∃ nd, good_note l nd ∧ f = note_file (username w) nd ∧ c = CJson (note_desc_to_json nd);
  wi_nullifiers : ∀ nf sc, nullifier_map (state w) !! nf = Some sc →
    ∃ nd x, good_note l nd ∧ has_note (username w) (wd_top dir) nd ∧
      compute_nullifier (nd_note nd) (w_a_sk w) = Ok x ∧ nf = hex x ∧ sc = short_commitment (nd_commitment nd);
  wi_unique : ∀ nd1 nd2, good_note l nd1 → good_note l nd2 →
    has_note (username w) (wd_top dir) nd1 → has_note (username w) (wd_top dir) nd2 →
    nd_address nd1 = nd_address nd2 → nd1 = nd2
}.

(** The note of an output that is ours, with the address of its commitment. *)
Definition our_note (sk : EncryptionSecretKey) (a : Z) (ev : MixOutputEvents) : option ZethNoteDescription :=
  match receive_note ev sk with
  | Ok (Some (cm, n)) =>
      match compute_commitment n pp with
      | Ok c => if decide (cm = c) then Some (mkNoteDesc n a cm) else None
      | Err _ => None
      end
  | _ => None
  end.

Fixpoint our_notes (sk : EncryptionSecretKey) (a : Z) (evs : list MixOutputEvents) : list ZethNoteDescription :=
  match evs with
  | [] => []
  | ev :: evs => option_list (our_note sk a ev) ++ our_notes sk (a + 1) evs
  end.

(** The fields that receiving notes does not change. *)
Definition same_user (w w' : Wallet) : Prop :=
  username w' = username w ∧ w_a_sk w' = w_a_sk w ∧ k_sk_receiver w' = k_sk_receiver w ∧
  next_block (state w') = next_block (state w).
End inv.

#[export] Instance same_user_preorder `{NoteCrypto} `{ITreeHash} : PreOrder same_user.
Proof.
  split; [by intros x; unfold same_user|]. intros x y z (?&?&?&?) (?&?&?&?). unfold same_user. split_and!; congruence.
Qed.

(** ** Files *)

Section files.
Context `{NoteCryptoLaws} `{Web3UnitsLaws} `{ITreeHash} (pp : PairingParameters) (d : nat).

Lemma good_desc_ok l nd : good_note pp l nd → desc_ok nd (desc_units nd).
Proof.
  intros (Ha & Hn & _). destruct (note_wf_value _ Hn) as (v & Hv & Hr).
  unfold desc_ok, desc_units. rewrite Hv. done.
Qed.

Lemma note_file_inj user nd1 nd2 l1 l2 : "_"%char ∉ user → good_note pp l1 nd1 → good_note pp l2 nd2 →
  note_file user nd1 = note_file user nd2 → nd_address nd1 = nd_address nd2.
Proof.
  intros Hu H1'%good_desc_ok H2'%good_desc_ok E. unfold note_file in E.
  pose proof (decode_basename_ok user nd1 _ Hu H1') as D1. rewrite E, decode_basename_ok in D1 by done. congruence.
Qed.

Lemma note_pattern_prefix user y : plain user →
  glob_match (glob_tokens (note_pattern user)) (lit "note_" ++ user ++ lit "_" ++ y) = true.
Proof.
  clear. intros Hu. unfold note_pattern. rewrite !glob_tokens_app, (glob_tokens_plain user) by done.
  change (glob_tokens (lit "note_")) with (GLit <$> lit "note_").
  change (glob_tokens (lit "_*")) with ((GLit <$> lit "_") ++ [GStar]).
  apply glob_match_lits. eexists. split; [done|]. apply glob_match_lits. eexists. split; [done|].
  apply glob_match_lits. eexists. split; [done|]. apply glob_match_star_end.
Qed.

Lemma note_file_pattern user nd : plain user →
  glob_match (glob_tokens (note_pattern user)) (note_file user nd) = true.
Proof. apply note_pattern_prefix. Qed.

Lemma good_note_app l l' nd : good_note pp l nd → good_note pp (l ++ l') nd.
Proof.
  intros (? & ? & ? & Hl). split_and!; try done. by apply lookup_app_l_Some.
Qed.

Lemma good_note_commitment l nd m : scalar_field_mod pp = Ok m → 0 < m ≤ 2 ^ 256 → good_note pp l nd →
  length (nd_commitment nd) = 32%nat.
Proof.
  intros Hm Hr (_ & (a & v & r & t & E & _) & Hc & _). rewrite E in Hc.
  rewrite (compute_commitment_spec _ pp m a v r t) in Hc by done. apply Ok_inj in Hc as <-. apply length_to_be.
Qed.
Lemma stored_inj l1 l2 nd1 nd2 : good_note pp l1 nd1 → good_note pp l2 nd2 →
  Some (CJson (note_desc_to_json nd1)) = Some (CJson (note_desc_to_json nd2)) → nd1 = nd2.
Proof.
  intros Hg1 Hg2 E%(inj Some). apply (f_equal (λ c, match c with CJson j => j | _ => JNull end)) in E.
  apply note_desc_to_json_inj; [apply Hg1 | apply Hg2 | done].
Qed.


(** A note file holds a note that was in the tree when it was written. *)
Lemma has_note_old l l' w dir nd : wallet_inv pp d l w dir → good_note pp l' nd →
  has_note (username w) (wd_top dir) nd → good_note pp l nd.
Proof.
  intros Hinv Hg Hh. pose proof Hh as Hh'. unfold has_note in Hh'.
  destruct (wi_files _ _ _ _ _ Hinv _ _ Hh') as (nd' & Hg' & E & Ec).
  { apply note_file_pattern, Hinv. }
  by rewrite (stored_inj l' l nd nd' Hg Hg' (f_equal Some Ec)).
Qed.
End files.

(** ** Receiving notes *)

Section receiving.
Context `{NoteCryptoLaws} `{Web3UnitsLaws} `{ITreeHash}.
Context (pp : PairingParameters) (m : Z) (Hm : scalar_field_mod pp = Ok m) (Hmr : 0 < m ≤ 2 ^ 256).
Context (d : nat) (Hd : (1 ≤ d ≤ 52)%nat).

(** What one output does to the wallet and its directory. *)
Definition learn (w : Wallet) (dir : WalletDir) (nd : ZethNoteDescription) (nf : bytes) : Wallet * WalletDir :=
  (set_state w (set_nullifiers (state w)
     (<[hex nf := short_commitment (nd_commitment nd)]> (nullifier_map (state w)))),
   write_top (note_file (username w) nd) (CJson (note_desc_to_json nd)) dir).

Lemma wallet_receive_note_spec w dir a ev :
  zlen (ciphertext ev) = ENCRYPTED_NOTE_LENGTH_BYTES → length (w_a_sk w) = 32%nat → 0 ≤ a →
  (our_note pp (k_sk_receiver w) a ev = None ∧ wallet_receive_note w dir a ev pp = Ok (None, (w, dir))) ∨
  ∃ n nf, let nd := mkNoteDesc n a (commitment ev) in
    our_note pp (k_sk_receiver w) a ev = Some nd ∧ note_wf n ∧
    compute_commitment n pp = Ok (commitment ev) ∧ compute_nullifier n (w_a_sk w) = Ok nf ∧
    wallet_receive_note w dir a ev pp = Ok (Some nd, learn w dir nd nf).
Proof.
  intros Hc Hl Ha. unfold wallet_receive_note, our_note.
  destruct (receive_note_total ev (k_sk_receiver w) Hc) as [->|(n & -> & Hn)]; [by left|].
  cbn [mbind result_bind]. unfold _check_note.
  destruct (note_wf_commitment n pp m Hn Hm Hmr) as [cm Hcm]. rewrite Hcm. cbn [mbind result_bind].
  case_bool_decide as E; cbn [negb]; [|left; by rewrite decide_False by done].
  right. destruct (note_wf_nullifier n (w_a_sk w) Hn Hl) as [nf Hnf]. exists n, nf. rewrite decide_True by done.
  split_and!; try done; [by rewrite E|]. unfold _write_note.
  destruct (note_wf_value n Hn) as (v & Hv & Hr).
  rewrite (note_basename_ok _ _ v) by done. cbn [mbind result_bind nd_note]. rewrite Hnf. cbn [mbind result_bind].
  unfold learn, note_file, desc_units. cbn [nd_note nd_commitment]. by rewrite Hv.
Qed.

Lemma leaf_snoc (l : list bytes) v : (l ++ [v]) !! Z.to_nat (zlen l) = Some v.
Proof. clear. unfold zlen. rewrite Nat2Z.id. by rewrite list_lookup_middle by done. Qed.

(** The file of a new note is none of the files of the notes already there. *)
Lemma fresh_file user l v nd nd' : "_"%char ∉ user → good_note pp (l ++ [v]) nd → nd_address nd = zlen l →
  good_note pp l nd' → note_file user nd ≠ note_file user nd'.
Proof.
  clear Hd Hmr Hm. intros Hu Hg Ha Hg' E. apply (note_file_inj pp _ _ _ (l ++ [v]) l Hu Hg Hg') in E.
  destruct Hg' as (_ & _ & _ & Hlk%lookup_lt_Some). rewrite <- E, Ha in Hlk. unfold zlen in Hlk. lia.
Qed.

Lemma learn_inv l w dir w' t n nf ev :
  wallet_inv pp d l w dir → tree_inv d (l ++ [commitment ev]) t → note_wf n →
  compute_commitment n pp = Ok (commitment ev) → compute_nullifier n (w_a_sk w) = Ok nf →
  w' = set_next_addr (learn (set_tree w t) dir (mkNoteDesc n (zlen l) (commitment ev)) nf).1 (zlen l + 1) →
  wallet_inv pp d (l ++ [commitment ev]) w' (learn w dir (mkNoteDesc n (zlen l) (commitment ev)) nf).2.
Proof. clear Hd.
  intros Hinv Ht Hn Hc Hnf ->. pose proof Hinv as Hinv0. set (nd := mkNoteDesc n (zlen l) (commitment ev)).
  pose proof (zlen_nonneg l). destruct Hinv as [_ Haddr Hask [Hp Hu] Hfiles Hnull Huniq].
  assert (good_note pp (l ++ [commitment ev]) nd) as Hgood.
  { split_and!; try done. apply leaf_snoc. }
  split; unfold learn;
    cbn [fst snd merkle_tree next_addr w_a_sk username state nullifier_map set_next_addr set_tree set_state
         set_nullifiers wd_top write_top]; try done.
  - rewrite zlen_app. done.
  - intros f c. unfold write_file. rewrite lookup_insert_Some. intros [[<- <-]|[_ Hf]] Hpat; [by exists nd|].
    destruct (Hfiles f c Hf Hpat) as (nd' & Hg & ? & ?). exists nd'. split; [by apply good_note_app | done].
  - intros x sc. rewrite lookup_insert_Some. intros [[<- <-]|[_ Hx]].
    + exists nd, nf. split_and!; try done. unfold has_note, write_file. by rewrite lookup_insert_eq.
    + destruct (Hnull x sc Hx) as (nd' & y & Hg & Hhas & ? & ? & ?). exists nd', y.
      split_and!; try done; [by apply good_note_app|]. unfold has_note, write_file in *.
      rewrite lookup_insert_ne; [done|]. by eapply fresh_file.
  - intros nd1 nd2 G1 G2. unfold has_note, write_file. rewrite !lookup_insert_Some.
    assert (∀ x, good_note pp (l ++ [commitment ev]) x → wd_top dir !! note_file (username w) x =
      Some (CJson (note_desc_to_json x)) → good_note pp l x ∧ nd_address x ≠ zlen l) as Hold.
    { intros x Gx Hx. assert (good_note pp l x) as G by by eapply has_note_old. split; [done|].
      destruct G as (_ & _ & _ & Hlk%lookup_lt_Some). unfold zlen. lia. }
    intros [[_ E1]|[_ Hh1]] [[_ E2]|[_ Hh2]] Ea.
    + apply (stored_inj pp _ _ _ _ G1 G2). by rewrite <- E1, <- E2.
    + pose proof (stored_inj pp _ _ _ _ Hgood G1 (f_equal Some E1)) as <-. by destruct (Hold nd2 G2 Hh2).
    + pose proof (stored_inj pp _ _ _ _ Hgood G2 (f_equal Some E2)) as <-. by destruct (Hold nd1 G1 Hh1).
    + apply Huniq; try done; by apply Hold.
Qed.

(** An output that is not ours extends the tree only. *)
Lemma ignore_inv l w dir t v : wallet_inv pp d l w dir → tree_inv d (l ++ [v]) t →
  wallet_inv pp d (l ++ [v]) (set_next_addr (set_tree w t) (next_addr w + 1)) dir.
Proof.
  intros Hinv Ht. pose proof Hinv as [_ Haddr Hask Hu Hfiles Hnull Huniq].
  split; cbn [merkle_tree next_addr w_a_sk username state set_next_addr set_tree]; try done.
  - by rewrite zlen_app, Haddr.
  - intros f c Hf Hpat. destruct (Hfiles f c Hf Hpat) as (nd & Hg & ? & ?).
    exists nd. split; [by apply good_note_app | done].
  - intros x sc Hx. destruct (Hnull x sc Hx) as (nd & y & Hg & ?). exists nd, y.
    split; [by apply good_note_app | done].
  - intros nd1 nd2 G1 G2 Hh1 Hh2. apply Huniq; try done; by eapply has_note_old.
Qed.

(** The notes learnt by the steps: on disk, with their nullifiers known. *)
Definition kept (w : Wallet) (dir : WalletDir) (nd : ZethNoteDescription) : Prop :=
  has_note (username w) (wd_top dir) nd ∧
  ∃ nf, compute_nullifier (nd_note nd) (w_a_sk w) = Ok nf ∧ is_Some (nullifier_map (state w) !! hex nf).

Lemma receive_step_spec l w dir ev notes :
  wallet_inv pp d l w dir → zlen l < 2 ^ Z.of_nat d → zlen (ciphertext ev) = ENCRYPTED_NOTE_LENGTH_BYTES →
  ∃ w' dir', receive_step pp (notes, (w, dir)) ev =
      Ok (notes ++ option_list (our_note pp (k_sk_receiver w) (zlen l) ev), (w', dir')) ∧
    wallet_inv pp d (l ++ [commitment ev]) w' dir' ∧ same_user w w' ∧
    merkle_tree_changed w' = merkle_tree_changed w ∧ num_notes (state w') = num_notes (state w) ∧
    wd_spent dir' = wd_spent dir ∧
    (∀ nd, our_note pp (k_sk_receiver w) (zlen l) ev = Some nd → kept w' dir' nd) ∧
    (∀ nd, good_note pp l nd → kept w dir nd → kept w' dir' nd).
Proof.
  intros Hinv Hfit Hc. pose proof (zlen_nonneg l).
  destruct (insert_inv d ltac:(lia) l _ (commitment ev) (wi_tree _ _ _ _ _ Hinv) Hfit) as (t & Hins & Ht & _).
  unfold receive_step. rewrite Hins. cbn [mbind result_bind].
  rewrite (wi_addr _ _ _ _ _ Hinv : next_addr (set_tree w t) = zlen l).
  change (k_sk_receiver w) with (k_sk_receiver (set_tree w t)).
  destruct (wallet_receive_note_spec (set_tree w t) dir (zlen l) ev) as [[-> ->]|(n & nf & -> & Hn & Hcm & Hnf & ->)];
    [done | apply Hinv | done | |]; cbn [mbind result_bind option_list].
  - do 2 eexists. split; [reflexivity|]. split; [exact (ignore_inv l w dir t _ Hinv Ht)|]. split_and!; done.
  - do 2 eexists. split; [reflexivity|]. split.
    { refine (learn_inv l w dir _ t n nf ev Hinv Ht Hn Hcm Hnf _). unfold learn.
      cbn [fst next_addr set_state set_tree]. by rewrite (wi_addr _ _ _ _ _ Hinv). }
    split_and!; try done.
    + intros nd E. injection E as <-. split.
      * unfold has_note. cbn. unfold write_file. by rewrite lookup_insert_eq.
      * exists nf. cbn. rewrite lookup_insert_eq. eauto.
    + intros nd Hg [Hhas (x & Hx & Hmap)]. split.
      * unfold has_note in *. cbn [username set_next_addr set_state set_tree wd_top write_top].
        unfold write_file. rewrite lookup_insert_ne; [done|]. eapply fresh_file; [apply Hinv | | done | exact Hg].
        split_and!; [done..|]. apply leaf_snoc.
      * exists x. split; [done|]. cbn. destruct (decide (hex nf = hex x)) as [->|Hne].
        -- rewrite lookup_insert_eq. eauto.
        -- by rewrite lookup_insert_ne.
Qed.

Lemma our_notes_good w a l ev nd : our_note pp (k_sk_receiver w) (zlen l) ev = Some nd → a = zlen l →
  zlen (ciphertext ev) = ENCRYPTED_NOTE_LENGTH_BYTES → good_note pp (l ++ [commitment ev]) nd.
Proof.
  unfold our_note. intros E -> Hc.
  destruct (receive_note_total ev (k_sk_receiver w) Hc) as [Hr|(n & Hr & Hn)]; rewrite Hr in E; [done|].
  destruct (compute_commitment n pp) as [c|] eqn:Ec; [|done]. case_decide as Ecm; [|done].
  injection E as <-. pose proof (zlen_nonneg l). split_and!; cbn; [done..| |apply leaf_snoc]. by rewrite Ec, Ecm.
Qed.

Lemma receive_loop_spec evs l w dir notes :
  wallet_inv pp d l w dir → zlen l + zlen evs ≤ 2 ^ Z.of_nat d →
  Forall (λ ev, zlen (ciphertext ev) = ENCRYPTED_NOTE_LENGTH_BYTES) evs →
  ∃ w' dir', foldM (receive_step pp) (notes, (w, dir)) evs =
      Ok (notes ++ our_notes pp (k_sk_receiver w) (zlen l) evs, (w', dir')) ∧
    wallet_inv pp d (l ++ (commitment <$> evs)) w' dir' ∧ same_user w w' ∧
    merkle_tree_changed w' = merkle_tree_changed w ∧ num_notes (state w') = num_notes (state w) ∧
    wd_spent dir' = wd_spent dir ∧
    (∀ nd, nd ∈ our_notes pp (k_sk_receiver w) (zlen l) evs → 
       good_note pp (l ++ (commitment <$> evs)) nd ∧ kept w' dir' nd) ∧
    (∀ nd, good_note pp l nd → kept w dir nd → kept w' dir' nd).
Proof.
  revert l w dir notes. induction evs as [|ev evs IH]; intros l w dir notes Hinv Hfit Hall.
  - exists w, dir. cbn. rewrite !app_nil_r. split_and!; try done. intros nd Hnd. by apply not_elem_of_nil in Hnd.
  - apply Forall_cons in Hall as [Hc Hall]. unfold zlen in Hfit. cbn [length] in Hfit.
    destruct (receive_step_spec l w dir ev notes Hinv) as (w1 & dir1 & E1 & Hi1 & S1 & C1 & N1 & D1 & K1 & P1);
      [unfold zlen; lia | done|].
    destruct (IH (l ++ [commitment ev]) w1 dir1 (notes ++ option_list (our_note pp (k_sk_receiver w) (zlen l) ev)))
      as (w2 & dir2 & E2 & Hi2 & S2 & C2 & N2 & D2 & K2 & P2); [done | | done |].
    { unfold zlen. rewrite length_app. cbn. lia. }
    pose proof S1 as (U1 & _ & Ksk & _). rewrite Ksk, zlen_app in *. change (zlen [commitment ev]) with 1 in *.
    exists w2, dir2. cbn [foldM our_notes]. rewrite E1. cbn [mbind result_bind]. rewrite E2.
    rewrite <- !app_assoc in *. rewrite fmap_cons. cbn [app] in *.
    split; [reflexivity|]. split; [exact Hi2|]. split; [by etrans|].
    split; [by rewrite C2, C1|]. split; [by rewrite N2, N1|]. split; [by rewrite D2, D1|]. split.
    + intros nd [Hnd|Hnd]%elem_of_app; [|by apply K2].
      destruct (our_note pp (k_sk_receiver w) (zlen l) ev) as [nd'|] eqn:Eo; [|by apply not_elem_of_nil in Hnd].
      apply list_elem_of_singleton in Hnd as ->.
      assert (good_note pp (l ++ [commitment ev]) nd') as Hg by by eapply our_notes_good.
      split; [|by apply P2, K1]. rewrite (app_assoc l [_] _ : l ++ (commitment ev :: _) = _). by apply good_note_app.
    + intros nd Hg Hk. apply P2; [by apply good_note_app | by apply P1].
Qed.
End receiving.

(** ** Finding and spending notes *)

Section spending.
Context `{NoteCryptoLaws} `{Web3UnitsLaws} `{ITreeHash}.
Context (pp : PairingParameters) (m : Z) (Hm : scalar_field_mod pp = Ok m) (Hmr : 0 < m ≤ 2 ^ 256).
Context (d : nat).

Definition commit_pattern (user key : str) : str := lit "note_" ++ user ++ lit "_*_" ++ key ++ lit "_*".

Lemma commit_pattern_user user key f : plain user → plain key →
  glob_match (glob_tokens (commit_pattern user key)) f = true →
  glob_match (glob_tokens (note_pattern user)) f = true.
Proof.
  clear. intros Hu Hk. unfold commit_pattern.
  rewrite !glob_tokens_app, (glob_tokens_plain user), (glob_tokens_plain key) by done.
  change (glob_tokens (lit "note_")) with (GLit <$> lit "note_").
  change (glob_tokens (lit "_*_")) with ((GLit <$> lit "_") ++ [GStar] ++ (GLit <$> lit "_")).
  change (glob_tokens (lit "_*")) with ((GLit <$> lit "_") ++ [GStar]). rewrite <- !app_assoc.
  intros (y1 & -> & (y2 & -> & (y3 & -> & _)%glob_match_lits)%glob_match_lits)%glob_match_lits.
  by apply note_pattern_prefix.
Qed.

Lemma short_commitment_plain c : plain (short_commitment c) ∧ "_"%char ∉ short_commitment c.
Proof.
  clear. split; [apply alphabet_plain, hex_alphabet|].
  apply not_in_alphabet; [apply underscore_not_alphabet | apply hex_alphabet].
Qed.

(** The files a short commitment selects are the notes that have it. *)
Lemma elem_of_commit_glob l w dir c f : wallet_inv pp d l w dir →
  f ∈ glob (commit_pattern (username w) (short_commitment c)) (wd_top dir) ↔
  ∃ nd, good_note pp l nd ∧ has_note (username w) (wd_top dir) nd ∧ f = note_file (username w) nd ∧
    short_commitment (nd_commitment nd) = short_commitment c.
Proof.
  intros [_ _ _ [Hp Hu] Hfiles _ _]. destruct (short_commitment_plain c) as [Pc Uc].
  rewrite elem_of_glob. split.
  - intros [[x Hx] Hmt]. pose proof (commit_pattern_user _ _ _ Hp Pc Hmt) as Hpat.
    destruct (Hfiles f x Hx Hpat) as (nd & Hg & -> & ->). exists nd. split_and!; try done.
    by apply (commit_pattern_match (username w) _ nd _ Hp Pc Uc (good_desc_ok pp l nd Hg)).
  - intros (nd & Hg & Hhas & -> & Hs). unfold has_note in Hhas. split; [by rewrite Hhas|].
    by apply (commit_pattern_match (username w) _ nd _ Hp Pc Uc (good_desc_ok pp l nd Hg)).
Qed.

Lemma find_by_commitment l w dir nd : good_note pp l nd →
  _find_note_file w dir (short_commitment (nd_commitment nd)) =
  match glob (commit_pattern (username w) (short_commitment (nd_commitment nd))) (wd_top dir) with
  | [f] => Some f | _ => None end.
Proof.
  intros Hg. unfold _find_note_file.
  assert (zlen (short_commitment (nd_commitment nd)) = 8) as ->; [|done].
  unfold short_commitment, zlen. rewrite length_hex, length_py_slice; [done | lia|].
  unfold zlen. rewrite (good_note_commitment pp l nd m) by done. lia.
Qed.

(** Notes of the directory are told apart by their short commitments when the
    leaves are. *)
Lemma short_unique l w dir nd1 nd2 : wallet_inv pp d l w dir → NoDup (short_commitment <$> l) →
  good_note pp l nd1 → good_note pp l nd2 →
  has_note (username w) (wd_top dir) nd1 → has_note (username w) (wd_top dir) nd2 →
  short_commitment (nd_commitment nd1) = short_commitment (nd_commitment nd2) → nd1 = nd2.
Proof.
  intros Hinv Hnd G1 G2 H1' H2' Es. apply (wi_unique _ _ _ _ _ Hinv); try done.
  destruct G1 as (? & _ & _ & L1), G2 as (? & _ & _ & L2).
  enough (Z.to_nat (nd_address nd1) = Z.to_nat (nd_address nd2)) by lia.
  eapply NoDup_lookup; [exact Hnd | |]; rewrite list_lookup_fmap, ?L1, ?L2; cbn; by rewrite ?Es.
Qed.

Lemma find_unique l w dir nd : wallet_inv pp d l w dir → good_note pp l nd →
  has_note (username w) (wd_top dir) nd →
  (∀ nd', good_note pp l nd' → has_note (username w) (wd_top dir) nd' →
     short_commitment (nd_commitment nd') = short_commitment (nd_commitment nd) → nd' = nd) →
  _find_note_file w dir (short_commitment (nd_commitment nd)) = Some (note_file (username w) nd).
Proof.
  intros Hinv Hg Hhas Huniq. rewrite (find_by_commitment l) by done.
  assert (note_file (username w) nd ∈ glob (commit_pattern (username w) (short_commitment (nd_commitment nd)))
    (wd_top dir)) as [Hsome Hmt]%elem_of_glob by (apply (elem_of_commit_glob l); [done|]; by exists nd).
  rewrite (glob_unique _ _ (note_file (username w) nd)); [reflexivity | exact Hsome | exact Hmt |].
  intros g Hgs Hgm. assert (g ∈ glob (commit_pattern (username w) (short_commitment (nd_commitment nd)))
    (wd_top dir)) as Hin by by apply elem_of_glob.
  apply (elem_of_commit_glob l) in Hin as (nd' & ? & ? & -> & ?); [|done]. by rewrite (Huniq nd').
Qed.

Lemma find_ambiguous l w dir nd1 nd2 : wallet_inv pp d l w dir → good_note pp l nd1 → good_note pp l nd2 →
  has_note (username w) (wd_top dir) nd1 → has_note (username w) (wd_top dir) nd2 → nd1 ≠ nd2 →
  short_commitment (nd_commitment nd1) = short_commitment (nd_commitment nd2) →
  _find_note_file w dir (short_commitment (nd_commitment nd1)) = None.
Proof.
  intros Hinv Hg1 Hg2 Hh1 Hh2 Hne Hs. rewrite (find_by_commitment l) by done.
  destruct (glob _ _) as [|f [|g r]] eqn:E; [done| |done]. exfalso.
  assert (∀ nd, good_note pp l nd → has_note (username w) (wd_top dir) nd →
    short_commitment (nd_commitment nd) = short_commitment (nd_commitment nd1) → note_file (username w) nd = f) as Hf.
  { intros nd Hg Hh Hsn. apply list_elem_of_singleton. rewrite <- E. apply (elem_of_commit_glob l); [done|].
    by exists nd. }
  apply Hne. pose proof (Hf nd1 Hg1 Hh1 eq_refl) as F1. pose proof (Hf nd2 Hg2 Hh2 (eq_sym Hs)) as F2.
  unfold has_note in *. rewrite F1 in Hh1. rewrite F2, Hh1 in Hh2. by apply (stored_inj pp l l).
Qed.

(** A spent note: its file moved to the spent directory, its nullifier forgotten. *)
Definition spend (w : Wallet) (dir : WalletDir) (nd : ZethNoteDescription) (nf : str) : Wallet * WalletDir :=
  (set_state w (set_nullifiers (state w) (delete nf (nullifier_map (state w)))),
   mkWalletDir (delete (note_file (username w) nd) (wd_top dir))
     (<[note_file (username w) nd := CJson (note_desc_to_json nd)]> (wd_spent dir))).

Lemma mark_note_spent_ok l w dir nd nf : wallet_inv pp d l w dir → good_note pp l nd →
  has_note (username w) (wd_top dir) nd →
  (∀ nd', good_note pp l nd' → has_note (username w) (wd_top dir) nd' →
     short_commitment (nd_commitment nd') = short_commitment (nd_commitment nd) → nd' = nd) →
  is_Some (nullifier_map (state w) !! nf) →
  _mark_note_spent w dir nf (short_commitment (nd_commitment nd)) = Ok (spend w dir nd nf).
Proof.
  intros Hinv Hg Hhas Hu [sc Hsc]. unfold _mark_note_spent. rewrite (find_unique l) by done.
  unfold has_note in Hhas. rewrite Hhas. cbn [of_option mbind result_bind]. rewrite Hsc. done.
Qed.

Lemma spend_inv l w dir nd nf : wallet_inv pp d l w dir → good_note pp l nd →
  has_note (username w) (wd_top dir) nd → compute_nullifier (nd_note nd) (w_a_sk w) = Ok nf →
  wallet_inv pp d l (spend w dir nd (hex nf)).1 (spend w dir nd (hex nf)).2.
Proof.
  intros [Ht Haddr Hask Hu Hfiles Hnull Huniq] Hg Hhas Hnf.
  split; cbn [spend fst snd merkle_tree next_addr w_a_sk username state nullifier_map set_state set_nullifiers
    wd_top]; try done.
  - intros f c [_ Hf]%lookup_delete_Some. by apply Hfiles.
  - intros x sc [Hne Hx]%lookup_delete_Some. destruct (Hnull x sc Hx) as (nd' & y & Hg' & Hhas' & Hy & -> & ->).
    exists nd', y. split_and!; try done. unfold has_note in *. rewrite lookup_delete_ne; [done|].
    intros E. rewrite E, Hhas' in Hhas. pose proof (stored_inj pp l l nd' nd Hg' Hg Hhas) as ->.
    rewrite Hnf in Hy. by apply Ok_inj in Hy as <-.
  - intros nd1 nd2 G1 G2. unfold has_note. intros [_ ?]%lookup_delete_Some [_ ?]%lookup_delete_Some. by apply Huniq.
Qed.

(** The note a known nullifier spends. *)
Definition spends (w : Wallet) (nfs : list bytes) (nd : ZethNoteDescription) : Prop :=
  ∃ nf, nf ∈ nfs ∧ nullifier_map (state w) !! hex nf = Some (short_commitment (nd_commitment nd)).

Lemma short_commitment_nonempty l nd : good_note pp l nd → 
  ∃ c cs, short_commitment (nd_commitment nd) = c :: cs.
Proof.
  intros Hg. pose proof (good_note_commitment pp l nd m Hm Hmr Hg) as Hl.
  destruct (nd_commitment nd) as [|x b]; [done|]. unfold short_commitment, py_slice.
  change (Z.to_nat (4 - 0)) with 4%nat. cbn. eauto.
Qed.

(** Processing one nullifier. *)
Lemma mark_step_spec l w dir nf commits : wallet_inv pp d l w dir → NoDup (short_commitment <$> l) →
  (nullifier_map (state w) !! hex nf = None ∧ mark_step (commits, (w, dir)) nf = Ok (commits, (w, dir))) ∨
  ∃ nd, good_note pp l nd ∧ has_note (username w) (wd_top dir) nd ∧
    compute_nullifier (nd_note nd) (w_a_sk w) = Ok nf ∧
    nullifier_map (state w) !! hex nf = Some (short_commitment (nd_commitment nd)) ∧
    mark_step (commits, (w, dir)) nf =
      Ok (commits ++ [short_commitment (nd_commitment nd)], spend w dir nd (hex nf)).
Proof.
  intros Hinv Hu. unfold mark_step. destruct (nullifier_map (state w) !! hex nf) as [sc|] eqn:E; [|by left].
  right. destruct (wi_nullifiers _ _ _ _ _ Hinv _ _ E) as (nd & x & Hg & Hhas & Hx & Hhex & ->).
  apply hex_inj in Hhex as <-. exists nd. split_and!; try done.
  destruct (short_commitment_nonempty l nd Hg) as (c & cs & Ec). rewrite Ec. rewrite <- Ec.
  rewrite (mark_note_spent_ok l) by (done || (intros nd' ? ? ?; by apply (short_unique l w dir))). done.
Qed.

Lemma same_file l w dir nd nd' : good_note pp l nd → good_note pp l nd' →
  has_note (username w) (wd_top dir) nd → has_note (username w) (wd_top dir) nd' →
  note_file (username w) nd' = note_file (username w) nd → nd' = nd.
Proof.
  clear. unfold has_note. intros G G' Hh Hh' E. rewrite E, Hh in Hh'. symmetry. by apply (stored_inj pp l l).
Qed.

(** A nullifier spends its own note and no other one. *)
Lemma spends_cons l w dir nd nf nfs nd' : wallet_inv pp d l w dir → NoDup (short_commitment <$> l) →
  good_note pp l nd → has_note (username w) (wd_top dir) nd →
  nullifier_map (state w) !! hex nf = Some (short_commitment (nd_commitment nd)) →
  good_note pp l nd' → has_note (username w) (wd_top dir) nd' → nd' ≠ nd →
  spends w (nf :: nfs) nd' ↔ spends (spend w dir nd (hex nf)).1 nfs nd'.
Proof.
  intros Hinv Hnd Hg Hh Hsome Hg' Hh' Hne. split.
  - intros (x & Hin & Hx). assert (hex nf ≠ hex x) as Hnx.
    { intros E. rewrite <- E, Hsome in Hx. injection Hx as Hx. by apply Hne, (short_unique l w dir). }
    exists x. cbn [spend fst state set_state nullifier_map set_nullifiers]. rewrite lookup_delete_ne by done.
    split; [|done]. apply elem_of_cons in Hin as [->|]; done.
  - intros (x & Hin & Hx). cbn [spend fst state set_state nullifier_map set_nullifiers] in Hx.
    apply lookup_delete_Some in Hx as [_ Hx]. exists x. split; [by right | done].
Qed.

Lemma spend_other w dir nd nf nd' : has_note (username w) (wd_top dir) nd' →
  note_file (username w) nd' ≠ note_file (username w) nd →
  has_note (username w) (wd_top (spend w dir nd nf).2) nd'.
Proof. clear. unfold has_note. intros Hh Hne. cbn [spend snd wd_top]. by rewrite lookup_delete_ne. Qed.

Lemma mark_loop_spec nfs l w dir commits : wallet_inv pp d l w dir → NoDup (short_commitment <$> l) →
  ∃ cs w' dir', foldM mark_step (commits, (w, dir)) nfs = Ok (commits ++ cs, (w', dir')) ∧
    wallet_inv pp d l w' dir' ∧ same_user w w' ∧ merkle_tree w' = merkle_tree w ∧
    merkle_tree_changed w' = merkle_tree_changed w ∧ num_notes (state w') = num_notes (state w) ∧
    (∀ x, nullifier_map (state w') !! x = if decide (x ∈ hex <$> nfs) then None else nullifier_map (state w) !! x) ∧
    (∀ nd, good_note pp l nd → has_note (username w) (wd_top dir) nd → spends w nfs nd →
       has_note (username w) (wd_spent dir') nd ∧ wd_top dir' !! note_file (username w) nd = None) ∧
    (∀ nd, good_note pp l nd → has_note (username w) (wd_top dir) nd → ¬ spends w nfs nd →
       has_note (username w) (wd_top dir') nd) ∧
    (∀ f, wd_top dir !! f = None → wd_top dir' !! f = None ∧ wd_spent dir' !! f = wd_spent dir !! f).
Proof.
  intros Hinv Hnd. revert w dir commits Hinv. induction nfs as [|nf nfs IH]; intros w dir commits Hinv.
  { exists [], w, dir. cbn [foldM]. rewrite app_nil_r. split_and!; try done.
    intros nd _ _ (nf & Hin & _). by apply not_elem_of_nil in Hin. }
  cbn [foldM]. destruct (mark_step_spec l w dir nf commits Hinv Hnd) as [[Hnone ->]|(nd & Hg & Hh & Hnf & Hsome & ->)];
    cbn [mbind result_bind].
  - destruct (IH w dir commits Hinv) as (cs & w' & dir' & -> & Hi & Su & Et & Ec & En & Hmap & Hs & Hk & Hf).
    assert (∀ nd, spends w (nf :: nfs) nd ↔ spends w nfs nd) as Hsp.
    { intros nd. split; intros (x & Hin & Hx); exists x; (split; [|done]); [|by right].
      apply elem_of_cons in Hin as [-> |]; [congruence | done]. }
    exists cs, w', dir'. split_and!; try done.
    + intros x. rewrite Hmap, fmap_cons. destruct (decide (x = hex nf)) as [->|Hne].
      * rewrite (decide_True (P := hex nf ∈ hex nf :: _)) by by left. by case_decide.
      * by apply decide_ext; rewrite elem_of_cons; intuition.
    + intros nd Hg Hh Hx%Hsp. by apply Hs.
    + intros nd Hg Hh Hx. apply Hk; [done..|]. by rewrite <- Hsp.
  - pose proof (spend_inv l w dir nd nf Hinv Hg Hh Hnf) as Hinv1.
    destruct (spend w dir nd (hex nf)) as [w1 dir1] eqn:Esp. cbn [fst snd] in Hinv1.
    destruct (IH w1 dir1 (commits ++ [short_commitment (nd_commitment nd)]) Hinv1)
      as (cs & w' & dir' & -> & Hi & Su & Et & Ec & En & Hmap & Hs & Hk & Hf).
    unfold spend in Esp. injection Esp as <- <-.
    cbn [username state nullifier_map set_state set_nullifiers wd_top wd_spent] in Hmap, Hs, Hk, Hf.
    exists (short_commitment (nd_commitment nd) :: cs), w', dir'. rewrite <- app_assoc.
    split_and!; try done.
    + intros x. rewrite Hmap, fmap_cons. destruct (decide (x = hex nf)) as [->|Hne].
      * rewrite lookup_delete_eq, (decide_True (P := hex nf ∈ hex nf :: _)) by by left. by case_decide.
      * rewrite lookup_delete_ne by done. by apply decide_ext; rewrite elem_of_cons; intuition.
    + intros nd' Hg' Hh' Hsp. destruct (decide (note_file (username w) nd' = note_file (username w) nd)) as [E|E].
      * rewrite (same_file l w dir nd nd' Hg Hg' Hh Hh' E). unfold has_note.
        destruct (Hf (note_file (username w) nd) (lookup_delete_eq _ _)) as [-> ->]. by rewrite lookup_insert_eq.
      * apply Hs; [done | by apply (spend_other w dir nd (hex nf)) |].
        apply (spends_cons l w dir nd nf) in Hsp; [done..|]. by intros ->.
    + intros nd' Hg' Hh' Hsp. assert (nd' ≠ nd) as Hne.
      { intros ->. apply Hsp. exists nf. split; [by left | done]. }
      apply Hk; [done | |by rewrite <- (spends_cons l w dir nd nf nfs nd')].
      apply (spend_other w dir nd (hex nf) nd' Hh'). intros E. by apply Hne, (same_file l w dir).
    + intros f Hnone. destruct (Hf f) as [-> ->]; [by apply lookup_delete_None; right|]. split; [done|].
      rewrite lookup_insert_ne; [done|]. intros E. unfold has_note in Hh. by rewrite E, Hnone in Hh.
Qed.
End spending.

(** ** Synchronisation *)

Section sync.
Context `{NoteCryptoLaws} `{Web3UnitsLaws} `{ITreeHash}.
Context (pp : PairingParameters) (m : Z) (Hm : scalar_field_mod pp = Ok m) (Hmr : 0 < m ≤ 2 ^ 256).
Context (d : nat) (Hd : (1 ≤ d ≤ 52)%nat).

Lemma wallet_inv_ext l w w' dir t : wallet_inv pp d l w dir → tree_inv d l t → merkle_tree w' = t →
  next_addr w' = next_addr w → w_a_sk w' = w_a_sk w → username w' = username w →
  nullifier_map (state w') = nullifier_map (state w) → wallet_inv pp d l w' dir.
Proof.
  clear. intros [Ht Haddr Hask Hu Hfiles Hnull Huniq] Ht' E1 E2 E3 E4 E5.
  split; rewrite ?E1, ?E2, ?E3, ?E4, ?E5; done.
Qed.

(** Writing a file that is not a note. *)
Lemma wallet_inv_write l w dir f c : wallet_inv pp d l w dir →
  glob_match (glob_tokens (note_pattern (username w))) f = false →
  wallet_inv pp d l w (write_top f c dir).
Proof.
  intros [Ht Haddr Hask Hu Hfiles Hnull Huniq] Hf.
  assert (∀ nd, has_note (username w) (wd_top (write_top f c dir)) nd ↔ has_note (username w) (wd_top dir) nd) as Hh.
  { intros nd. unfold has_note, write_top, write_file. cbn [wd_top]. rewrite lookup_insert_ne; [done|].
    intros ->. destruct Hu as [Hp _]. by rewrite note_file_pattern in Hf. }
  split; try done.
  - intros g x. unfold write_top, write_file. cbn [wd_top]. rewrite lookup_insert_Some.
    intros [[<- <-]|[_ Hg]] Hpat; [congruence | by apply (Hfiles g)].
  - intros x sc Hx. destruct (Hnull x sc Hx) as (nd & y & ? & ? & ?). exists nd, y. by rewrite Hh.
  - intros nd1 nd2 G1 G2. rewrite !Hh. by apply Huniq.
Qed.

Lemma our_notes_app sk a e1 e2 :
  our_notes pp sk a (e1 ++ e2) = our_notes pp sk a e1 ++ our_notes pp sk (a + zlen e1) e2.
Proof.
  clear. revert a. induction e1 as [|e e1 IH]; intros a; cbn [app our_notes].
  - by rewrite Z.add_0_r.
  - rewrite IH, <- app_assoc. unfold zlen. cbn [length]. do 3 f_equal. lia.
Qed.

Lemma receive_notes_spec evs l w dir :
  wallet_inv pp d l w dir → zlen l + zlen evs ≤ 2 ^ Z.of_nat d →
  Forall (λ ev, zlen (ciphertext ev) = ENCRYPTED_NOTE_LENGTH_BYTES) evs →
  ∃ w' dir', receive_notes w dir evs pp = Ok (our_notes pp (k_sk_receiver w) (zlen l) evs, (w', dir')) ∧
    wallet_inv pp d (l ++ (commitment <$> evs)) w' dir' ∧ same_user w w' ∧
    merkle_tree_changed w' = negb (zlen evs =? 0) ∧
    num_notes (state w') = num_notes (state w) + zlen evs ∧ wd_spent dir' = wd_spent dir ∧
    (∀ nd, nd ∈ our_notes pp (k_sk_receiver w) (zlen l) evs → 
       good_note pp (l ++ (commitment <$> evs)) nd ∧ kept w' dir' nd).
Proof.
  intros Hinv Hfit Hall. unfold receive_notes. set (w0 := set_changed w _).
  assert (wallet_inv pp d l w0 dir) as Hinv0 by (eapply wallet_inv_ext; [exact Hinv | apply Hinv | done..]).
  destruct (receive_loop_spec pp m Hm Hmr d Hd evs l w0 dir [] Hinv0 Hfit Hall)
    as (w1 & dir1 & -> & Hi & Su & Hc & Hn & Hsp & Hk & _).
  cbn [mbind result_bind app]. do 2 eexists. split; [reflexivity|].
  split_and!; try done; [|cbn [state num_notes set_state]; by rewrite Hn].
  eapply wallet_inv_ext; [exact Hi | apply Hi | done..].
Qed.

Definition outputs_of (rs : list MixResult) : list MixOutputEvents := concat (output_events <$> rs).

Lemma sync_loop_spec rs l w dir root notes :
  wallet_inv pp d l w dir → zlen l + zlen (outputs_of rs) ≤ 2 ^ Z.of_nat d →
  Forall (λ ev, zlen (ciphertext ev) = ENCRYPTED_NOTE_LENGTH_BYTES) (outputs_of rs) →
  NoDup (short_commitment <$> l ++ (commitment <$> outputs_of rs)) →
  ∃ w' dir', foldM (sync_step pp) (root, (notes, (w, dir))) rs =
      Ok (default root (Some ∘ new_merkle_root <$> last rs),
          (notes ++ our_notes pp (k_sk_receiver w) (zlen l) (outputs_of rs), (w', dir'))) ∧
    wallet_inv pp d (l ++ (commitment <$> outputs_of rs)) w' dir' ∧ same_user w w' ∧
    merkle_tree_changed w' =
      default (merkle_tree_changed w) ((λ r, negb (zlen (output_events r) =? 0)) <$> last rs) ∧
    (rs = [] → w' = w ∧ dir' = dir) ∧
    num_notes (state w') = num_notes (state w) + zlen (outputs_of rs).
Proof.
  revert l w dir root notes. induction rs as [|r rs IH]; intros l w dir root notes Hinv Hfit Hall Hnd.
  { exists w, dir. cbn. rewrite !app_nil_r, Z.add_0_r. done. }
  change (outputs_of (r :: rs)) with (output_events r ++ outputs_of rs) in *.
  rewrite zlen_app in *. pose proof (zlen_nonneg (outputs_of rs)). apply Forall_app in Hall as [Ha1 Ha2].
  rewrite fmap_app, app_assoc in *.
  destruct (receive_notes_spec (output_events r) l w dir Hinv ltac:(lia) Ha1)
    as (w1 & dir1 & E1 & Hi1 & S1 & C1 & N1 & _).
  pose proof Hnd as Hnd1. rewrite fmap_app in Hnd1. apply NoDup_app in Hnd1 as (Hnd1 & _ & _).
  destruct (mark_loop_spec pp m Hm Hmr d (nullifiers r) _ w1 dir1 [] Hi1 Hnd1)
    as (cs & w2 & dir2 & E2 & Hi2 & S2 & _ & C2 & N2 & _).
  destruct (IH _ w2 dir2 (Some (new_merkle_root r)) (notes ++ our_notes pp (k_sk_receiver w) (zlen l) (output_events r)) Hi2)
    as (w3 & dir3 & E3 & Hi3 & S3 & C3 & _ & N3); [|done..|].
  { rewrite zlen_app. unfold zlen in *. rewrite length_fmap. lia. }
  pose proof (transitivity S1 S2) as (_ & _ & Ksk & _). rewrite Ksk in E3.
  exists w3, dir3. cbn [foldM].
  assert (sync_step pp (root, (notes, (w, dir))) r = Ok (Some (new_merkle_root r),
    (notes ++ our_notes pp (k_sk_receiver w) (zlen l) (output_events r), (w2, dir2)))) as ->.
  { unfold sync_step, mark_nullifiers_used. rewrite E1. cbn [mbind result_bind]. rewrite E2. done. }
  cbn [mbind result_bind app]. rewrite E3, our_notes_app.
  replace (zlen (l ++ (commitment <$> output_events r))) with (zlen l + zlen (output_events r))
    by (rewrite zlen_app; unfold zlen; by rewrite length_fmap).
  split_and!; try done.
  - rewrite <- app_assoc, last_cons. by destruct (last rs).
  - by etrans; [|exact S3]; etrans.
  - rewrite C3, C2, C1, last_cons. by destruct (last rs).
  - lia.
Qed.
End sync.

(** ** Saving and reopening, at the depth of the client's tree *)

Section saving.
Context `{NoteCryptoLaws} `{Web3UnitsLaws} `{ITreeHash} (pp : PairingParameters).

Abbreviation D := 32%nat.

(** The tree has no pending leaves and its file holds it. *)
Definition synced (w : Wallet) (dir : WalletDir) : Prop :=
  num_new_leaves (merkle_tree w) = 0 ∧ merkle_tree_changed w = false ∧
  open_tree (wd_top dir) MERKLE_TREE_FILE (2 ^ ZETH_MERKLE_TREE_DEPTH) = Ok (merkle_tree w).

Lemma open_tree_write_ne (fl : fs) (f g : str) c n : f ≠ g → open_tree (write_file f c fl) g n = open_tree fl g n.
Proof.
  intros Hne. unfold open_tree, exists_file, read_json, read_file, write_file. by rewrite !lookup_insert_ne by done.
Qed.

Lemma state_file_ne user : state_file user ≠ MERKLE_TREE_FILE.
Proof. unfold state_file, MERKLE_TREE_FILE. cbn. discriminate. Qed.

Lemma load_saved (w : Wallet) dir user s : wd_top dir !! state_file user = Some (CJson (state_to_json s)) →
  _load_state_or_default (state_file user) dir = Ok s.
Proof.
  intros Hs. unfold _load_state_or_default, exists_file, read_json, read_file. rewrite Hs.
  rewrite bool_decide_true by eauto. cbn [negb of_option mbind result_bind]. apply state_json_roundtrip.
Qed.

Lemma save_spec l w dir block : wallet_inv pp D l w dir →
  (merkle_tree_changed w = true ∨ synced w dir) →
  ∃ w' dir', update_and_save_state w dir block = Ok (w', dir') ∧ wallet_inv pp D l w' dir' ∧ synced w' dir' ∧
    username w' = username w ∧ w_a_sk w' = w_a_sk w ∧ k_sk_receiver w' = k_sk_receiver w ∧
    state w' = mkWalletState block (num_notes (state w)) (nullifier_map (state w)) ∧
    wd_top dir' !! state_file (username w) = Some (CJson (state_to_json (state w'))).
Proof.
  intros Hinv Hcase. unfold update_and_save_state, _save_state. set (w1 := set_state w _). set (dir1 := write_top _ _ _).
  assert (wallet_inv pp D l w1 dir1) as Hinv1.
  { apply wallet_inv_write; [|reflexivity]. eapply wallet_inv_ext; [exact Hinv | apply Hinv | done..]. }
  unfold _save_merkle_tree_if_changed. change (merkle_tree_changed w1) with (merkle_tree_changed w).
  destruct (merkle_tree_changed w) eqn:Ec.
  - destruct (recompute_root_inv D ltac:(lia) l _ ltac:(lia) (wi_tree _ _ _ _ _ Hinv1)) as (t & -> & Ht & Hclean).
    cbn [mbind result_bind]. do 2 eexists. split; [reflexivity|]. split_and!; try done.
    + apply (wallet_inv_write _ _ _ (set_tree (set_changed w1 false) t) dir1 MERKLE_TREE_FILE); [|reflexivity].
      eapply wallet_inv_ext; [exact Hinv1 | exact Ht | done..].
    + split; [exact Hclean|]. split; [reflexivity|].
      by apply (open_save_inv D ltac:(lia) (wd_top dir1) MERKLE_TREE_FILE l t).
    + cbn [wd_top]. unfold save_tree, write_file. rewrite lookup_insert_ne by (symmetry; apply state_file_ne).
      unfold dir1, write_top, write_file. cbn [wd_top]. by rewrite lookup_insert_eq.
  - destruct Hcase as [?|(Hclean & _ & Hopen)]; [done|]. exists w1, dir1. split; [done|]. split_and!; try done.
    + split; [exact Hclean|]. split; [exact Ec|].
      unfold dir1, write_top. cbn [wd_top]. rewrite open_tree_write_ne by apply state_file_ne. done.
    + unfold dir1, write_top, write_file. cbn [wd_top]. by rewrite lookup_insert_eq.
Qed.

(** A wallet that was saved opens as it was. *)
Lemma reopen l w dir secret : wallet_inv pp D l w dir → synced w dir →
  wd_top dir !! state_file (username w) = Some (CJson (state_to_json (state w))) →
  priv_a_sk secret = w_a_sk w → priv_k_sk secret = k_sk_receiver w →
  open_wallet (username w) secret dir = Ok w.
Proof.
  intros Hinv (Hclean & Hch & Hopen) Hst Hask Hksk. unfold open_wallet.
  rewrite bool_decide_false by apply Hinv. cbn [negb py_assert mbind result_bind].
  rewrite (load_saved w dir (username w) (state w) Hst). cbn [mbind result_bind].
  rewrite Hopen. cbn [mbind result_bind]. unfold get_num_entries.
  rewrite (inv_get_leaves D l _ (wi_tree _ _ _ _ _ Hinv)). cbn [mbind result_bind].
  change (zlen <$> Ok l) with (Ok (zlen l)). cbn [mbind result_bind]. rewrite Hask, Hksk, <- (wi_addr _ _ _ _ _ Hinv), <- Hch. by destruct w.
Qed.
End saving.

(** What the client relies on of the mix calls between two blocks: every
    ciphertext has the length of an encrypted note, the outputs fit in the tree
    and no two leaves share a short commitment. *)
Definition results_ok `{NoteCrypto} (d : nat) (l : list bytes) (rs : list MixResult) : Prop :=
  zlen l + zlen (outputs_of rs) ≤ 2 ^ Z.of_nat d ∧
  Forall (λ ev, zlen (ciphertext ev) = ENCRYPTED_NOTE_LENGTH_BYTES) (outputs_of rs) ∧
  NoDup (short_commitment <$> l ++ (commitment <$> outputs_of rs)).

(** The leaves after the mix calls. *)
Definition leaves_after (l : list bytes) (rs : list MixResult) : list bytes :=
  l ++ (commitment <$> outputs_of rs).

(** A pairing whose scalar field is known and fits in 256 bits. *)
Definition field_ok (pp : PairingParameters) : Prop :=
  ∃ m, scalar_field_mod pp = Ok m ∧ 0 < m ≤ 2 ^ 256.

(** The steps of [_do_sync] up to its check of the root. *)
Lemma sync_saved `{NoteCryptoLaws} `{Web3UnitsLaws} `{ITreeHash} pp l w dir chain rs secret :
  field_ok pp → wallet_inv pp 32 l w dir → synced w dir → results_ok 32 l rs →
  (∀ r, last rs = Some r → output_events r ≠ []) →
  priv_a_sk secret = w_a_sk w → priv_k_sk secret = k_sk_receiver w →
  ∃ w1 dir1 w' dir',
    foldM (sync_step pp) (None, ([], (w, dir))) rs =
      Ok (new_merkle_root <$> last rs, (our_notes pp (k_sk_receiver w) (zlen l) (outputs_of rs), (w1, dir1))) ∧
    update_and_save_state w1 dir1 (chain + 1) = Ok (w', dir') ∧
    wallet_inv pp 32 (leaves_after l rs) w' dir' ∧ synced w' dir' ∧ next_block (state w') = chain + 1 ∧
    num_notes (state w') = num_notes (state w) + zlen (outputs_of rs) ∧
    get_root (merkle_tree w') = Ok (spec_root 32 (leaves_after l rs)) ∧
    open_wallet (username w) secret dir' = Ok w'.
Proof.
  intros (m & Hm & Hmr) Hinv Hsync (Hfit & Hall & Hnd) Hlast Hask Hksk.
  destruct (sync_loop_spec pp m Hm Hmr 32 ltac:(lia) rs l w dir None [] Hinv Hfit Hall Hnd)
    as (w1 & dir1 & E1 & Hi1 & (U1 & A1 & K1 & _) & C1 & Hnil & N1).
  destruct (save_spec pp _ w1 dir1 (chain + 1) Hi1) as (w2 & dir2 & E2 & Hi2 & Hs2 & U2 & A2 & K2 & St2 & F2).
  { destruct (last rs) as [r|] eqn:El.
    - left. rewrite C1. cbn. specialize (Hlast r eq_refl). by destruct (output_events r).
    - right. apply last_None in El. destruct (Hnil El) as [-> ->]. done. }
  exists w1, dir1, w2, dir2. split; [rewrite E1; by destruct (last rs)|]. split_and!; try done.
  - by rewrite St2.
  - by rewrite St2.
  - apply (get_root_inv 32); [lia | apply Hi2 | apply Hs2].
  - rewrite <- U1, <- U2. eapply reopen; [exact Hi2 | done | by rewrite U2 | congruence | congruence].
Qed.

(** The check of the root at the end of [_do_sync]. *)
Lemma do_sync_check `{NoteCryptoLaws} `{Web3UnitsLaws} `{ITreeHash} pp w dir chain rs R notes w1 dir1 w' dir' :
  next_block (state w) ≤ chain →
  foldM (sync_step pp) (None, ([], (w, dir))) rs = Ok (new_merkle_root <$> last rs, (notes, (w1, dir1))) →
  update_and_save_state w1 dir1 (chain + 1) = Ok (w', dir') → get_root (merkle_tree w') = Ok R →
  _do_sync w dir pp chain rs =
    match last rs with
    | Some r => if bool_decide (new_merkle_root r = [] ∨ new_merkle_root r = R)
                then Ok (notes, (w', dir')) else Err AssertionError
    | None => Ok (notes, (w', dir'))
    end.
Proof.
  intros Hnext E1 E2 Hr. unfold _do_sync, get_next_block. rewrite (proj2 (Z.leb_le _ _) Hnext), E1.
  cbn [mbind result_bind]. rewrite E2. cbn [mbind result_bind].
  destruct (last rs) as [r|] eqn:El; [|done].
  change (new_merkle_root <$> Some r) with (Some (new_merkle_root r)).
  destruct (new_merkle_root r) as [|b root] eqn:Er; [by rewrite bool_decide_true by by left|].
  rewrite Hr. cbn [mbind result_bind]. destruct (decide (b :: root = R)) as [E|E].
  - rewrite !bool_decide_true by (done || by right). done.
  - rewrite !bool_decide_false by (done || by intros [?|?]). done.
Qed.

Lemma receive_step_malformed `{NoteCryptoLaws} `{Web3UnitsLaws} `{ITreeHash} pp (d : nat) (Hd : (1 ≤ d ≤ 52)%nat)
    l w dir notes ev : wallet_inv pp d l w dir → zlen (ciphertext ev) ≠ ENCRYPTED_NOTE_LENGTH_BYTES →
  receive_step pp (notes, (w, dir)) ev = Err AssertionError.
Proof.
  intros Hinv Hbad. unfold receive_step.
  destruct (insert_cases d Hd _ _ (commitment ev) (wi_tree _ _ _ _ _ Hinv)) as [(_ & t & -> & _)|[_ ->]]; [|done].
  cbn [mbind result_bind]. unfold wallet_receive_note. by rewrite receive_note_malformed.
Qed.

(** ** Finding a note by its address *)

Section by_address.
Context `{NoteCryptoLaws} `{Web3UnitsLaws} `{ITreeHash} (pp : PairingParameters) (d : nat).

Definition address_pattern (user : str) (a : Z) : str :=
  lit "note_" ++ user ++ lit "_" ++ fmt_0wd 4 a ++ lit "_*".

Lemma address_pattern_match user a f : plain user → 0 ≤ a →
  glob_match (glob_tokens (address_pattern user a)) f = true ↔
  ∃ y, f = lit "note_" ++ user ++ lit "_" ++ fmt_0wd 4 a ++ lit "_" ++ y.
Proof.
  intros Hu Ha. unfold address_pattern.
  rewrite !glob_tokens_app, (glob_tokens_plain user), (glob_tokens_plain (fmt_0wd 4 a))
    by (done || by apply alphabet_plain, fmt_addr_alphabet).
  change (glob_tokens (lit "note_")) with (GLit <$> lit "note_").
  change (glob_tokens (lit "_*")) with ((GLit <$> lit "_") ++ [GStar]).
  change (glob_tokens (lit "_")) with (GLit <$> lit "_"). split.
  - intros (y1 & -> & (y2 & -> & (y3 & -> & (y4 & -> & (y5 & -> & _)
      %glob_match_lits)%glob_match_lits)%glob_match_lits)%glob_match_lits)%glob_match_lits. by exists y5.
  - intros [y ->]. do 5 (apply glob_match_lits; eexists; split; [done|]). apply glob_match_star_end.
Qed.

Lemma fmt_addr_inj a b (x y : str) : 0 ≤ a → 0 ≤ b →
  fmt_0wd 4 a ++ lit "_" ++ x = fmt_0wd 4 b ++ lit "_" ++ y → a = b.
Proof.
  intros Ha Hb E. apply (f_equal (split_on "_"%char)) in E.
  assert (∀ z, lit "_" ++ z = "_"%char :: z) as Hc by done. rewrite !Hc, !split_on_app_gen in E.
  rewrite (split_on_none _ (fmt_0wd 4 a)), (split_on_none _ (fmt_0wd 4 b)) in E
    by (apply not_in_alphabet; [apply underscore_not_alphabet | by apply fmt_addr_alphabet]).
  injection E as E _. apply Ok_inj. by rewrite <- (int_of_fmt_addr a), <- (int_of_fmt_addr b), E.
Qed.

Lemma str_of_int_short a : 0 ≤ a < 10000 → zlen (str_of_int a) < 5.
Proof.
  intros Ha. unfold str_of_int, sign_str, abs_digits. rewrite (proj2 (Z.ltb_ge _ _)) by lia. cbn [app].
  unfold zlen. rewrite length_fmap, Z.abs_eq by lia.
  pose proof (digits_of_length 10 ltac:(lia) 4 a) as Hl. cbn in Hl. lia.
Qed.

Lemma find_by_address l w dir nd : wallet_inv pp d l w dir → good_note pp l nd →
  has_note (username w) (wd_top dir) nd → nd_address nd < 10000 →
  _find_note_file w dir (str_of_int (nd_address nd)) = Some (note_file (username w) nd).
Proof.
  intros Hinv Hg Hh Hlt. pose proof (proj1 Hg) as Ha. unfold _find_note_file.
  assert (zlen (str_of_int (nd_address nd)) < 5) as Hlen by by apply str_of_int_short.
  rewrite (proj2 (Z.ltb_lt _ _) Hlen), int_of_str_of_int by done. cbv zeta iota beta.
  assert (plain (username w)) as Hp by apply Hinv.
  fold (address_pattern (username w) (nd_address nd)).
  rewrite (glob_unique _ _ (note_file (username w) nd)); [done | by rewrite Hh | |].
  - apply address_pattern_match; [done..|]. unfold note_file, desc_name, note_name. eauto.
  - intros g [c Hc] Hmt. pose proof Hmt as (y & Eg)%address_pattern_match; [|done..].
    destruct (wi_files _ _ _ _ _ Hinv g c Hc) as (nd' & Hg' & -> & ->).
    { rewrite Eg. by apply note_pattern_prefix. }
    f_equal. apply (wi_unique _ _ _ _ _ Hinv); try done. unfold note_file, desc_name, note_name in Eg.
    apply app_inv_head, app_inv_head, app_inv_head in Eg. eapply fmt_addr_inj; [apply Hg' | done | exact Eg].
Qed.

Lemma read_found (w : Wallet) dir l nd key : good_note pp l nd → has_note (username w) (wd_top dir) nd →
  _find_note_file w dir key = Some (note_file (username w) nd) → find_note w dir key = Ok nd.
Proof.
  intros Hg Hh Hf. unfold find_note, read_json, read_file. unfold has_note in Hh. rewrite Hf, Hh.
  cbn [of_option mbind result_bind]. apply note_desc_json_roundtrip, Hg.
Qed.
End by_address.

(** ** Properties *)

(** C15: receiving outputs of well-formed length that fit in the tree never
    raises.  The wallet learns exactly the outputs that decrypt under its key to a
    note with the published commitment; each learnt note has its commitment as
    the leaf at its address, its file is written and its nullifier is known; the
    tree, the next address and the note count advance with the contract's, and
    the wallet invariant is kept. *)
Theorem wallet_receive_notes `{NoteCryptoLaws} `{Web3UnitsLaws} `{ITreeHash} pp (d : nat) l w dir evs
  (Hpp : field_ok pp) (Hd : (1 ≤ d ≤ 52)%nat) (Hinv : wallet_inv pp d l w dir)
  (Hfit : zlen l + zlen evs ≤ 2 ^ Z.of_nat d)
  (Hall : Forall (λ ev, zlen (ciphertext ev) = ENCRYPTED_NOTE_LENGTH_BYTES) evs) :
  ∃ w' dir', receive_notes w dir evs pp = Ok (our_notes pp (k_sk_receiver w) (zlen l) evs, (w', dir')) ∧
    wallet_inv pp d (l ++ (commitment <$> evs)) w' dir' ∧
    num_notes (state w') = num_notes (state w) + zlen evs ∧
    ∀ nd, nd ∈ our_notes pp (k_sk_receiver w) (zlen l) evs →
      get_leaf (merkle_tree w') (nd_address nd) = Ok (nd_commitment nd) ∧
      compute_commitment (nd_note nd) pp = Ok (nd_commitment nd) ∧ kept w' dir' nd.
Proof.
  destruct Hpp as (m & Hm & Hmr).
  destruct (receive_notes_spec pp m Hm Hmr d Hd evs l w dir Hinv Hfit Hall)
    as (w' & dir' & E & Hi & _ & _ & Hn & _ & Hk).
  exists w', dir'. split_and!; try done. intros nd Hnd. destruct (Hk nd Hnd) as [(Ha & _ & Hc & Hl) Hkept].
  split_and!; try done. rewrite (get_leaf_inv d _ _ _ (wi_tree _ _ _ _ _ Hi) Ha). cbn [node].
  by rewrite Hl.
Qed.

(** When the leaves have distinct short commitments, processing nullifiers
    never raises: the notes they spend move from the wallet's directory to the
    spent directory, every other note stays, the processed nullifiers are
    forgotten, and the wallet invariant is kept. *)
Theorem wallet_marks_spent `{NoteCryptoLaws} `{Web3UnitsLaws} `{ITreeHash} pp (d : nat) l w dir nfs
  (Hpp : field_ok pp) (Hinv : wallet_inv pp d l w dir) (Hnd : NoDup (short_commitment <$> l)) :
  ∃ cs w' dir', mark_nullifiers_used w dir nfs = Ok (cs, (w', dir')) ∧ wallet_inv pp d l w' dir' ∧
    (∀ x, nullifier_map (state w') !! x = if decide (x ∈ hex <$> nfs) then None else nullifier_map (state w) !! x) ∧
    (∀ nd, good_note pp l nd → has_note (username w) (wd_top dir) nd → spends w nfs nd →
       has_note (username w) (wd_spent dir') nd ∧ wd_top dir' !! note_file (username w) nd = None) ∧
    (∀ nd, good_note pp l nd → has_note (username w) (wd_top dir) nd → ¬ spends w nfs nd →
       has_note (username w) (wd_top dir') nd).
Proof.
  destruct Hpp as (m & Hm & Hmr).
  destruct (mark_loop_spec pp m Hm Hmr d nfs l w dir [] Hinv Hnd)
    as (cs & w' & dir' & E & Hi & _ & _ & _ & _ & Hmap & Hs & Hk & _).
  by exists cs, w', dir'.
Qed.

(** Two notes of the wallet with the same short commitment (its first four
    bytes) make the spending of the first one raise: the file of a spent note is
    looked up by the short commitment only. *)
Theorem wallet_ambiguous_commitment `{NoteCryptoLaws} `{Web3UnitsLaws} `{ITreeHash} pp (d : nat) l w dir nd1 nd2 nf
  (Hpp : field_ok pp) (Hinv : wallet_inv pp d l w dir) (Hg1 : good_note pp l nd1) (Hg2 : good_note pp l nd2)
  (Hh1 : has_note (username w) (wd_top dir) nd1) (Hh2 : has_note (username w) (wd_top dir) nd2)
  (Hne : nd1 ≠ nd2) (Hs : short_commitment (nd_commitment nd1) = short_commitment (nd_commitment nd2))
  (Hnf : nullifier_map (state w) !! hex nf = Some (short_commitment (nd_commitment nd1))) :
  mark_nullifiers_used w dir [nf] = Err (Exception "expected to find file for commit").
Proof.
  destruct Hpp as (m & Hm & Hmr). unfold mark_nullifiers_used. cbn [foldM mark_step]. rewrite Hnf.
  destruct (short_commitment_nonempty pp m Hm Hmr l nd1 Hg1) as (c & cs & Ec). rewrite Ec, <- Ec.
  unfold _mark_note_spent. by rewrite (find_ambiguous pp m Hm Hmr d l w dir nd1 nd2).
Qed.

(** A stored note is found again, with all its fields, by its address when
    that has at most four digits, and by its short commitment when the leaves have
    distinct short commitments. *)
Theorem wallet_find_note `{NoteCryptoLaws} `{Web3UnitsLaws} `{ITreeHash} pp (d : nat) l w dir nd
  (Hpp : field_ok pp) (Hinv : wallet_inv pp d l w dir) (Hg : good_note pp l nd)
  (Hh : has_note (username w) (wd_top dir) nd) :
  (nd_address nd < 10000 → find_note w dir (str_of_int (nd_address nd)) = Ok nd) ∧
  (NoDup (short_commitment <$> l) → find_note w dir (short_commitment (nd_commitment nd)) = Ok nd).
Proof.
  destruct Hpp as (m & Hm & Hmr). split.
  - intros Ha. eapply read_found; [exact Hg | exact Hh|]. by apply (find_by_address pp d l).
  - intros Hnd. eapply read_found; [exact Hg | exact Hh|]. apply (find_unique pp m Hm Hmr d l); try done.
    intros nd' ? ? ?. by apply (short_unique pp d l w dir).
Qed.

(** A synchronisation whose last root is that of all leaves. *)
Lemma do_sync_ok `{NoteCryptoLaws} `{Web3UnitsLaws} `{ITreeHash} pp l w dir chain rs secret
  (Hpp : field_ok pp) (Hinv : wallet_inv pp 32 l w dir) (Hsync : synced w dir)
  (Hnext : next_block (state w) ≤ chain) (Hrs : results_ok 32 l rs)
  (Hlast : ∀ r, last rs = Some r → output_events r ≠ [] ∧ new_merkle_root r = spec_root 32 (leaves_after l rs))
  (Hask : priv_a_sk secret = w_a_sk w) (Hksk : priv_k_sk secret = k_sk_receiver w) :
  ∃ w' dir', _do_sync w dir pp chain rs = Ok (our_notes pp (k_sk_receiver w) (zlen l) (outputs_of rs), (w', dir')) ∧
    wallet_inv pp 32 (leaves_after l rs) w' dir' ∧ synced w' dir' ∧ next_block (state w') = chain + 1 ∧
    num_notes (state w') = num_notes (state w) + zlen (outputs_of rs) ∧
    get_root (merkle_tree w') = Ok (spec_root 32 (leaves_after l rs)) ∧
    open_wallet (username w) secret dir' = Ok w'.
Proof.
  destruct (sync_saved pp l w dir chain rs secret Hpp Hinv Hsync Hrs) as (w1 & dir1 & w' & dir' & E1 & E2 & Hrest);
    [intros r Hr; by apply Hlast | done | done |].
  exists w', dir'. split; [|exact Hrest]. destruct Hrest as (_ & _ & _ & _ & Hr & _).
  rewrite (do_sync_check pp w dir chain rs _ _ w1 dir1 w' dir' Hnext E1 E2 Hr).
  destruct (last rs) as [r|] eqn:El; [|reflexivity].
  rewrite bool_decide_true by (right; exact (proj2 (Hlast r eq_refl))). reflexivity.
Qed.

(** C3: a synchronisation over well-formed mix results whose last published root
    is the root of all the leaves succeeds.  It reports exactly the notes of the
    wallet's key, ends with the contract's root and with the next block after the
    chain's head, keeps the wallet invariant, and the saved files reopen as the
    same wallet. *)
Theorem wallet_sync `{NoteCryptoLaws} `{Web3UnitsLaws} `{ITreeHash} pp l w dir chain rs secret
  (Hpp : field_ok pp) (Hinv : wallet_inv pp 32 l w dir) (Hsync : synced w dir)
  (Hnext : next_block (state w) ≤ chain) (Hrs : results_ok 32 l rs)
  (Hlast : ∀ r, last rs = Some r → output_events r ≠ [] ∧ new_merkle_root r = spec_root 32 (leaves_after l rs))
  (Hask : priv_a_sk secret = w_a_sk w) (Hksk : priv_k_sk secret = k_sk_receiver w) :
  ∃ w' dir', _do_sync w dir pp chain rs = Ok (our_notes pp (k_sk_receiver w) (zlen l) (outputs_of rs), (w', dir')) ∧
    wallet_inv pp 32 (leaves_after l rs) w' dir' ∧ synced w' dir' ∧ next_block (state w') = chain + 1 ∧
    num_notes (state w') = num_notes (state w) + zlen (outputs_of rs) ∧
    get_root (merkle_tree w') = Ok (spec_root 32 (leaves_after l rs)) ∧
    open_wallet (username w) secret dir' = Ok w'.
Proof. by apply do_sync_ok. Qed.


(** C36: an output whose ciphertext does not have the length of an encrypted note
    makes the synchronisation of every wallet raise, whatever its keys: the
    assertion of [decrypt] is not among the exceptions [receive_note] handles. *)
Theorem wallet_malformed_ciphertext `{NoteCryptoLaws} `{Web3UnitsLaws} `{ITreeHash} pp (d : nat) l w dir chain
  rs1 rs2 r evs1 ev evs2
  (Hpp : field_ok pp) (Hd : (1 ≤ d ≤ 52)%nat) (Hinv : wallet_inv pp d l w dir)
  (Hnext : next_block (state w) ≤ chain) (Hrs : results_ok d l rs1)
  (Hr : output_events r = evs1 ++ ev :: evs2)
  (Hfit : zlen (leaves_after l rs1) + zlen evs1 ≤ 2 ^ Z.of_nat d)
  (Hall : Forall (λ ev, zlen (ciphertext ev) = ENCRYPTED_NOTE_LENGTH_BYTES) evs1)
  (Hbad : zlen (ciphertext ev) ≠ ENCRYPTED_NOTE_LENGTH_BYTES) :
  _do_sync w dir pp chain (rs1 ++ r :: rs2) = Err AssertionError.
Proof.
  destruct Hpp as (m & Hm & Hmr), Hrs as (Hf1 & Ha1 & Hnd1).
  unfold _do_sync, get_next_block. rewrite (proj2 (Z.leb_le _ _) Hnext), foldM_app.
  destruct (sync_loop_spec pp m Hm Hmr d Hd rs1 l w dir None [] Hinv Hf1 Ha1 Hnd1) as (w1 & dir1 & -> & Hi1 & _).
  cbn [mbind result_bind foldM]. enough (∀ st, st.2.2 = (w1, dir1) → sync_step pp st r = Err AssertionError) as Hs.
  { by rewrite Hs. }
  intros [root [notes [w2 dir2]]] E. cbn in E. injection E as -> ->. unfold sync_step, receive_notes. rewrite Hr, foldM_app.
  set (w0 := set_changed w1 _).
  assert (wallet_inv pp d (leaves_after l rs1) w0 dir1) as Hi0
    by (eapply wallet_inv_ext; [exact Hi1 | apply Hi1 | done..]).
  destruct (receive_loop_spec pp m Hm Hmr d Hd evs1 _ w0 dir1 [] Hi0 Hfit Hall) as (w2 & dir2 & -> & Hi2 & _).
  cbn [mbind result_bind foldM]. by rewrite (receive_step_malformed pp d Hd _ w2 dir2 _ ev Hi2 Hbad).
Qed.

(** ** A concrete wallet *)

#[local] Transparent blake2s sha256.

Module WalletSample.
#[local] Existing Instance ToyCrypto.toy.
#[local] Existing Instance ToyCrypto.toy_laws.
#[local] Existing Instance MerkleTreeFacts.Sample.toy_tree.

(** Amounts are written as numbers of wei with an exponent. *)
#[local] Instance units : Web3Units := {|
  toWei z u := if decide (u = lit "ether") then Ok (z * 10 ^ 18) else Ok z;
  toWei_str s _ := int_of_str 10 (take (length s - 4) s);
  fromWei_ether w := str_of_int w ++ lit "e-18"
|}.

#[local] Instance units_laws : Web3UnitsLaws.
Proof.
  split; cbn [toWei toWei_str fromWei_ether units]; try done.
  - intros w Hw. rewrite length_app. replace (length (str_of_int w) + length (lit "e-18") - 4)%nat
      with (length (str_of_int w)) by (cbn; lia).
    rewrite take_app_length. apply int_of_str_of_int. lia.
  - intros w [Hw _]. rewrite not_elem_of_app. split; [|by apply (bool_decide_unpack _)].
    unfold str_of_int, sign_str, abs_digits. rewrite (proj2 (Z.ltb_ge _ _)) by lia. cbn [app].
    rewrite Z.abs_eq by lia. apply not_in_alphabet; [apply underscore_not_alphabet|]. apply Forall_fmap.
    eapply Forall_impl; [apply (digits_of_range 10 ltac:(lia) w Hw)|].
    intros x Hx. apply digit_char_alphabet. cbn in *. lia.
Qed.

Definition pp : PairingParameters := MixerSample.pairing.
Definition note : ZethNote := MixerSample.a_note 1.
Definition get {A} (dflt : A) (r : result A) : A := match r with Ok a => a | Err _ => dflt end.

Definition cm : bytes := get [] (compute_commitment note pp).
Definition ev : MixOutputEvents := mkMixOutputEvents cm
  (get [] (b ← zeth_note_to_bytes note; encrypt ToyCrypto.k7 b (sk_public_key ToyCrypto.k5))).
Definition nf : bytes := get [] (compute_nullifier note (MixerSample.b32 5)).
Definition nd (a : Z) : ZethNoteDescription := mkNoteDesc note a cm.

Definition tree0 (d : nat) : MerkleTree := get MerkleTreeFacts.Sample.tree (empty_with_depth (Z.of_nat d)).
Definition w0 (d : nat) : Wallet :=
  mkWallet (lit "alice") (MixerSample.b32 5) ToyCrypto.k5 (mkWalletState 1 0 ∅) (tree0 d) false 0.
Definition dir0 : WalletDir := mkWalletDir ∅ ∅.

(** The wallet of depth 2 after outputs. *)
Definition after (evs : list MixOutputEvents) : Wallet * WalletDir :=
  (get ([], (w0 2, dir0)) (receive_notes (w0 2) dir0 evs pp)).2.

Lemma field : field_ok pp.
Proof. exists 257. split; [vm_compute; reflexivity | lia]. Qed.

Lemma tree0_inv d : (1 ≤ d)%nat → tree_inv d [] (tree0 d) ∧ num_new_leaves (tree0 d) = 0.
Proof. intros Hd. unfold tree0. by destruct (empty_inv d Hd) as (t & -> & ? & ?). Qed.

Lemma inv0 d : (1 ≤ d)%nat → wallet_inv pp d [] (w0 d) dir0.
Proof.
  intros Hd. split; try done.
  - by apply tree0_inv.
  - split; [|by apply (bool_decide_unpack _)]. by apply (bool_decide_unpack _); vm_compute.
Qed.

Lemma ev_length : Forall (λ ev, zlen (ciphertext ev) = ENCRYPTED_NOTE_LENGTH_BYTES) [ev; ev].
Proof. repeat (apply Forall_cons; split; [vm_compute; reflexivity|]). by apply Forall_nil. Qed.

Lemma after_ok evs : evs = [ev] ∨ evs = [ev; ev] →
  wallet_inv pp 2 (commitment <$> evs) (after evs).1 (after evs).2 ∧ username (after evs).1 = lit "alice" ∧
  ∀ nd, nd ∈ our_notes pp ToyCrypto.k5 0 evs →
    good_note pp (commitment <$> evs) nd ∧ has_note (lit "alice") (wd_top (after evs).2) nd.
Proof.
  intros Hevs. destruct field as (m & Hm & Hmr). pose proof ev_length as Hl.
  destruct (receive_notes_spec pp m Hm Hmr 2 ltac:(lia) evs [] (w0 2) dir0 (inv0 2 ltac:(lia)))
    as (w' & dir' & E & Hi & (Hu & _) & _ & _ & _ & Hk).
  - destruct Hevs as [->| ->]; vm_compute; discriminate.
  - apply Forall_cons in Hl as [Hl _].
    destruct Hevs as [->| ->]; repeat (apply Forall_cons; split; [exact Hl|]); by apply Forall_nil.
  - unfold after. rewrite E. split; [exact Hi|]. split; [exact Hu|]. intros x Hx. destruct (Hk x Hx) as [Hg [Hh _]].
    split; [exact Hg|]. by rewrite Hu in Hh.
Qed.

Lemma wallet_receive_notes_witness :
  our_notes pp ToyCrypto.k5 0 [ev; ev] = [nd 0; nd 1] ∧
  ∃ w' dir', receive_notes (w0 2) dir0 [ev; ev] pp = Ok (our_notes pp ToyCrypto.k5 0 [ev; ev], (w', dir')) ∧
    get_leaf (merkle_tree w') 1 = Ok cm.
Proof.
  assert (our_notes pp ToyCrypto.k5 0 [ev; ev] = [nd 0; nd 1]) as En by (vm_compute; reflexivity).
  split; [exact En|].
  destruct (wallet_receive_notes pp 2 [] (w0 2) dir0 [ev; ev] field ltac:(lia) (inv0 2 ltac:(lia))
    ltac:(vm_compute; discriminate) ev_length) as (w' & dir' & E & _ & _ & Hk).
  exists w', dir'. split; [exact E|].
  assert (nd 1 ∈ our_notes pp ToyCrypto.k5 0 [ev; ev]) as Hin by (rewrite En; right; left).
  exact (proj1 (Hk (nd 1) Hin)).
Defined.

Lemma nd_known evs : evs = [ev] ∨ evs = [ev; ev] → nd 0 ∈ our_notes pp ToyCrypto.k5 0 evs.
Proof.
  intros [->| ->].
  - replace (our_notes pp ToyCrypto.k5 0 [ev]) with [nd 0] by (vm_compute; reflexivity). by left.
  - replace (our_notes pp ToyCrypto.k5 0 [ev; ev]) with [nd 0; nd 1] by (vm_compute; reflexivity). by left.
Qed.

Lemma wallet_marks_spent_witness : ∃ cs w' dir',
  mark_nullifiers_used (after [ev]).1 (after [ev]).2 [nf] = Ok (cs, (w', dir')) ∧
  has_note (lit "alice") (wd_spent dir') (nd 0) ∧ wd_top dir' !! note_file (lit "alice") (nd 0) = None.
Proof.
  destruct (after_ok [ev] (or_introl eq_refl)) as (Hi & Hu & Hk).
  destruct (Hk (nd 0) (nd_known _ (or_introl eq_refl))) as [Hg Hh].
  destruct (wallet_marks_spent pp 2 (commitment <$> [ev]) (after [ev]).1 (after [ev]).2 [nf] field Hi (NoDup_singleton _))
    as (cs & w' & dir' & E & _ & _ & Hs & _).
  exists cs, w', dir'. split; [exact E|]. rewrite <- Hu. apply Hs; [exact Hg | rewrite Hu; exact Hh |].
  exists nf. split; [by left | vm_compute; reflexivity].
Defined.

Lemma wallet_find_note_witness :
  find_note (after [ev]).1 (after [ev]).2 (lit "0") = Ok (nd 0).
Proof.
  destruct (after_ok [ev] (or_introl eq_refl)) as (Hi & Hu & Hk).
  destruct (Hk (nd 0) (nd_known _ (or_introl eq_refl))) as [Hg Hh].
  rewrite <- Hu in Hh.
  destruct (wallet_find_note pp 2 (commitment <$> [ev]) (after [ev]).1 (after [ev]).2 (nd 0) field Hi Hg Hh) as [Hf _].
  apply Hf. reflexivity.
Defined.

Lemma wallet_ambiguous_commitment_witness :
  mark_nullifiers_used (after [ev; ev]).1 (after [ev; ev]).2 [nf] =
  Err (Exception "expected to find file for commit").
Proof.
  destruct (after_ok [ev; ev] (or_intror eq_refl)) as (Hi & Hu & Hk).
  destruct (Hk (nd 0) (nd_known _ (or_intror eq_refl))) as [Hg0 Hh0].
  assert (nd 1 ∈ our_notes pp ToyCrypto.k5 0 [ev; ev]) as Hin1.
  { replace (our_notes pp ToyCrypto.k5 0 [ev; ev]) with [nd 0; nd 1] by (vm_compute; reflexivity). right. by left. }
  destruct (Hk (nd 1) Hin1) as [Hg1 Hh1]. rewrite <- Hu in Hh0, Hh1.
  apply (wallet_ambiguous_commitment pp 2 (commitment <$> [ev; ev]) (after [ev; ev]).1 (after [ev; ev]).2 (nd 0) (nd 1) nf field Hi Hg0 Hg1 Hh0 Hh1);
    [discriminate | reflexivity | vm_compute; reflexivity].
Defined.

(** At the depth of the client's tree. *)
Definition secret : ZethAddressPriv := mkAddrPriv (MixerSample.b32 5) ToyCrypto.k5.
Definition mix (root : bytes) : MixResult := mkMixResult root [] [ev].

Lemma synced0 : synced (w0 32) dir0.
Proof.
  split; [by apply tree0_inv; lia|]. split; [reflexivity|].
  change (2 ^ ZETH_MERKLE_TREE_DEPTH) with (2 ^ Z.of_nat 32).
  rewrite (open_fresh 32 ltac:(lia)) by reflexivity. cbn [merkle_tree w0]. unfold tree0.
  destruct (empty_inv 32 ltac:(lia)) as (t & E & _). rewrite E. reflexivity.
Qed.

Lemma mix_ok root : results_ok 32 [] [mix root].
Proof.
  split; [vm_compute; discriminate|]. split; [|apply NoDup_singleton].
  apply Forall_singleton. vm_compute. reflexivity.
Qed.

Lemma wallet_sync_witness :
  let rs := [mix (spec_root 32 [cm])] in
  ∃ w' dir', _do_sync (w0 32) dir0 pp 7 rs = Ok (our_notes pp ToyCrypto.k5 0 [ev], (w', dir')) ∧
    next_block (state w') = 8 ∧ open_wallet (lit "alice") secret dir' = Ok w'.
Proof.
  intros rs. destruct (wallet_sync pp [] (w0 32) dir0 7 rs secret field (inv0 32 ltac:(lia)) synced0
    ltac:(discriminate) (mix_ok _)) as (w' & dir' & E & _ & _ & Hb & _ & _ & Ho).
  - intros r Hr. injection Hr as <-. split; [discriminate | reflexivity].
  - reflexivity.
  - reflexivity.
  - exists w', dir'. split; [exact E|]. split; [exact Hb | exact Ho].
Defined.

Lemma root_length d l : length (spec_root (S d) l) = 32%nat.
Proof. apply length_to_be. Qed.


Lemma wallet_malformed_ciphertext_witness :
  _do_sync (w0 2) dir0 pp 7 [mkMixResult [] [] [ev; mkMixOutputEvents cm [Byte.x00]]] = Err AssertionError.
Proof.
  apply (wallet_malformed_ciphertext pp 2 [] (w0 2) dir0 7 [] []
    (mkMixResult [] [] [ev; mkMixOutputEvents cm [Byte.x00]]) [ev] (mkMixOutputEvents cm [Byte.x00]) [] field
    ltac:(lia) (inv0 2 ltac:(lia))).
  - discriminate.
  - split; [discriminate|]. split; [apply Forall_nil; exact I | apply NoDup_nil; exact I].
  - reflexivity.
  - discriminate.
  - apply Forall_singleton. vm_compute. reflexivity.
  - discriminate.
Defined.
End WalletSample.
