(* ===== verification/PyState.v ===== *)
(** * Code that raises and keeps its effects

    The coordinator mutates its state and the file system and raises in between:
    what was changed before the exception stays changed.  A command [SM S A] maps a
    state to its outcome and the state it leaves, also when the outcome is an
    exception.  Times are doubles: [flt] holds a finite double as a multiple of
    [2 ^ -1074]. *)

From Stdlib Require Import ZArith Lia Ascii String.
From stdpp Require Import base tactics list gmap strings numbers.
From S2P Require Import Prelude PyStr PyBytes PyFloat PyIO.

Local Open Scope Z_scope.

Declare Scope sm_scope.
Delimit Scope sm_scope with sm.

(** ** The monad *)

Definition SM (S A : Type) : Type := S → result A * S.

Section monad.
Context {S : Type}.

Definition ret {A} (a : A) : SM S A := λ s, (Ok a, s).
Definition bind {A B} (m : SM S A) (k : A → SM S B) : SM S B := λ s,
  match m s with
  | (Ok a, s) => k a s
  | (Err e, s) => (Err e, s)
  end.
Definition raise {A} (e : pyexc) : SM S A := λ s, (Err e, s).
Definition lift {A} (r : result A) : SM S A := λ s, (r, s).
Definition get : SM S S := λ s, (Ok s, s).
Definition put (s : S) : SM S unit := λ _, (Ok tt, s).
Definition gets {A} (f : S → A) : SM S A := λ s, (Ok (f s), s).
Definition modify (f : S → S) : SM S unit := λ s, (Ok tt, f s).

(** [if b: raise e] and [assert b] *)
Definition raise_when (b : bool) (e : pyexc) : SM S unit := if b then raise e else ret tt.
Definition assert (b : bool) : SM S unit := raise_when (negb b) AssertionError.

(** [try: m finally: f]: an exception of [f] replaces the outcome of [m]. *)
Definition try_finally {A} (m : SM S A) (f : SM S unit) : SM S A := λ s,
  let '(r, s) := m s in
  match f s with
  | (Ok _, s) => (r, s)
  | (Err e, s) => (Err e, s)
  end.

(** [try: m except Exception as ex: h(ex)]; assertions are exceptions too. *)
Definition try_except {A} (m : SM S A) (h : pyexc → SM S A) : SM S A := λ s,
  match m s with
  | (Ok a, s) => (Ok a, s)
  | (Err e, s) => h e s
  end.
End monad.

Notation "x <- m ;; k" := (bind m (λ x, k)) (at level 100, m at next level, right associativity) : sm_scope.
Notation "m ;;; k" := (bind m (λ _, k)) (at level 100, right associativity) : sm_scope.

(** A command on one part of a larger state. *)
Definition zoom {S T A} (proj : S → T) (upd : T → S → S) (m : SM T A) : SM S A := λ s,
  let '(r, t) := m (proj s) in (r, upd t s).

(** ** Files *)

Definition f_exists (p : str) : SM fs bool := gets (exists_file p).
Definition f_write (p : str) (c : content) : SM fs unit := modify (write_file p c).
Definition f_rename (src dst : str) : SM fs unit := λ m,
  match rename src dst m with Ok m' => (Ok tt, m') | Err e => (Err e, m) end.
Definition f_remove (p : str) : SM fs unit := λ m,
  match remove_file p m with Ok m' => (Ok tt, m') | Err e => (Err e, m) end.
Definition f_read_json (p : str) : SM fs json := λ m, (read_json p m, m).

(** ** Lemmas *)

Lemma bind_ok {S A B} (m : SM S A) (k : A → SM S B) s a s' : m s = (Ok a, s') → bind m k s = k a s'.
Proof. intros E. unfold bind. by rewrite E. Qed.

Lemma bind_err {S A B} (m : SM S A) (k : A → SM S B) s e s' : m s = (Err e, s') → bind m k s = (Err e, s').
Proof. intros E. unfold bind. by rewrite E. Qed.

Lemma bind_inv {S A B} (m : SM S A) (k : A → SM S B) s b s' : bind m k s = (Ok b, s') →
  ∃ a s1, m s = (Ok a, s1) ∧ k a s1 = (Ok b, s').
Proof. unfold bind. destruct (m s) as [[a|e] s1]; [eauto | done]. Qed.

(** A relation between the states before and after that holds of every outcome. *)
Definition keeps {S A} (P : S → S → Prop) (m : SM S A) : Prop := ∀ s, P s (m s).2.

Lemma keeps_ret {S A} (P : S → S → Prop) `{!Reflexive P} (a : A) : keeps P (ret a).
Proof. by intros s. Qed.
Lemma keeps_lift {S A} (P : S → S → Prop) `{!Reflexive P} (r : result A) : keeps P (lift r).
Proof. by intros s. Qed.
Lemma keeps_gets {S A} (P : S → S → Prop) `{!Reflexive P} (f : S → A) : keeps P (gets f).
Proof. by intros s. Qed.
Lemma keeps_raise_when {S} (P : S → S → Prop) `{!Reflexive P} b e : keeps P (raise_when b e).
Proof. intros s. by destruct b. Qed.
Lemma keeps_bind {S A B} (P : S → S → Prop) `{!Transitive P} (m : SM S A) (k : A → SM S B) :
  keeps P m → (∀ a, keeps P (k a)) → keeps P (bind m k).
Proof.
  intros Hm Hk s. unfold bind. specialize (Hm s). destruct (m s) as [[a|e] s1]; [|done].
  etrans; [exact Hm | apply Hk].
Qed.

#[export] Hint Resolve keeps_ret keeps_lift keeps_gets keeps_raise_when keeps_bind : zeth.

(** ** Times *)

Abbreviation flt := Z.

(** The double nearest to a multiple of [2 ^ -1074]: 53 significant bits, ties to
    even.  The times of the program are far below the largest double. *)
Definition rnd53 (z : flt) : flt :=
  let k := Z.log2 (Z.abs z) - 52 in
  if k <=? 0 then z else rne_div z (2 ^ k) * 2 ^ k.

Definition flt_add (a b : flt) : flt := rnd53 (a + b).

(** A number of seconds that is a whole number. *)
Definition secs (n : Z) : flt := n * 2 ^ 1074.

(** Rounding keeps a number that is above zero above zero. *)
Lemma rnd53_pos z : 0 < z → 0 < rnd53 z.
Proof.
  intros Hz. unfold rnd53. rewrite Z.abs_eq by lia. destruct (Z.log2 z - 52 <=? 0) eqn:E; prop_bool; [done|].
  set (k := Z.log2 z - 52) in *. assert (0 < 2 ^ k) by (apply Z.pow_pos_nonneg; lia).
  assert (1 ≤ rne_div z (2 ^ k)); [|nia]. apply rne_div_lower; [done|]. rewrite Z.mul_1_l.
  destruct (Z.log2_spec z Hz) as [Hl _]. etrans; [|exact Hl]. apply Z.pow_le_mono_r; lia.
Qed.

Lemma flt_add_pos a b : 0 < a → 0 ≤ b → 0 < flt_add a b.
Proof. intros. apply rnd53_pos. lia. Qed.

(** Rounding does not cross a double. *)
Lemma rnd53_lower z m e : 0 ≤ e → 0 ≤ m < 2 ^ 53 → m * 2 ^ e ≤ z → m * 2 ^ e ≤ rnd53 z.
Proof.
  intros He Hm Hz. unfold rnd53. destruct (Z.log2 (Z.abs z) - 52 <=? 0) eqn:E; prop_bool; [done|].
  assert (0 ≤ m * 2 ^ e) by (apply Z.mul_nonneg_nonneg; [lia | apply Z.pow_nonneg; lia]).
  rewrite Z.abs_eq in * by lia. set (k := Z.log2 z - 52) in *.
  assert (0 < 2 ^ k) by (apply Z.pow_pos_nonneg; lia).
  destruct (Z.le_gt_cases k e) as [Hke|Hke].
  - assert (m * 2 ^ e = m * 2 ^ (e - k) * 2 ^ k) as Hs.
    { rewrite <- Z.mul_assoc, <- Z.pow_add_r by lia. do 2 f_equal. lia. }
    rewrite Hs. apply Z.mul_le_mono_nonneg_r; [lia|]. apply rne_div_lower; lia.
  - assert (2 ^ 52 ≤ rne_div z (2 ^ k)).
    { apply rne_div_lower; [done|]. rewrite <- Z.pow_add_r by lia. replace (52 + k) with (Z.log2 z) by lia.
      apply Z.log2_spec. destruct (Z.eq_dec z 0) as [->|]; [|lia]. unfold k in E. cbn in E. lia. }
    transitivity (2 ^ 52 * 2 ^ k); [|nia]. transitivity (2 ^ 53 * 2 ^ e); [nia|].
    rewrite <- !Z.pow_add_r by lia. apply Z.pow_le_mono_r; lia.
Qed.
