(* ===== verification/Prover.v ===== *)
(** * The prover client ([core/prover_client.py])

    The client of the proving service caches the service's configuration in memory
    and in a file.  What the service answers (or that the call fails) is an argument
    of each operation. *)

From Stdlib Require Import ZArith Lia Ascii String.
From stdpp Require Import base tactics list gmap strings.
From S2P Require Import Prelude PyStr PyIO Constants Pairing ZkSnark MixerClient PyState.

Local Open Scope Z_scope.
Local Open Scope sm_scope.

Record ProverConfiguration : Type := mkProverConfig { zksnark_name : str; pairing_parameters : PairingParameters }.
(** The message [ProverConfiguration]. *)
Record ProverConfigurationProto : Type := mkProverProto { pcp_zksnark : str; pcp_pairing : PairingParametersProto }.

Definition prover_config_to_json_dict (c : ProverConfiguration) : json :=
  JDict [ (lit "zksnark_name", JStr (zksnark_name c));
          (lit "pairing_parameters", pairing_to_json_dict (pairing_parameters c)) ].
Definition prover_config_from_json_dict (j : json) : result ProverConfiguration :=
  nj ← jget (lit "zksnark_name") j; name ← as_str nj;
  pj ← jget (lit "pairing_parameters") j; pp ← pairing_from_json_dict pj;
  Ok (mkProverConfig name pp).
Definition prover_configuration_from_proto (p : ProverConfigurationProto) : result ProverConfiguration :=
  pp ← pairing_parameters_from_proto (pcp_pairing p); Ok (mkProverConfig (pcp_zksnark p) pp).

Record ProverClient : Type := mkProverClient {
  endpoint : str; prover_config_file : option str; prover_config : option ProverConfiguration
}.
Definition new_ProverClient (endpoint : str) (config_file : option str) : ProverClient :=
  mkProverClient endpoint config_file None.
Definition set_prover_config (c : ProverConfiguration) (p : ProverClient) : ProverClient :=
  mkProverClient (endpoint p) (prover_config_file p) (Some c).

Definition PState : Type := ProverClient * fs.
Definition on_disk {A : Type} (m : SM fs A) : SM PState A := zoom snd (λ t st, (st.1, t)) m.
Definition on_client {A : Type} (m : SM ProverClient A) : SM PState A := zoom fst (λ t st, (t, st.2)) m.

(** The part of [get_configuration] that asks the service. *)
Definition fetch_configuration (answer : result ProverConfigurationProto) : SM PState ProverConfiguration :=
  prover_config_proto <- lift answer ;;
  c <- lift (prover_configuration_from_proto prover_config_proto) ;;
  on_client (modify (set_prover_config c)) ;;;
  file <- on_client (gets prover_config_file) ;;
  (match file with
   | Some f => on_disk (f_write f (CJson (prover_config_to_json_dict c)))
   | None => ret tt
   end) ;;;
  ret c.

(** [get_configuration]; a cache file that cannot be read is deleted. *)
Definition get_configuration (answer : result ProverConfigurationProto) : SM PState ProverConfiguration :=
  cached <- on_client (gets prover_config) ;;
  match cached with
  | Some c => ret c
  | None =>
      file <- on_client (gets prover_config_file) ;;
      match file with
      | None => fetch_configuration answer
      | Some f =>
          have <- on_disk (f_exists f) ;;
          if (have : bool) then
            try_except
              (j <- on_disk (f_read_json f) ;;
               c <- lift (prover_config_from_json_dict j) ;;
               on_client (modify (set_prover_config c)) ;;;
               ret c)
              (λ _, on_disk (f_remove f) ;;; fetch_configuration answer)
          else fetch_configuration answer
      end
  end.

Definition get_provider (answer : result ProverConfigurationProto) : SM PState IZKSnarkProvider :=
  config <- get_configuration answer ;;
  lift (ZkSnark.get_zksnark_provider (zksnark_name config)).

Definition get_verification_key (answer : result ProverConfigurationProto) (vk_answer : result VerificationKeyProto)
    : SM PState IVerificationKey :=
  vk_proto <- lift vk_answer ;;
  zksnark <- get_provider answer ;;
  lift (verification_key_from_proto zksnark vk_proto).

(** [get_proof]; [prove] is the service. *)
Definition get_proof (answer : result ProverConfigurationProto)
    (prove : ProofInputs → result (ExtendedProofProto * list str)) (proof_inputs : ProofInputs)
    : SM PState (ExtendedProof * list Z) :=
  assert (zlen (js_inputs proof_inputs) =? JS_INPUTS) ;;;
  res <- lift (prove proof_inputs) ;;
  zksnark <- get_provider answer ;;
  extproof <- lift (extended_proof_from_proto zksnark res.1) ;;
  public_data <- lift (mapM (int_of_str 16) res.2) ;;
  ret (extproof, public_data).

(** ** Lemmas *)

(** Parameters that the constructor accepts. *)
Definition pairing_ok (pp : PairingParameters) : Prop :=
  new_PairingParameters (pp_name pp) (pp_r pp) (pp_q pp) (generator_g1 pp) (generator_g2 pp) = Ok pp.

Lemma new_pairing_ok n r q g1 g2 pp : new_PairingParameters n r q g1 g2 = Ok pp → pairing_ok pp.
Proof.
  intros E. pose proof E as E'. unfold new_PairingParameters in E. apply bind_Ok_inv in E as (rv & _ & E).
  apply bind_Ok_inv in E as (_ & _ & E). apply Ok_inj in E as <-. exact E'.
Qed.

Lemma pairing_json_roundtrip pp : pairing_ok pp → pairing_from_json_dict (pairing_to_json_dict pp) = Ok pp.
Proof.
  intros Hok. unfold pairing_from_json_dict, pairing_to_json_dict, jget_str. jsimp. cbn [as_str mbind result_bind]. jsimp.
  rewrite g1_json_roundtrip. cbn [mbind result_bind]. rewrite g2_json_roundtrip. exact Hok.
Qed.

Lemma prover_config_json_roundtrip c : pairing_ok (pairing_parameters c) →
  prover_config_from_json_dict (prover_config_to_json_dict c) = Ok c.
Proof.
  intros Hok. unfold prover_config_from_json_dict, prover_config_to_json_dict. jsimp. cbn [as_str mbind result_bind]. jsimp.
  rewrite pairing_json_roundtrip by done. by destruct c.
Qed.

Lemma config_from_proto_ok p c : prover_configuration_from_proto p = Ok c → pairing_ok (pairing_parameters c).
Proof.
  intros E. unfold prover_configuration_from_proto, pairing_parameters_from_proto in E.
  apply bind_Ok_inv in E as (pp & E & Ec). apply Ok_inj in Ec as <-. apply bind_Ok_inv in E as (g1 & _ & E).
  apply bind_Ok_inv in E as (g2 & _ & E). by apply new_pairing_ok in E.
Qed.

Lemma fetch_spec (p : ProverConfigurationProto) (c : ProverConfiguration) (ep f : str) (m : fs) : prover_configuration_from_proto p = Ok c →
  fetch_configuration (Ok p) (mkProverClient ep (Some f) None, m) =
    (Ok c, (mkProverClient ep (Some f) (Some c), write_file f (CJson (prover_config_to_json_dict c)) m)).
Proof. intros E. unfold fetch_configuration, bind, lift. rewrite E. done. Qed.

(** The cache is used: in memory, and by a new client with the same file, whatever
    the service answers then; a missing or unreadable file is replaced by what the
    service answers. *)
Theorem prover_configuration_cached (p : ProverConfigurationProto) (c : ProverConfiguration) (ep f : str) (m : fs) (Hp : prover_configuration_from_proto p = Ok c)
    (Hm : m !! f = None ∨ ∃ b, m !! f = Some b ∧ ∀ j, b = CJson j → ∃ e, prover_config_from_json_dict j = Err e) :
  ∃ pc m', get_configuration (Ok p) (new_ProverClient ep (Some f), m) = (Ok c, (pc, m')) ∧
    m' !! f = Some (CJson (prover_config_to_json_dict c)) ∧ (∀ g, g ≠ f → m' !! g = m !! g) ∧
    (∀ answer, get_configuration answer (pc, m') = (Ok c, (pc, m'))) ∧
    (∀ answer ep', get_configuration answer (new_ProverClient ep' (Some f), m') =
                     (Ok c, (mkProverClient ep' (Some f) (Some c), m'))).
Proof.
  assert (∃ m0, get_configuration (Ok p) (new_ProverClient ep (Some f), m) =
    (Ok c, (mkProverClient ep (Some f) (Some c), write_file f (CJson (prover_config_to_json_dict c)) m0)) ∧
    ∀ g, g ≠ f → m0 !! g = m !! g) as (m0 & E & Hfr).
  { unfold get_configuration, new_ProverClient, bind, on_client, on_disk, zoom, gets, f_exists. cbn [fst snd prover_config prover_config_file]. unfold gets.
    destruct Hm as [Hm|(b & Hb & Hbad)].
    - exists m. rewrite (proj2 (exists_file_false f m) Hm). by rewrite (fetch_spec p c).
    - exists (delete f m). unfold exists_file. rewrite Hb. rewrite bool_decide_true by by eexists.
      unfold try_except, f_read_json, read_json, read_file. cbn [fst snd]. rewrite Hb. cbn [of_option mbind result_bind].
      split; [|intros g Hg; by rewrite lookup_delete_ne].
      assert (f_remove f m = (Ok tt, delete f m)) as Hrm by (unfold f_remove, remove_file; by rewrite Hb).
      destruct b as [j|b|t]; cbn [mbind result_bind fst snd]; [|by rewrite Hrm, (fetch_spec p c)..].
      destruct (Hbad j eq_refl) as [e He]. unfold lift. rewrite He. cbn [snd fst]. by rewrite Hrm, (fetch_spec p c). }
  rewrite E. do 2 eexists. split; [reflexivity|]. split; [apply lookup_insert_eq|]. split; [|split].
  - intros g Hg. unfold write_file. rewrite lookup_insert_ne by done. auto.
  - intros answer. done.
  - intros answer ep'. unfold get_configuration, new_ProverClient, bind, on_client, on_disk, zoom, gets, f_exists. cbn [fst snd prover_config prover_config_file]. unfold gets.
    unfold exists_file, write_file. rewrite lookup_insert_eq, bool_decide_true by by eexists.
    unfold try_except, f_read_json, read_json, read_file. cbn [fst snd]. rewrite lookup_insert_eq. cbn [of_option mbind result_bind].
    unfold lift. by rewrite (prover_config_json_roundtrip c (config_from_proto_ok _ _ Hp)).
Qed.
