(* ===== verification/Cli.v ===== *)
(** * Files and parameters of the command line tools ([cli/utils.py])

    Networks, contract descriptions, address files, output specifications and key
    files; the commands [gen_address] and the checks of [mix].  The working directory
    is a map; [Web3.toChecksumAddress] is the class [Checksum]. *)

From Stdlib Require Import ZArith Lia Ascii String.
From stdpp Require Import base tactics list gmap strings.
From S2P Require Import Prelude PyStr PyBytes PyIO Hashes Constants Utils Encryption Notes Contracts MixerClient MerkleTree Wallet WalletFacts PyState.

Local Open Scope Z_scope.
Local Open Scope sm_scope.

(** [cli/constants.py] *)
Definition ETH_RPC_ENDPOINT_DEFAULTS : list (str * str) :=
  [ (lit "ganache", lit "http://localhost:8545");
    (lit "autonity-helloworld", lit "http://localhost:8541");
    (lit "bakerloo", lit "https://rpc3.bakerloo.autonity.network:8545") ].
Definition ETH_NETWORK_FILE_DEFAULT : str := lit "eth-network".
Definition ETH_NETWORK_DEFAULT : str := lit "ganache".
Definition ZETH_SECRET_ADDRESS_FILE_DEFAULT : str := lit "zeth-address.priv".
Definition ZETH_PUBLIC_ADDRESS_FILE_DEFAULT : str := lit "zeth-address.pub".
Definition ETH_ADDRESS_DEFAULT : str := lit "eth-address".
Definition ETH_PRIVATE_KEY_FILE_DEFAULT : str := lit "eth-private-key".

Class Checksum := { toChecksumAddress : str → result str }.

(** A [ClickException]; the texts of its messages are left out. *)
Definition ClickException : pyexc := Exception "ClickException".

(** The text of a file.  Files that this library keeps as a JSON value or as bytes
    are not read as text by the modelled commands, and fail. *)
Definition read_text (p : str) (m : fs) : result str :=
  c ← read_file p m; match c with CText s => Ok s | _ => Err ValueError end.

(** [if s] on a text, and [a or b] *)
Definition truthy (o : option str) : option str := match o with Some (c :: s) => Some (c :: s) | _ => None end.
Definition str_or (o : option str) (d : str) : str := default d (truthy o).

(** ** Networks *)

Record NetworkConfig : Type := mkNetwork { net_name : str; net_endpoint : str; certificate : option str; insecure : bool }.

Definition network_to_json (n : NetworkConfig) : json :=
  JDict ([ (lit "name", JStr (net_name n)); (lit "endpoint", JStr (net_endpoint n)) ] ++
         match truthy (certificate n) with Some c => [(lit "certificate", JStr c)] | None => [] end ++
         (if insecure n then [(lit "insecure", JBool true)] else [])).

Definition as_bool (j : json) : result bool := match j with JBool b => Ok b | _ => Err TypeError end.

Definition network_from_json (j : json) : result NetworkConfig :=
  nj ← jget (lit "name") j; name ← as_str nj;
  ej ← jget (lit "endpoint") j; endpoint ← as_str ej;
  cj ← jget_opt (lit "certificate") j; cert ← as_opt as_str cj;
  ij ← jget_opt (lit "insecure") j; ins ← as_opt as_bool ij;
  Ok (mkNetwork name endpoint cert (default false ins)).

Definition get_eth_network (eth_network : option str) (m : fs) : result NetworkConfig :=
  let eth_network := match eth_network with
                     | Some n => n
                     | None => if exists_file ETH_NETWORK_FILE_DEFAULT m then ETH_NETWORK_FILE_DEFAULT
                               else ETH_NETWORK_DEFAULT
                     end in
  if startswith (lit "http") eth_network then Ok (mkNetwork ETH_NETWORK_DEFAULT eth_network None false)
  else if exists_file eth_network m then j ← read_json eth_network m; network_from_json j
  else match assoc eth_network ETH_RPC_ENDPOINT_DEFAULTS with
       | Some endpoint => Ok (mkNetwork eth_network endpoint None false)
       | None => Err ClickException
       end.

(** ** Contract descriptions *)

Record MixerDescription : Type := mkMixerDesc {
  md_mixer : InstanceDescription; md_token : option InstanceDescription;
  permitted_dispatcher : option str; vk_hash : option str
}.

Definition zeth_mixer_json (d : MixerDescription) : json :=
  JDict (match md_token d with Some t => [(lit "token", instance_to_json_dict t)] | None => [] end ++
         match truthy (permitted_dispatcher d) with Some p => [(lit "permitted_dispatcher", JStr p)] | None => [] end ++
         match truthy (vk_hash d) with Some h => [(lit "vk_hash", JStr h)] | None => [] end).

(** The extra data is an entry of the description of the mixer. *)
Definition mixer_desc_to_json_dict (d : MixerDescription) : json :=
  match instance_to_json_dict (md_mixer d) with
  | JDict entries => JDict (entries ++ [(lit "zeth_mixer", zeth_mixer_json d)])
  | j => j
  end.

(** [if j] on a JSON value *)
Definition json_truth (j : json) : bool :=
  match j with
  | JNull | JBool false | JInt 0 | JStr [] | JList [] | JDict [] => false
  | _ => true
  end.

Definition mixer_desc_from_json_dict (j : json) : result MixerDescription :=
  zeth_mixer ← jget (lit "zeth_mixer") j;
  mixer ← instance_from_json_dict j;
  tj ← jget_opt (lit "token") zeth_mixer;
  token ← match tj with
          | Some t => if json_truth t then Some <$> instance_from_json_dict t else Ok None
          | None => Ok None
          end;
  pj ← jget_opt (lit "permitted_dispatcher") zeth_mixer; p ← as_opt as_str pj;
  hj ← jget_opt (lit "vk_hash") zeth_mixer; h ← as_opt as_str hj;
  Ok (mkMixerDesc mixer token p h).

Definition write_mixer_description (file : str) (d : MixerDescription) : SM fs unit :=
  f_write file (CJson (mixer_desc_to_json_dict d)).
Definition load_mixer_description (file : str) (m : fs) : result MixerDescription :=
  j ← read_json file m; mixer_desc_from_json_dict j.

Section checksum.
Context `{Checksum}.

Definition load_contract_address (contract_addr : str) (m : fs) : result str :=
  if startswith (lit "0x") contract_addr then toChecksumAddress contract_addr
  else if exists_file contract_addr m then
    j ← read_json contract_addr m; instance ← instance_from_json_dict j; toChecksumAddress (inst_address instance)
  else Err ClickException.

Definition load_eth_address (eth_addr : option str) (m : fs) : result str :=
  let eth_addr := str_or eth_addr ETH_ADDRESS_DEFAULT in
  if startswith (lit "0x") eth_addr then toChecksumAddress eth_addr
  else if exists_file eth_addr m then t ← read_text eth_addr m; toChecksumAddress (rstrip t)
  else Err ClickException.
End checksum.

Definition write_eth_address (eth_addr eth_addr_file : str) : SM fs unit :=
  have <- f_exists eth_addr_file ;;
  raise_when have ClickException ;;;
  f_write eth_addr_file (CText eth_addr).

(** At most 32 bytes are read.  The files of keys hold bytes ([write_eth_private_key]);
    another content fails here, as in [read_text]. *)
Definition load_eth_private_key (private_key_file : option str) (m : fs) : result (option bytes) :=
  let file := str_or private_key_file ETH_PRIVATE_KEY_FILE_DEFAULT in
  if exists_file file m then
    c ← read_file file m;
    match c with CBytes b => Ok (Some (take 32 b)) | _ => Err ValueError end
  else Ok None.

Definition write_eth_private_key (private_key : bytes) (private_key_file : str) : SM fs unit :=
  have <- f_exists private_key_file ;;
  raise_when have ClickException ;;;
  f_write private_key_file (CBytes private_key).

(** ** Zeth addresses *)

(** The name and the extension: the last dot of the last component, unless only
    dots precede it in the component.  [split_name] takes the reversed path. *)
Fixpoint split_name (r name : str) : str * str :=
  match r with
  | [] => ([], name)
  | c :: r' => if decide (c = "/"%char) then (r, name) else split_name r' (c :: name)
  end.
Fixpoint split_dot (r ext : str) : option (str * str) :=
  match r with
  | [] => None
  | c :: r' => if decide (c = "."%char) then Some (reverse r', c :: ext) else split_dot r' (c :: ext)
  end.
Definition splitext (p : str) : str * str :=
  let '(dir, name) := split_name (reverse p) [] in
  match split_dot (reverse name) [] with
  | Some (root, ext) => if forallb (λ c, bool_decide (c = "."%char)) root then (p, []) else (reverse dir ++ root, ext)
  | None => (p, [])
  end.

Definition pub_address_file (addr_file : str) : str := (splitext addr_file).1 ++ lit ".pub".

Definition find_pub_address_file (base_file : str) (m : fs) : result str :=
  let pub_addr_file := pub_address_file base_file in
  if exists_file pub_addr_file m then Ok pub_addr_file
  else if exists_file base_file m then Ok base_file
  else Err ClickException.

Section address.
Context `{NoteCrypto}.

(** The two writers open the file, which empties it, before they encode the address. *)
Definition write_zeth_address_public (pub_addr : ZethAddressPub) (pub_addr_file : str) : SM fs unit :=
  f_write pub_addr_file (CText []) ;;;
  t <- lift (address_str pub_addr) ;; f_write pub_addr_file (CText t).

Definition load_zeth_address_public (address_file : str) (m : fs) : result ZethAddressPub :=
  t ← read_text (pub_address_file address_file) m; address_parse t.

Definition write_zeth_address_secret (secret_addr : ZethAddressPriv) (addr_file : str) : SM fs unit :=
  f_write addr_file (CText []) ;;;
  j <- lift (priv_to_json_dict secret_addr) ;; f_write addr_file (CJson j).

Definition load_zeth_address_secret (address_file : str) (m : fs) : result ZethAddressPriv :=
  j ← read_json address_file m; priv_from_json_dict j.

Definition load_zeth_address (address_file : str) (m : fs) : result ZethAddress :=
  secret ← load_zeth_address_secret address_file m;
  public ← load_zeth_address_public address_file m;
  Ok (from_secret_public secret public).

(** The command [gen_address]; the secrets are drawn by the caller. *)
Definition gen_address `{EthAbi} (address_file : str) (a_sk : bytes) (k_sk : EncryptionSecretKey) : SM fs unit :=
  have <- f_exists address_file ;;
  raise_when have ClickException ;;;
  let pub_addr_file := pub_address_file address_file in
  have <- f_exists pub_addr_file ;;
  raise_when have ClickException ;;;
  zeth_address <- lift (generate_zeth_address a_sk k_sk) ;;
  write_zeth_address_secret (addr_sk zeth_address) address_file ;;;
  write_zeth_address_public (addr_pk zeth_address) pub_addr_file.

(** ** Notes and outputs *)

Context `{Web3Units}.

Definition zeth_note_short (d : ZethNoteDescription) : result str :=
  v ← int_of_str 16 (value (nd_note d)); e ← from_zeth_units v;
  Ok (short_commitment (nd_commitment d) ++ lit ": value=" ++ EtherValue.ether e ++ lit " ETH, addr=" ++
      str_of_int (nd_address d)).

Definition parse_output (output_str : str) (m : fs) : result (ZethAddressPub * EtherValue.t) :=
  '(addr, value) ← match split_on ","%char output_str with
                   | [v] => Ok (ZETH_PUBLIC_ADDRESS_FILE_DEFAULT, v)
                   | [a; v] => Ok (a, v)
                   | _ => Err ClickException
                   end;
  addr ← (if exists_file addr m then read_text addr m else Ok addr);
  a ← address_parse addr;
  v ← EtherValue.of_str value;
  Ok (a, v).

(** [sum(values, EtherValue(0))] *)
Definition sum_values (l : list EtherValue.t) : result EtherValue.t :=
  zero ← EtherValue.of_int 0 (lit "ether"); foldM EtherValue.add zero l.

(** The first checks of the command [mix], and the public values. *)
Definition mix_sanity (vin vout : str) (input_notes output_specs : list str) : result (EtherValue.t * EtherValue.t) :=
  _ ← raise_if (JS_INPUTS <? zlen input_notes) ClickException;
  _ ← raise_if (JS_OUTPUTS <? zlen output_specs) ClickException;
  vin_pub ← EtherValue.of_str vin;
  vout_pub ← EtherValue.of_str vout;
  Ok (vin_pub, vout_pub).

(** The notes and the outputs of [mix], whose values must match. *)
Definition mix_notes (w : Wallet) (dir : WalletDir) (m : fs) (vin_pub vout_pub : EtherValue.t)
    (input_notes output_specs : list str) : result (list (Z * ZethNote) * list (ZethAddressPub * EtherValue.t)) :=
  inputs ← mapM (λ id, d ← find_note w dir id; Ok (as_input d)) input_notes;
  outputs ← mapM (λ s, parse_output s m) output_specs;
  units ← mapM (λ x : Z * ZethNote, int_of_str 16 (value x.2)) inputs;
  input_note_sum ← from_zeth_units (foldr Z.add 0 units);
  output_note_sum ← sum_values (snd <$> outputs);
  total_in ← EtherValue.add vin_pub input_note_sum;
  total_out ← EtherValue.add vout_pub output_note_sum;
  _ ← raise_if (EtherValue.neb total_in total_out) ClickException;
  Ok (inputs, outputs).

(** The value of the transaction: nothing when the mixer works on tokens. *)
Definition mix_tx_value (d : MixerDescription) (vin_pub : EtherValue.t) : result EtherValue.t :=
  match md_token d with Some _ => EtherValue.of_int 0 (lit "ether") | None => Ok vin_pub end.
End address.

(** ** Lemmas *)

Lemma instance_json_roundtrip d : instance_from_json_dict (instance_to_json_dict d) = Ok d.
Proof.
  unfold instance_from_json_dict, instance_to_json_dict. jsimp. cbn [as_str mbind result_bind]. jsimp. by destruct d.
Qed.

(** Descriptions of mixers survive their files, an empty text as none; the file also
    reads as the description of the mixer contract. *)
Theorem mixer_description_roundtrip (file : str) (d : MixerDescription) (m : fs) :
  ∃ m', write_mixer_description file d m = (Ok tt, m') ∧
    load_mixer_description file m' =
      Ok (mkMixerDesc (md_mixer d) (md_token d) (truthy (permitted_dispatcher d)) (truthy (vk_hash d))) ∧
    (j ← read_json file m'; instance_from_json_dict j) = Ok (md_mixer d) ∧ ∀ g, g ≠ file → m' !! g = m !! g.
Proof.
  eexists. split; [reflexivity|]. unfold load_mixer_description, read_json, read_file, write_file.
  rewrite lookup_insert_eq. cbn [of_option mbind result_bind].
  split; [|split; [|intros g Hg; by rewrite lookup_insert_ne]].
  - destruct d as [mi to p h]. unfold mixer_desc_from_json_dict, mixer_desc_to_json_dict, instance_to_json_dict.
    cbn [md_mixer app]. jsimp.
    unfold zeth_mixer_json, instance_from_json_dict at 1. cbn [md_token permitted_dispatcher vk_hash].
    jsimp. cbn [as_str mbind result_bind]. jsimp.
    destruct to as [t|], p as [[|pc p]|], h as [[|hc h]|]; destruct mi; try destruct t; reflexivity.
  - unfold mixer_desc_to_json_dict, instance_to_json_dict, instance_from_json_dict. cbn [app]. jsimp.
    cbn [as_str mbind result_bind]. jsimp. by destruct (md_mixer d).
Qed.

(** *** Names of files *)

Lemma split_name_app (a r name : str) : "/"%char ∉ a → split_name (a ++ r) name = split_name r (reverse a ++ name).
Proof.
  revert name. induction a as [|c a IH]; intros name Ha; [done|]. rewrite not_elem_of_cons in Ha. cbn [app split_name].
  rewrite decide_False by (intros ->; tauto). rewrite IH by tauto. by rewrite reverse_cons, <- app_assoc.
Qed.

Lemma split_dot_app (a b ext : str) : "."%char ∉ a →
  split_dot (a ++ "."%char :: b) ext = Some (reverse b, "."%char :: reverse a ++ ext).
Proof.
  revert ext. induction a as [|c a IH]; intros ext Ha; [done|]. rewrite not_elem_of_cons in Ha. cbn [app split_dot].
  rewrite decide_False by (intros ->; tauto). rewrite IH by tauto. by rewrite reverse_cons, <- app_assoc.
Qed.

(** A directory as a prefix of a path. *)
Definition dir_prefix (dir : str) : Prop := dir = [] ∨ ∃ d, dir = d ++ lit "/".

Lemma splitext_app (dir root ext : str) : dir_prefix dir → "/"%char ∉ root → "/"%char ∉ ext → "."%char ∉ ext →
  (∃ c, c ∈ root ∧ c ≠ "."%char) →
  splitext (dir ++ root ++ "."%char :: ext) = (dir ++ root, "."%char :: ext).
Proof.
  intros Hd Hr He He' (c & Hc & Hcd). unfold splitext.
  assert (split_name (reverse (dir ++ root ++ "."%char :: ext)) [] = (reverse dir, root ++ "."%char :: ext)) as ->.
  { rewrite reverse_app, split_name_app.
    - rewrite reverse_involutive, app_nil_r. destruct Hd as [->|[d ->]]; [done|]. rewrite reverse_app. done.
    - rewrite elem_of_reverse, not_elem_of_app, not_elem_of_cons. done. }
  rewrite reverse_app, reverse_cons, <- app_assoc. cbn [app]. rewrite split_dot_app by by rewrite elem_of_reverse.
  rewrite !reverse_involutive, app_nil_r.
  assert (forallb (λ c, bool_decide (c = "."%char)) root = false) as ->; [|done].
  apply not_true_is_false. rewrite forallb_forall. intros Hall. apply Hcd.
  apply (bool_decide_eq_true_1 (c = "."%char)), Hall, list_elem_of_In, Hc.
Qed.

Lemma pub_address_file_app (dir root ext : str) : dir_prefix dir → "/"%char ∉ root → "/"%char ∉ ext → "."%char ∉ ext →
  (∃ c, c ∈ root ∧ c ≠ "."%char) →
  pub_address_file (dir ++ root ++ "."%char :: ext) = dir ++ root ++ lit ".pub".
Proof. intros. unfold pub_address_file. rewrite splitext_app by done. cbn [fst]. by rewrite <- app_assoc. Qed.

(** *** Addresses in files *)

Lemma address_text_roundtrip `{NoteCryptoLaws} (a : bytes) (k : EncryptionPublicKey) : length a = 32%nat →
  address_str (mkAddrPub a k) = Ok (hex a ++ ":"%char :: encryption_public_key_as_hex k) ∧
  address_parse (hex a ++ ":"%char :: encryption_public_key_as_hex k) = Ok (mkAddrPub a k).
Proof.
  intros Ha. split.
  - unfold address_str. cbn [pub_a_pk pub_k_pk]. by rewrite ownership_key_hex.
  - rewrite (address_parse_pair _ (hex a) (encryption_public_key_as_hex k)).
    + unfold encryption_public_key_from_hex, encryption_public_key_as_hex, encode_encryption_public_key.
      rewrite !fromhex_hex. cbn [mbind result_bind]. unfold decode_encryption_public_key. by rewrite pk_roundtrip.
    + rewrite split_on_app by apply colon_not_hex. by rewrite split_on_none by apply colon_not_hex.
Qed.

Lemma secret_json_roundtrip `{NoteCryptoLaws} (s : bytes) (ks : EncryptionSecretKey) : length s = 32%nat →
  ∃ j, priv_to_json_dict (mkAddrPriv s ks) = Ok j ∧ priv_from_json_dict j = Ok (mkAddrPriv s ks).
Proof.
  intros Hs. unfold priv_to_json_dict. cbn [priv_a_sk priv_k_sk]. rewrite ownership_key_hex by done.
  cbn [mbind result_bind]. eexists. split; [done|].
  unfold priv_from_json_dict, jget_text. jsimp. cbn [as_str mbind result_bind].
  unfold ownership_secret_key_from_hex. rewrite fromhex_hex. cbn [mbind result_bind]. jsimp. cbn [as_str mbind result_bind].
  unfold encryption_secret_key_from_hex, encryption_secret_key_as_hex, encode_encryption_secret_key.
  rewrite fromhex_hex. cbn [mbind result_bind]. by rewrite sk_roundtrip.
Qed.

Lemma comma_not_hex b : ","%char ∉ hex b.
Proof.
  assert (","%char ∉ alphabet) by (apply (bool_decide_unpack _); by vm_compute).
  by apply not_in_alphabet; [|apply hex_alphabet].
Qed.

(** What [gen_address] does when neither file exists: both texts are written, the
    public one last. *)
Lemma gen_address_spec `{NoteCryptoLaws} `{EthAbiLaws} (f : str) (m : fs) (a_sk : bytes) (k_sk : EncryptionSecretKey) :
  length a_sk = 32%nat → m !! f = None → m !! pub_address_file f = None →
  ∃ a_pk j, let addr := mkAddr (mkAddrPub a_pk (sk_public_key k_sk)) (mkAddrPriv a_sk k_sk) in
    generate_zeth_address a_sk k_sk = Ok addr ∧ length a_pk = 32%nat ∧
    priv_from_json_dict j = Ok (addr_sk addr) ∧
    gen_address f a_sk k_sk m =
      (Ok tt, <[pub_address_file f := CText (hex a_pk ++ ":"%char :: encryption_public_key_as_hex (sk_public_key k_sk))]>
                (<[f := CJson j]> m)).
Proof.
  intros Hs Hf Hp. destruct (secret_json_roundtrip a_sk k_sk Hs) as (j & Ej & Hj).
  set (a_pk := blake2s (to_be 32 (left_leg a_sk) ++ zero_bytes 32)). exists a_pk, j. intros addr.
  assert (generate_zeth_address a_sk k_sk = Ok addr) as Egen.
  { unfold generate_zeth_address, gen_ownership_keypair. by rewrite derive_a_pk_spec. }
  assert (length a_pk = 32%nat) as Hl by apply blake2s_length.
  destruct (address_text_roundtrip a_pk (sk_public_key k_sk) Hl) as [Et _].
  split_and!; [done..|]. unfold gen_address, bind, f_exists, gets.
  rewrite (proj2 (exists_file_false f m) Hf). unfold raise_when, ret, lift.
  rewrite (proj2 (exists_file_false _ m) Hp), Egen.
  unfold write_zeth_address_secret, write_zeth_address_public, bind, lift, f_write, modify, write_file.
  unfold addr. cbn [addr_sk addr_pk]. rewrite Ej, Et. by rewrite !insert_insert_eq.
Qed.

Lemma gen_address_refuses `{NoteCrypto} `{EthAbi} (f : str) (m : fs) (a_sk : bytes) (k_sk : EncryptionSecretKey) :
  is_Some (m !! f) ∨ is_Some (m !! pub_address_file f) → gen_address f a_sk k_sk m = (Err ClickException, m).
Proof.
  intros Hm. unfold gen_address, bind, f_exists, gets. destruct (exists_file f m) eqn:E; [done|].
  destruct Hm as [Hm|Hm]; [by rewrite (proj2 (exists_file_true f m) Hm) in E|].
  unfold raise_when, ret. by rewrite (proj2 (exists_file_true _ m) Hm).
Qed.

(** An output specification of two parts that names a file with an address. *)
Lemma parse_output_file `{NoteCrypto} `{Web3Units} (addr v t : str) (m : fs) :
  ","%char ∉ addr → ","%char ∉ v → m !! addr = Some (CText t) →
  parse_output (addr ++ ","%char :: v) m = (a ← address_parse t; w ← EtherValue.of_str v; Ok (a, w)).
Proof.
  intros Ha Hv Hm. unfold parse_output. rewrite split_on_app, split_on_none by done. cbn [mbind result_bind].
  rewrite (proj2 (exists_file_true addr m)) by by eexists. unfold read_text, read_file. by rewrite Hm.
Qed.

(** And one that holds the address. *)
Lemma parse_output_text `{NoteCrypto} `{Web3Units} (addr v : str) (m : fs) :
  ","%char ∉ addr → ","%char ∉ v → m !! addr = None →
  parse_output (addr ++ ","%char :: v) m = (a ← address_parse addr; w ← EtherValue.of_str v; Ok (a, w)).
Proof.
  intros Ha Hv Hm. unfold parse_output. rewrite split_on_app, split_on_none by done. cbn [mbind result_bind].
  by rewrite (proj2 (exists_file_false addr m) Hm).
Qed.

(** ** Properties *)

(** [gen_address] and the commands that use its files.  When neither file
    exists, it writes the address that is generated: the commands load it, the public
    file is found, and a payer reads it from an output specification with the name of
    the public file or with its text.  A second call, with other secrets, is refused
    and changes nothing; so is no other file. *)
Theorem gen_address_exchange `{NoteCryptoLaws} `{EthAbiLaws} `{Web3Units} (f v : str) (m : fs) (a_sk : bytes)
    (k_sk : EncryptionSecretKey) (amount : EtherValue.t) (Hs : length a_sk = 32%nat)
    (Hf : m !! f = None ∧ m !! pub_address_file f = None) (Hne : pub_address_file f ≠ f)
    (Hc : ","%char ∉ pub_address_file f) (Hv : (","%char ∉ v) ∧ EtherValue.of_str v = Ok amount) :
  ∃ addr t m', generate_zeth_address a_sk k_sk = Ok addr ∧ gen_address f a_sk k_sk m = (Ok tt, m') ∧
    load_zeth_address f m' = Ok addr ∧ find_pub_address_file f m' = Ok (pub_address_file f) ∧
    address_str (addr_pk addr) = Ok t ∧
    parse_output (pub_address_file f ++ ","%char :: v) m' = Ok (addr_pk addr, amount) ∧
    (∀ m2 : fs, m2 !! t = None → parse_output (t ++ ","%char :: v) m2 = Ok (addr_pk addr, amount)) ∧
    (∀ a_sk' k_sk', gen_address f a_sk' k_sk' m' = (Err ClickException, m')) ∧
    (∀ g, g ≠ f → g ≠ pub_address_file f → m' !! g = m !! g).
Proof.
  destruct Hf as [Hf Hp], Hv as [Hv Ev]. destruct (gen_address_spec f m a_sk k_sk Hs Hf Hp) as (a_pk & j & E & Hl & Hj & Eg).
  destruct (address_text_roundtrip a_pk (sk_public_key k_sk) Hl) as [Et Ep]. do 3 eexists.
  split_and!; [exact E | exact Eg | | | exact Et | | | | ].
  - unfold load_zeth_address, load_zeth_address_secret, load_zeth_address_public, read_json, read_text, read_file.
    rewrite (lookup_insert_ne _ (pub_address_file f) f) by done. rewrite !lookup_insert_eq. cbn [of_option mbind result_bind]. rewrite Hj. cbn [mbind result_bind].
    by rewrite Ep.
  - unfold find_pub_address_file. rewrite (proj2 (exists_file_true _ _)); [done|]. rewrite lookup_insert_eq. by eexists.
  - rewrite (parse_output_file _ _ _ _ Hc Hv (lookup_insert_eq _ _ _)), Ep. cbn [mbind result_bind]. by rewrite Ev.
  - intros m2 Hm2. rewrite parse_output_text; [|rewrite not_elem_of_app, not_elem_of_cons; split_and!; [apply comma_not_hex | by intros [=] | apply comma_not_hex]|done..].
    rewrite Ep. cbn [mbind result_bind]. by rewrite Ev.
  - intros a' k'. apply gen_address_refuses. right. rewrite lookup_insert_eq. by eexists.
  - intros g Hgf Hgp. by rewrite !lookup_insert_ne.
Qed.

(** When the name of the address file already has the extension of public files, the
    two files are one: the secret is written, then overwritten by the public address,
    and no command can load it. *)
Theorem gen_address_pub_name `{NoteCryptoLaws} `{EthAbiLaws} (dir root : str) (m : fs) (a_sk : bytes)
    (k_sk : EncryptionSecretKey) (Hs : length a_sk = 32%nat) (Hd : dir_prefix dir) (Hr : "/"%char ∉ root)
    (Hc : ∃ c, c ∈ root ∧ c ≠ "."%char) (Hm : m !! (dir ++ root ++ lit ".pub") = None) :
  let f := dir ++ root ++ lit ".pub" in
  ∃ t, gen_address f a_sk k_sk m = (Ok tt, <[f := CText t]> m) ∧
    load_zeth_address f (<[f := CText t]> m) = Err ValueError.
Proof.
  intros f. assert (pub_address_file f = f) as Ef.
  { unfold f. apply (pub_address_file_app dir root (lit "pub") Hd Hr); [by apply (bool_decide_unpack _); vm_compute..|done]. }
  destruct (gen_address_spec f m a_sk k_sk Hs Hm ltac:(by rewrite Ef)) as (a_pk & j & _ & _ & _ & ->).
  rewrite Ef, insert_insert_eq. eexists. split; [reflexivity|].
  unfold load_zeth_address, load_zeth_address_secret, read_json, read_file. by rewrite lookup_insert_eq.
Qed.

Lemma add_wei `{Web3UnitsLaws} (a b : EtherValue.t) : 0 ≤ EtherValue.wei a + EtherValue.wei b < 2 ^ 256 →
  EtherValue.add a b = Ok (EtherValue.mk (EtherValue.wei a + EtherValue.wei b)).
Proof. intros Hr. unfold EtherValue.add, EtherValue.of_int. by rewrite toWei_wei. Qed.

Lemma sum_values_spec `{Web3UnitsLaws} (l : list EtherValue.t) :
  Forall (λ v, 0 ≤ EtherValue.wei v) l → foldr Z.add 0 (EtherValue.wei <$> l) < 2 ^ 256 →
  sum_values l = Ok (EtherValue.mk (foldr Z.add 0 (EtherValue.wei <$> l))).
Proof.
  intros Hl Hs. unfold sum_values, EtherValue.of_int. rewrite toWei_zero. cbn [fmap result_fmap mbind result_bind].
  assert (∀ z, 0 ≤ z → z + foldr Z.add 0 (EtherValue.wei <$> l) < 2 ^ 256 →
    foldM EtherValue.add (EtherValue.mk z) l = Ok (EtherValue.mk (z + foldr Z.add 0 (EtherValue.wei <$> l)))) as Hgen;
    [|rewrite Hgen by lia; by rewrite Z.add_0_l].
  clear Hs. induction Hl as [|v l Hv Hl IH]; intros z Hz Hs; cbn [foldM fmap list_fmap foldr] in *; [by rewrite Z.add_0_r|].
  assert (0 ≤ foldr Z.add 0 (EtherValue.wei <$> l)) by (clear -Hl; induction Hl; cbn in *; lia).
  rewrite add_wei by (cbn [EtherValue.wei fmap] in *; lia). cbn [mbind result_bind EtherValue.wei]. rewrite IH by (cbn [fmap] in *; lia). do 2 f_equal. cbn [fmap]. lia.
Qed.

(** The checks of [mix]: with readable notes and outputs whose amounts fit the words of
    the chain, the call goes on exactly when public input and input notes balance
    public output and output notes. *)
Theorem mix_notes_balance `{NoteCrypto} `{Web3UnitsLaws} (w : Wallet) (dir : WalletDir) (m : fs)
    (ids specs : list str) vi vo inputs outputs us
    (Hvi : 0 ≤ EtherValue.wei vi) (Hvo : 0 ≤ EtherValue.wei vo)
    (Hin : mapM (λ id, d ← find_note w dir id; Ok (as_input d)) ids = Ok inputs)
    (Hout : mapM (λ s, parse_output s m) specs = Ok outputs)
    (Hus : mapM (λ x : Z * ZethNote, int_of_str 16 (value x.2)) inputs = Ok us)
    (Hpos : Forall (λ u, 0 ≤ u) us ∧ Forall (λ v, 0 ≤ EtherValue.wei v) (snd <$> outputs)) :
  let sin := foldr Z.add 0 us * ZETH_PUBLIC_UNIT_VALUE in
  let sout := foldr Z.add 0 (EtherValue.wei <$> (snd <$> outputs)) in
  EtherValue.wei vi + sin < 2 ^ 256 → EtherValue.wei vo + sout < 2 ^ 256 →
  mix_notes w dir m vi vo ids specs =
    if decide (EtherValue.wei vi + sin = EtherValue.wei vo + sout) then Ok (inputs, outputs) else Err ClickException.
Proof.
  intros sin sout Hi Ho. destruct Hpos as [Hu Hv].
  assert (0 ≤ sin) as Hsin.
  { assert (0 ≤ foldr Z.add 0 us) by (clear -Hu; induction Hu; cbn in *; lia).
    unfold sin, ZETH_PUBLIC_UNIT_VALUE. lia. }
  assert (0 ≤ sout) as Hsout by (unfold sout; clear -Hv; induction Hv; cbn in *; lia).
  unfold mix_notes. rewrite Hin, Hout. cbn [mbind result_bind]. rewrite Hus. cbn [mbind result_bind].
  unfold from_zeth_units, EtherValue.of_int at 1. fold sin. rewrite toWei_wei by lia. cbn [fmap result_fmap mbind result_bind].
  rewrite sum_values_spec by (done || lia). cbn [mbind result_bind]. fold sout.
  rewrite !add_wei by (cbn [EtherValue.wei]; lia). cbn [mbind result_bind].
  unfold EtherValue.neb, EtherValue.eqb. cbn [EtherValue.wei].
  destruct (Z.eqb_spec (EtherValue.wei vi + sin) (EtherValue.wei vo + sout)); cbn [negb raise_if mbind result_bind].
  - by rewrite decide_True.
  - by rewrite decide_False.
Qed.

(** More notes than the circuit takes are refused. *)
Theorem mix_sanity_limits `{Web3Units} (vin vout : str) (ids specs : list str) :
  (JS_INPUTS < zlen ids ∨ JS_OUTPUTS < zlen specs → mix_sanity vin vout ids specs = Err ClickException) ∧
  (∀ vi vo, mix_sanity vin vout ids specs = Ok (vi, vo) ↔
     zlen ids ≤ JS_INPUTS ∧ zlen specs ≤ JS_OUTPUTS ∧ EtherValue.of_str vin = Ok vi ∧ EtherValue.of_str vout = Ok vo).
Proof.
  unfold mix_sanity. destruct (Z.ltb_spec JS_INPUTS (zlen ids)); cbn [raise_if mbind result_bind];
    [split; [done|]; intros vi vo; split; [done|]; lia|].
  destruct (Z.ltb_spec JS_OUTPUTS (zlen specs)); cbn [raise_if mbind result_bind];
    [split; [done|]; intros vi vo; split; [done|]; lia|].
  split; [lia|]. intros vi vo. destruct (EtherValue.of_str vin) as [x|]; [|split; [done | by intros (_ & _ & ? & _)]].
  cbn [mbind result_bind]. destruct (EtherValue.of_str vout) as [y|]; [|split; [done | by intros (_ & _ & _ & ?)]].
  cbn [mbind result_bind]. split; [intros [= -> ->]; done | by intros (_ & _ & [= ->] & [= ->])].
Qed.

(** ** Concrete inputs *)

Module CliSample.
#[local] Existing Instance ToyCrypto.toy.
#[local] Existing Instance ToyCrypto.toy_laws.

#[local] Instance abi : EthAbi := {|
  encode_single_bytes32 b := Ok b;
  encode_abi_bytes32_2 a b := Ok (a ++ b)
|}.
#[local] Instance abi_laws : EthAbiLaws.
Proof. by split. Qed.

#[local] Instance units : Web3Units := {|
  toWei z _ := Ok z;
  toWei_str s _ := int_of_str 10 s;
  fromWei_ether w := str_of_int w
|}.

Definition secret_file : str := lit "keys/zeth-address.priv".

Example secret_file_public : pub_address_file secret_file = lit "keys/zeth-address.pub".
Proof. reflexivity. Qed.

(** What [cli/constants.py] asks of the defaults. *)
Example default_files : pub_address_file ZETH_SECRET_ADDRESS_FILE_DEFAULT = ZETH_PUBLIC_ADDRESS_FILE_DEFAULT.
Proof. reflexivity. Qed.

Example hidden_file_public : pub_address_file (lit "keys/.address") = lit "keys/.address.pub".
Proof. reflexivity. Qed.

Example default_network : get_eth_network None ∅ = Ok (mkNetwork (lit "ganache") (lit "http://localhost:8545") None false).
Proof. reflexivity. Qed.

Lemma gen_address_exchange_witness :
  ∃ addr t m', generate_zeth_address (to_be 32 5) ToyCrypto.k5 = Ok addr ∧
    gen_address secret_file (to_be 32 5) ToyCrypto.k5 ∅ = (Ok tt, m') ∧
    load_zeth_address secret_file m' = Ok addr ∧
    find_pub_address_file secret_file m' = Ok (pub_address_file secret_file) ∧
    address_str (addr_pk addr) = Ok t ∧
    parse_output (pub_address_file secret_file ++ ","%char :: lit "12") m' = Ok (addr_pk addr, EtherValue.mk 12) ∧
    (∀ m2 : fs, m2 !! t = None → parse_output (t ++ ","%char :: lit "12") m2 = Ok (addr_pk addr, EtherValue.mk 12)) ∧
    (∀ a_sk' k_sk', gen_address secret_file a_sk' k_sk' m' = (Err ClickException, m')) ∧
    (∀ g, g ≠ secret_file → g ≠ pub_address_file secret_file → m' !! g = (∅ : fs) !! g).
Proof.
  apply (gen_address_exchange secret_file (lit "12") ∅ (to_be 32 5) ToyCrypto.k5 (EtherValue.mk 12)).
  - reflexivity.
  - split; apply lookup_empty.
  - apply (bool_decide_unpack _). vm_compute. exact I.
  - apply (bool_decide_unpack _). vm_compute. exact I.
  - split; [apply (bool_decide_unpack _); vm_compute; exact I | reflexivity].
Defined.
End CliSample.
