(* ===== verification/Commands.v ===== *)
(** * Commands of the client ([cli/zeth_*.py]) and transactions ([core/contracts.py])

    The state of a command is the working directory and the chain.  The node is the
    class [Web3] over an abstract type of chains, the Solidity compiler the class
    [Solc]; what the prover answers and the random values are arguments.  The checks
    that [web3] makes of the arguments of a call belong to the operations that sign or
    send it. *)

From Stdlib Require Import ZArith Lia Ascii String.
From stdpp Require Import base tactics list gmap sorting strings.
From S2P Require Import Prelude PyStr PyBytes PyIO Hashes Constants Utils MerkleTree MerkleTreeFacts Mimc Pairing ZkSnark Signing Encryption Notes Contracts MixerClient MixerFacts Wallet WalletFacts WalletSync PyState Prover Cli.

Local Open Scope Z_scope.
Local Open Scope sm_scope.

(** ** Contract calls *)

(** What [solcx] returns for one contract. *)
Record Compiled : Type := mkCompiled { c_abi : json; c_bin : str }.

(** The arguments of the constructor of the mixer. *)
Record ConstructorParameters : Type := mkConstructor {
  mk_depth : Z; cp_token : str; cp_vk : list Z; cp_dispatcher : str; cp_vk_hash : list Z
}.

(** The calls that the client makes. *)
Inductive Call : Type :=
| MixCall (mixer : InstanceDescription) (args : list Z * list Z * Z * list Z * list bytes)
| ConstructorCall (compiled : Compiled) (args : ConstructorParameters)
| TokenConstructorCall (compiled : Compiled)
| ApproveCall (token : InstanceDescription) (spender : str) (value : Z)
| MintCall (token : InstanceDescription) (recipient : str) (value : Z).

Class Web3 (Chain : Type) := {
  gasPrice : Chain → result Z;
  getTransactionCount : str → Chain → result Z;
  (** [call.buildTransaction] and [account.signTransaction], with the gas price and the
      nonce of the description; the raw transaction *)
  signTransaction : Call → TxDesc → Z → Z → bytes → Chain → result bytes;
  sendRawTransaction : bytes → SM Chain bytes;
  transact : Call → TxDesc → SM Chain bytes;
  (** [call.call] *)
  call_locally : Call → TxDesc → Chain → result unit;
  (** the address of the contract in the receipt *)
  waitForTransactionReceipt : bytes → SM Chain str
}.

Class Solc := { solc_compile : list str → result (list (str * Compiled)) }.

Section contracts.
Context `{Web3 Chain}.

Definition query {A} (f : Chain → result A) : SM Chain A := λ c, (f c, c).

(** [send_contract_call]; an empty key is none. *)
Definition send_contract_call (call : Call) (sender_eth_addr : str) (sender_eth_private_key : option bytes)
    (value : option EtherValue.t) (gas : option Z) : SM Chain bytes :=
  let tx_desc := contract_call_desc sender_eth_addr value gas in
  match sender_eth_private_key with
  | Some (b :: key) =>
      price <- query gasPrice ;;
      nonce <- query (getTransactionCount sender_eth_addr) ;;
      rawTransaction <- query (signTransaction call tx_desc price nonce (b :: key)) ;;
      sendRawTransaction rawTransaction
  | _ => transact call tx_desc
  end.

Definition local_contract_call (call : Call) (sender_eth_addr : str) (value : option EtherValue.t) (gas : option Z)
    : SM Chain unit :=
  query (call_locally call (contract_call_desc sender_eth_addr value gas)).

(** [InstanceDescription.compile] and [InstanceDescription.deploy], without compiler
    flags. *)
Definition compile `{Solc} (source_file contract_name : str) : result Compiled :=
  compiled_all ← solc_compile [source_file];
  _ ← py_assert (negb (bool_decide (compiled_all = [])));
  of_option KeyError (assoc (source_file ++ lit ":" ++ contract_name) compiled_all).

Definition deploy_from_compiled (deployer_eth_address : str) (deployer_eth_private_key : option bytes)
    (deployment_gas : option Z) (compiled : Compiled) (args : ConstructorParameters) : SM Chain InstanceDescription :=
  tx_hash <- send_contract_call (ConstructorCall compiled args) deployer_eth_address deployer_eth_private_key None
               deployment_gas ;;
  contract_address <- waitForTransactionReceipt tx_hash ;;
  ret (mkInstance contract_address (c_abi compiled)).

Definition deploy_instance `{Solc} (source_file contract_name deployer_eth_address : str)
    (deployer_eth_private_key : option bytes) (deployment_gas : option Z) (args : ConstructorParameters)
    : SM Chain InstanceDescription :=
  compiled <- lift (compile source_file contract_name) ;;
  deploy_from_compiled deployer_eth_address deployer_eth_private_key deployment_gas compiled args.
End contracts.

(** ** Directories and the interface of tokens *)

(** The two directories, from the environment or below the directory [package_root] that
    the package is installed in. *)
Definition get_zeth_dir (env : list (str * str)) (package_root : str) : str :=
  match assoc (lit "ZETH") env with Some d => d | None => package_root end.

Definition get_contracts_dir (env : list (str * str)) (package_root : str) : str :=
  match assoc (lit "ZETH_CONTRACTS_DIR") env with
  | Some d => d
  | None => path_join (path_join (get_zeth_dir env package_root) (lit "zeth_contracts")) (lit "contracts")
  end.

Definition get_erc20_abi `{Solc} (zeth_dir : str) : result json :=
  let openzeppelin_dir :=
    path_join (path_join (path_join zeth_dir (lit "zeth_contracts")) (lit "node_modules")) (lit "openzeppelin-solidity") in
  let ierc20_path :=
    path_join (path_join (path_join (path_join openzeppelin_dir (lit "contracts")) (lit "token")) (lit "ERC20")) (lit "IERC20.sol") in
  compiled_sol ← solc_compile [ierc20_path];
  erc20_interface ← of_option KeyError (assoc (ierc20_path ++ lit ":IERC20") compiled_sol);
  Ok (c_abi erc20_interface).

Definition get_erc20_instance_description `{Solc} (zeth_dir token_address : str) : result InstanceDescription :=
  abi ← get_erc20_abi zeth_dir; Ok (mkInstance token_address abi).

(** ** The client's context *)

Record ClientConfig : Type := mkClientConfig {
  cc_eth_network : option str; prover_server_endpoint : str; cc_prover_config_file : str;
  instance_file : str; address_file : str
}.

(** Which contract a call goes to, from [_create_mix_call]. *)
Definition _create_mix_call `{BN128} (mixer : InstanceDescription) (zksnark_name : str) (pp : PairingParameters)
    (p : MixParameters) : result Call :=
  zksnark ← ZkSnark.get_zksnark_provider zksnark_name;
  args ← mix_parameters_to_contract_arguments zksnark pp p;
  Ok (MixCall mixer args).

(** A value and the list of texts that a command prints. *)
Section commands.
Context `{Web3 Chain} `{BN128} `{NoteCrypto} `{Web3Units} `{EthAbi} `{Checksum} (keccak_256 : bytes → bytes).
Context (answer : result ProverConfigurationProto) (vk_answer : result VerificationKeyProto).
Context (prove : ProofInputs → result (ExtendedProofProto * list str)).

Definition CState : Type := fs * Chain.
Definition on_files {A} (m : SM fs A) : SM CState A := zoom fst (λ t st, (t, st.2)) m.
Definition on_chain {A} (m : SM Chain A) : SM CState A := zoom snd (λ t st, (st.1, t)) m.
Definition reads {A} (f : fs → result A) : SM CState A := λ st, (f st.1, st).

(** A method of a prover client, and the client that it leaves. *)
Definition on_prover {A} (pc : ProverClient) (m : SM PState A) : SM CState (A * ProverClient) := λ st,
  let '(r, (pc', files)) := m (pc, st.1) in ((λ a, (a, pc')) <$> r, (files, st.2)).

(** [MixerClient.mix]: the hash of the transaction as text *)
Definition send_mix (mixer : InstanceDescription) (config : ProverConfiguration) (p : MixParameters)
    (sender_eth_address : str) (sender_eth_private_key : option bytes) (tx_value : EtherValue.t) (call_gas : option Z)
    : SM Chain str :=
  mixer_call <- lift (_create_mix_call mixer (zksnark_name config) (pairing_parameters config) p) ;;
  tx_hash <- send_contract_call mixer_call sender_eth_address sender_eth_private_key (Some tx_value) call_gas ;;
  ret (hex tx_hash).

(** [MixerClient.mix_call]: only a [ValueError] of the call is caught. *)
Definition mix_call (mixer : InstanceDescription) (config : ProverConfiguration) (p : MixParameters)
    (sender_eth_address : str) (tx_value : EtherValue.t) (call_gas : option Z) : SM Chain bool :=
  mixer_call <- lift (_create_mix_call mixer (zksnark_name config) (pairing_parameters config) p) ;;
  try_except
    (local_contract_call mixer_call sender_eth_address (Some tx_value) call_gas ;;; ret true)
    (λ e, match e with ValueError => ret false | e => raise e end).

Definition create_prover_client (ctx : ClientConfig) : ProverClient :=
  new_ProverClient (prover_server_endpoint ctx) (Some (cc_prover_config_file ctx)).

(** The checks of [open_web3]. *)
Definition open_web3 (network : NetworkConfig) (m : fs) : result unit :=
  match truthy (certificate network) with
  | Some c => raise_if (negb (exists_file c m)) FileNotFoundError
  | None => Ok tt
  end.

Definition open_web3_from_ctx (ctx : ClientConfig) (m : fs) : result unit :=
  network ← get_eth_network (cc_eth_network ctx) m; open_web3 network m.

Definition create_mixer_client_and_mixer_desc (ctx : ClientConfig) (pc : ProverClient)
    : SM CState (MixerDescription * (ProverConfiguration * ProverClient)) :=
  reads (open_web3_from_ctx ctx) ;;;
  mixer_desc <- reads (load_mixer_description (instance_file ctx)) ;;
  client <- on_prover pc (get_configuration answer) ;;
  ret (mixer_desc, client).

Definition WALLET_USERNAME : str := lit "zeth".

(** [open_wallet] of [cli/utils.py]; [dir] is the wallet directory. *)
Definition open_cli_wallet (ctx : ClientConfig) (js_secret : ZethAddressPriv) (dir : WalletDir) : SM CState Wallet :=
  client <- on_prover (create_prover_client ctx) (get_configuration answer) ;;
  tree_hash <- lift (get_tree_hash_for_pairing keccak_256 (pp_name (pairing_parameters client.1))) ;;
  lift (open_wallet (H1 := mimc_tree_hash keccak_256 tree_hash) WALLET_USERNAME js_secret dir).

(** ** The command [mix] *)

Record MixOptions : Type := mkMixOptions {
  mo_vin : str; mo_vout : str; mo_inputs : list str; mo_outputs : list str;
  mo_eth_addr : option str; mo_eth_private_key : option str; mo_for_dispatch_call : bool;
  mo_dump_parameters : option str; mo_dump_signing_keypair : option str; mo_dry_run : bool
}.

(** The random values that the creation of the parameters draws. *)
Record MixDraws : Type := mkMixDraws {
  md_dummies : Z → bytes * bytes; md_dummy_k_sk : EncryptionSecretKey;
  md_rand : MixRandomness; md_ephs : Z → EncryptionSecretKey
}.

(** What [mix] has computed when it decides whether to send. *)
Record MixPlan : Type := mkMixPlan {
  pl_desc : MixerDescription; pl_config : ProverConfiguration; pl_params : MixParameters;
  pl_eth_address : str; pl_tx_value : EtherValue.t; pl_wallet : Wallet
}.

(** Writes a JSON file, which is emptied first, or prints for the name [-]. *)
Definition dump (file : option str) (j : result json) : SM CState unit :=
  match truthy file with
  | None => ret tt
  | Some f => if decide (f = lit "-") then lift j ;;; ret tt
              else on_files (f_write f (CText []) ;;; v <- lift j ;; f_write f (CJson v))
  end.

(** [create_mix_parameters_and_signing_key]: the client already holds the
    configuration, so that asking it for the proof changes nothing
    ([get_proof_cached]). *)
Definition create_params (draws : MixDraws) (config : ProverConfiguration) (pc : ProverClient) (w : Wallet)
    (zeth_address : ZethAddress) (eth_address : str) (inputs : list (Z * ZethNote))
    (outputs : list (ZethAddressPub * EtherValue.t)) (vin_pub vout_pub : EtherValue.t) (for_dispatch_call : bool) (m : fs)
    : result (MixParameters * SigningKeyPair) :=
  desc ← new_mix_call (merkle_tree w) (ownership_keypair zeth_address) inputs outputs vin_pub vout_pub None
           (md_dummies draws) (md_dummy_k_sk draws);
  create_mix_parameters_and_signing_key (zksnark_name config) (pairing_parameters config)
    (λ i, (get_proof answer prove i (pc, m)).1) desc (md_rand draws) (md_ephs draws) eth_address for_dispatch_call.

Definition prepare_mix (ctx : ClientConfig) (dir : WalletDir) (o : MixOptions) (draws : MixDraws) : SM CState MixPlan :=
  publics <- lift (mix_sanity (mo_vin o) (mo_vout o) (mo_inputs o) (mo_outputs o)) ;;
  client <- create_mixer_client_and_mixer_desc ctx (create_prover_client ctx) ;;
  zeth_address <- reads (load_zeth_address (address_file ctx)) ;;
  wallet <- open_cli_wallet ctx (addr_sk zeth_address) dir ;;
  notes <- reads (λ m, mix_notes wallet dir m publics.1 publics.2 (mo_inputs o) (mo_outputs o)) ;;
  eth_address <- reads (load_eth_address (mo_eth_addr o)) ;;
  tx_value <- lift (mix_tx_value client.1 publics.1) ;;
  params <- reads (create_params draws client.2.1 client.2.2 wallet zeth_address eth_address notes.1 notes.2
                     publics.1 publics.2 (mo_for_dispatch_call o)) ;;
  dump (mo_dump_parameters o) (mix_parameters_to_json_dict params.1) ;;;
  dump (mo_dump_signing_keypair o) (keypair_to_json_dict params.2) ;;;
  ret (mkMixPlan client.1 client.2.1 params.1 eth_address tx_value wallet).

(** The end of the command: the hash of the transaction that is sent. *)
Definition send_plan (o : MixOptions) (plan : MixPlan) : SM CState (option str) :=
  if mo_for_dispatch_call o || mo_dry_run o then ret None
  else
    eth_private_key_data <- reads (load_eth_private_key (mo_eth_private_key o)) ;;
    tx_hash <- on_chain (send_mix (md_mixer (pl_desc plan)) (pl_config plan) (pl_params plan) (pl_eth_address plan)
                           eth_private_key_data (pl_tx_value plan) None) ;;
    ret (Some tx_hash).

(** The command without [--wait]. *)
Definition mix_command (ctx : ClientConfig) (dir : WalletDir) (o : MixOptions) (draws : MixDraws) : SM CState (option str) :=
  plan <- prepare_mix ctx dir o draws ;; send_plan o plan.

(** ** The command [deploy] *)

Definition deploy_mixer `{Solc} (contracts_dir : str) (pc : ProverClient) (deployer_eth_address : str)
    (deployer_eth_private_key : option bytes) (token_address permitted_dispatcher vk_hash : option str)
    (deploy_gas : option Z) : SM CState InstanceDescription :=
  client <- on_prover pc (get_configuration answer) ;;
  let prover_config := client.1 in
  vk <- on_prover client.2 (Prover.get_verification_key answer vk_answer) ;;
  zksnark <- lift (ZkSnark.get_zksnark_provider (zksnark_name prover_config)) ;;
  let pp := pairing_parameters prover_config in
  mixer_name <- lift (get_contract_name zksnark pp) ;;
  let mixer_src := path_join contracts_dir (mixer_name ++ lit ".sol") in
  vk_hash_evm <- lift (match truthy vk_hash with Some h => hex_to_uint256_list h | None => Ok [0; 0] end) ;;
  assert (zlen vk_hash_evm =? 2) ;;;
  vk_params <- lift (verification_key_to_contract_parameters zksnark vk.1 pp) ;;
  let constructor_parameters :=
    mkConstructor ZETH_MERKLE_TREE_DEPTH (str_or token_address ZERO_ADDRESS) vk_params
      (str_or permitted_dispatcher ZERO_ADDRESS) vk_hash_evm in
  on_chain (deploy_instance mixer_src mixer_name deployer_eth_address deployer_eth_private_key deploy_gas
              constructor_parameters).

Record DeployOptions : Type := mkDeployOptions {
  do_eth_addr : option str; do_eth_private_key : option str; instance_out : str;
  do_token_address : option str; do_permitted_dispatcher : option str; do_vk_hash : option str; do_deploy_gas : option Z
}.

(** [erc20_abi] is what [get_erc20_abi] returns or raises. *)
Definition deploy `{Solc} (contracts_dir : str) (erc20_abi : result json) (ctx : ClientConfig) (o : DeployOptions)
    : SM CState unit :=
  eth_address <- reads (load_eth_address (do_eth_addr o)) ;;
  eth_private_key_data <- reads (load_eth_private_key (do_eth_private_key o)) ;;
  reads (open_web3_from_ctx ctx) ;;;
  let has {A} (x : option A) := match x with Some _ => true | None => false end in
  raise_when (negb (bool_decide (has (truthy (do_permitted_dispatcher o)) = has (truthy (do_vk_hash o))))) ClickException ;;;
  permitted_dispatcher <- reads (λ m, match truthy (do_permitted_dispatcher o) with
                                      | Some d => Some <$> load_contract_address d m
                                      | None => Ok (do_permitted_dispatcher o)
                                      end) ;;
  token <- lift (match truthy (do_token_address o) with
                 | Some a => abi ← erc20_abi; Ok (Some (mkInstance a abi))
                 | None => Ok None
                 end) ;;
  mixer <- deploy_mixer contracts_dir (create_prover_client ctx) eth_address eth_private_key_data
             (do_token_address o) permitted_dispatcher (do_vk_hash o) (do_deploy_gas o) ;;
  on_files (write_mixer_description (instance_out o) (mkMixerDesc mixer token permitted_dispatcher (do_vk_hash o))).
End commands.

(** ** The command [ls_notes] *)

(** The notes that are printed, with the total and the spent notes when they are asked
    for. *)
Definition ls_notes `{NoteCrypto} `{Web3Units} (w : Wallet) (dir : WalletDir) (balance spent : bool)
    : result (list (Z * str * EtherValue.t) * option EtherValue.t * option (list (Z * str * EtherValue.t))) :=
  zero ← EtherValue.of_int 0 (lit "ether");
  notes ← note_summaries w dir;
  total ← foldM (λ total x, EtherValue.add total x.2) zero notes;
  let shown := if balance : bool then Some total else None in
  if spent : bool then s ← spent_note_summaries w dir; Ok (notes, shown, Some s)
  else Ok (notes, shown, None).

(** The texts that the command [ls_commits] prints for the leaves of the tree. *)
Definition ls_commits `{NoteCrypto} (w : Wallet) : result (list str) :=
  leaves ← MerkleTree.get_leaves (merkle_tree w); Ok (map short_commitment leaves).

(** ** Lemmas *)

Lemma zoom_inv {S T A} (proj : S → T) (upd : T → S → S) (m : SM T A) s r s' : zoom proj upd m s = (r, s') →
  ∃ t, m (proj s) = (r, t) ∧ s' = upd t s.
Proof. unfold zoom. destruct (m (proj s)) as [r' t] eqn:E. intros [= -> <-]. eauto. Qed.

(** *** What a command changes *)

(** The chain is the same, and so are the files outside of a set. *)
Definition touches {Chain} (allowed : str → Prop) (s s' : CState (Chain := Chain)) : Prop :=
  s'.2 = s.2 ∧ ∀ g, ¬ allowed g → s'.1 !! g = s.1 !! g.

#[export] Instance touches_preorder {Chain} allowed : PreOrder (touches (Chain := Chain) allowed).
Proof.
  split; [by intros s; unfold touches|]. intros a b c [E1 F1] [E2 F2]. split; [by rewrite E2|].
  intros g Hg. by rewrite F2, F1.
Qed.

Lemma touches_mono {Chain} (P Q : str → Prop) (s s' : CState (Chain := Chain)) : (∀ g, P g → Q g) → touches P s s' → touches Q s s'.
Proof. intros HPQ [E F]. split; [done|]. intros g Hg. apply F. intros Hp. by apply Hg, HPQ. Qed.

Lemma keeps_disk_read {Chain A} (R : CState (Chain := Chain) → CState → Prop) `{!Reflexive R} (f : fs → result A) : keeps R (reads f).
Proof. by intros s. Qed.

(** A prover client changes its cache file only. *)
Definition caches (f : str) (s s' : PState) : Prop :=
  prover_config_file s.1 = Some f → prover_config_file s'.1 = Some f ∧ ∀ g, g ≠ f → s'.2 !! g = s.2 !! g.

#[export] Instance caches_preorder f : PreOrder (caches f).
Proof.
  split; [by intros s|]. intros a b c Hab Hbc Ha. destruct (Hab Ha) as [Hb Fb]. destruct (Hbc Hb) as [Hc Fc].
  split; [done|]. intros g Hg. by rewrite Fc, Fb.
Qed.

Lemma keeps_fetch (f : str) answer : keeps (caches f) (fetch_configuration answer).
Proof.
  intros [pc m] Hf. unfold fetch_configuration, bind, lift. cbn [fst snd] in *. destruct answer as [p|e]; [|done].
  destruct (prover_configuration_from_proto p) as [c|e]; [|done].
  unfold on_client, zoom, modify, gets. cbn [fst snd set_prover_config prover_config_file]. rewrite Hf.
  cbn. split; [done|]. intros g Hg. unfold write_file. by rewrite lookup_insert_ne.
Qed.

(** [get_configuration] by cases. *)
Lemma get_configuration_cases answer pc m :
  get_configuration answer (pc, m) =
    match prover_config pc, prover_config_file pc with
    | Some c, _ => (Ok c, (pc, m))
    | None, None => fetch_configuration answer (pc, m)
    | None, Some f =>
        if exists_file f m then
          match (j ← read_json f m; prover_config_from_json_dict j) with
          | Ok c => (Ok c, (set_prover_config c pc, m))
          | Err _ => fetch_configuration answer (pc, delete f m)
          end
        else fetch_configuration answer (pc, m)
    end.
Proof.
  unfold get_configuration, bind, on_client, on_disk, zoom, gets, f_exists. cbn [fst snd]. unfold gets.
  destruct (prover_config pc) as [c|]; [done|]. cbn [fst snd]. destruct (prover_config_file pc) as [f|]; [|done].
  cbn. destruct (exists_file f m) eqn:Ex; [|done]. apply exists_file_true in Ex as [b Hb].
  assert (f_remove f m = (Ok tt, delete f m)) as Hrm by (unfold f_remove, remove_file; by rewrite Hb).
  unfold try_except, f_read_json, lift. cbn -[read_json]. destruct (read_json f m) as [j|e]; cbn [mbind result_bind fst snd].
  - destruct (prover_config_from_json_dict j) as [c|e]; [done|]. cbn [fst snd]. by rewrite Hrm.
  - by rewrite Hrm.
Qed.

Lemma keeps_get_configuration (f : str) answer : keeps (caches f) (get_configuration answer).
Proof.
  intros [pc m] Hf. pose proof (keeps_fetch f answer) as Hfetch. cbn [fst snd] in *.
  rewrite get_configuration_cases, Hf. destruct (prover_config pc) as [c|]; [done|].
  destruct (exists_file f m); [|by apply (Hfetch (pc, m))].
  destruct (j ← read_json f m; prover_config_from_json_dict j) as [c|e]; [done|].
  assert (caches f (pc, m) (pc, delete f m)) as Hdel.
  { intros _. split; [done|]. intros g Hg. cbn [snd]. by rewrite lookup_delete_ne. }
  apply (transitivity Hdel (Hfetch (pc, delete f m)) Hf).
Qed.

Lemma fetch_caches answer pc m c s' : fetch_configuration answer (pc, m) = (Ok c, s') → prover_config s'.1 = Some c.
Proof.
  intros E. unfold fetch_configuration in E. apply bind_inv in E as (p & s1 & [= -> <-] & E).
  apply bind_inv in E as (c' & s2 & E2 & E). unfold lift in E2. apply pair_equal_spec in E2 as [_ <-].
  unfold bind, on_client, zoom, modify, gets in E. cbn [fst snd prover_config_file set_prover_config] in E.
  destruct (prover_config_file pc); cbn in E; injection E as <- <-; done.
Qed.

Lemma get_configuration_caches answer pc m c s' : get_configuration answer (pc, m) = (Ok c, s') → prover_config s'.1 = Some c.
Proof.
  rewrite get_configuration_cases. destruct (prover_config pc) as [c'|] eqn:Ep; [intros [= -> <-]; done|].
  destruct (prover_config_file pc) as [f|]; [|apply fetch_caches]. destruct (exists_file f m); [|apply fetch_caches].
  destruct (j ← read_json f m; prover_config_from_json_dict j) as [c'|e]; [intros [= -> <-]; done | apply fetch_caches].
Qed.

(** Asking for the proof changes nothing when the configuration is known. *)
Lemma get_proof_cached answer prove i pc m c : prover_config pc = Some c → (get_proof answer prove i (pc, m)).2 = (pc, m).
Proof.
  intros Hc. unfold get_proof, get_provider, bind, assert, raise_when, lift.
  destruct (negb (zlen (js_inputs i) =? JS_INPUTS)); [done|]. unfold ret. destruct (prove i) as [[ep pd]|e]; [|done].
  rewrite get_configuration_cases, Hc. destruct (ZkSnark.get_zksnark_provider (zksnark_name c)) as [P|e]; [|done]. cbn [fst snd].
  destruct (extended_proof_from_proto P ep) as [x|e]; [|done]. by destruct (mapM (int_of_str 16) pd).
Qed.

Lemma keeps_on_prover {Chain A : Type} (f : str) (allowed : str → Prop) (pc : ProverClient) (m : SM PState A) :
  prover_config_file pc = Some f → allowed f → keeps (caches f) m →
  keeps (touches (Chain := Chain) allowed) (on_prover pc m).
Proof.
  intros Hf Ha Hm s. unfold on_prover. destruct (m (pc, s.1)) as [r [pc' files]] eqn:E.
  split; [done|]. intros g Hg. pose proof (Hm (pc, s.1) Hf) as [_ Hfr]. rewrite E in Hfr. apply Hfr. by intros ->.
Qed.

Lemma keeps_disk {Chain A : Type} (allowed : str → Prop) (m : SM fs A) :
  (∀ (t : fs) (g : str), ¬ allowed g → (m t).2 !! g = t !! g) → keeps (touches (Chain := Chain) allowed) (on_files m).
Proof.
  intros Hm s. unfold on_files, zoom. destruct (m s.1) as [r t] eqn:E. split; [done|]. intros g Hg.
  specialize (Hm s.1 g Hg). by rewrite E in Hm.
Qed.

Lemma keeps_dump {Chain : Type} (allowed : str → Prop) (file : option str) (j : result json) :
  (∀ f, truthy file = Some f → allowed f) → keeps (touches (Chain := Chain) allowed) (dump file j).
Proof.
  intros Hf. unfold dump. destruct (truthy file) as [f|]; [|by apply keeps_ret; apply _].
  case_decide; [apply keeps_bind; [apply _ | by apply keeps_lift; apply _ | intros; by apply keeps_ret; apply _]|].
  apply keeps_disk. intros t g Hg. assert (g ≠ f) by (intros ->; by apply Hg, Hf).
  unfold bind, f_write, modify, lift. destruct j as [v|e]; cbn; unfold write_file; by rewrite ?lookup_insert_ne.
Qed.

#[local] Hint Extern 2 (Reflexive (touches _)) => exact _ : zeth.
#[local] Hint Extern 2 (Transitive (touches _)) => exact _ : zeth.
#[local] Hint Resolve keeps_disk_read keeps_on_prover keeps_dump keeps_get_configuration : zeth.

Ltac keeps_step :=
  repeat (apply keeps_bind; [apply _ | eauto with zeth | intros ?]); eauto with zeth.

(** The files that [mix] may write. *)
Definition mix_files (ctx : ClientConfig) (o_params o_keypair : option str) (g : str) : Prop :=
  g = cc_prover_config_file ctx ∨ truthy o_params = Some g ∨ truthy o_keypair = Some g.

Section mix_lemmas.
Context {Chain : Type} `{BN128} `{NoteCrypto} `{Web3Units} `{EthAbi} `{Checksum} (keccak_256 : bytes → bytes).
Context (answer : result ProverConfigurationProto) (prove : ProofInputs → result (ExtendedProofProto * list str)).

Lemma keeps_create_mixer_client (allowed : str → Prop) ctx : allowed (cc_prover_config_file ctx) →
  keeps (touches (Chain := Chain) allowed) (create_mixer_client_and_mixer_desc answer ctx (create_prover_client ctx)).
Proof. intros Ha. unfold create_mixer_client_and_mixer_desc. keeps_step. Qed.

Lemma keeps_open_cli_wallet (allowed : str → Prop) ctx secret dir : allowed (cc_prover_config_file ctx) →
  keeps (touches (Chain := Chain) allowed) (open_cli_wallet keccak_256 answer ctx secret dir).
Proof. intros Ha. unfold open_cli_wallet. keeps_step. Qed.

#[local] Hint Resolve keeps_create_mixer_client keeps_open_cli_wallet : zeth.

Lemma keeps_prepare_mix ctx dir o draws :
  keeps (touches (Chain := Chain) (mix_files ctx (mo_dump_parameters o) (mo_dump_signing_keypair o)))
    (prepare_mix keccak_256 answer prove ctx dir o draws).
Proof.
  assert (mix_files ctx (mo_dump_parameters o) (mo_dump_signing_keypair o) (cc_prover_config_file ctx)) by by left.
  assert (∀ f, truthy (mo_dump_parameters o) = Some f →
    mix_files ctx (mo_dump_parameters o) (mo_dump_signing_keypair o) f) by by right; left.
  assert (∀ f, truthy (mo_dump_signing_keypair o) = Some f →
    mix_files ctx (mo_dump_parameters o) (mo_dump_signing_keypair o) f) by by right; right.
  unfold prepare_mix. keeps_step.
Qed.

(** What the plan of a command consists of. *)
Lemma prepare_mix_inv ctx dir o draws st plan st' :
  prepare_mix (Chain := Chain) keccak_256 answer prove ctx dir o draws st = (Ok plan, st') →
  ∃ vi vo zeth_address w pc inputs outputs keypair (m1 m2 : fs),
    mix_sanity (mo_vin o) (mo_vout o) (mo_inputs o) (mo_outputs o) = Ok (vi, vo) ∧
    load_mixer_description (instance_file ctx) st.1 = Ok (pl_desc plan) ∧
    (∀ g, g ≠ cc_prover_config_file ctx → m1 !! g = st.1 !! g ∧ m2 !! g = st.1 !! g) ∧
    load_zeth_address (address_file ctx) m1 = Ok zeth_address ∧
    mix_notes w dir m2 vi vo (mo_inputs o) (mo_outputs o) = Ok (inputs, outputs) ∧
    load_eth_address (mo_eth_addr o) m2 = Ok (pl_eth_address plan) ∧
    mix_tx_value (pl_desc plan) vi = Ok (pl_tx_value plan) ∧
    prover_config pc = Some (pl_config plan) ∧
    create_params answer prove draws (pl_config plan) pc w zeth_address (pl_eth_address plan) inputs outputs vi vo
      (mo_for_dispatch_call o) m2 = Ok (pl_params plan, keypair).
Proof.
  intros E. unfold prepare_mix in E.
  apply bind_inv in E as ([vi vo] & s1 & E1 & E). apply pair_equal_spec in E1 as [E1 <-].
  apply bind_inv in E as ([desc [config pc]] & s2 & E2 & E).
  pose proof (keeps_create_mixer_client (λ g, g = cc_prover_config_file ctx) ctx eq_refl st) as T2. rewrite E2 in T2.
  unfold create_mixer_client_and_mixer_desc in E2.
  apply bind_inv in E2 as (? & ? & [_ <-]%pair_equal_spec & E2). apply bind_inv in E2 as (? & ? & [Ed <-]%pair_equal_spec & E2).
  apply bind_inv in E2 as ([config' pc'] & ? & Ep & E2). injection E2 as -> -> -> <-.
  unfold on_prover in Ep. destruct (get_configuration answer (create_prover_client ctx, st.1)) as [rc [pc'' fl]] eqn:Ec.
  destruct rc as [c|]; [|done]. injection Ep as -> -> <-. apply get_configuration_caches in Ec. cbn [fst] in Ec.
  apply bind_inv in E as (zaddr & s3 & [Ez <-]%pair_equal_spec & E).
  apply bind_inv in E as (w & s4 & Ew & E).
  pose proof (keeps_open_cli_wallet (λ g, g = cc_prover_config_file ctx) ctx (addr_sk zaddr) dir eq_refl (fl, st.2)) as T4.
  rewrite Ew in T4.
  apply bind_inv in E as ([inputs outputs] & s5 & [En <-]%pair_equal_spec & E).
  apply bind_inv in E as (eth & s6 & [Ee <-]%pair_equal_spec & E).
  apply bind_inv in E as (val & s7 & [Ev <-]%pair_equal_spec & E).
  apply bind_inv in E as ([p kp] & s8 & [Epar <-]%pair_equal_spec & E).
  apply bind_inv in E as (? & s9 & _ & E). apply bind_inv in E as (? & s10 & _ & E). injection E as <- _.
  exists vi, vo, zaddr, w, pc, inputs, outputs, kp, fl, s4.1. cbn [pl_desc pl_eth_address pl_tx_value pl_config pl_params].
  destruct T2 as [_ T2], T4 as [_ T4]. cbn [fst snd] in *. split_and!; try done.
  intros g Hg. split; [by apply T2|]. rewrite T4 by done. by apply T2.
Qed.
End mix_lemmas.

(** *** What a deployment changes *)

(** The files other than one are the same. *)
Definition files_but {Chain} (f : str) (s s' : CState (Chain := Chain)) : Prop := ∀ g, g ≠ f → s'.1 !! g = s.1 !! g.

#[export] Instance files_but_preorder {Chain} f : PreOrder (files_but (Chain := Chain) f).
Proof. split; [by intros s g|]. intros a b c Hab Hbc g Hg. by rewrite Hbc, Hab. Qed.

(** A relation between the states before and after that holds when a command raises. *)
Definition fails_keeping {S A} (R : S → S → Prop) (m : SM S A) : Prop := ∀ s e s', m s = (Err e, s') → R s s'.

Lemma keeps_fails {S A} (R : S → S → Prop) (m : SM S A) : keeps R m → fails_keeping R m.
Proof. intros Hm s e s' E. specialize (Hm s). by rewrite E in Hm. Qed.

Lemma fails_bind {S A B} (R : S → S → Prop) `{!Transitive R} (m : SM S A) (k : A → SM S B) :
  keeps R m → (∀ a, fails_keeping R (k a)) → fails_keeping R (bind m k).
Proof.
  intros Hm Hk s e s' E. specialize (Hm s). unfold bind in E. destruct (m s) as [[a|e'] s1]; cbn [snd] in Hm.
  - etrans; [exact Hm|]. by eapply Hk.
  - by injection E as _ <-.
Qed.

Lemma files_but_prover {Chain A : Type} (f : str) (pc : ProverClient) (m : SM PState A) :
  prover_config_file pc = Some f → keeps (caches f) m → keeps (files_but (Chain := Chain) f) (on_prover pc m).
Proof. intros Hf Hm s. by destruct (keeps_on_prover (Chain := Chain) f (λ g, g = f) pc m Hf eq_refl Hm s) as [_ ?]. Qed.

Lemma files_but_chain {Chain A : Type} (f : str) (m : SM Chain A) : keeps (files_but f) (on_chain m).
Proof. intros s g _. unfold on_chain, zoom. by destruct (m s.2). Qed.

(** The verification key is asked for when the configuration is known. *)
Lemma get_verification_key_cached answer vk_answer pc m c : prover_config pc = Some c →
  (Prover.get_verification_key answer vk_answer (pc, m)).2 = (pc, m).
Proof.
  intros Hc. unfold Prover.get_verification_key, get_provider, bind, lift. destruct vk_answer as [vk|e]; [|done].
  rewrite get_configuration_cases, Hc. by destruct (ZkSnark.get_zksnark_provider (zksnark_name c)) as [P|e].
Qed.

(** Two calls of a fresh prover client: the configuration, then the key. *)
Lemma on_prover_configuration {Chain : Type} answer (pc : ProverClient) c pc' (s s' : CState (Chain := Chain)) :
  on_prover pc (get_configuration answer) s = (Ok (c, pc'), s') → prover_config pc' = Some c ∧ s'.2 = s.2.
Proof.
  unfold on_prover. destruct (get_configuration answer (pc, s.1)) as [[c0|e] [pc0 fl]] eqn:E; [|done].
  intros [= -> -> <-]. by apply get_configuration_caches in E.
Qed.

Lemma on_prover_key {Chain : Type} answer vk_answer (pc : ProverClient) c (s : CState (Chain := Chain)) : prover_config pc = Some c →
  (on_prover pc (Prover.get_verification_key answer vk_answer) s).2 = s.
Proof.
  intros Hc. unfold on_prover. pose proof (get_verification_key_cached answer vk_answer pc s.1 c Hc) as E.
  destruct (Prover.get_verification_key answer vk_answer (pc, s.1)) as [r [pc' fl]]. injection E as -> ->. by destruct s.
Qed.

Lemma keeps_deploy_mixer {Chain : Type} `{Web3 Chain} `{Solc} answer vk_answer dir ctx eth key token disp (vkh : option str) gas :
  keeps (files_but (cc_prover_config_file ctx))
    (deploy_mixer answer vk_answer dir (create_prover_client ctx) eth key token disp vkh gas).
Proof.
  intros s. unfold deploy_mixer.
  pose proof (files_but_prover (Chain := Chain) (cc_prover_config_file ctx) (create_prover_client ctx)
    (get_configuration answer) eq_refl (keeps_get_configuration _ answer) s) as Hc.
  destruct (on_prover (create_prover_client ctx) (get_configuration answer) s) as [[[c pc]|e] s1] eqn:E1;
    [rewrite (bind_ok _ _ _ _ _ E1) | by rewrite (bind_err _ _ _ _ _ E1)].
  apply on_prover_configuration in E1 as [Epc _]. cbn [fst snd]. etrans; [exact Hc|].
  pose proof (on_prover_key answer vk_answer pc c s1 Epc) as Hk.
  destruct (on_prover pc (Prover.get_verification_key answer vk_answer) s1) as [[vk|e] s2] eqn:E2; cbn [snd] in Hk; subst s2;
    [rewrite (bind_ok _ _ _ _ _ E2) | by rewrite (bind_err _ _ _ _ _ E2)].
  match goal with |- files_but _ _ (?m s1).2 => assert (keeps (files_but (cc_prover_config_file ctx)) m) as Hm; [|apply Hm] end.
  repeat (apply keeps_bind; [apply _ | first [by apply keeps_lift; apply _ | by apply keeps_raise_when; apply _] | intros ?]).
  apply files_but_chain.
Qed.

Lemma deploy_mixer_inv {Chain : Type} `{Web3 Chain} `{Solc} answer vk_answer dir ctx eth key token disp (vkh : option str) gas
    (s s' : CState (Chain := Chain)) mixer :
  deploy_mixer answer vk_answer dir (create_prover_client ctx) eth key token disp vkh gas s = (Ok mixer, s') →
  ∃ args compiled hash ch1, mk_depth args = ZETH_MERKLE_TREE_DEPTH ∧ length (cp_vk_hash args) = 2%nat ∧
    cp_token args = str_or token ZERO_ADDRESS ∧ cp_dispatcher args = str_or disp ZERO_ADDRESS ∧
    send_contract_call (ConstructorCall compiled args) eth key None gas s.2 = (Ok hash, ch1) ∧
    waitForTransactionReceipt hash ch1 = (Ok (inst_address mixer), s'.2) ∧ inst_abi mixer = c_abi compiled.
Proof.
  unfold deploy_mixer. intros E. apply bind_inv in E as ([c pc] & s1 & E1 & E).
  apply on_prover_configuration in E1 as [Epc Ech]. cbn [fst snd] in E.
  apply bind_inv in E as (vk & s2 & E2 & E). pose proof (on_prover_key answer vk_answer pc c s1 Epc) as Hk.
  rewrite E2 in Hk. cbn [snd] in Hk. subst s2.
  apply bind_inv in E as (P & s3 & [_ <-]%pair_equal_spec & E). apply bind_inv in E as (name & s3 & [_ <-]%pair_equal_spec & E).
  apply bind_inv in E as (ws & s3 & [_ <-]%pair_equal_spec & E). apply bind_inv in E as (u & s3 & Ea & E).
  unfold assert, raise_when in Ea. destruct (zlen ws =? 2) eqn:Ew; [|done]. injection Ea as _ <-. prop_bool.
  apply bind_inv in E as (vkp & s3 & [_ <-]%pair_equal_spec & E). apply zoom_inv in E as (ch & E & ->).
  unfold deploy_instance in E. apply bind_inv in E as (compiled & s3 & [_ <-]%pair_equal_spec & E).
  unfold deploy_from_compiled in E. apply bind_inv in E as (hash & ch1 & Es & E).
  apply bind_inv in E as (addr & ch2 & Er & E). injection E as <- <-. rewrite Ech in Es.
  do 4 eexists. split_and!; [| | | |exact Es|exact Er|done]; try reflexivity. cbn [cp_vk_hash]. unfold zlen in Ew. lia.
Qed.

(** The parameters are signed for the sender. *)
Definition signed_for `{BN128} `{EthAbi} (config : ProverConfiguration) (p : MixParameters) (eth_address : str)
    (for_dispatch_call : bool) : Prop :=
  ∃ P kp digest, ZkSnark.get_zksnark_provider (zksnark_name config) = Ok P ∧ kp_vk kp = signature_vk p ∧
    joinsplit_digest P (pairing_parameters config) eth_address (ciphertexts p) (extended_proof p) (public_data p)
      for_dispatch_call = Ok digest ∧ sign (kp_sk kp) digest = Ok (signature p).

Lemma create_params_signed `{BN128} `{NoteCrypto} `{Web3Units} `{EthAbi} (answer : result ProverConfigurationProto)
    (prove : ProofInputs → result (ExtendedProofProto * list str)) (draws : MixDraws) (config : ProverConfiguration)
    (pc : ProverClient) (w : Wallet) (zaddr : ZethAddress) (eth : str) (inputs : list (Z * ZethNote))
    (outputs : list (ZethAddressPub * EtherValue.t)) (vi vo : EtherValue.t) (fd : bool) (m : fs) (p : MixParameters)
    (kp : SigningKeyPair) :
  create_params answer prove draws config pc w zaddr eth inputs outputs vi vo fd m = Ok (p, kp) →
  signed_for config p eth fd.
Proof.
  intros E. unfold create_params, create_mix_parameters_and_signing_key in E.
  apply bind_Ok_inv in E as (desc & _ & E). apply bind_Ok_inv in E as (_ & _ & E). apply bind_Ok_inv in E as (_ & _ & E).
  apply bind_Ok_inv in E as ([pi kp'] & _ & E). apply bind_Ok_inv in E as (_ & _ & E). apply bind_Ok_inv in E as (_ & _ & E).
  apply bind_Ok_inv in E as ([ep pd] & _ & E). apply bind_Ok_inv in E as (p' & Ep & E). injection E as -> ->.
  unfold create_mix_parameters_from_proof in Ep. apply bind_Ok_inv in Ep as (cs & _ & Ep).
  apply bind_Ok_inv in Ep as (P & EP & Ep). apply bind_Ok_inv in Ep as (s & Es & Ep). apply Ok_inj in Ep as <-.
  unfold joinsplit_sign in Es. apply bind_Ok_inv in Es as (dg & Ed & Es). by exists P, kp, dg.
Qed.

(** ** Properties *)


(** A deployment that succeeds is recorded: the instance file holds the address of the
    contract of the receipt, whose constructor got the depth of the tree of the client
    and two words for the hash of the key, and the dispatcher and the hash, which are
    given together or not at all.  Otherwise the file is as it was. *)
Theorem deploy_recorded {Chain : Type} `{Web3 Chain} `{Checksum} `{Solc}
    (answer : result ProverConfigurationProto) (vk_answer : result VerificationKeyProto) (contracts_dir : str)
    (erc20_abi : result json) (ctx : ClientConfig) (o : DeployOptions) (st : CState (Chain := Chain)) :
  instance_out o ≠ cc_prover_config_file ctx →
  let '(r, st') := deploy answer vk_answer contracts_dir erc20_abi ctx o st in
  match r with
  | Ok _ => ∃ args compiled eth_address key hash ch1 mixer token dispatcher,
      mk_depth args = ZETH_MERKLE_TREE_DEPTH ∧ length (cp_vk_hash args) = 2%nat ∧
      cp_token args = str_or (do_token_address o) ZERO_ADDRESS ∧ cp_dispatcher args = str_or dispatcher ZERO_ADDRESS ∧
      send_contract_call (ConstructorCall compiled args) eth_address key None (do_deploy_gas o) st.2 = (Ok hash, ch1) ∧
      waitForTransactionReceipt hash ch1 = (Ok (inst_address mixer), st'.2) ∧ inst_abi mixer = c_abi compiled ∧
      load_mixer_description (instance_out o) st'.1 = Ok (mkMixerDesc mixer token (truthy dispatcher) (truthy (do_vk_hash o))) ∧
      (truthy (do_permitted_dispatcher o) = None ↔ truthy (do_vk_hash o) = None)
  | Err _ => st'.1 !! instance_out o = st.1 !! instance_out o
  end.
Proof.
  intros Hne. destruct (deploy answer vk_answer contracts_dir erc20_abi ctx o st) as [[u|e] st'] eqn:E.
  - unfold deploy in E. apply bind_inv in E as (eth & s1 & [_ <-]%pair_equal_spec & E).
    apply bind_inv in E as (key & s1 & [_ <-]%pair_equal_spec & E). apply bind_inv in E as (? & s1 & [_ <-]%pair_equal_spec & E).
    apply bind_inv in E as (? & s1 & Eg & E). unfold raise_when in Eg.
    destruct (negb _) eqn:Eb in Eg; [done|]. injection Eg as _ <-. apply negb_false_iff, bool_decide_eq_true in Eb.
    apply bind_inv in E as (disp & s1 & [_ <-]%pair_equal_spec & E). apply bind_inv in E as (token & s1 & [_ <-]%pair_equal_spec & E).
    apply bind_inv in E as (mixer & s1 & Ed & E). apply zoom_inv in E as (fl & Ew & ->).
    apply deploy_mixer_inv in Ed as (args & compiled & hash & ch1 & ? & ? & ? & ? & ? & ? & ?).
    destruct (mixer_description_roundtrip (instance_out o) (mkMixerDesc mixer token disp (do_vk_hash o)) s1.1) as (m' & Ew' & Hl & _).
    rewrite Ew in Ew'. apply pair_equal_spec in Ew' as [_ <-].
    exists args, compiled, eth, key, hash, ch1, mixer, token, disp. split_and!; try done; try exact Hl.
    all: revert Eb; destruct (truthy (do_permitted_dispatcher o)), (truthy (do_vk_hash o)); cbn; try done; by intros _; split.
  - assert (fails_keeping (files_but (cc_prover_config_file ctx)) (deploy answer vk_answer contracts_dir erc20_abi ctx o)) as Hk;
      [|by apply (Hk _ _ _ E)].
    unfold deploy. repeat (apply fails_bind;
      [apply _
      | first [apply keeps_disk_read; apply _ | apply keeps_lift; apply _ | apply keeps_raise_when; apply _ | apply keeps_deploy_mixer]
      | intros ?]).
    intros s e' s' Ef. done.
Qed.

(** *** Listing the notes *)

Section listing.
Context `{NoteCryptoLaws} `{Web3UnitsLaws} `{ITreeHash} (pp : PairingParameters) (d : nat).

Definition note_value (nd : ZethNoteDescription) : Z := desc_units nd * ZETH_PUBLIC_UNIT_VALUE.

(** What is listed for a note. *)
Definition summary (nd : ZethNoteDescription) : Z * str * EtherValue.t :=
  (nd_address nd, short_commitment (nd_commitment nd), EtherValue.mk (note_value nd)).

Lemma decode_note_files (user : str) (l : list bytes) (notes : list ZethNoteDescription) : "_"%char ∉ user → Forall (good_note pp l) notes →
  decode_names (note_file user <$> notes) = Ok (summary <$> notes).
Proof.
  intros Hu Hg. induction Hg as [|nd notes Hnd Hg IH]; [done|]. rewrite !fmap_cons. cbn [decode_names].
  unfold note_file at 1. rewrite (decode_basename_ok user nd _ Hu (good_desc_ok pp l nd Hnd)), IH. done.
Qed.

(** Names that are all names of notes are the names of some notes. *)
Lemma notes_of_names (user : str) (dir : fs) (l : list bytes) (names : list str) :
  Forall (λ f, ∃ nd, good_note pp l nd ∧ f = note_file user nd ∧ has_note user dir nd) names →
  ∃ notes, names = note_file user <$> notes ∧ Forall (λ nd, good_note pp l nd ∧ has_note user dir nd) notes.
Proof.
  intros Hn. induction Hn as [|f names (nd & Hg & -> & Hh) Hn (notes & -> & IH)]; [by exists []|].
  exists (nd :: notes). split; [done|]. by apply Forall_cons.
Qed.

(** The notes of a wallet in the order of their files. *)
Lemma listed_notes (l : list bytes) (w : Wallet) (dir : WalletDir) : wallet_inv pp d l w dir → ∃ notes : list ZethNoteDescription,
  note_summaries w dir = Ok (summary <$> notes) ∧ NoDup (nd_address <$> notes) ∧
  ∀ nd, nd ∈ notes ↔ good_note pp l nd ∧ has_note (username w) (wd_top dir) nd.
Proof.
  intros Hinv. pose proof (wi_user _ _ _ _ _ Hinv) as [Hp Hu]. set (user := username w) in *.
  set (names := merge_sort str_le (glob (lit "note_" ++ user ++ lit "_*") (wd_top dir))).
  assert (∀ f, f ∈ names ↔ is_Some (wd_top dir !! f) ∧ glob_match (glob_tokens (note_pattern user)) f = true) as Hnames.
  { intros f. unfold names. rewrite merge_sort_Permutation. apply elem_of_glob. }
  destruct (notes_of_names user (wd_top dir) l names) as (notes & En & Hnotes).
  { apply Forall_forall. intros f [[c Hc] Hm]%Hnames. destruct (wi_files _ _ _ _ _ Hinv f c Hc Hm) as (nd & Hg & -> & ->). by exists nd. }
  exists notes. rewrite Forall_forall in Hnotes.
  assert (NoDup names) as Hnd by (unfold names; rewrite merge_sort_Permutation; apply NoDup_glob).
  assert (Forall (good_note pp l) notes) as Hgood by (apply Forall_forall; intros nd Hin; by apply Hnotes).
  split; [unfold note_summaries, _decode_note_files_in_dir; fold user; fold names; rewrite En; by apply decode_note_files with l|].
  split; [|intros nd; split; [apply Hnotes|]].
  - rewrite En in Hnd. apply NoDup_fmap_1 in Hnd as Hnd'. apply NoDup_fmap_2_strong; [|done].
    intros x y Hx%Hnotes Hy%Hnotes. destruct Hx, Hy. by apply (wi_unique _ _ _ _ _ Hinv).
  - intros [Hg Hh]. assert (note_file user nd ∈ names) as Hin.
    { apply Hnames. split; [by eexists|]. by apply note_file_pattern. }
    rewrite En in Hin. apply list_elem_of_fmap in Hin as (nd' & E & Hin). destruct (Hnotes nd' Hin) as [Hg' Hh'].
    unfold has_note in Hh, Hh'. rewrite <- E, Hh in Hh'. by rewrite (stored_inj pp l l nd nd' Hg Hg' Hh').
Qed.

Lemma good_note_value l nd : good_note pp l nd → 0 ≤ note_value nd < 2 ^ 104.
Proof.
  intros Hg%good_desc_ok. destruct Hg as (_ & _ & Hr). unfold note_value, ZETH_PUBLIC_UNIT_VALUE. lia.
Qed.
End listing.

Lemma ls_total `{Web3UnitsLaws} (xs : list (Z * str * EtherValue.t)) : EtherValue.of_int 0 (lit "ether") = Ok (EtherValue.mk 0) →
  foldM (λ total x, EtherValue.add total x.2) (EtherValue.mk 0) xs = sum_values (snd <$> xs).
Proof.
  intros E0. unfold sum_values. rewrite E0. cbn [mbind result_bind]. generalize (EtherValue.mk 0). clear E0.
  induction xs as [|x xs IH]; intros z; [done|]. rewrite fmap_cons. cbn [foldM]. destruct (EtherValue.add z x.2); [apply IH | done].
Qed.

Lemma sum_bound (xs : list Z) : Forall (λ x, 0 ≤ x < 2 ^ 104) xs → Z.of_nat (length xs) ≤ 2 ^ 52 →
  foldr Z.add 0 xs < 2 ^ 256.
Proof.
  intros Hx Hl. assert (foldr Z.add 0 xs ≤ Z.of_nat (length xs) * 2 ^ 104) as Hs.
  { clear Hl. induction Hx as [|x xs Hx' Hx IH]; cbn [foldr length]; [done|]. lia. }
  assert (Z.of_nat (length xs) * 2 ^ 104 ≤ 2 ^ 52 * 2 ^ 104) by (apply Z.mul_le_mono_nonneg_r; lia). lia.
Qed.

(** Distinct leaves of the tree: no more notes than leaves. *)
Lemma listed_bound `{NoteCrypto} `{Web3Units} `{ITreeHash} (pp : PairingParameters) (d : nat) (l : list bytes) (w : Wallet)
    (dir : WalletDir) (notes : list ZethNoteDescription) : (1 ≤ d ≤ 52)%nat → wallet_inv pp d l w dir →
  NoDup (nd_address <$> notes) → (∀ nd, nd ∈ notes ↔ good_note pp l nd ∧ has_note (username w) (wd_top dir) nd) →
  Z.of_nat (length notes) ≤ 2 ^ 52.
Proof.
  intros Hd Hinv Hnd Hin. assert (nd_address <$> notes ⊆+ seqZ 0 (zlen l)) as Hsub%submseteq_length.
  { apply NoDup_submseteq; [done|]. intros a (nd & -> & Hn%Hin)%list_elem_of_fmap.
    destruct Hn as [(Ha & _ & _ & Hl%lookup_lt_Some) _]. apply elem_of_seqZ. unfold zlen. lia. }
  rewrite length_fmap, length_seqZ in Hsub.
  assert (zlen l ≤ 2 ^ Z.of_nat d) as Hl by (destruct (insert_cases d Hd l _ [] (wi_tree _ _ _ _ _ Hinv)) as [[? _]|[? _]]; lia).
  assert (2 ^ Z.of_nat d ≤ 2 ^ 52) by (apply Z.pow_le_mono_r; lia). unfold zlen in *. lia.
Qed.

(** [ls_notes] and [ls_commits] show what the wallet holds: one line for each note
    that is in the tree and has its file, with its address, short commitment and value,
    no address twice; the balance is the sum of these values; the commitments are the
    leaves of the tree. *)
Theorem wallet_listing `{NoteCryptoLaws} `{Web3UnitsLaws} `{ITreeHash} (pp : PairingParameters) (d : nat) (l : list bytes)
    (w : Wallet) (dir : WalletDir) (Hd : (1 ≤ d ≤ 52)%nat) (Hinv : wallet_inv pp d l w dir) :
  ∃ notes : list ZethNoteDescription,
    (∀ nd, nd ∈ notes ↔ good_note pp l nd ∧ has_note (username w) (wd_top dir) nd) ∧ NoDup (nd_address <$> notes) ∧
    ls_notes w dir true false =
      Ok (summary <$> notes, Some (EtherValue.mk (foldr Z.add 0 (note_value <$> notes))), None) ∧
    ls_commits w = Ok (short_commitment <$> l).
Proof.
  destruct (listed_notes pp d l w dir Hinv) as (notes & En & Hnd & Hin). exists notes. split_and!; [done..| |].
  - unfold ls_notes. assert (EtherValue.of_int 0 (lit "ether") = Ok (EtherValue.mk 0)) as E0.
    { unfold EtherValue.of_int. by rewrite toWei_zero. }
    rewrite E0, En. cbn [mbind result_bind]. rewrite ls_total by done.
    assert (EtherValue.wei <$> (snd <$> (summary <$> notes)) = note_value <$> notes) as Ev by by rewrite <- !list_fmap_compose.
    assert (Forall (λ nd, 0 ≤ note_value nd < 2 ^ 104) notes) as Hr.
    { apply Forall_forall. intros nd Hn%Hin. apply (good_note_value pp l), Hn. }
    rewrite sum_values_spec; rewrite ?Ev; [done| |].
    + rewrite <- list_fmap_compose. apply Forall_fmap. eapply Forall_impl; [exact Hr|]. intros nd [Hn _]. exact Hn.
    + apply sum_bound; [by apply Forall_fmap|]. rewrite length_fmap. by apply (listed_bound pp d l w dir).
  - unfold ls_commits. rewrite (inv_get_leaves d l _ (wi_tree _ _ _ _ _ Hinv)). done.
Qed.

(** ** Concrete inputs *)

Module CommandsSample.
#[local] Existing Instance ToyCrypto.toy.
#[local] Existing Instance ToyCrypto.toy_laws.
#[local] Existing Instance MerkleTreeFacts.Sample.toy_tree.
#[local] Existing Instance WalletSample.units.
#[local] Existing Instance WalletSample.units_laws.

Lemma wallet_listing_witness :
  let w := (WalletSample.after [WalletSample.ev]).1 in
  let dir := (WalletSample.after [WalletSample.ev]).2 in
  ∃ notes : list ZethNoteDescription, WalletSample.nd 0 ∈ notes ∧
    ls_notes w dir true false =
      Ok (summary <$> notes, Some (EtherValue.mk (foldr Z.add 0 (note_value <$> notes))), None) ∧
    ls_commits w = Ok [short_commitment WalletSample.cm].
Proof.
  intros w dir. destruct (WalletSample.after_ok [WalletSample.ev] (or_introl eq_refl)) as (Hi & Hu & Hk).
  destruct (wallet_listing WalletSample.pp 2 (commitment <$> [WalletSample.ev]) w dir ltac:(lia) Hi) as (notes & Hin & _ & Els & Ec).
  exists notes. split; [|split; [exact Els | exact Ec]]. apply Hin. fold w in Hu. rewrite Hu.
  exact (Hk (WalletSample.nd 0) (WalletSample.nd_known _ (or_introl eq_refl))).
Defined.
End CommandsSample.
