(* ===== verification/SyncCommand.v ===== *)
(** * Synchronising with the chain ([do_sync] of [cli/utils.py], [zeth_sync.py], [zeth_mix.py])

    What a wallet reads from the node: the events of the mixer, block range by block
    range, each handled before the next one is read.  The node and the decoding of logs
    are the classes [Receipts] and [ChainLogs]. *)

From Stdlib Require Import ZArith Lia Ascii String.
From stdpp Require Import base tactics list gmap strings.
From S2P Require Import Prelude PyStr PyBytes PyIO PyState Hashes Constants Utils MerkleTree MerkleTreeFacts Mimc Pairing ZkSnark Signing Encryption Notes Contracts MixerClient Wallet WalletFacts WalletSync Prover Cli Commands.

Local Open Scope Z_scope.
Local Open Scope sm_scope.

(** The arguments of an event [LogMix]. *)
Record EventArgs : Type := mkEventArgs {
  ev_root : bytes; ev_nullifiers : list bytes; ev_commitments : list bytes; ev_ciphertexts : list bytes
}.

Definition event_result (ev : EventArgs) : MixResult :=
  event_args_to_mix_result (ev_root ev) (ev_nullifiers ev) (ev_commitments ev) (ev_ciphertexts ev).

Class Receipts (Chain Log : Type) := {
  (** the logs in the receipt of a transaction *)
  receipt_logs : str → SM Chain (list Log);
  log_address : Log → str;
  log_topics : Log → list str;
  processLog : Log → result EventArgs;
  (** the topic of the event [LogMix] *)
  mix_topic : str
}.

(** The number of the last block and the logs of the mixer in a range of blocks. *)
Class ChainLogs (Chain Log : Type) := {
  blockNumber : Chain → Z;
  getLogs : Chain → Z → Z → list Log
}.

(** ** The loop over the events *)

Section events.
Context {Chain Log : Type} `{Receipts Chain Log} {S : Type} (body : S → EventArgs → result S).

(** An iteration of the loop in [get_event_logs], with the body of the [for] loop that
    receives the event. *)
Definition on_log (s : S) (log : Log) : result S :=
  t ← py_get (log_topics log) 0;
  if decide (mix_topic = t) then e ← processLog log; body s e else Ok s.

Fixpoint for_batches (fuel : nat) (s : S) (logs : Z → Z → list Log) (start_block end_block batch_size : Z) : result S :=
  if start_block <=? end_block then
    match fuel with
    | O => Err OutOfFuel
    | Datatypes.S fuel =>
        let to_block := Z.min (start_block + batch_size - 1) end_block in
        s' ← foldM on_log s (logs start_block to_block);
        for_batches fuel s' logs (to_block + 1) end_block batch_size
    end
  else Ok s.

(** [for log in get_event_logs(...): body], the generator resumed by the loop. *)
Definition for_event_logs (s : S) (logs : Z → Z → list Log) (start_block end_block : Z) (batch_size : option Z) : result S :=
  for_batches (Z.to_nat (end_block - start_block + 1)) s logs start_block end_block (effective_batch batch_size).
End events.

(** [for mix_result in get_mix_results(...): body] *)
Definition for_mix_results {Chain Log : Type} `{Receipts Chain Log} {S : Type} (body : S → MixResult → result S) :
    S → (Z → Z → list Log) → Z → Z → option Z → result S :=
  for_event_logs (λ s ev, body s (event_result ev)).

(** ** The synchronisation *)

Section sync.
Context {Chain Log : Type} `{Receipts Chain Log} `{ChainLogs Chain Log} `{ITreeHash} `{NoteCrypto} `{Web3Units}.

(** [_do_sync]: the block it ends with, and the notes that the callback is called on. *)
Definition sync_once (w : Wallet) (dir : WalletDir) (pp : PairingParameters) (batch_size : option Z) (c : Chain)
    : result (Z * (list ZethNoteDescription * (Wallet * WalletDir))) :=
  let chain_block_number := blockNumber c in
  if get_next_block w <=? chain_block_number then
    '(new_merkle_root, (notes, (w, dir))) ←
      for_mix_results (sync_step pp) (None, ([], (w, dir))) (getLogs c) (get_next_block w) chain_block_number batch_size;
    '(w, dir) ← update_and_save_state w dir (chain_block_number + 1);
    match new_merkle_root with
    | Some (b :: root) =>
        our_merkle_root ← get_root (merkle_tree w);
        _ ← py_assert (bool_decide (b :: root = our_merkle_root));
        Ok (chain_block_number, (notes, (w, dir)))
    | _ => Ok (chain_block_number, (notes, (w, dir)))
    end
  else Ok (chain_block_number, ([], (w, dir))).

(** [do_sync]: with a transaction to wait for, a synchronisation before and one after. *)
Definition do_sync (w : Wallet) (dir : WalletDir) (pp : PairingParameters) (wait_tx : option str) (batch_size : option Z)
    : SM Chain (Z * (list ZethNoteDescription * (Wallet * WalletDir))) :=
  match truthy wait_tx with
  | None => query (sync_once w dir pp batch_size)
  | Some tx =>
      first <- query (sync_once w dir pp batch_size) ;;
      receipt_logs tx ;;;
      second <- query (sync_once first.2.2.1 first.2.2.2 pp batch_size) ;;
      ret (second.1, (first.2.1 ++ second.2.1, second.2.2))
  end.
End sync.

(** ** The commands *)

Section commands.
Context {Chain Log : Type} `{Web3 Chain} `{Receipts Chain Log} `{ChainLogs Chain Log}.
Context `{BN128} `{NoteCrypto} `{Web3Units} `{EthAbi} `{Checksum} (keccak_256 : bytes → bytes).
Context (answer : result ProverConfigurationProto) (vk_answer : result VerificationKeyProto).
Context (prove : ProofInputs → result (ExtendedProofProto * list str)).

(** The synchronisation of a wallet made for the pairing of the mixer. *)
Definition sync_wallet (w : Wallet) (dir : WalletDir) (pp : PairingParameters) (wait_tx : option str) (batch_size : option Z)
    : SM CState (Z * (list ZethNoteDescription * (Wallet * WalletDir))) :=
  tree_hash <- lift (get_tree_hash_for_pairing keccak_256 (pp_name pp)) ;;
  on_chain (do_sync (H1 := mimc_tree_hash keccak_256 tree_hash) w dir pp wait_tx batch_size).

(** The command [sync]. *)
Definition sync (ctx : ClientConfig) (dir : WalletDir) (wait_tx : option str) (batch_size : option Z)
    : SM CState (Z * (list ZethNoteDescription * (Wallet * WalletDir))) :=
  reads (open_web3_from_ctx ctx) ;;;
  reads (load_mixer_description (instance_file ctx)) ;;;
  js_secret <- reads (load_zeth_address_secret (address_file ctx)) ;;
  wallet <- open_cli_wallet keccak_256 answer ctx js_secret dir ;;
  client <- on_prover (create_prover_client ctx) (get_configuration answer) ;;
  sync_wallet wallet dir (pairing_parameters client.1) wait_tx batch_size.

(** The command [mix] with [--wait]: the wallet is synchronised after the transaction. *)
Definition mix_wait (ctx : ClientConfig) (dir : WalletDir) (o : MixOptions) (draws : MixDraws)
    : SM CState (option (str * (Z * (list ZethNoteDescription * (Wallet * WalletDir))))) :=
  plan <- prepare_mix keccak_256 answer prove ctx dir o draws ;;
  sent <- send_plan o plan ;;
  match sent with
  | None => ret None
  | Some tx_hash =>
      synced <- sync_wallet (pl_wallet plan) dir (pairing_parameters (pl_config plan)) (Some tx_hash) None ;;
      ret (Some (tx_hash, synced))
  end.

(** The command [get_verification_key], which writes the key to a file or prints it. *)
Definition get_verification_key (ctx : ClientConfig) (vk_out : option str) : SM (CState (Chain := Chain)) json :=
  vk <- on_prover (create_prover_client ctx) (Prover.get_verification_key answer vk_answer) ;;
  let vk_json := vk_to_json_dict vk.1 in
  match truthy vk_out with
  | Some f => on_files (f_write f (CText []) ;;; f_write f (CJson vk_json)) ;;; ret vk_json
  | None => ret vk_json
  end.
End commands.

(** ** Lemmas *)

Lemma foldM_fmap {A B S} (g : A → B) (f : S → B → result S) (l : list A) s :
  foldM (λ s x, f s (g x)) s l = foldM f s (g <$> l).
Proof. revert s. induction l as [|x l IH]; intros s; [done|]. cbn. destruct (f s (g x)); [apply IH | done]. Qed.

Section events.
Context {Chain Log : Type} `{Receipts Chain Log} {S : Type} (body : S → EventArgs → result S).

Lemma on_log_fold logs evs s : matching_events log_topics processLog mix_topic logs = Ok evs →
  foldM (on_log body) s logs = foldM body s evs.
Proof.
  revert evs s. induction logs as [|log logs IH]; intros evs s E; cbn [matching_events foldM] in *.
  - by apply Ok_inj in E as <-.
  - unfold on_log at 2. apply bind_Ok_inv in E as (t & Et & E). rewrite Et. cbn [mbind result_bind].
    case_decide; [|by apply IH].
    apply bind_Ok_inv in E as (e & Ee & E). apply bind_Ok_inv in E as (es & Es & E). apply Ok_inj in E as <-.
    rewrite Ee. cbn [mbind result_bind foldM]. destruct (body s e) as [s'|]; [by apply IH | done].
Qed.

(** The loop over the generator is the loop over the list of its events. *)
Lemma for_batches_spec fuel logs start stop b evs s :
  event_batches log_topics processLog fuel logs mix_topic start stop b = Ok evs →
  for_batches body fuel s logs start stop b = foldM body s evs.
Proof.
  revert start evs s. induction fuel as [|fuel IH]; intros start evs s E; cbn [event_batches for_batches] in *;
    destruct (start <=? stop); try done; try by apply Ok_inj in E as <-.
  apply bind_Ok_inv in E as (es & Es & E). apply bind_Ok_inv in E as (rest & Er & E). apply Ok_inj in E as <-.
  rewrite (on_log_fold _ es) by done. rewrite foldM_app.
  destruct (foldM body s es) as [s'|]; [|done]. cbn [mbind result_bind]. by apply IH.
Qed.
End events.

(** A batch size that the callers intend. *)
Definition batch_ok (batch_size : option Z) : Prop := match batch_size with Some b => 0 ≤ b | None => True end.

Lemma batch_positive b : batch_ok b → 0 < effective_batch b.
Proof. destruct b as [b|]; [|done]. cbn. destruct (b =? 0) eqn:E; [done|]. prop_bool. lia. Qed.

Lemma outputs_of_app rs1 rs2 : outputs_of (rs1 ++ rs2) = outputs_of rs1 ++ outputs_of rs2.
Proof. unfold outputs_of. by rewrite fmap_app, concat_app. Qed.

Lemma leaves_after_app l rs1 rs2 : leaves_after l (rs1 ++ rs2) = leaves_after (leaves_after l rs1) rs2.
Proof. unfold leaves_after. by rewrite outputs_of_app, fmap_app, app_assoc. Qed.

Lemma zlen_leaves_after l rs : zlen (leaves_after l rs) = zlen l + zlen (outputs_of rs).
Proof. unfold leaves_after. rewrite zlen_app. unfold zlen. by rewrite length_fmap. Qed.

Lemma results_ok_app `{NoteCrypto} d l rs1 rs2 : results_ok d l (rs1 ++ rs2) →
  results_ok d l rs1 ∧ results_ok d (leaves_after l rs1) rs2.
Proof.
  intros (Hfit & Hall & Hnd). unfold results_ok. rewrite zlen_leaves_after. unfold leaves_after.
  rewrite outputs_of_app in *. rewrite zlen_app in Hfit. apply Forall_app in Hall as [H1 H2].
  rewrite (fmap_app commitment), app_assoc in Hnd. pose proof (zlen_nonneg (outputs_of rs2)).
  assert (NoDup (short_commitment <$> l ++ (commitment <$> outputs_of rs1))) by (rewrite fmap_app in Hnd; by apply NoDup_app in Hnd as (? & _)).
  split_and!; (done || lia).
Qed.

(** Every result has outputs and publishes the root of the leaves up to it. *)
Definition roots_follow `{ITreeHash} (l : list bytes) (rs : list MixResult) : Prop :=
  ∀ before r after, rs = before ++ r :: after →
    output_events r ≠ [] ∧ new_merkle_root r = spec_root 32 (leaves_after l (before ++ [r])).

Lemma roots_follow_app `{ITreeHash} l rs1 rs2 : roots_follow l (rs1 ++ rs2) →
  roots_follow l rs1 ∧ roots_follow (leaves_after l rs1) rs2.
Proof.
  intros Hr. split; intros before r after ->.
  - apply (Hr before r (after ++ rs2)). by rewrite <- app_assoc.
  - rewrite <- leaves_after_app, app_assoc. apply (Hr (rs1 ++ before) r after). by rewrite <- app_assoc.
Qed.

Section sync.
Context {Chain Log : Type} `{Receipts Chain Log} `{ChainLogs Chain Log} `{ITreeHash} `{NoteCryptoLaws} `{Web3UnitsLaws}.

(** The results of the mix calls in a range of blocks. *)
Definition mix_results (c : Chain) (start stop : Z) (rs : list MixResult) : Prop :=
  ∃ evs, matching_events log_topics processLog mix_topic (getLogs c start stop) = Ok evs ∧ rs = event_result <$> evs.

Lemma sync_once_spec (c : Chain) `{!NodeLogs (getLogs c)} w dir pp batch rs : batch_ok batch →
  get_next_block w ≤ blockNumber c → mix_results c (get_next_block w) (blockNumber c) rs →
  sync_once w dir pp batch c = (x ← _do_sync w dir pp (blockNumber c) rs; Ok (blockNumber c, x)).
Proof using Type.
  intros Hb Hn (evs & Hev & ->). unfold sync_once, _do_sync. rewrite (proj2 (Z.leb_le _ _) Hn).
  unfold for_mix_results, for_event_logs.
  rewrite (for_batches_spec _ _ _ _ _ _ evs) by (rewrite (event_batches_spec _ _ (getLogs c)); [exact Hev | by apply batch_positive | done]).
  rewrite foldM_fmap. destruct (foldM (sync_step pp) _ _) as [[root [notes [w1 dir1]]]|]; [|done]. cbn [mbind result_bind].
  destruct (update_and_save_state w1 dir1 (blockNumber c + 1)) as [[w2 dir2]|]; [|done]. cbn [mbind result_bind].
  destruct root as [[|b root]|]; try done. destruct (get_root (merkle_tree w2)); [|done]. cbn [mbind result_bind].
  by destruct (py_assert _).
Qed.

(** One synchronisation, also when no block is new. *)
Lemma sync_once_ok (c : Chain) `{!NodeLogs (getLogs c)} l w dir pp batch rs secret : batch_ok batch → field_ok pp →
  wallet_inv pp 32 l w dir → synced w dir → next_block (state w) ≤ blockNumber c + 1 →
  mix_results c (next_block (state w)) (blockNumber c) rs → results_ok 32 l rs → roots_follow l rs →
  priv_a_sk secret = w_a_sk w → priv_k_sk secret = k_sk_receiver w →
  ∃ w' dir', sync_once w dir pp batch c =
      Ok (blockNumber c, (our_notes pp (k_sk_receiver w) (zlen l) (outputs_of rs), (w', dir'))) ∧
    wallet_inv pp 32 (leaves_after l rs) w' dir' ∧ synced w' dir' ∧ next_block (state w') = blockNumber c + 1 ∧
    get_root (merkle_tree w') = Ok (spec_root 32 (leaves_after l rs)) ∧
    w_a_sk w' = w_a_sk w ∧ k_sk_receiver w' = k_sk_receiver w.
Proof using All.
  intros Hb Hpp Hinv Hs Hn Hrs Hok Hroots Ha Hk. destruct (decide (next_block (state w) ≤ blockNumber c)) as [Hle|Hgt].
  - rewrite (sync_once_spec c w dir pp batch rs) by done.
    destruct (do_sync_ok pp l w dir (blockNumber c) rs secret Hpp Hinv Hs Hle Hok) as (w' & dir' & E & Hi & Hs' & Hn' & _ & Hr & Ho); try done.
    { intros r [before ->]%last_Some. by apply (Hroots before r []). }
    exists w', dir'. rewrite E. split_and!; try done.
    all: unfold open_wallet in Ho; do 4 (apply bind_Ok_inv in Ho as (? & _ & Ho)); apply Ok_inj in Ho; by rewrite <- Ho.
  - destruct Hrs as (evs & Hev & ->). rewrite getLogs_empty in Hev by lia. apply Ok_inj in Hev as <-.
    exists w, dir. unfold sync_once, get_next_block. rewrite (proj2 (Z.leb_gt _ _)) by lia.
    change (event_result <$> []) with (@nil MixResult). unfold leaves_after. change (outputs_of []) with (@nil MixOutputEvents).
    cbn [fmap list_fmap]. rewrite !app_nil_r. split_and!; try done; [lia|].
    apply (get_root_inv 32); [lia | apply Hinv | apply Hs].
Qed.

Lemma mix_results_split (c : Chain) `{!NodeLogs (getLogs c)} a m b rs : a ≤ m + 1 → m ≤ b → mix_results c a b rs →
  ∃ rs1 rs2, rs = rs1 ++ rs2 ∧ mix_results c a m rs1 ∧ mix_results c (m + 1) b rs2.
Proof using Type.
  intros Ha Hb (evs & Hev & ->). rewrite (getLogs_split (getLogs := getLogs c) a m b), matching_events_app in Hev by done.
  apply bind_Ok_inv in Hev as (e1 & E1 & Hev). apply bind_Ok_inv in Hev as (e2 & E2 & Hev). apply Ok_inj in Hev as <-.
  exists (event_result <$> e1), (event_result <$> e2). rewrite fmap_app. split; [done|]. by split; [exists e1 | exists e2].
Qed.
End sync.

(** ** Properties *)


(** ** A concrete chain: a mix call in block 3 and one in block 5 *)

Module SyncSample.
#[local] Existing Instance ToyCrypto.toy.
#[local] Existing Instance ToyCrypto.toy_laws.
#[local] Existing Instance WalletSample.units.
#[local] Existing Instance WalletSample.units_laws.
#[local] Existing Instance Sample.toy_tree.

Definition other : bytes := repeat Byte.x07 32.
Definition first : EventArgs :=
  mkEventArgs (spec_root 32 [WalletSample.cm]) [] [WalletSample.cm] [ciphertext WalletSample.ev].
Definition second : EventArgs :=
  mkEventArgs (spec_root 32 [WalletSample.cm; other]) [] [other] [ciphertext WalletSample.ev].

Definition logs (a b : Z) : list EventArgs :=
  (if bool_decide (a ≤ 3 ≤ b) then [first] else []) ++ (if bool_decide (a ≤ 5 ≤ b) then [second] else []).

(** The chain is its head; waiting takes it to block 5. *)
#[local] Instance receipts : Receipts Z EventArgs := {|
  receipt_logs _ c := (Ok [second], Z.max c 5);
  log_address _ := lit "mixer";
  log_topics _ := [lit "LogMix"];
  processLog ev := Ok ev;
  mix_topic := lit "LogMix"
|}.
#[local] Instance chain : ChainLogs Z EventArgs := {| blockNumber c := c; getLogs _ := logs |}.

#[local] Instance node c : NodeLogs (getLogs (Chain := Z) (Log := EventArgs) c).
Proof.
  split; cbn [getLogs chain]; unfold logs; intros.
  - generalize first second. intros x y. repeat case_bool_decide; try reflexivity; exfalso; lia.
  - rewrite !bool_decide_false by lia. reflexivity.
Qed.

Definition results : list MixResult := [event_result first; event_result second].

Lemma results_outputs : outputs_of results =
  [mkMixOutputEvents WalletSample.cm (ciphertext WalletSample.ev); mkMixOutputEvents other (ciphertext WalletSample.ev)].
Proof. reflexivity. Qed.

Lemma results_good : results_ok 32 [] results.
Proof.
  unfold results_ok. rewrite results_outputs. split; [vm_compute; discriminate|]. split; [|apply (bool_decide_unpack _); vm_compute; exact I].
  repeat (apply Forall_cons; split; [vm_compute; reflexivity|]). by apply Forall_nil.
Qed.

Lemma results_roots : roots_follow [] results.
Proof.
  intros [|r1 [|r2 [|]]] r after E; injection E as; subst; try done; (split; [discriminate | reflexivity]).
Qed.

End SyncSample.
