(* ===== verification/CliGroup.v ===== *)
(** * The command line groups ([zeth.py], [zeth_helper.py], [zeth_wait.py], [timer.py])

    The entry points of the two tools: their options with defaults and the subcommand that is
    required, the command [wait], which only reports, the argument of the test commands and
    the timer of the commands. *)

From Stdlib Require Import ZArith Lia Ascii String.
From stdpp Require Import base tactics list gmap strings.
From S2P Require Import Prelude PyStr PyBytes PyIO PyState Hashes Constants Utils MerkleTree Mimc Pairing ZkSnark Signing Encryption Notes Contracts MixerClient Wallet Prover Cli Commands SyncCommand.

Local Open Scope Z_scope.
Local Open Scope sm_scope.

Definition PROVER_SERVER_ENDPOINT_DEFAULT : str := lit "localhost:50051".
Definition INSTANCE_FILE_DEFAULT : str := lit "zeth-instance".
Definition PROVER_CONFIGURATION_FILE_DEFAULT : str := lit "prover-config.cache".
Definition WALLET_DIR_DEFAULT : str := lit "./wallet".

(** ** The groups *)

(** The options that were given on the command line. *)
Record GroupOptions : Type := mkGroupOptions {
  go_eth_network : option str; go_prover_server : option str; go_prover_config_file : option str;
  go_instance_file : option str; go_address_file : option str; go_wallet_dir : option str
}.

(** The command [help]: whoever invokes it ends with an error. *)
Definition help : result unit := Err ClickException.

(** [DefaultGroup] with [default_if_no_args]: no argument is the command [help]. *)
Definition invoked_subcommand (command : option str) : str := default (lit "help") command.

(** The group [zeth]: the context of its commands and the directory of the wallet. *)
Definition zeth (command : option str) (o : GroupOptions) : result (ClientConfig * str) :=
  _ ← (if decide (invoked_subcommand command = lit "help") then help else Ok tt);
  Ok (mkClientConfig (go_eth_network o) (default PROVER_SERVER_ENDPOINT_DEFAULT (go_prover_server o))
        (default PROVER_CONFIGURATION_FILE_DEFAULT (go_prover_config_file o))
        (default INSTANCE_FILE_DEFAULT (go_instance_file o))
        (default ZETH_SECRET_ADDRESS_FILE_DEFAULT (go_address_file o)),
      default WALLET_DIR_DEFAULT (go_wallet_dir o)).

(** The group [zeth_helper], whose context is the network. *)
Definition zeth_helper (command : option str) (eth_network : option str) : result (option str) :=
  _ ← (if decide (invoked_subcommand command = lit "help") then help else Ok tt);
  Ok eth_network.

(** ** The argument of the test commands *)

(** [sys.exit(SNARK_NOT_SUPPORTED)] *)
Definition SNARK_NOT_SUPPORTED : string := "Invalid zkSNARK, should be one of ('PGHR13', 'GROTH16')".
Definition parse_zksnark_arg (zksnark : str) : result str :=
  if decide (zksnark ∈ VALID_ZKSNARKS) then Ok zksnark else Err (Exception SNARK_NOT_SUPPORTED).

(** ** The command [wait] *)

(** The event [LogDebug] of the mixer: its topic and its arguments. *)
Class DebugLogs (Log : Type) := {
  debug_topic : str;
  processDebug : Log → result (str * Z)
}.

Section wait.
Context {Chain Log : Type} `{Web3 Chain} `{Receipts Chain Log} `{DebugLogs Log}.

(** The line of a debug event. *)
Definition debug_line (d : str * Z) : str :=
  lit " " ++ d.1 ++ lit ": " ++ str_of_int d.2 ++ lit " (" ++ hex_of_int d.2 ++ lit ")".

(** The lines of the debug events and the mix events, in the order of the receipt. *)
Definition wait (ctx : ClientConfig) (transaction_id : str) : SM (CState (Chain := Chain)) (list str * list EventArgs) :=
  mixer_desc <- reads (load_mixer_description (instance_file ctx)) ;;
  reads (open_web3_from_ctx ctx) ;;;
  let address := inst_address (md_mixer mixer_desc) in
  tx_receipt <- on_chain (receipt_logs transaction_id) ;;
  debug <- lift (get_event_logs_from_tx_receipt log_address log_topics processDebug address debug_topic tx_receipt) ;;
  mixes <- lift (get_event_logs_from_tx_receipt log_address log_topics processLog address mix_topic tx_receipt) ;;
  ret (debug_line <$> debug, mixes).
End wait.

(** ** The timer *)

(** [_start_time]; the clock is an argument. *)
Record Timer : Type := mkTimer { _start_time : option Z }.
Definition new_Timer : Timer := mkTimer None.
Definition start (now : Z) (t : Timer) : result Timer :=
  _ ← py_assert (bool_decide (_start_time t = None)); Ok (mkTimer (Some now)).
Definition started (now : Z) : result Timer := start now new_Timer.
Definition elapsed_seconds (now : Z) (t : Timer) : result Z :=
  match _start_time t with Some s => Ok (now - s) | None => Err AssertionError end.

(** ** Properties *)

(** A group is entered only for a subcommand other than [help]; the context then has the
    options that were given, and the defaults for the others. *)
Theorem zeth_context (command : option str) (o : GroupOptions) :
  match zeth command o with
  | Ok (ctx, wallet_dir) => (∃ c, command = Some c ∧ c ≠ lit "help") ∧
      cc_eth_network ctx = go_eth_network o ∧
      (∀ f, go_instance_file o = Some f → instance_file ctx = f) ∧
      (go_instance_file o = None → instance_file ctx = INSTANCE_FILE_DEFAULT) ∧
      (∀ f, go_wallet_dir o = Some f → wallet_dir = f)
  | Err e => (command = None ∨ command = Some (lit "help")) ∧ e = ClickException
  end.
Proof.
  unfold zeth. case_decide as Hc; cbn [mbind result_bind help].
  - split; [|done]. destruct command as [c|]; [right | by left]. cbn in Hc. by subst.
  - split_and!; try done.
    + destruct command as [c|]; [|done]. eauto.
    + cbn. by intros f ->.
    + cbn. by intros ->.
    + by intros f ->.
Qed.

(** The argument of the test commands is accepted exactly when there is a provider for it. *)
Theorem parse_zksnark_arg_provider (s : str) :
  parse_zksnark_arg s = Ok s ↔ ∃ P, get_zksnark_provider s = Ok P.
Proof.
  unfold parse_zksnark_arg, get_zksnark_provider, VALID_ZKSNARKS.
  assert (s ∈ [GROTH16_ZKSNARK; PGHR13_ZKSNARK] ↔ s = PGHR13_ZKSNARK ∨ s = GROTH16_ZKSNARK) as Hin.
  { rewrite !elem_of_cons, elem_of_nil. tauto. }
  repeat case_decide; split; intros Hs; try done; try (by eauto); try (destruct Hs; done); tauto.
Qed.

(** [wait] reads one receipt and changes no file; what it reports are the events of the mixer
    in that receipt, each kind in order. *)
Theorem wait_reports {Chain Log : Type} `{Web3 Chain} `{Receipts Chain Log} `{DebugLogs Log}
  (ctx : ClientConfig) (tx : str) (st st' : CState) (lines : list str) (events : list EventArgs)
  (Hwait : wait (Log := Log) ctx tx st = (Ok (lines, events), st')) :
  st'.1 = st.1 ∧ ∃ desc logs debug, load_mixer_description (instance_file ctx) st.1 = Ok desc ∧
    receipt_logs tx st.2 = (Ok logs, st'.2) ∧ lines = debug_line <$> debug ∧
    get_event_logs_from_tx_receipt log_address log_topics processDebug (inst_address (md_mixer desc)) debug_topic logs = Ok debug ∧
    get_event_logs_from_tx_receipt log_address log_topics processLog (inst_address (md_mixer desc)) mix_topic logs = Ok events.
Proof.
  destruct st as [files chain]. unfold wait, bind, reads, on_chain, zoom, lift, ret in Hwait. cbn [fst snd] in Hwait.
  destruct (load_mixer_description _ _) as [desc|]; [|done].
  destruct (open_web3_from_ctx _ _); [|done].
  destruct (receipt_logs tx chain) as [[logs|] c'] eqn:Er; [|done].
  destruct (get_event_logs_from_tx_receipt _ _ processDebug _ _ _) as [debug|] eqn:Ed; [|done].
  destruct (get_event_logs_from_tx_receipt _ _ processLog _ _ _) as [mixes|] eqn:Em; [|done].
  injection Hwait as <- <- <-. split; [done|]. by exists desc, logs, debug.
Qed.
