(* ===== verification/Helper.v ===== *)
(** * The helper commands ([client/zeth/helper], [test_commands/deploy_test_token.py])

    Ethereum keys, networks, balances and transfers for test set-ups, and the token of
    the tests.  What a node does with plain transactions is the class [EthNode]; the
    address of a key and the random bytes of a new key are parameters. *)

From Stdlib Require Import ZArith Lia Ascii String.
From stdpp Require Import base tactics list gmap strings.
From S2P Require Import Prelude PyStr PyBytes PyIO Hashes Constants Utils Contracts MixerClient PyState Prover Cli Commands.

Local Open Scope Z_scope.
Local Open Scope sm_scope.

(** A transfer of ether. *)
Record Transfer : Type := mkTransfer { tr_from : str; tr_to : str; tr_value : Z }.

Class EthNode (Chain : Type) := {
  accounts : Chain → result (list str);
  getBalance : str → Chain → result Z;
  unlockAccount : str → str → SM Chain unit;
  sendTransaction : Transfer → SM Chain unit;
  (** the gas of a transfer with a gas price and a nonce *)
  estimateGas : Transfer → Z → Z → Chain → result Z;
  (** the raw transaction, for the gas price, the nonce and the gas *)
  signTransfer : Transfer → Z → Z → Z → bytes → Chain → result bytes
}.

Class EthKeys := { eth_address_from_private_key : bytes → result str }.

Definition FUND_AMOUNT_DEFAULT : Z := 1000000.

(** ** Files *)

(** [gen_eth_private_key], with the random bytes. *)
Definition gen_eth_private_key (keccak_256 : bytes → bytes) (rand : bytes) : bytes := keccak_256 rand.

Definition eth_gen_address `{EthKeys} (keccak_256 : bytes → bytes) (eth_addr_file eth_private_key_file use_private_key : option str)
    (rand : bytes) : SM fs str :=
  let eth_addr_file := str_or eth_addr_file ETH_ADDRESS_DEFAULT in
  let eth_private_key_file := str_or eth_private_key_file ETH_PRIVATE_KEY_FILE_DEFAULT in
  eth_private_key <- lift (match truthy use_private_key with
                           | Some k => fromhex k
                           | None => Ok (gen_eth_private_key keccak_256 rand)
                           end) ;;
  raise_when (negb (zlen eth_private_key =? 32)) ClickException ;;;
  write_eth_private_key eth_private_key eth_private_key_file ;;;
  eth_address <- lift (eth_address_from_private_key eth_private_key) ;;
  write_eth_address eth_address eth_addr_file ;;;
  ret eth_address.

Definition eth_gen_network_config (eth_network : str) (eth_rpc_endpoint eth_rpc_certificate : option str)
    (eth_rpc_insecure : bool) (output_file : str) : SM fs unit :=
  network <- match eth_rpc_endpoint with
             | Some endpoint => ret (mkNetwork eth_network endpoint eth_rpc_certificate eth_rpc_insecure)
             | None => (λ m, (get_eth_network (Some eth_network) m, m))
             end ;;
  f_write output_file (CJson (network_to_json network)).

(** ** Commands on a chain *)

Section helper.
Context `{Web3 Chain} `{EthNode Chain} `{Web3Units} `{Checksum}.

Definition open_network (eth_network : option str) : SM (CState (Chain := Chain)) NetworkConfig :=
  network <- reads (get_eth_network eth_network) ;;
  reads (open_web3 network) ;;;
  ret network.

Definition eth_get_contract_address (instance_file : str) : SM (CState (Chain := Chain)) str :=
  reads (load_contract_address instance_file).

(** The text that is printed. *)
Definition eth_get_balance (eth_network eth_addr : option str) (wei : bool) : SM (CState (Chain := Chain)) str :=
  eth_addr <- reads (load_eth_address eth_addr) ;;
  open_network eth_network ;;;
  balance_wei <- on_chain (query (getBalance eth_addr)) ;;
  if wei then ret (str_of_int balance_wei)
  else v <- lift (EtherValue.of_int balance_wei (lit "wei")) ;; ret (EtherValue.ether v).

Definition eth_fund (eth_network eth_addr source_addr : option str) (amount : Z) : SM (CState (Chain := Chain)) unit :=
  eth_addr <- reads (load_eth_address eth_addr) ;;
  eth_network <- open_network eth_network ;;
  source_addr <-
    match truthy source_addr with
    | Some a => ret (Some a)
    | None =>
        hosted <- on_chain (query accounts) ;;
        a <- lift (py_get hosted 0) ;;
        (if decide (net_name eth_network = lit "autonity-helloworld") then on_chain (unlockAccount a (lit "test")) else ret tt) ;;;
        ret (Some a)
    end ;;
  source_addr <- reads (load_eth_address source_addr) ;;
  value <- lift (EtherValue.of_int amount (lit "ether")) ;;
  on_chain (sendTransaction (mkTransfer source_addr eth_addr (EtherValue.wei value))).

(** The hash of the transaction as text. *)
Definition eth_send (eth_network : option str) (dest_addr : str) (eth_private_key eth_addr : option str) (amount : str)
    : SM (CState (Chain := Chain)) str :=
  dest_addr <- reads (load_eth_address (Some dest_addr)) ;;
  eth_private_key_data <- reads (load_eth_private_key eth_private_key) ;;
  eth_addr <- reads (load_eth_address eth_addr) ;;
  open_network eth_network ;;;
  match eth_private_key_data with
  | None => raise ClickException
  | Some key =>
      value <- lift (EtherValue.of_str amount) ;;
      let send_tx_desc := mkTransfer eth_addr dest_addr (EtherValue.wei value) in
      price <- on_chain (query gasPrice) ;;
      nonce <- on_chain (query (getTransactionCount eth_addr)) ;;
      gas <- on_chain (query (estimateGas send_tx_desc price nonce)) ;;
      signed_tx <- on_chain (query (signTransfer send_tx_desc price nonce gas key)) ;;
      tx_hash <- on_chain (sendRawTransaction signed_tx) ;;
      ret (hex tx_hash)
  end.

(** What is printed: the hash of the transaction, or nothing after [--wait]. *)
Definition token_approve (eth_network : option str) (value : str) (eth_addr eth_private_key : option str) (wait : bool)
    (instance_file : str) : SM (CState (Chain := Chain)) (option str) :=
  approve_value <- lift (EtherValue.of_str value) ;;
  eth_addr <- reads (load_eth_address eth_addr) ;;
  eth_private_key_data <- reads (load_eth_private_key eth_private_key) ;;
  open_network eth_network ;;;
  mixer_desc <- reads (load_mixer_description instance_file) ;;
  match md_token mixer_desc with
  | None => raise ClickException
  | Some token =>
      tx_hash <- on_chain (send_contract_call (ApproveCall token (inst_address (md_mixer mixer_desc)) (EtherValue.wei approve_value))
                             eth_addr eth_private_key_data None None) ;;
      if wait then on_chain (waitForTransactionReceipt tx_hash) ;;; ret None else ret (Some (hex tx_hash))
  end.

(** ** The token of the tests *)

Definition compile_token `{Solc} (zeth_dir : str) : result Compiled :=
  let path_to_token := path_join (path_join zeth_dir (lit "zeth_contracts/contracts")) (lit "ERC20Mintable.sol") in
  compiled_sol ← solc_compile [path_to_token];
  of_option KeyError (assoc (path_to_token ++ lit ":ERC20Mintable") compiled_sol).

Definition deploy_token `{Solc} (zeth_dir deployer_address : str) (deployer_private_key : option bytes)
    (deployment_gas : option Z) : SM Chain InstanceDescription :=
  token_interface <- lift (compile_token zeth_dir) ;;
  tx_hash <- send_contract_call (TokenConstructorCall token_interface) deployer_address deployer_private_key None deployment_gas ;;
  contract_address <- waitForTransactionReceipt tx_hash ;;
  ret (mkInstance contract_address (c_abi token_interface)).

Definition mint_token (token_instance : InstanceDescription) (spender_address deployer_address : str)
    (deployer_private_key : option bytes) (token_amount : EtherValue.t) : SM Chain bytes :=
  send_contract_call (MintCall token_instance spender_address (EtherValue.wei token_amount)) deployer_address
    deployer_private_key None None.

(** The address of the token that is printed. *)
Definition deploy_test_token `{Solc} (zeth_dir : str) (eth_network eth_addr eth_private_key : option str) (mint_amount : Z)
    (recipient_address : str) : SM (CState (Chain := Chain)) str :=
  eth_addr <- reads (load_eth_address eth_addr) ;;
  eth_private_key_data <- reads (load_eth_private_key eth_private_key) ;;
  recipient_address <- reads (load_eth_address (Some recipient_address)) ;;
  open_network eth_network ;;;
  token_instance <- on_chain (deploy_token zeth_dir eth_addr eth_private_key_data (Some 4000000)) ;;
  amount <- lift (EtherValue.of_int mint_amount (lit "ether")) ;;
  mint_tx_hash <- on_chain (mint_token token_instance recipient_address eth_addr eth_private_key_data amount) ;;
  on_chain (waitForTransactionReceipt mint_tx_hash) ;;;
  ret (inst_address token_instance).
End helper.
