(* ===== verification/HelperFacts.v ===== *)
(** * What the helper commands write and send *)

From Stdlib Require Import ZArith Lia Ascii String.
From stdpp Require Import base tactics list gmap strings.
From S2P Require Import Prelude PyStr PyBytes PyIO Hashes Constants Utils Contracts MixerClient PyState Prover Cli Commands Helper.

Local Open Scope Z_scope.
Local Open Scope sm_scope.

(** ** Keys and networks *)

(** Writing a file that must not exist. *)
Lemma write_new (p : str) (c : content) (m : fs) :
  (have <- f_exists p ;; raise_when have ClickException ;;; f_write p c) m =
    if decide (m !! p = None) then (Ok tt, <[p := c]> m) else (Err ClickException, m).
Proof.
  unfold f_exists, gets, bind, raise_when, exists_file. case_decide as Hp.
  - rewrite bool_decide_false by (rewrite Hp; by intros [? ?]). done.
  - rewrite bool_decide_true by (by apply not_eq_None_Some). done.
Qed.

(** A new address is all or nothing but for one case.  [eth_gen_address] overwrites
    no file: when it ends, both files are new and hold the key of 32 bytes and its
    address, which [load_eth_private_key] and [load_eth_address] read back.  When it
    raises, the directory is as it was, or it has the new key file and no more: the key
    is written before the address file is looked at, so this happens exactly when the
    key is good and the address file exists (or is the key file) or the key has no
    address. *)
Theorem eth_gen_address_files `{EthKeys} `{Checksum} (keccak_256 : bytes → bytes) (addr_file key_file use_key : option str)
  (rand : bytes) (st : fs) :
  let a := str_or addr_file ETH_ADDRESS_DEFAULT in
  let k := str_or key_file ETH_PRIVATE_KEY_FILE_DEFAULT in
  let key := match truthy use_key with Some s => fromhex s | None => Ok (keccak_256 rand) end in
  let '(r, st') := eth_gen_address keccak_256 addr_file key_file use_key rand st in
  match r with
  | Ok address => ∃ b, key = Ok b ∧ length b = 32%nat ∧ eth_address_from_private_key b = Ok address ∧
      a ≠ k ∧ st !! a = None ∧ st !! k = None ∧ st' = <[a := CText address]> (<[k := CBytes b]> st) ∧
      load_eth_private_key (Some k) st' = Ok (Some b) ∧
      (startswith (lit "0x") a = false → load_eth_address (Some a) st' = toChecksumAddress (rstrip address))
  | Err _ => st' = st ∨
      ∃ b, key = Ok b ∧ length b = 32%nat ∧ st !! k = None ∧ st' = <[k := CBytes b]> st ∧
        (is_ok (eth_address_from_private_key b) = true → a = k ∨ is_Some (st !! a))
  end.
Proof.
  intros a k key. destruct (eth_gen_address keccak_256 addr_file key_file use_key rand st) as [r st'] eqn:E.
  unfold eth_gen_address in E. fold a k in E. unfold gen_eth_private_key in E. fold key in E. unfold bind at 1, lift at 1 in E.
  destruct key as [b|e]; [|injection E as <- <-; by left]. unfold bind at 1, raise_when at 1 in E.
  destruct (zlen b =? 32) eqn:Hl; [|injection E as <- <-; by left]. prop_bool. cbn [negb ret] in E.
  assert (length b = 32%nat) as Hlen by (unfold zlen in Hl; lia).
  unfold bind at 1, write_eth_private_key in E. rewrite write_new in E. case_decide as Hk; [|injection E as <- <-; by left].
  unfold bind at 1, lift at 1 in E. destruct (eth_address_from_private_key b) as [address|e] eqn:Ea.
  2: { injection E as <- <-. right. exists b. rewrite Ea. by split_and!. }
  unfold bind at 1, write_eth_address in E. rewrite write_new in E. case_decide as Ha.
  - unfold ret in E. injection E as <- <-. exists b.
    assert (a ≠ k) as Hne by (intros Heq; rewrite Heq, lookup_insert_eq in Ha; done). rewrite lookup_insert_ne in Ha by done.
    assert (str_or (Some k) ETH_PRIVATE_KEY_FILE_DEFAULT = k) as Ek.
    { unfold k, str_or. destruct key_file as [[|]|]; reflexivity. }
    assert (str_or (Some a) ETH_ADDRESS_DEFAULT = a) as Ea'.
    { unfold a, str_or. destruct addr_file as [[|]|]; reflexivity. }
    split_and!; try done.
    + unfold load_eth_private_key. rewrite Ek. unfold exists_file, read_file.
      rewrite bool_decide_true by (rewrite lookup_insert_ne, lookup_insert_eq by done; by eexists).
      rewrite lookup_insert_ne, lookup_insert_eq by done. cbn [of_option mbind result_bind]. by rewrite take_ge by lia.
    + intros Hs. unfold load_eth_address. rewrite Ea', Hs. unfold exists_file, read_text, read_file.
      rewrite bool_decide_true by (rewrite lookup_insert_eq; by eexists). rewrite lookup_insert_eq. done.
  - injection E as <- <-. right. exists b. split_and!; [done..|]. intros _. destruct (decide (a = k)) as [Hk'|Hne]; [by left|].
    right. rewrite lookup_insert_ne in Ha by done. by apply not_eq_None_Some.
Qed.

(** A network survives its file, an empty certificate as none: what the command writes is
    what every other command reads when it is given the name of the file. *)
Theorem network_file_roundtrip (name : str) (endpoint cert : option str) (ins : bool) (file : str) (st : fs) :
  startswith (lit "http") file = false →
  let '(r, st') := eth_gen_network_config name endpoint cert ins file st in
  match r with
  | Ok _ => ∃ n, get_eth_network (Some file) st' = Ok (mkNetwork (net_name n) (net_endpoint n) (truthy (certificate n)) (insecure n)) ∧
      match endpoint with
      | Some e => n = mkNetwork name e cert ins
      | None => get_eth_network (Some name) st = Ok n
      end ∧ ∀ g, g ≠ file → st' !! g = st !! g
  | Err _ => st' = st
  end.
Proof.
  intros Hf. destruct (eth_gen_network_config name endpoint cert ins file st) as [r st'] eqn:E. unfold eth_gen_network_config in E.
  assert (∀ n, get_eth_network (Some file) (<[file := CJson (network_to_json n)]> st) =
    Ok (mkNetwork (net_name n) (net_endpoint n) (truthy (certificate n)) (insecure n))) as Hread.
  { intros n. unfold get_eth_network. rewrite Hf. unfold exists_file, read_json, read_file.
    rewrite bool_decide_true by (rewrite lookup_insert_eq; by eexists). rewrite lookup_insert_eq. cbn [of_option mbind result_bind].
    destruct n as [nm ep [[|c cs]|] [|]]; reflexivity. }
  assert (∀ n, ∀ g, g ≠ file → <[file := CJson (network_to_json n)]> st !! g = st !! g) as Hother by (intros; by apply lookup_insert_ne).
  unfold bind in E. destruct endpoint as [e|].
  - unfold ret, f_write, modify, write_file in E. injection E as <- <-. eexists. split_and!; [apply Hread | done | apply Hother].
  - destruct (get_eth_network (Some name) st) as [n|e] eqn:En; [|by injection E as <- <-].
    unfold f_write, modify, write_file in E. injection E as <- <-. exists n. split_and!; [apply Hread | done | apply Hother].
Qed.

(** ** What is sent *)

Section sent.
Context {Chain : Type} `{Web3 Chain} `{EthNode Chain} `{Web3Units} `{Checksum}.

Lemma open_network_keeps n (s : CState (Chain := Chain)) : (open_network n s).2 = s.
Proof.
  unfold open_network, bind, reads, ret. destruct (get_eth_network n s.1) as [net|e]; [|done]. by destruct (open_web3 net s.1).
Qed.

(** An approval goes to the token of the mixer in the instance file, for that mixer and
    the amount, without ether; without a token nothing is sent.  No file changes. *)
Theorem token_approve_transaction (network eth_addr key : option str) (value : str) (wait : bool) (file : str)
  (st : CState (Chain := Chain)) :
  let '(r, st') := token_approve network value eth_addr key wait file st in
  st'.1 = st.1 ∧
  (st'.2 = st.2 ∨
   ∃ amount desc token sender sender_key rh ch, EtherValue.of_str value = Ok amount ∧ load_mixer_description file st.1 = Ok desc ∧
     md_token desc = Some token ∧ load_eth_address eth_addr st.1 = Ok sender ∧ load_eth_private_key key st.1 = Ok sender_key ∧
     send_contract_call (ApproveCall token (inst_address (md_mixer desc)) (EtherValue.wei amount)) sender sender_key None None st.2 = (rh, ch) ∧
     match rh with
     | Err e => r = Err e ∧ st'.2 = ch
     | Ok h => if wait then st'.2 = (waitForTransactionReceipt h ch).2 else r = Ok (Some (hex h)) ∧ st'.2 = ch
     end).
Proof.
  destruct (token_approve network value eth_addr key wait file st) as [r st'] eqn:E. unfold token_approve in E.
  unfold bind at 1, lift at 1 in E. destruct (EtherValue.of_str value) as [amount|e] eqn:Ev; [|injection E as <- <-; split; [done | by left]].
  unfold bind at 1, reads at 1 in E. destruct (load_eth_address eth_addr st.1) as [sender|e] eqn:Es; [|injection E as <- <-; split; [done | by left]].
  unfold bind at 1, reads at 1 in E. destruct (load_eth_private_key key st.1) as [k|e] eqn:Ek; [|injection E as <- <-; split; [done | by left]].
  unfold bind at 1 in E. pose proof (open_network_keeps network st) as Ho.
  destruct (open_network network st) as [[net|e] s1]; cbn [snd] in Ho; subst s1; [|injection E as <- <-; split; [done | by left]].
  unfold bind at 1, reads at 1 in E. destruct (load_mixer_description file st.1) as [desc|e] eqn:Ed; [|injection E as <- <-; split; [done | by left]].
  destruct (md_token desc) as [token|] eqn:Et; [|injection E as <- <-; split; [done | by left]].
  unfold bind at 1, on_chain at 1, zoom at 1 in E.
  destruct (send_contract_call _ sender k None None st.2) as [rh ch] eqn:Esend.
  destruct rh as [h|e]; cbn [fst snd] in E.
  - destruct wait.
    + unfold bind, on_chain, zoom, ret in E. cbn [fst snd] in E. destruct (waitForTransactionReceipt h ch) as [rr ch2] eqn:Ew.
      destruct rr; injection E as <- <-; cbn [fst snd]; (split; [done|]); right; exists amount, desc, token, sender, k, (Ok h), ch;
        rewrite Ew; by split_and!.
    + unfold ret in E. injection E as <- <-. cbn [fst snd]. split; [done|]. right. exists amount, desc, token, sender, k, (Ok h), ch. by split_and!.
  - injection E as <- <-. cbn [fst snd]. split; [done|]. right. exists amount, desc, token, sender, k, (Err e), ch. by split_and!.
Qed.
End sent.
