(* ===== verification/PyTime.v ===== *)
(** * Calendar times

    [time.gmtime], [time.strftime], [time.strptime] and [calendar.timegm] for the format
    ["%Y-%m-%d %H:%M:%S"]: the proleptic Gregorian calendar, with days counted from the
    first of January of the year 1. *)

From Stdlib Require Import ZArith Lia Ascii String.
From stdpp Require Import base tactics list strings.
From S2P Require Import Prelude PyStr.

Local Open Scope Z_scope.

(** ** Days *)

Definition is_leap (y : Z) : bool := (y mod 4 =? 0) && (negb (y mod 100 =? 0) || (y mod 400 =? 0)).

Definition days_before_month (leap : bool) (m : Z) : Z :=
  nth (Z.to_nat (m - 1)) [0; 31; 59; 90; 120; 151; 181; 212; 243; 273; 304; 334; 365] 0
  + (if leap && (2 <? m) then 1 else 0).
Definition days_in_month (leap : bool) (m : Z) : Z := days_before_month leap (m + 1) - days_before_month leap m.

Definition days_before_year (y : Z) : Z := 365 * (y - 1) + (y - 1) / 4 - (y - 1) / 100 + (y - 1) / 400.

(** Days from the first day of year 1 to the given one. *)
Definition ymd_to_days (y m d : Z) : Z := days_before_year y + days_before_month (is_leap y) m + d - 1.

(** The month and day of a day of the year; the month is estimated and corrected. *)
Definition month_day (leap : bool) (n : Z) : Z * Z :=
  let m := Z.shiftr (n + 50) 5 in
  let m := if n <? days_before_month leap m then m - 1 else m in
  (m, n - days_before_month leap m + 1).

(** The date of a day, through cycles of 400, 100, 4 and 1 years. *)
Definition days_to_ymd (n : Z) : Z * Z * Z :=
  let '(n400, n) := (n / 146097, n mod 146097) in
  let '(n100, n) := (n / 36524, n mod 36524) in
  let '(n4, n) := (n / 1461, n mod 1461) in
  let '(n1, n) := (n / 365, n mod 365) in
  let year := n400 * 400 + n100 * 100 + n4 * 4 + n1 + 1 in
  if (n1 =? 4) || (n100 =? 4) then (year - 1, 12, 31)
  else
    let leap := (n1 =? 3) && (negb (n4 =? 24) || (n100 =? 3)) in
    let '(m, d) := month_day leap n in (year, m, d).

(** ** Times *)

Record struct_time : Type := mkTime { tm_year : Z; tm_mon : Z; tm_mday : Z; tm_hour : Z; tm_min : Z; tm_sec : Z }.

(** The first of January 1970. *)
Definition EPOCH_DAY : Z := 719162.

(** [time.gmtime(secs)] on a whole number of seconds. *)
Definition gmtime (t : Z) : struct_time :=
  let '(y, m, d) := days_to_ymd (t / 86400 + EPOCH_DAY) in
  let s := t mod 86400 in
  mkTime y m d (s / 3600) (s mod 3600 / 60) (s mod 60).

(** [calendar.timegm]; [datetime.date] takes years from 1 to 9999. *)
Definition timegm (t : struct_time) : result Z :=
  _ ← raise_if (negb ((1 <=? tm_year t) && (tm_year t <=? 9999))) ValueError;
  let days := ymd_to_days (tm_year t) (tm_mon t) 1 - EPOCH_DAY + tm_mday t - 1 in
  Ok (((days * 24 + tm_hour t) * 60 + tm_min t) * 60 + tm_sec t).

(** [time.strftime("%Y-%m-%d %H:%M:%S", t)] *)
Definition strftime (t : struct_time) : str :=
  str_of_int (tm_year t) ++ "-"%char :: fmt_0wd 2 (tm_mon t) ++ "-"%char :: fmt_0wd 2 (tm_mday t) ++ " "%char ::
  fmt_0wd 2 (tm_hour t) ++ ":"%char :: fmt_0wd 2 (tm_min t) ++ ":"%char :: fmt_0wd 2 (tm_sec t).

(** ** [time.strptime] with the same format *)

Definition dec_val (c : ascii) : option Z := d ← digit_val c; if d <? 10 then Some d else None.

(** Four digits. *)
Definition scan4 (s : str) : option (Z * str) :=
  match s with
  | a :: b :: c :: d :: s =>
      a ← dec_val a; b ← dec_val b; c ← dec_val c; d ← dec_val d; Some (a * 1000 + b * 100 + c * 10 + d, s)
  | _ => None
  end.

(** One or two digits with a value in a range.  What follows a field is never a
    digit, so a shorter match cannot succeed where the longest one fails. *)
Definition scan2 (lo hi : Z) (s : str) : option (Z * str) :=
  let ranged v s := if (lo <=? v) && (v <=? hi) then Some (v, s) else None in
  match s with
  | a :: s =>
      a ← dec_val a;
      match s with
      | b :: s' => match dec_val b with Some b => ranged (10 * a + b) s' | None => ranged a s end
      | [] => ranged a s
      end
  | [] => None
  end.

(** A day of the month may also be a space and a digit. *)
Definition scan_day (s : str) : option (Z * str) :=
  match s with
  | a :: c :: s' =>
      if decide (a = " "%char) then d ← dec_val c; if 1 <=? d then Some (d, s') else None
      else scan2 1 31 s
  | _ => scan2 1 31 s
  end.

Definition scan_char (c : ascii) (s : str) : option str :=
  match s with a :: s => if decide (a = c) then Some s else None | [] => None end.

(** A space of the format is any run of white space. *)
Definition scan_space (s : str) : option str :=
  match s with a :: s => if is_space a then Some (lstrip s) else None | [] => None end.

Definition scan_time (s : str) : option struct_time :=
  '(y, s) ← scan4 s; s ← scan_char "-" s;
  '(m, s) ← scan2 1 12 s; s ← scan_char "-" s;
  '(d, s) ← scan_day s; s ← scan_space s;
  '(hh, s) ← scan2 0 23 s; s ← scan_char ":" s;
  '(mm, s) ← scan2 0 59 s; s ← scan_char ":" s;
  '(ss, s) ← scan2 0 61 s;
  match s with [] => Some (mkTime y m d hh mm ss) | _ => None end.

(** The date must exist; the year zero does not. *)
Definition strptime (s : str) : result struct_time :=
  t ← of_option ValueError (scan_time s);
  _ ← raise_if ((tm_year t =? 0) || (days_in_month (is_leap (tm_year t)) (tm_mon t) <? tm_mday t)) ValueError;
  Ok t.

(** ** The calendar is consistent *)

(** Within a year of either length. *)
Definition month_day_ok (leap : bool) (n : Z) : bool :=
  let '(m, d) := month_day leap n in
  (1 <=? m) && (m <=? 12) && (1 <=? d) && (d <=? days_in_month leap m) && (days_before_month leap m + d - 1 =? n).

Lemma year_ok (leap : bool) :
  forallb (λ k : nat, month_day_ok leap (Z.of_nat k)) (seq 0 (if leap then 366 else 365)) = true.
Proof. destruct leap; vm_compute; reflexivity. Qed.

Lemma month_day_spec (leap : bool) n : 0 ≤ n < (if leap then 366 else 365) →
  let '(m, d) := month_day leap n in
  1 ≤ m ≤ 12 ∧ 1 ≤ d ≤ days_in_month leap m ∧ days_before_month leap m + d - 1 = n.
Proof.
  intros Hn. pose proof (proj1 (forallb_forall _ _) (year_ok leap) (Z.to_nat n)) as Hok. cbn beta in Hok.
  rewrite Z2Nat.id in Hok by lia. unfold month_day_ok in Hok. destruct (month_day leap n) as [m d].
  assert (In (Z.to_nat n) (seq 0 (if leap then 366 else 365))) as Hin by (apply in_seq; destruct leap; lia).
  specialize (Hok Hin). prop_bool. lia.
Qed.

(** The parts of a day number. *)
Lemma days_parts n : 0 ≤ n → ∃ a b c e r, n = 146097 * a + 36524 * b + 1461 * c + 365 * e + r ∧
  n / 146097 = a ∧ n mod 146097 / 36524 = b ∧ n mod 146097 mod 36524 / 1461 = c ∧
  n mod 146097 mod 36524 mod 1461 / 365 = e ∧ n mod 146097 mod 36524 mod 1461 mod 365 = r ∧
  0 ≤ a ∧ 0 ≤ b ≤ 4 ∧ 0 ≤ c ≤ 24 ∧ 0 ≤ e ≤ 4 ∧ 0 ≤ r < 365 ∧ (e = 4 → r = 0) ∧ (b = 4 → c = 0 ∧ e = 0 ∧ r = 0) ∧
  (b < 4 → c = 24 → e < 4).
Proof.
  intros Hn. do 5 eexists. split; [|do 5 (split; [reflexivity|])].
  - Z.div_mod_to_equations. lia.
  - Z.div_mod_to_equations. split_and!; lia.
Qed.

(** Leap years and the days before a year, by the position in the cycles. *)
Lemma year_parts a b c e : 0 ≤ a → 0 ≤ b ≤ 3 → 0 ≤ c ≤ 24 → 0 ≤ e ≤ 3 →
  let y := a * 400 + b * 100 + c * 4 + e + 1 in
  days_before_year y = 146097 * a + 36524 * b + 1461 * c + 365 * e ∧
  is_leap y = (e =? 3) && (negb (c =? 24) || (b =? 3)).
Proof.
  intros Ha Hb Hc He y. split.
  - unfold days_before_year, y. replace (_ + 1 - 1) with (400 * a + 100 * b + 4 * c + e) by lia.
    assert ((400 * a + 100 * b + 4 * c + e) / 4 = 100 * a + 25 * b + c) as -> by (Z.div_mod_to_equations; lia).
    assert ((400 * a + 100 * b + 4 * c + e) / 100 = 4 * a + b) as -> by (Z.div_mod_to_equations; lia).
    assert ((400 * a + 100 * b + 4 * c + e) / 400 = a) as -> by (Z.div_mod_to_equations; lia). lia.
  - unfold is_leap.
    assert (y mod 4 = (e + 1) mod 4) as -> by (unfold y; Z.div_mod_to_equations; lia).
    assert (y mod 100 = (4 * c + e + 1) mod 100) as -> by (unfold y; Z.div_mod_to_equations; lia).
    assert (y mod 400 = (100 * b + 4 * c + e + 1) mod 400) as -> by (unfold y; Z.div_mod_to_equations; lia).
    destruct (e =? 3) eqn:E3; prop_bool; cbn [andb].
    + subst e. change ((3 + 1) mod 4 =? 0) with true. cbn [andb].
      destruct (c =? 24) eqn:E24; prop_bool; cbn [negb orb].
      * subst c. change ((4 * 24 + 3 + 1) mod 100 =? 0) with true. cbn [negb orb].
        assert (((100 * b + 4 * 24 + 3 + 1) mod 400 =? 0) = (b =? 3)) as ->; [|done].
        apply eq_true_iff_eq. rewrite !Z.eqb_eq. Z.div_mod_to_equations. lia.
      * apply orb_true_intro. left. apply negb_true_iff, Z.eqb_neq. Z.div_mod_to_equations. lia.
    + apply andb_false_intro1, Z.eqb_neq. Z.div_mod_to_equations. lia.
Qed.

(** Every day has a date that exists, and the date gives the day back. *)
Lemma days_to_ymd_spec n : 0 ≤ n →
  let '(y, m, d) := days_to_ymd n in
  1 ≤ y ∧ days_before_year y ≤ n ∧ 1 ≤ m ≤ 12 ∧ 1 ≤ d ≤ days_in_month (is_leap y) m ∧ ymd_to_days y m d = n.
Proof.
  intros Hn. unfold days_to_ymd.
  destruct (days_parts n Hn) as (a & b & c & e & r & En & -> & -> & -> & -> & -> & Ha & Hb & Hc & He & Hr & He4 & Hb4 & Hce).
  destruct ((e =? 4) || (b =? 4)) eqn:E4.
  - (* the last day of a leap year *)
    assert (∃ b' c', a * 400 + b * 100 + c * 4 + e + 1 - 1 = a * 400 + b' * 100 + c' * 4 + 3 + 1 ∧ 0 ≤ b' ≤ 3 ∧ 0 ≤ c' ≤ 24 ∧
      (c' = 24 → b' = 3) ∧ n = 146097 * a + 36524 * b' + 1461 * c' + 365 * 3 + 365) as (b' & c' & Ey & Hb' & Hc' & H3 & Hn').
    { apply orb_true_iff in E4 as [E4|E4]; prop_bool; subst.
      - destruct (Z.eq_dec b 4) as [->|]; [exfalso; destruct (Hb4 eq_refl); lia|]. exists b, c.
        specialize (He4 eq_refl). split_and!; lia.
      - destruct (Hb4 eq_refl) as (-> & -> & ->). exists 3, 24. split_and!; lia. }
    rewrite Ey. destruct (year_parts a b' c' 3 Ha Hb' Hc' ltac:(lia)) as [Ed El]. cbn zeta in Ed, El.
    assert (is_leap (a * 400 + b' * 100 + c' * 4 + 3 + 1) = true) as Hl.
    { rewrite El. destruct (c' =? 24) eqn:E; [|done]. prop_bool. specialize (H3 E). by subst. }
    unfold ymd_to_days. rewrite Hl, Ed. vm_compute (days_before_month true 12). vm_compute (days_in_month true 12). lia.
  - apply orb_false_iff in E4 as [E4 E4']. prop_bool.
    destruct (year_parts a b c e Ha ltac:(lia) Hc ltac:(lia)) as [Ed El]. cbn zeta in Ed, El.
    set (leap := (e =? 3) && _) in *. pose proof (month_day_spec leap r ltac:(destruct leap; lia)) as Hmd.
    destruct (month_day leap r) as [m d]. destruct Hmd as (Hm & Hd & Hmd).
    unfold ymd_to_days. rewrite El, Ed. split_and!; lia.
Qed.

Lemma days_before_year_mono y y' : y ≤ y' → days_before_year y ≤ days_before_year y'.
Proof.
  intros Hy. unfold days_before_year. set (u := y - 1). set (v := y' - 1). assert (u ≤ v) by (unfold u, v; lia).
  assert (v / 100 - u / 100 ≤ v - u) by (Z.div_mod_to_equations; lia).
  assert (u / 4 ≤ v / 4) by (apply Z.div_le_mono; lia). assert (u / 400 ≤ v / 400) by (apply Z.div_le_mono; lia). lia.
Qed.

(** The last second of the year 9999. *)
Definition MAX_TIME : Z := 253402300799.

(** [timegm] undoes [gmtime], for the years that [datetime] has. *)
Lemma timegm_gmtime t : - EPOCH_DAY * 86400 ≤ t ≤ MAX_TIME → timegm (gmtime t) = Ok t.
Proof.
  intros Ht. unfold gmtime. unfold EPOCH_DAY, MAX_TIME in *.
  assert (0 ≤ t / 86400 + 719162) as Hd by (Z.div_mod_to_equations; lia).
  pose proof (days_to_ymd_spec _ Hd) as Hs. destruct (days_to_ymd _) as [[y m] d]. destruct Hs as (Hy & Hby & Hm & Hdd & E).
  assert (y ≤ 9999) as Hy2.
  { destruct (Z.le_gt_cases y 9999) as [|Hgt]; [done|]. pose proof (days_before_year_mono 10000 y ltac:(lia)) as Hmono.
    vm_compute (days_before_year 10000) in Hmono. Z.div_mod_to_equations. lia. }
  unfold timegm. cbn [tm_year tm_mon tm_mday tm_hour tm_min tm_sec].
  rewrite (proj2 (Z.leb_le 1 y)), (proj2 (Z.leb_le y 9999)) by lia. cbn [andb negb raise_if mbind result_bind]. f_equal.
  unfold ymd_to_days in *. unfold EPOCH_DAY.
  replace (days_before_year y + days_before_month (is_leap y) m + 1 - 1 - 719162 + d - 1) with (t / 86400) by lia.
  clear. Z.div_mod_to_equations. lia.
Qed.

(** ** The text of a time *)

Lemma dec_val_char d : 0 ≤ d < 10 → dec_val (digit_char false d) = Some d.
Proof. intros Hd. unfold dec_val. rewrite digit_val_char by lia. cbn. by rewrite (proj2 (Z.ltb_lt d 10)) by lia. Qed.

(** Two digits. *)
Lemma fmt_two z : 0 ≤ z < 100 → ∃ a b, fmt_0wd 2 z = [digit_char false a; digit_char false b] ∧
  0 ≤ a < 10 ∧ 0 ≤ b < 10 ∧ 10 * a + b = z.
Proof.
  intros Hz. unfold fmt_0wd, sign_str, abs_digits. rewrite (proj2 (Z.ltb_ge z 0)), Z.abs_eq by lia. cbn [app length].
  pose proof (digits_of_num 10 ltac:(lia) z ltac:(lia)) as Hnum. pose proof (digits_of_range 10 ltac:(lia) z ltac:(lia)) as Hr.
  pose proof (digits_of_length 10 ltac:(lia) 2 z ltac:(lia) ltac:(lia)) as Hl.
  pose proof (digits_of_nonempty 10 ltac:(lia) z) as Hne.
  destruct (digits_of 10 z) as [|a [|b [|c ds]]]; [done|..|cbn in Hl; lia]; rewrite ?Forall_cons in Hr; unfold num_of in Hnum; cbn in Hnum.
  - exists 0, a. split; [done|]. lia.
  - exists a, b. split; [done|]. lia.
Qed.

Lemma scan2_fmt lo hi z rest : 0 ≤ z < 100 → lo ≤ z ≤ hi → scan2 lo hi (fmt_0wd 2 z ++ rest) = Some (z, rest).
Proof.
  intros Hz Hr. destruct (fmt_two z Hz) as (a & b & -> & Ha & Hb & E). cbn [app scan2].
  rewrite (dec_val_char a) by done. cbn [mbind option_bind]. rewrite (dec_val_char b), E by done.
  by rewrite (proj2 (Z.leb_le lo z)), (proj2 (Z.leb_le z hi)) by lia.
Qed.

Lemma scan_day_fmt z rest : 1 ≤ z ≤ 31 → scan_day (fmt_0wd 2 z ++ rest) = Some (z, rest).
Proof.
  intros Hz. rewrite <- (scan2_fmt 1 31 z rest) by lia. destruct (fmt_two z ltac:(lia)) as (a & b & -> & Ha & Hb & E).
  cbn [app scan_day]. rewrite decide_False; [done|]. intros Hc. pose proof (dec_val_char a Ha) as Hd. by rewrite Hc in Hd.
Qed.

Lemma scan4_year y rest : 1000 ≤ y ≤ 9999 → scan4 (str_of_int y ++ rest) = Some (y, rest).
Proof.
  intros Hy. unfold str_of_int, sign_str, abs_digits. rewrite (proj2 (Z.ltb_ge y 0)), Z.abs_eq by lia. cbn [app].
  pose proof (digits_of_num 10 ltac:(lia) y ltac:(lia)) as Hnum. pose proof (digits_of_range 10 ltac:(lia) y ltac:(lia)) as Hr.
  pose proof (digits_of_length 10 ltac:(lia) 4 y ltac:(lia) ltac:(lia)) as Hl.
  destruct (digits_of 10 y) as [|a [|b [|c [|d [|e ds]]]]]; rewrite ?Forall_cons in Hr; unfold num_of in Hnum; cbn in Hnum;
    try lia; [|cbn in Hl; lia].
  destruct Hr as (Ha & Hb & Hc & Hd & _). cbn [fmap list_fmap app scan4].
  rewrite !dec_val_char by done. cbn [mbind option_bind]. do 2 f_equal. lia.
Qed.

(** The fields of a time of the years with four digits. *)
Definition time_ok (t : struct_time) : Prop :=
  1000 ≤ tm_year t ≤ 9999 ∧ 1 ≤ tm_mon t ≤ 12 ∧ 1 ≤ tm_mday t ≤ days_in_month (is_leap (tm_year t)) (tm_mon t) ∧
  0 ≤ tm_hour t < 24 ∧ 0 ≤ tm_min t < 60 ∧ 0 ≤ tm_sec t < 60.

Lemma month_length leap m : 1 ≤ m ≤ 12 → days_in_month leap m ≤ 31.
Proof.
  intros Hm. assert (forallb (λ k : nat, days_in_month leap (Z.of_nat k) <=? 31) (seq 1 12) = true) as Hall by by destruct leap.
  pose proof (proj1 (forallb_forall _ _) Hall (Z.to_nat m) ltac:(apply in_seq; lia)) as Hk. cbn beta in Hk.
  rewrite Z2Nat.id in Hk by lia. prop_bool. done.
Qed.

Lemma digit_not_space z rest : 0 ≤ z < 100 → lstrip (fmt_0wd 2 z ++ rest) = fmt_0wd 2 z ++ rest.
Proof.
  intros Hz. destruct (fmt_two z Hz) as (a & b & -> & Ha & Hb & _). cbn [app lstrip].
  assert (a = 0 ∨ a = 1 ∨ a = 2 ∨ a = 3 ∨ a = 4 ∨ a = 5 ∨ a = 6 ∨ a = 7 ∨ a = 8 ∨ a = 9) as Hc by lia.
  by repeat destruct Hc as [->|Hc]; [..|subst].
Qed.

Lemma strptime_strftime t : time_ok t → strptime (strftime t) = Ok t.
Proof.
  destruct t as [y m d hh mm ss]. intros (Hy & Hm & Hd & Hh & Hmm & Hs). cbn [tm_year tm_mon tm_mday tm_hour tm_min tm_sec] in *.
  pose proof (month_length (is_leap y) m Hm) as Hl. unfold strptime.
  assert (scan_time (strftime (mkTime y m d hh mm ss)) = Some (mkTime y m d hh mm ss)) as ->.
  { unfold scan_time, strftime. cbn [tm_year tm_mon tm_mday tm_hour tm_min tm_sec].
    rewrite scan4_year by done. cbn [mbind option_bind scan_char]. rewrite decide_True by done. cbn [mbind option_bind].
    rewrite scan2_fmt by lia. cbn [mbind option_bind scan_char]. rewrite decide_True by done. cbn [mbind option_bind].
    rewrite scan_day_fmt by lia. cbn [mbind option_bind scan_space]. change (is_space " ") with true. cbn [mbind option_bind].
    rewrite digit_not_space, scan2_fmt by lia. cbn [mbind option_bind scan_char]. rewrite decide_True by done. cbn [mbind option_bind].
    rewrite scan2_fmt by lia. cbn [mbind option_bind scan_char]. rewrite decide_True by done. cbn [mbind option_bind].
    rewrite <- (app_nil_r (fmt_0wd 2 ss)), scan2_fmt by lia. done. }
  cbn [of_option mbind result_bind tm_year tm_mon tm_mday].
  rewrite (proj2 (Z.eqb_neq y 0)), (proj2 (Z.ltb_ge _ _)) by lia. done.
Qed.

(** A date is before the next year. *)
Lemma year_length y m d : 1 ≤ m ≤ 12 → 1 ≤ d ≤ days_in_month (is_leap y) m → ymd_to_days y m d < days_before_year (y + 1).
Proof.
  intros Hm Hd.
  assert (days_before_month (is_leap y) m + d ≤ 365 + (if is_leap y then 1 else 0)) as Hb.
  { assert (forallb (λ k : nat, days_before_month (is_leap y) (Z.of_nat k) + days_in_month (is_leap y) (Z.of_nat k)
      <=? 365 + (if is_leap y then 1 else 0)) (seq 1 12) = true) as Hall by by destruct (is_leap y).
    pose proof (proj1 (forallb_forall _ _) Hall (Z.to_nat m) ltac:(apply in_seq; lia)) as Hk. cbn beta in Hk.
    rewrite Z2Nat.id in Hk by lia. prop_bool. lia. }
  unfold ymd_to_days. enough (days_before_year (y + 1) = days_before_year y + 365 + (if is_leap y then 1 else 0)) by lia.
  unfold days_before_year, is_leap.
  destruct (y mod 4 =? 0) eqn:E4, (y mod 100 =? 0) eqn:E100, (y mod 400 =? 0) eqn:E400; prop_bool; cbn [andb orb negb];
    Z.div_mod_to_equations; lia.
Qed.

(** 1 January 1000, the first day with a year of four digits. *)
Definition MIN_TIME : Z := -30610224000.

Lemma gmtime_ok t : MIN_TIME ≤ t ≤ MAX_TIME → time_ok (gmtime t).
Proof.
  intros Ht. unfold gmtime, MIN_TIME, MAX_TIME, EPOCH_DAY in *.
  assert (364877 ≤ t / 86400 + 719162 ≤ 3652058) as Hd by (Z.div_mod_to_equations; lia).
  pose proof (days_to_ymd_spec (t / 86400 + 719162) ltac:(lia)) as Hs. destruct (days_to_ymd _) as [[y m] d].
  destruct Hs as (Hy & Hby & Hm & Hdd & E). unfold time_ok. cbn [tm_year tm_mon tm_mday tm_hour tm_min tm_sec].
  assert (y ≤ 9999) as Hy2.
  { destruct (Z.le_gt_cases y 9999) as [|Hgt]; [done|]. pose proof (days_before_year_mono 10000 y ltac:(lia)) as Hmono.
    vm_compute (days_before_year 10000) in Hmono. lia. }
  assert (1000 ≤ y) as Hy1.
  { destruct (Z.le_gt_cases 1000 y) as [|Hgt]; [done|]. pose proof (days_before_year_mono (y + 1) 1000 ltac:(lia)) as Hmono.
    vm_compute (days_before_year 1000) in Hmono. pose proof (year_length y m d Hm Hdd). lia. }
  split; [lia|]. split; [lia|]. split; [lia|]. clear. Z.div_mod_to_equations. lia.
Qed.
