(* ===== verification/MpcState.v ===== *)
(** * Keys, contributors, configuration and state of the MPC coordinator

    [mpc/coordinator/crypto.py], [contributor_list.py], [server_configuration.py] and
    [server_state.py].  ECDSA keys and SHA-512 are third-party code: the class
    [MpcCrypto], with what the coordinator relies on in [MpcCryptoLaws].  The text
    of a float is the class [FloatText]: the language promises that
    [float(str(x))] is [x]. *)

From Stdlib Require Import ZArith Lia Ascii String Strings.Byte.
From stdpp Require Import base tactics list gmap strings.
From S2P Require Import Prelude PyStr PyBytes PyIO PyState.

Local Open Scope Z_scope.

(** ** Keys and signatures *)

Class MpcCrypto := {
  SigningKey : Type;
  VerificationKey : Type;
  sk_to_der : SigningKey → bytes;
  sk_from_der : bytes → result SigningKey;
  get_verifying_key : SigningKey → VerificationKey;
  vk_to_der : VerificationKey → bytes;
  vk_from_der : bytes → result VerificationKey;
  sign_digest : SigningKey → bytes → bytes;
  verify_digest : VerificationKey → bytes → bytes → result bool;
  sha512 : bytes → bytes
}.

Class MpcCryptoLaws `{MpcCrypto} : Prop := {
  sk_der_roundtrip sk : sk_from_der (sk_to_der sk) = Ok sk;
  vk_der_roundtrip vk : vk_from_der (vk_to_der vk) = Ok vk;
  verify_signed sk d : verify_digest (get_verifying_key sk) (sign_digest sk d) d = Ok true;
  sha512_length m : length (sha512 m) = 64%nat
}.

Class FloatText := { str_of_flt : flt → str; flt_of_str : str → result flt }.
Class FloatTextLaws `{FloatText} : Prop := { flt_text x : flt_of_str (str_of_flt x) = Ok x }.

Definition HASH_BYTE_LENGTH : Z := 64.
Definition HASH_FILE_BLOCK_SIZE : Z := 4096.

Section crypto.
Context `{MpcCrypto}.

Definition KEY_VALIDATION_CHECK_STRING : str := lit "Zeth MPC".

(** [_compute_key_validation_digest] *)
Definition _compute_key_validation_digest : result bytes :=
  b ← encode_ascii KEY_VALIDATION_CHECK_STRING; Ok (sha512 b).

Definition export_digest (digest : bytes) : result str :=
  _ ← py_assert (zlen digest =? HASH_BYTE_LENGTH); Ok (hex digest).

Definition import_digest (digest_s : str) : result bytes :=
  _ ← raise_if (negb (zlen digest_s =? 2 * HASH_BYTE_LENGTH)) (Exception "unexpected digest string length");
  fromhex digest_s.

Definition export_signing_key (sk : SigningKey) : bytes := sk_to_der sk.
Definition import_signing_key (sk_b : bytes) : result SigningKey := sk_from_der sk_b.
Definition get_verification_key (sk : SigningKey) : VerificationKey := get_verifying_key sk.
Definition export_verification_key (vk : VerificationKey) : str := hex (vk_to_der vk).
Definition import_verification_key (vk_s : str) : result VerificationKey := b ← fromhex vk_s; vk_from_der b.
Definition export_signature (sig : bytes) : str := hex sig.
Definition import_signature (sig_s : str) : result bytes := fromhex sig_s.

(** [compute_file_digest]: the file is read in blocks until an empty read; [h]
    holds what the hash was updated with. *)
Fixpoint hash_blocks (fuel : nat) (h rest : bytes) : bytes :=
  match fuel with
  | O => sha512 h
  | S fuel =>
      match take (Z.to_nat HASH_FILE_BLOCK_SIZE) rest with
      | [] => sha512 h
      | block => hash_blocks fuel (h ++ block) (drop (Z.to_nat HASH_FILE_BLOCK_SIZE) rest)
      end
  end.

Definition compute_file_digest (file_name : str) (m : fs) : result bytes :=
  c ← read_file file_name m;
  match c with
  | CBytes b => Ok (hash_blocks (S (length b)) [] b)
  | _ => Err TypeError
  end.

Definition sign (sk : SigningKey) (digest : bytes) : bytes := sign_digest sk digest.

(** An exception of the verification counts as a failure. *)
Definition verify (sig : bytes) (vk : VerificationKey) (digest : bytes) : bool :=
  match verify_digest vk sig digest with Ok b => b | Err _ => false end.

Definition create_key_evidence (key : SigningKey) : result bytes :=
  d ← _compute_key_validation_digest; Ok (sign key d).

Definition check_key_evidence (vk : VerificationKey) (key_evidence : bytes) : result bool :=
  d ← _compute_key_validation_digest; Ok (verify key_evidence vk d).

(** ** Contributors *)

Record Contributor : Type := mkContributor {
  email : str; verification_key : VerificationKey; key_evidence : bytes
}.

Definition contributor_to_json_dict (c : Contributor) : json :=
  JDict [ (lit "email", JStr (email c));
          (lit "verification_key", JStr (export_verification_key (verification_key c)));
          (lit "key_evidence", JStr (export_signature (key_evidence c))) ].

Definition jstr (k : string) (j : json) : result str := v ← jget (lit k) j; as_str v.

Definition contributor_from_json_dict (j : json) : result Contributor :=
  e ← jstr "email" j;
  vs ← jstr "verification_key" j; vk ← import_verification_key vs;
  ks ← jstr "key_evidence" j; ev ← import_signature ks;
  Ok (mkContributor e vk ev).

Definition ContributorList : Type := list Contributor.

(** [ensure_validity]: the first contributor with invalid evidence raises. *)
Fixpoint ensure_validity (l : ContributorList) : result unit :=
  match l with
  | [] => Ok tt
  | c :: l =>
      good ← check_key_evidence (verification_key c) (key_evidence c);
      _ ← raise_if (negb good) (Exception "invalid evidence");
      ensure_validity l
  end.

(** [l.index(key)] *)
Fixpoint index_of (key : str) (l : list str) : result Z :=
  match l with
  | [] => Err ValueError
  | x :: l => if decide (x = key) then Ok 0 else i ← index_of key l; Ok (i + 1)
  end.

Definition get_contributor_index (l : ContributorList) (vk : VerificationKey) : option Z :=
  let key := export_verification_key vk in
  match index_of key (export_verification_key ∘ verification_key <$> l) with
  | Ok i => Some i
  | Err _ => None
  end.

Definition contributors_to_json (l : ContributorList) : json :=
  JDict [ (lit "contributors", JList (contributor_to_json_dict <$> l)) ].

Definition contributors_from_json (j : json) : result ContributorList :=
  cj ← jget (lit "contributors") j; cl ← as_list cj; mapM contributor_from_json_dict cl.
End crypto.

(** ** Configuration *)

Record Configuration : Type := mkConfiguration {
  contributors_file : str;
  start_time_utc : flt;
  contribution_interval : flt;
  tls_key : str;
  tls_certificate : str;
  port : Z;
  email_server : option str;
  email_address : option str;
  email_password_file : option str
}.

(** [if s] on an optional string. *)
Definition opt_truth (o : option str) : bool := match o with Some (_ :: _) => true | _ => false end.

(** [Configuration.__init__] *)
Definition new_Configuration (contributors_file : str) (start_time_utc contribution_interval : flt)
    (tls_key tls_certificate : str) (port : Z) (email_server email_address email_password_file : option str)
    (m : fs) : result Configuration :=
  _ ← raise_if (bool_decide (contributors_file = [])) (Exception "no contributors file specified");
  _ ← raise_if (start_time_utc =? 0) (Exception "invalid start time");
  _ ← raise_if ((opt_truth email_server || opt_truth email_address || opt_truth email_password_file) &&
                negb (opt_truth email_server && opt_truth email_address && opt_truth email_password_file))
        (Exception "must all or none of email server, address and password file in config");
  _ ← raise_if (opt_truth email_password_file && negb (exists_file (default [] email_password_file) m))
        (Exception "no email password file");
  Ok (mkConfiguration contributors_file start_time_utc contribution_interval tls_key tls_certificate port
        email_server email_address email_password_file).

(** ** State *)

Record ServerState : Type := mkServerState {
  next_contributor_index : Z;
  num_contributors : Z;
  next_contributor_deadline : flt
}.

Definition new_ServerState (i n : Z) (deadline : flt) : result ServerState :=
  _ ← py_assert (negb (n =? 0)); Ok (mkServerState i n deadline).

Definition have_all_contributions (s : ServerState) : bool := num_contributors s <=? next_contributor_index s.

Definition _next_contributor (s : ServerState) (next_deadline : flt) : ServerState :=
  let i := next_contributor_index s + 1 in
  mkServerState i (num_contributors s) (if num_contributors s <=? i then 0 else next_deadline).

Definition received_contribution (s : ServerState) (next_deadline : flt) : result ServerState :=
  _ ← py_assert (negb (have_all_contributions s));
  Ok (_next_contributor s next_deadline).

(** [update]: whether the deadline has passed, and the new state. *)
Definition update (s : ServerState) (now interval : flt) : bool * ServerState :=
  if (next_contributor_deadline s <=? 0) || (now <? next_contributor_deadline s) then (false, s)
  else (true, _next_contributor s (flt_add now interval)).

Definition initial_server_state {A} (c : Configuration) (contributors : list A) : result ServerState :=
  _ ← py_assert (negb (start_time_utc c =? 0));
  _ ← py_assert (negb (contribution_interval c =? 0));
  _ ← py_assert (negb (zlen contributors =? 0));
  new_ServerState 0 (zlen contributors) (flt_add (start_time_utc c) (contribution_interval c)).

Section state_json.
Context `{FloatText}.

Definition server_state_to_json (s : ServerState) : json :=
  JDict [ (lit "next_contributor_index", JInt (next_contributor_index s));
          (lit "num_contributors", JInt (num_contributors s));
          (lit "next_contributor_deadline", JStr (str_of_flt (next_contributor_deadline s))) ].

Definition server_state_from_json (j : json) : result ServerState :=
  ij ← jget (lit "next_contributor_index") j; i ← as_int ij;
  nj ← jget (lit "num_contributors") j; n ← as_int nj;
  ds ← jstr "next_contributor_deadline" j; d ← flt_of_str ds;
  new_ServerState i n d.
End state_json.
