(* ===== verification/MpcConfig.v ===== *)
(** * The coordinator's configuration files

    The JSON forms of [Configuration] ([server_configuration.py]) and of the handler
    configurations [Phase1ServerConfig] and [Phase2ServerConfig].  The start time is
    written as a calendar date, in whole seconds. *)

From Stdlib Require Import ZArith Lia Ascii String.
From stdpp Require Import base tactics list gmap strings.
From S2P Require Import Prelude PyStr PyIO PyState PyTime MpcState.

Local Open Scope Z_scope.

(** [os.path.dirname] *)
Fixpoint drop_slashes (r : str) : str :=
  match r with c :: r' => if decide (c = "/"%char) then drop_slashes r' else r | [] => [] end.
Fixpoint skip_name (r : str) : str :=
  match r with c :: r' => if decide (c = "/"%char) then r else skip_name r' | [] => [] end.
Definition dirname (p : str) : str :=
  let head := skip_name (reverse p) in
  match drop_slashes head with [] => head | r => reverse r end.

(** The whole seconds of a time, rounded down as [gmtime] does, and back. *)
Definition whole_secs (t : flt) : Z := t / 2 ^ 1074.
Definition flt_of_int (z : Z) : flt := rnd53 (secs z).

Definition as_float `{FloatText} (j : json) : result flt :=
  match j with JStr s => flt_of_str s | JInt z => Ok (flt_of_int z) | _ => Err TypeError end.
(** [int(j)] *)
Definition to_int (j : json) : result Z :=
  match j with JInt z => Ok z | JStr s => int_of_str 10 s | _ => Err TypeError end.

Section config.
Context `{FloatText}.

(** [Configuration.template] at time [now] *)
Definition template (now : flt) (m : fs) : result Configuration :=
  new_Configuration (lit "contributors.json") (flt_add now (secs (6 * 60 * 60))) (secs (24 * 60 * 60)) (lit "key.pem")
    (lit "cert.pem") 5000 (Some (lit "smtp.mymail.com:465")) (Some (lit "mpc_coordinator@mymail.com"))
    (Some (lit "password.txt")) m.

Definition start_time_text (c : Configuration) : str := strftime (gmtime (whole_secs (start_time_utc c))).

Definition config_to_json_dict (c : Configuration) : json :=
  JDict [ (lit "contributors_file", JStr (contributors_file c));
          (lit "start_time_utc", JStr (start_time_text c));
          (lit "contribution_interval", JStr (str_of_flt (contribution_interval c)));
          (lit "email_server", jopt JStr (email_server c));
          (lit "email_address", jopt JStr (email_address c));
          (lit "email_password_file", jopt JStr (email_password_file c));
          (lit "tls_key", JStr (tls_key c));
          (lit "tls_certificate", JStr (tls_certificate c));
          (lit "port", JInt (port c)) ].

Definition config_to_json_template_dict (c : Configuration) : json :=
  JDict [ (lit "contributors_file", JStr (contributors_file c));
          (lit "help", JStr (lit "This is a generated template. Populate the fields below, removing _REQUIRED_ and _OPTIONAL_ prefixes as necessary."));
          (lit "_REQUIRED_start_time_utc", JStr (start_time_text c));
          (lit "_REQUIRED_contribution_interval", JStr (str_of_flt (contribution_interval c)));
          (lit "_OPTIONAL_email_server", jopt JStr (email_server c));
          (lit "_OPTIONAL_email_address", jopt JStr (email_address c));
          (lit "_OPTIONAL_email_password_file", jopt JStr (email_password_file c));
          (lit "_REQUIRED_tls_key", JStr (tls_key c));
          (lit "_REQUIRED_tls_certificate", JStr (tls_certificate c));
          (lit "_REQUIRED_port", JInt (port c)) ].

Definition jstr_opt (k : string) (j : json) : result (option str) := o ← jget_opt (lit k) j; as_opt as_str o.

Definition config_from_json_dict (j : json) (config_path : option str) (m : fs) : result Configuration :=
  ts ← jstr "start_time_utc" j; start_time ← strptime ts;
  password_file ← jstr_opt "email_password_file" j;
  let password_file :=
    match password_file, config_path with
    | Some (c :: p), Some (d :: q) => Some (path_join (dirname (d :: q)) (c :: p))
    | _, _ => password_file
    end in
  contributors_file ← jstr "contributors_file" j;
  start ← timegm start_time;
  ij ← jget (lit "contribution_interval") j; interval ← as_float ij;
  server ← jstr_opt "email_server" j;
  address ← jstr_opt "email_address" j;
  key ← jstr "tls_key" j;
  cert ← jstr "tls_certificate" j;
  pj ← jget (lit "port") j; port ← to_int pj;
  new_Configuration contributors_file (flt_of_int start) interval key cert port server address password_file m.

(** ** Handler configurations *)

Record Phase1ServerConfig : Type := mkPhase1Config {
  p1_server : Configuration; p1_powersoftau_path : option str; p1_num_powers : option Z
}.
Definition phase1_config_to_json (c : Phase1ServerConfig) : json :=
  JDict [ (lit "server", config_to_json_dict (p1_server c));
          (lit "powersoftau_path", jopt JStr (p1_powersoftau_path c));
          (lit "num_powers", jopt JInt (p1_num_powers c)) ].
Definition phase1_config_from_json (j : json) (config_path : option str) (m : fs) : result Phase1ServerConfig :=
  sj ← jget (lit "server") j; server ← config_from_json_dict sj config_path m;
  path ← jstr_opt "powersoftau_path" j;
  nj ← jget_opt (lit "num_powers") j; n ← as_opt as_int nj;
  Ok (mkPhase1Config server path n).

Record Phase2ServerConfig : Type := mkPhase2Config { p2_server : Configuration; p2_mpc_tool : option str }.
Definition phase2_config_to_json (c : Phase2ServerConfig) : json :=
  JDict [ (lit "server", config_to_json_dict (p2_server c)); (lit "mpc_tool", jopt JStr (p2_mpc_tool c)) ].
Definition phase2_config_from_json (j : json) (config_path : option str) (m : fs) : result Phase2ServerConfig :=
  sj ← jget (lit "server") j; server ← config_from_json_dict sj config_path m;
  tool ← jstr_opt "mpc_tool" j;
  Ok (mkPhase2Config server tool).
End config.

(** ** Round trip *)

(** A configuration that the constructor accepts. *)
Definition config_ok (c : Configuration) (m : fs) : Prop :=
  new_Configuration (contributors_file c) (start_time_utc c) (contribution_interval c) (tls_key c) (tls_certificate c)
    (port c) (email_server c) (email_address c) (email_password_file c) m = Ok c.

(** A configuration whose start time is a whole second [z]. *)
Definition set_start (z : Z) (c : Configuration) : Configuration :=
  mkConfiguration (contributors_file c) (secs z) (contribution_interval c) (tls_key c) (tls_certificate c) (port c)
    (email_server c) (email_address c) (email_password_file c).

Lemma secs_exact z : Z.abs z < 2 ^ 53 → flt_of_int z = secs z.
Proof.
  intros Hz. unfold flt_of_int, rnd53, secs.
  destruct (Z.eq_dec z 0) as [->|Hne]; [done|].
  rewrite Z.abs_mul, (Z.abs_eq (2 ^ 1074)) by (apply Z.pow_nonneg; lia).
  rewrite Z.log2_mul_pow2 by lia. set (k := 1074 + Z.log2 (Z.abs z) - 52).
  destruct (k <=? 0) eqn:Ek; [done|]. prop_bool.
  assert (0 ≤ Z.log2 (Z.abs z) < 53) as Hl by (split; [apply Z.log2_nonneg | apply Z.log2_lt_pow2; lia]).
  assert (z * 2 ^ 1074 = z * 2 ^ (1074 - k) * 2 ^ k) as Hs.
  { rewrite <- Z.mul_assoc, <- Z.pow_add_r by (unfold k; lia). do 2 f_equal. lia. }
  rewrite Hs at 1. rewrite PyFloat.rne_div_exact; [by rewrite <- Hs|]. apply Z.pow_pos_nonneg; lia.
Qed.

Lemma whole_secs_secs z : whole_secs (secs z) = z.
Proof. unfold whole_secs, secs. apply Z.div_mul. lia. Qed.

Lemma as_opt_jopt (o : option str) : as_opt as_str (Some (jopt JStr o)) = Ok o.
Proof. by destruct o. Qed.
Lemma as_opt_jopt_int (o : option Z) : as_opt as_int (Some (jopt JInt o)) = Ok o.
Proof. by destruct o. Qed.

Lemma jget_opt_eq (k : str) v d : jget_opt k (JDict ((k, v) :: d)) = Ok (Some v).
Proof. cbn. by rewrite decide_True. Qed.
Lemma jget_opt_ne (k k' : str) v d : bool_decide (k = k') = false → jget_opt k (JDict ((k', v) :: d)) = jget_opt k (JDict d).
Proof. intros E%bool_decide_eq_false. cbn. by rewrite decide_False. Qed.

Ltac jopts :=
  repeat first
    [ rewrite jget_opt_eq; cbn [mbind result_bind]
    | rewrite jget_opt_ne by (vm_compute; reflexivity) ].

Section roundtrip.
Context `{FloatTextLaws} (c : Configuration) (m : fs) (Hok : config_ok c m).
Context (Ht : MIN_TIME ≤ whole_secs (start_time_utc c) ≤ MAX_TIME) (Hnz : whole_secs (start_time_utc c) ≠ 0).

(** The constructor accepts the configuration with the rounded start time too. *)
Lemma config_ok_whole : config_ok (set_start (whole_secs (start_time_utc c)) c) m.
Proof.
  unfold config_ok, new_Configuration, set_start in *.
  cbn [contributors_file start_time_utc contribution_interval tls_key tls_certificate port email_server email_address email_password_file].
  apply bind_Ok_inv in Hok as ([] & -> & Hok1). apply bind_Ok_inv in Hok1 as (_ & _ & Hok2).
  apply bind_Ok_inv in Hok2 as ([] & -> & Hok3). apply bind_Ok_inv in Hok3 as ([] & -> & _).
  assert ((secs (whole_secs (start_time_utc c)) =? 0) = false) as ->; [|done].
  apply Z.eqb_neq. unfold secs. intros E. apply Z.eq_mul_0 in E as [E|E]; [done|]. by apply Z.pow_nonzero in E.
Qed.

Lemma config_roundtrip_lemma :
  config_from_json_dict (config_to_json_dict c) None m = Ok (set_start (whole_secs (start_time_utc c)) c).
Proof.
  unfold config_from_json_dict, config_to_json_dict, jstr, jstr_opt. repeat (jsimp; jopts; cbn [as_str mbind result_bind]).
  unfold start_time_text. rewrite strptime_strftime by by apply gmtime_ok. cbn [mbind result_bind].
  rewrite !as_opt_jopt. cbn [mbind result_bind]. rewrite timegm_gmtime by (unfold MIN_TIME, EPOCH_DAY in *; lia).
  cbn [mbind result_bind as_float]. rewrite flt_text. cbn [mbind result_bind to_int].
  rewrite secs_exact by (unfold MIN_TIME, MAX_TIME in *; lia).
  assert (match email_password_file c with Some (_ :: _) => email_password_file c | _ => email_password_file c end =
    email_password_file c) as -> by by destruct (email_password_file c) as [[]|].
  exact config_ok_whole.
Qed.
End roundtrip.

(** A configuration that the constructor accepts survives its JSON form, up to
    the fraction of a second of its start time, which the calendar date drops, for
    every start from the year 1000 to 9999 that is not in the first second of 1970
    (which would be refused as unset); written again it gives the same JSON.  The
    configurations of the two phases survive theirs in the same way. *)
Theorem configuration_roundtrip `{FloatTextLaws} (c : Configuration) (m : fs) (Hok : config_ok c m)
    (Ht : MIN_TIME ≤ whole_secs (start_time_utc c) ≤ MAX_TIME) (Hnz : whole_secs (start_time_utc c) ≠ 0) :
  let c' := set_start (whole_secs (start_time_utc c)) c in
  config_from_json_dict (config_to_json_dict c) None m = Ok c' ∧ config_to_json_dict c' = config_to_json_dict c ∧
  (∀ path n, phase1_config_from_json (phase1_config_to_json (mkPhase1Config c path n)) None m = Ok (mkPhase1Config c' path n)) ∧
  (∀ tool, phase2_config_from_json (phase2_config_to_json (mkPhase2Config c tool)) None m = Ok (mkPhase2Config c' tool)).
Proof.
  cbn zeta. pose proof (config_roundtrip_lemma c m Hok Ht Hnz) as E. split; [done|]. split; [|split].
  - unfold config_to_json_dict, start_time_text, set_start. cbn [start_time_utc]. by rewrite whole_secs_secs.
  - intros path n. unfold phase1_config_from_json, phase1_config_to_json, jstr_opt. cbn [p1_server p1_powersoftau_path p1_num_powers].
    repeat (jsimp; jopts). rewrite E. cbn [mbind result_bind]. rewrite as_opt_jopt, as_opt_jopt_int. done.
  - intros tool. unfold phase2_config_from_json, phase2_config_to_json, jstr_opt. cbn [p2_server p2_mpc_tool].
    repeat (jsimp; jopts). rewrite E. cbn [mbind result_bind]. by rewrite as_opt_jopt.
Qed.

(** The template cannot be made unless a file [password.txt] exists, since the
    constructor checks for the password file that the template names. *)
Theorem template_needs_password_file now m : m !! lit "password.txt" = None → flt_add now (secs (6 * 60 * 60)) ≠ 0 →
  template now m = Err (Exception "no email password file").
Proof.
  intros Hm Hn. unfold template, new_Configuration. rewrite (proj2 (Z.eqb_neq _ _)) by done.
  assert (exists_file (default [] (Some (lit "password.txt"))) m = false) as E by by apply exists_file_false.
  rewrite E. done.
Qed.

(** ** A concrete configuration *)

Module ConfigSample.
(** Times as their sign and bits, least significant first. *)
Fixpoint pos_text (p : positive) : str :=
  match p with xH => [] | xO p => "0"%char :: pos_text p | xI p => "1"%char :: pos_text p end.
Fixpoint text_pos (s : str) : positive :=
  match s with [] => xH | c :: s => if decide (c = "0"%char) then xO (text_pos s) else xI (text_pos s) end.
Definition time_text (x : flt) : str :=
  match x with Z0 => lit "z" | Zpos p => "+"%char :: pos_text p | Zneg p => "-"%char :: pos_text p end.
Definition text_time (s : str) : result flt :=
  match s with
  | c :: s => if decide (c = "+"%char) then Ok (Zpos (text_pos s))
              else if decide (c = "-"%char) then Ok (Zneg (text_pos s)) else Ok 0
  | [] => Err ValueError
  end.
#[local] Instance float_text : FloatText := {| str_of_flt := time_text; flt_of_str := text_time |}.
Lemma text_pos_text p : text_pos (pos_text p) = p.
Proof. induction p as [p IH|p IH|]; cbn; by rewrite ?IH. Qed.
#[local] Instance float_text_laws : FloatTextLaws.
Proof. split. intros [|p|p]; cbn; by rewrite ?text_pos_text. Qed.

(** It starts half a second after 2021-11-18 07:03:20. *)
Definition config : Configuration :=
  mkConfiguration (lit "contributors.json") (secs 1637219000 + 2 ^ 1073) (secs 100) (lit "key.pem") (lit "cert.pem") 8080
    None None None.

Example start_text : start_time_text config = lit "2021-11-18 07:03:20".
Proof. vm_compute. reflexivity. Qed.

Lemma configuration_roundtrip_witness :
  config_from_json_dict (config_to_json_dict config) None ∅ = Ok (set_start 1637219000 config).
Proof.
  assert (whole_secs (start_time_utc config) = 1637219000) as E by (vm_compute; reflexivity).
  rewrite <- E. refine (proj1 (configuration_roundtrip config ∅ _ _ _)).
  - reflexivity.
  - rewrite E. unfold MIN_TIME, MAX_TIME. lia.
  - rewrite E. discriminate.
Defined.
End ConfigSample.
