(* ===== verification/Upload.v ===== *)
(** * Uploads to the coordinator ([mpc/coordinator/upload_utils.py])

    The body of a contribution is a multipart form with one part.  The stream the
    web server gives is third-party code: the class [InputStream], whose laws say
    that reads return the remaining bytes in order, a non-empty piece of at most
    the requested size while there are some. *)

From Stdlib Require Import ZArith Lia Ascii String Strings.Byte.
From stdpp Require Import base tactics list gmap strings.
From S2P Require Import Prelude PyStr PyBytes PyIO PyState MpcState.

Local Open Scope Z_scope.
Local Open Scope sm_scope.

Class InputStream := {
  stream : Type;
  contents : stream → bytes;
  readline : stream → bytes * stream;
  read : stream → Z → bytes * stream
}.

Definition NL : Byte.byte := Byte.x0a.

Class InputStreamLaws `{InputStream} : Prop := {
  readline_split s : contents s = (readline s).1 ++ contents (readline s).2;
  readline_line s l r : contents s = l ++ NL :: r → NL ∉ l → (readline s).1 = l ++ [NL];
  readline_some s : contents s ≠ [] → (readline s).1 ≠ [];
  read_split s n : contents s = (read s n).1 ++ contents (read s n).2;
  read_size s n : 0 ≤ n → zlen (read s n).1 ≤ n;
  read_some s n : 0 < n → contents s ≠ [] → (read s n).1 ≠ []
}.

(** ** [bytes.decode()]: UTF-8 to code points *)

Definition cont (lo hi : Z) (b : Byte.byte) : bool := (lo <=? byte_val b) && (byte_val b <=? hi).
Definition low6 (b : Byte.byte) : Z := byte_val b mod 64.

Fixpoint utf8_decode (b : bytes) : result (list Z) :=
  match b with
  | [] => Ok []
  | x :: b1 =>
      let v := byte_val x in
      if v <? 128 then cs ← utf8_decode b1; Ok (v :: cs)
      else if v <? 194 then Err ValueError
      else match b1 with
      | [] => Err ValueError
      | y :: b2 =>
          if v <? 224 then
            if cont 128 191 y then cs ← utf8_decode b2; Ok ((v mod 32) * 64 + low6 y :: cs) else Err ValueError
          else match b2 with
          | [] => Err ValueError
          | z :: b3 =>
              if v <? 240 then
                if cont (if v =? 224 then 160 else 128) (if v =? 237 then 159 else 191) y && cont 128 191 z
                then cs ← utf8_decode b3; Ok ((v mod 16) * 4096 + low6 y * 64 + low6 z :: cs) else Err ValueError
              else match b3 with
              | [] => Err ValueError
              | w :: b4 =>
                  if (v <? 245) && cont (if v =? 240 then 144 else 128) (if v =? 244 then 143 else 191) y &&
                     cont 128 191 z && cont 128 191 w
                  then cs ← utf8_decode b4;
                       Ok ((v mod 8) * 262144 + low6 y * 4096 + low6 z * 64 + low6 w :: cs)
                  else Err ValueError
              end
          end
      end
  end.

Definition codes (s : str) : list Z := (λ c, Z.of_nat (nat_of_ascii c)) <$> s.
Definition CRLF : str := [ascii_of_nat 13; ascii_of_nat 10].
Definition LF : str := [ascii_of_nat 10].

Definition READ_CHUNK_SIZE : Z := 4096.

Section upload.
Context `{MpcCrypto} `{InputStream}.

(** The loop of [_read_part_headers].  A line takes at least one byte, so one
    iteration per remaining byte and one for the end of the stream are enough. *)
Fixpoint read_part_headers_loop (fuel : nat) (total_bytes : Z) : SM stream Z :=
  match fuel with
  | O => raise OutOfFuel
  | S fuel => λ s,
      let '(line, s) := readline s in
      let bytes_read := zlen line in
      let total_bytes := total_bytes + bytes_read in
      match utf8_decode line with
      | Err e => (Err e, s)
      | Ok l_str =>
          if bytes_read <? 3 then
            if bool_decide (l_str = codes CRLF ∨ l_str = codes LF) then (Ok total_bytes, s)
            else if bytes_read =? 0 then (Err (Exception "unexpected 0-length line"), s)
            else read_part_headers_loop fuel total_bytes s
          else read_part_headers_loop fuel total_bytes s
      end
  end.

Definition _read_part_headers : SM stream Z := λ s,
  read_part_headers_loop (S (length (contents s))) 0 s.

(** The state of the remaining functions: the stream and the file system. *)
Definition UState : Type := stream * fs.

(** The loop of [_read_to_file]: [acc] is what was written to the file and what
    the hash was updated with.  Each iteration reads at least one byte. *)
Fixpoint read_to_file_loop (fuel : nat) (file_name : str) (acc : bytes) (bytes_to_read : Z)
    : SM UState (option bytes) :=
  if 0 <? bytes_to_read then
    match fuel with
    | O => raise OutOfFuel
    | S fuel => λ '(s, m),
        let read_size := Z.min READ_CHUNK_SIZE bytes_to_read in
        let '(chunk, s) := read s read_size in
        if zlen chunk =? 0 then (Ok None, (s, m))
        else read_to_file_loop fuel file_name (acc ++ chunk) (bytes_to_read - zlen chunk)
               (s, write_file file_name (CBytes (acc ++ chunk)) m)
    end
  else ret (Some (sha512 acc)).

Definition _read_to_file (file_name : str) (bytes_to_read : Z) : SM UState (option bytes) := λ '(s, m),
  read_to_file_loop (Z.to_nat bytes_to_read) file_name [] bytes_to_read
    (s, write_file file_name (CBytes []) m).

Fixpoint read_to_memory_loop (fuel : nat) (acc : bytes) (bytes_to_read : Z) : SM stream (option bytes) :=
  if 0 <? bytes_to_read then
    match fuel with
    | O => raise OutOfFuel
    | S fuel => λ s,
        let '(chunk, s) := read s bytes_to_read in
        if zlen chunk =? 0 then (Ok None, s)
        else read_to_memory_loop fuel (acc ++ chunk) (bytes_to_read - zlen chunk) s
    end
  else ret (Some acc).

Definition _read_to_memory (bytes_to_read : Z) : SM stream (option bytes) :=
  read_to_memory_loop (Z.to_nat bytes_to_read) [] bytes_to_read.

Definition on_stream {A} (m : SM stream A) : SM UState A := zoom fst (λ s st, (s, st.2)) m.

Definition final_boundary (content_boundary : str) : str :=
  CRLF ++ lit "--" ++ content_boundary ++ lit "--" ++ CRLF.

Definition handle_upload_request (content_length : Z) (content_boundary : str) (expect_digest : bytes)
    (file_name : str) : SM UState unit :=
  let final_boundary_size := zlen (final_boundary content_boundary) in
  let remaining_bytes := content_length - final_boundary_size in
  header_bytes <- on_stream _read_part_headers ;;
  let remaining_bytes := remaining_bytes - header_bytes in
  digest <- _read_to_file file_name remaining_bytes ;;
  match digest with
  | None => raise (Exception "invalid part format")
  | Some digest =>
      raise_when (negb (bool_decide (digest = expect_digest))) (Exception "digest mismatch") ;;;
      tail <- on_stream (_read_to_memory final_boundary_size) ;;
      match tail with
      | None => raise (Exception "invalid part tail")
      | Some tail =>
          text <- lift (utf8_decode tail) ;;
          raise_when (negb (bool_decide (text = codes (final_boundary content_boundary))))
            (Exception "invalid part tail")
      end
  end.
End upload.

(** ** Lemmas: UTF-8 *)

Definition ascii_bytes (s : str) : bytes := byte_of <$> codes s.
Definition is_ascii (s : str) : Prop := Forall (λ c, c < 128) (codes s).

Lemma codes_nonneg s : Forall (λ c, 0 ≤ c) (codes s).
Proof. apply Forall_fmap, Forall_true. intros c. cbn. lia. Qed.

Lemma utf8_decode_ascii cs : Forall (λ c, 0 ≤ c < 128) cs → utf8_decode (byte_of <$> cs) = Ok cs.
Proof.
  induction 1 as [|c cs Hc _ IH]; [done|]. rewrite fmap_cons. cbn [utf8_decode].
  rewrite byte_val_of, Z.mod_small, (proj2 (Z.ltb_lt c 128)) by lia. rewrite IH. done.
Qed.

Lemma codes_range s : is_ascii s → Forall (λ c, 0 ≤ c < 128) (codes s).
Proof.
  intros Hs. pose proof (codes_nonneg s) as Hn. unfold is_ascii in Hs. rewrite Forall_forall in *.
  intros c Hc. split; auto.
Qed.

Lemma utf8_ascii_bytes s : is_ascii s → utf8_decode (ascii_bytes s) = Ok (codes s).
Proof. intros Hs. by apply utf8_decode_ascii, codes_range. Qed.

Lemma cont_range lo hi y : cont lo hi y = true → lo ≤ byte_val y ≤ hi.
Proof. unfold cont. intros H. prop_bool. lia. Qed.

(** Decoding fails with [UnicodeDecodeError] only, a [ValueError]. *)
Lemma map_err {A B} (m : result A) (g : A → B) e : (a ← m; Ok (g a)) = Err e → m = Err e.
Proof. by destruct m; intros [= ->]. Qed.

Lemma utf8_decode_err b e : utf8_decode b = Err e → e = ValueError.
Proof.
  assert (∀ n : nat, ∀ b : bytes, (length b < n)%nat → utf8_decode b = Err e → e = ValueError) as Hn;
    [|by apply (Hn (S (length b)) b (Nat.lt_succ_diag_r _))].
  induction n as [|n IH]; intros b' Hlen; [lia|].
  destruct b' as [|x b1]; cbn [utf8_decode]; [done|]. cbn [length] in Hlen.
  assert (∀ (b2 : bytes) (g : list Z → list Z), (length b2 ≤ length b1)%nat →
    (cs ← utf8_decode b2; Ok (g cs)) = Err e → e = ValueError) as Hrec.
  { intros b2 g Hl Hd%map_err. eapply IH; [|exact Hd]. lia. }
  destruct (byte_val x <? 128); [by apply Hrec|]. destruct (byte_val x <? 194); [by intros [= <-]|].
  destruct b1 as [|y b2]; [by intros [= <-]|]. cbn [length] in Hrec.
  destruct (byte_val x <? 224); [case_match; [apply Hrec; lia | by intros [= <-]]|].
  destruct b2 as [|z b3]; [by intros [= <-]|]. cbn [length] in Hrec.
  destruct (byte_val x <? 240); [case_match; [apply Hrec; lia | by intros [= <-]]|].
  destruct b3 as [|w b4]; [by intros [= <-]|]. cbn [length] in Hrec.
  case_match; [apply Hrec; lia | by intros [= <-]].
Qed.

(** Only ASCII bytes decode to ASCII code points. *)
Lemma utf8_decode_inv b : ∀ cs, utf8_decode b = Ok cs → Forall (λ c, c < 128) cs → b = byte_of <$> cs.
Proof.
  assert (∀ n : nat, ∀ b : bytes, (length b < n)%nat → ∀ cs, utf8_decode b = Ok cs → Forall (λ c, c < 128) cs →
    b = byte_of <$> cs) as Hn; [|by apply (Hn (S (length b)) b (Nat.lt_succ_diag_r _))].
  induction n as [|n IH]; intros b' Hlen cs Hd Hc; [lia|].
  destruct b' as [|x b1]; cbn [utf8_decode] in Hd; [by apply Ok_inj in Hd as <-|]. cbn [length] in Hlen.
  pose proof (byte_val_range x) as Hx.
  destruct (byte_val x <? 128) eqn:E1; prop_bool.
  - apply bind_Ok_inv in Hd as (cs1 & Hd & E). apply Ok_inj in E as <-. apply Forall_cons in Hc as [_ Hc].
    rewrite fmap_cons, byte_of_val. f_equal. apply IH; [lia | done | done].
  - exfalso. destruct (byte_val x <? 194) eqn:E2; [done|]. prop_bool. destruct b1 as [|y b2]; [done|].
    destruct (byte_val x <? 224) eqn:E3; prop_bool.
    { destruct (cont 128 191 y); [|done]. apply bind_Ok_inv in Hd as (cs1 & _ & E). apply Ok_inj in E as <-.
      apply Forall_cons in Hc as [Hc _]. unfold low6 in Hc. Z.div_mod_to_equations. lia. }
    destruct b2 as [|z b3]; [done|]. destruct (byte_val x <? 240) eqn:E4; prop_bool.
    { destruct (cont _ _ y && cont 128 191 z) eqn:Ec; [|done]. apply andb_true_iff in Ec as [Ey%cont_range _].
      apply bind_Ok_inv in Hd as (cs1 & _ & E). apply Ok_inj in E as <-. apply Forall_cons in Hc as [Hc _].
      unfold low6 in Hc. destruct (byte_val x =? 224) eqn:E5, (byte_val x =? 237) eqn:E6; prop_bool;
        Z.div_mod_to_equations; lia. }
    destruct b3 as [|w b4]; [done|].
    destruct ((byte_val x <? 245) && cont _ _ y && cont 128 191 z && cont 128 191 w) eqn:Ec; [|done].
    rewrite !andb_true_iff in Ec. destruct Ec as [[[E5 Ey%cont_range] _] _].
    apply bind_Ok_inv in Hd as (cs1 & _ & E). apply Ok_inj in E as <-. apply Forall_cons in Hc as [Hc _].
    unfold low6 in Hc. destruct (byte_val x =? 240) eqn:E6, (byte_val x =? 244) eqn:E7; prop_bool;
      Z.div_mod_to_equations; lia.
Qed.

(** ** Lemmas: reading *)

Section facts.
Context `{MpcCryptoLaws} `{InputStreamLaws}.

(** A read that returns nothing is at the end of the stream. *)
Lemma read_cases s n : 0 < n →
  (zlen (read s n).1 = 0 ∧ contents s = [] ∧ contents (read s n).2 = []) ∨
  (1 ≤ zlen (read s n).1 ≤ n ∧ contents s = (read s n).1 ++ contents (read s n).2).
Proof.
  intros Hn. pose proof (read_split s n) as Hs. pose proof (read_size s n ltac:(lia)) as Hz.
  destruct (decide (contents s = [])) as [E|E].
  - left. rewrite E in Hs. symmetry in Hs. apply app_nil in Hs as [-> ->]. done.
  - right. split; [|done]. pose proof (read_some s n Hn E). destruct (read s n).1; [done|]. unfold zlen in *. cbn [length] in *. lia.
Qed.

Lemma read_to_file_loop_spec fuel f acc n s m0 : (Z.to_nat n ≤ fuel)%nat →
  ∃ r s' data, read_to_file_loop fuel f acc n (s, write_file f (CBytes acc) m0) =
      (Ok r, (s', write_file f (CBytes (acc ++ data)) m0)) ∧ contents s = data ++ contents s' ∧
    ((r = Some (sha512 (acc ++ data)) ∧ zlen data = Z.max 0 n) ∨ (r = None ∧ contents s' = [] ∧ zlen data < n)).
Proof.
  revert acc n s. induction fuel as [|fuel IH]; intros acc n s Hf; cbn [read_to_file_loop].
  all: destruct (0 <? n) eqn:E; prop_bool;
    [|by exists (Some (sha512 acc)), s, []; rewrite app_nil_r; (split_and!; [done..|]); left; rewrite Z.max_l by lia].
  - lia.
  - unfold READ_CHUNK_SIZE. set (k := Z.min 4096 n). assert (0 < k ≤ n) as Hk by lia.
    destruct (read s k) as [chunk s1] eqn:Er. destruct (read_cases s k) as [(Hz & Hc & Hc1)|(Hz & Hc)]; [lia|..];
      rewrite Er in *; cbn [fst snd] in *.
    + rewrite Hz. exists None, s1, []. rewrite app_nil_r, Hc, Hc1. split_and!; [done..|]. right.
      split_and!; [done | done | unfold zlen; cbn; lia].
    + rewrite (proj2 (Z.eqb_neq _ _)) by lia.
      assert (write_file f (CBytes (acc ++ chunk)) (write_file f (CBytes acc) m0) =
        write_file f (CBytes (acc ++ chunk)) m0) as -> by apply insert_insert_eq.
      destruct (IH (acc ++ chunk) (n - zlen chunk) s1) as (r & s' & data & -> & Hc' & Hr); [lia|].
      exists r, s', (chunk ++ data). rewrite <- !app_assoc in *. split; [done|]. split; [by rewrite Hc, Hc'|].
      rewrite zlen_app. destruct Hr as [[-> ?]|(-> & ? & ?)]; [left | right]; (split_and!; [done..|lia]).
Qed.

Lemma read_to_memory_loop_spec fuel acc n s : (Z.to_nat n ≤ fuel)%nat →
  ∃ r s' data, read_to_memory_loop fuel acc n s = (Ok r, s') ∧ contents s = data ++ contents s' ∧
    ((r = Some (acc ++ data) ∧ zlen data = Z.max 0 n) ∨ (r = None ∧ contents s' = [] ∧ zlen data < n)).
Proof.
  revert acc n s. induction fuel as [|fuel IH]; intros acc n s Hf; cbn [read_to_memory_loop].
  all: destruct (0 <? n) eqn:E; prop_bool;
    [|by exists (Some acc), s, []; rewrite app_nil_r; (split_and!; [done..|]); left; rewrite Z.max_l by lia].
  - lia.
  - destruct (read s n) as [chunk s1] eqn:Er. destruct (read_cases s n) as [(Hz & Hc & Hc1)|(Hz & Hc)]; [lia|..];
      rewrite Er in *; cbn [fst snd] in *.
    + rewrite Hz. exists None, s1, []. rewrite Hc, Hc1. split_and!; [done..|]. right.
      split_and!; [done | done | unfold zlen; cbn; lia].
    + rewrite (proj2 (Z.eqb_neq _ _)) by lia.
      destruct (IH (acc ++ chunk) (n - zlen chunk) s1) as (r & s' & data & -> & Hc' & Hr); [lia|].
      exists r, s', (chunk ++ data). rewrite <- !app_assoc in *. split; [done|]. split; [by rewrite Hc, Hc'|].
      rewrite zlen_app. destruct Hr as [[-> ?]|(-> & ? & ?)]; [left | right]; (split_and!; [done..|lia]).
Qed.

(** The header loop consumes a prefix of the stream, which it counts, and ends. *)
Lemma headers_loop_spec fuel total s : (length (contents s) < fuel)%nat →
  ∃ r s' hdr, read_part_headers_loop fuel total s = (r, s') ∧ contents s = hdr ++ contents s' ∧
    r ≠ Err OutOfFuel ∧ ∀ t, r = Ok t → t = total + zlen hdr.
Proof.
  revert total s. induction fuel as [|fuel IH]; intros total s Hf; [lia|]. cbn [read_part_headers_loop].
  pose proof (readline_split s) as Hs. pose proof (readline_some s) as Hne.
  destruct (readline s) as [line s1]. cbn [fst snd] in *.
  assert (zlen line ≠ 0 → ∃ r s' hdr,
    read_part_headers_loop fuel (total + zlen line) s1 = (r, s') ∧ contents s = hdr ++ contents s' ∧
    r ≠ Err OutOfFuel ∧ ∀ t, r = Ok t → t = total + zlen hdr) as Hrec.
  { intros Hz. destruct (IH (total + zlen line) s1) as (r & s' & hdr & E & Hc & Ho & Ht).
    { rewrite Hs, length_app in Hf. unfold zlen in Hz. lia. }
    exists r, s', (line ++ hdr). rewrite <- app_assoc, <- Hc. split_and!; try done. intros t Hr.
    rewrite zlen_app. specialize (Ht t Hr). lia. }
  destruct (utf8_decode line) as [l_str|e] eqn:Ed.
  2: { exists (Err e), s1, line. split_and!; try done. intros E. injection E as ->.
       by apply utf8_decode_err in Ed. }
  destruct (zlen line <? 3) eqn:E3; prop_bool; [|apply Hrec; lia].
  case_bool_decide.
  - exists (Ok (total + zlen line)), s1, line. split_and!; try done. by intros t [= <-].
  - destruct (zlen line =? 0) eqn:E0; prop_bool; [|by apply Hrec].
    eexists _, s1, line. by split_and!.
Qed.

(** The header of a part: ASCII lines of at least three bytes, then a blank line. *)
Definition header_line (l : bytes) : Prop :=
  ∃ cs, l = (byte_of <$> cs) ++ [NL] ∧ Forall (λ c, 0 ≤ c < 128) cs ∧ (NL ∉ byte_of <$> cs) ∧ 3 ≤ zlen l.
Definition blank_line : bytes := ascii_bytes CRLF.
Definition part_header (lines : list bytes) : bytes := concat lines ++ blank_line.

Lemma readline_header s l rest : contents s = l ++ rest → header_line l →
  (readline s).1 = l ∧ contents (readline s).2 = rest ∧ ∃ cs, utf8_decode l = Ok cs.
Proof.
  intros Hc (cs & -> & Hcs & Hnl & _). rewrite <- app_assoc in Hc.
  pose proof (readline_line s _ _ Hc Hnl) as Hl. pose proof (readline_split s) as Hs. rewrite Hl, Hc in Hs.
  split; [done|]. split.
  - rewrite <- app_assoc in Hs. by apply app_inv_head, app_inv_head in Hs.
  - exists (cs ++ [10]). change [NL] with (byte_of <$> [10]). rewrite <- fmap_app. apply utf8_decode_ascii.
    apply Forall_app. split; [done|]. apply Forall_singleton. lia.
Qed.

Lemma headers_loop_complete lines fuel total s rest : Forall header_line lines →
  contents s = part_header lines ++ rest → (length lines < fuel)%nat →
  ∃ s', read_part_headers_loop fuel total s = (Ok (total + zlen (part_header lines)), s') ∧ contents s' = rest.
Proof.
  intros Hl. revert fuel total s. induction Hl as [|l lines Hline _ IH]; intros fuel total s Hc Hf;
    (destruct fuel as [|fuel]; [cbn in Hf; lia|]); cbn [read_part_headers_loop].
  - assert ((readline s).1 = blank_line) as Hr.
    { apply (readline_line s [Byte.x0d] rest Hc). by apply (bool_decide_unpack _). }
    pose proof (readline_split s) as Hs. rewrite Hr, Hc in Hs. apply (app_inv_head blank_line) in Hs.
    destruct (readline s) as [line s1]. cbn [fst snd] in *. subst line. by exists s1.
  - unfold part_header in Hc. cbn [concat] in Hc. rewrite <- !app_assoc in Hc. rewrite (app_assoc _ blank_line) in Hc.
    destruct (readline_header s l _ Hc Hline) as (Hr & Hs & cs & Hd). destruct (readline s) as [line s1].
    cbn [fst snd] in *. subst line. rewrite Hd. assert (3 ≤ zlen l) as H3 by by destruct Hline as (? & _ & _ & _ & ?).
    rewrite (proj2 (Z.ltb_ge _ _)) by lia. cbn [length] in Hf.
    destruct (IH fuel (total + zlen l) s1 Hs) as (s' & -> & Hs'); [lia|]. exists s'. split; [|done].
    do 2 f_equal. unfold part_header. cbn [concat]. rewrite <- app_assoc, (zlen_app l). lia.
Qed.

Lemma zlen_codes s : zlen (ascii_bytes s) = zlen s.
Proof. unfold zlen, ascii_bytes, codes. by rewrite !length_fmap. Qed.

Lemma boundary_ascii b : is_ascii b → is_ascii (final_boundary b).
Proof.
  unfold is_ascii, final_boundary, codes. intros Hb. rewrite !fmap_app. repeat (apply Forall_app; split); try done;
    apply (bool_decide_unpack _); by vm_compute.
Qed.

(** The part of a request after its headers: data and final boundary. *)
Lemma upload_tail_spec n b digest f s m : is_ascii b →
  let body := (d <- _read_to_file f n ;;
    match d with
    | None => raise (Exception "invalid part format")
    | Some d =>
        raise_when (negb (bool_decide (d = digest))) (Exception "digest mismatch") ;;;
        tail <- on_stream (_read_to_memory (zlen (final_boundary b))) ;;
        match tail with
        | None => raise (Exception "invalid part tail")
        | Some tail =>
            text <- lift (utf8_decode tail) ;;
            raise_when (negb (bool_decide (text = codes (final_boundary b)))) (Exception "invalid part tail")
        end
    end)%sm in
  ∃ r s' data, body (s, m) = (r, (s', write_file f (CBytes data) m)) ∧ r ≠ Err OutOfFuel ∧
    (r = Ok tt ↔ zlen data = Z.max 0 n ∧ sha512 data = digest ∧
       contents s = data ++ ascii_bytes (final_boundary b) ++ contents s').
Proof.
  intros Hb body. unfold body, bind at 1, _read_to_file.
  destruct (read_to_file_loop_spec (Z.to_nat n) f [] n s m ltac:(lia)) as (r & s1 & data & -> & Hc & Hr).
  cbn [app] in *. destruct Hr as [[-> Hn]|(-> & He & Hn)].
  2: { do 3 eexists. split; [reflexivity|]. split; [done|]. split; [done|]. intros [? _]. lia. }
  unfold bind at 1, raise_when at 1. case_bool_decide as Ed.
  2: { do 3 eexists. split; [reflexivity|]. split; [done|]. split; [done|]. by intros (_ & ? & _). }
  cbn [negb ret]. unfold bind at 1, on_stream, zoom, _read_to_memory. cbn [fst snd].
  destruct (read_to_memory_loop_spec (Z.to_nat (zlen (final_boundary b))) [] (zlen (final_boundary b)) s1 ltac:(lia))
    as (r & s2 & tail & -> & Hc2 & Hr). cbn [app] in *. destruct Hr as [[-> Ht]|(-> & He & Ht)].
  2: { do 3 eexists. split; [reflexivity|]. split; [done|]. split; [done|]. intros (_ & _ & E).
       rewrite Hc in E. apply app_inv_head in E. rewrite He, app_nil_r in *. rewrite Hc2 in E. rewrite E, zlen_codes in Ht. lia. }
  unfold bind, lift. destruct (utf8_decode tail) as [text|e] eqn:Eu.
  2: { do 3 eexists. split; [reflexivity|]. split; [by apply utf8_decode_err in Eu as ->|]. split; [done|].
       intros (_ & _ & E). rewrite Hc in E. apply app_inv_head in E. rewrite Hc2 in E. apply app_inv_tail in E.
       rewrite E, utf8_ascii_bytes in Eu; [done | by apply boundary_ascii]. }
  unfold raise_when. case_bool_decide as Etext; cbn [negb]; (do 3 eexists; split; [reflexivity|]).
  - split; [done|]. split; [|done]. intros _. split_and!; [done..|]. rewrite Hc, Hc2. do 2 f_equal.
    rewrite Etext in Eu. apply (utf8_decode_inv tail _ Eu), boundary_ascii, Hb.
  - split; [done|]. split; [done|]. intros (_ & _ & E). rewrite Hc in E. apply app_inv_head in E. rewrite Hc2 in E.
    apply app_inv_tail in E. rewrite E, utf8_ascii_bytes in Eu by by apply boundary_ascii. congruence.
Qed.
Lemma part_header_fuel lines rest : Forall header_line lines →
  (length lines < S (length (part_header lines ++ rest)))%nat.
Proof.
  intros Hl. unfold part_header. rewrite !length_app. enough (length lines ≤ length (concat lines))%nat by lia.
  induction Hl as [|l lines (_ & _ & _ & _ & H3) _ IH]; [done|]. cbn [concat length]. rewrite length_app.
  unfold zlen in H3. lia.
Qed.

Lemma upload_sound content_length b digest f s m : is_ascii b →
  ∃ r s' m', handle_upload_request content_length b digest f (s, m) = (r, (s', m')) ∧ r ≠ Err OutOfFuel ∧
    (∀ g, g ≠ f → m' !! g = m !! g) ∧
    (r = Ok tt → ∃ hdr data, contents s = hdr ++ data ++ ascii_bytes (final_boundary b) ++ contents s' ∧
       m' = write_file f (CBytes data) m ∧ sha512 data = digest ∧
       zlen data = Z.max 0 (content_length - zlen (final_boundary b) - zlen hdr)).
Proof.
  intros Hb.
  unfold handle_upload_request, bind at 1, on_stream at 1, zoom, _read_part_headers. cbn [fst snd].
  destruct (headers_loop_spec (S (length (contents s))) 0 s ltac:(lia)) as (r & s1 & hdr & -> & Hc & Ho & Ht).
  destruct r as [t|e]; [|exists (Err e), s1, m; split_and!; [done | by intros [= ->] | done | done]].
  rewrite (Ht t eq_refl), Z.add_0_l.
  destruct (upload_tail_spec (content_length - zlen (final_boundary b) - zlen hdr) b digest f s1 m Hb)
    as (r & s2 & data & E & Hno & Hr).
  exists r, s2, (write_file f (CBytes data) m). split; [exact E|]. split; [done|]. split.
  - intros g Hg. unfold write_file. by rewrite lookup_insert_ne.
  - intros Hok. apply Hr in Hok as (Hz & Hs & Hc1). exists hdr, data. by rewrite Hc, Hc1.
Qed.

Lemma upload_complete content_length b digest f s m lines data rest : is_ascii b → Forall header_line lines →
  contents s = part_header lines ++ data ++ ascii_bytes (final_boundary b) ++ rest →
  content_length = zlen (part_header lines) + zlen data + zlen (final_boundary b) →
  ∃ s', handle_upload_request content_length b digest f (s, m) =
    (if bool_decide (sha512 data = digest) then Ok tt else Err (Exception "digest mismatch"),
     (s', write_file f (CBytes data) m)).
Proof.
  intros Hb Hl Hc ->.
  unfold handle_upload_request, bind at 1, on_stream at 1, zoom, _read_part_headers. cbn [fst snd].
  destruct (headers_loop_complete lines (S (length (contents s))) 0 s _ Hl Hc) as (s1 & -> & Hc1).
  { rewrite Hc. by apply part_header_fuel. }
  unfold bind at 1, _read_to_file. rewrite Z.add_0_l. set (n := _ - _ - _).
  assert (n = zlen data) as Hn by (unfold n; lia). rewrite Hn.
  destruct (read_to_file_loop_spec (Z.to_nat (zlen data)) f [] (zlen data) s1 m ltac:(lia))
    as (r & s2 & data' & -> & Hc2 & Hr). cbn [app] in *.
  assert (r = Some (sha512 data) ∧ data' = data ∧ contents s2 = ascii_bytes (final_boundary b) ++ rest) as (-> & -> & Hc3).
  { rewrite Hc1 in Hc2. destruct Hr as [[-> Hz]|(-> & He & Hz)].
    - rewrite Z.max_r in Hz by apply zlen_nonneg. apply app_inj_1 in Hc2 as [-> ->]; [done|]. unfold zlen in Hz. lia.
    - apply (f_equal length) in Hc2. rewrite He, !length_app in Hc2. unfold zlen in Hz. cbn in Hc2. lia. }
  clear Hr. unfold bind at 1, raise_when at 1. case_bool_decide as Ed; cbn [negb]; [|by exists s2].
  unfold ret, bind at 1, on_stream, zoom, _read_to_memory. cbn [fst snd].
  destruct (read_to_memory_loop_spec (Z.to_nat (zlen (final_boundary b))) [] (zlen (final_boundary b)) s2 ltac:(lia))
    as (r & s3 & tail & -> & Hc4 & Hr). cbn [app] in *.
  assert (r = Some (ascii_bytes (final_boundary b))) as ->.
  { rewrite Hc3 in Hc4. pose proof (zlen_codes (final_boundary b)) as Hzc.
    destruct Hr as [[-> Hz]|(-> & He & Hz)].
    - rewrite Z.max_r in Hz by apply zlen_nonneg. apply app_inj_1 in Hc4 as [-> _]; [done|]. unfold zlen in *. lia.
    - apply (f_equal length) in Hc4. rewrite He, !length_app in Hc4. cbn [length] in Hc4. unfold zlen in *. lia. }
  unfold bind, lift. rewrite utf8_ascii_bytes by by apply boundary_ascii. unfold raise_when.
  rewrite bool_decide_true by done. exists s3. done.
Qed.

(** Whatever the boundary is: what was accepted has the digest. *)
Lemma upload_digest content_length b digest f s m r s' m' :
  handle_upload_request content_length b digest f (s, m) = (r, (s', m')) →
  (∀ g, g ≠ f → m' !! g = m !! g) ∧
  (r = Ok tt → ∃ data, m' = write_file f (CBytes data) m ∧ sha512 data = digest).
Proof.
  unfold handle_upload_request, bind at 1, on_stream at 1, zoom, _read_part_headers. cbn [fst snd].
  destruct (read_part_headers_loop _ 0 s) as [[t|e] s1]; [|by intros [= <- <- <-]].
  unfold bind at 1, _read_to_file. set (n := _ - _ - _).
  destruct (read_to_file_loop_spec (Z.to_nat n) f [] n s1 m ltac:(lia)) as (rd & s2 & data & -> & Hc & Hr).
  cbn [app]. assert (∀ g, g ≠ f → write_file f (CBytes data) m !! g = m !! g) as Hfr.
  { intros g Hg. unfold write_file. by rewrite lookup_insert_ne. }
  destruct Hr as [[-> Hz]|(-> & _)]; [|by intros [= <- <- <-]].
  unfold bind at 1, raise_when at 1. case_bool_decide as Ed; [|by intros [= <- <- <-]].
  cbn [negb ret]. unfold bind, on_stream, zoom, lift, raise_when. cbn [fst snd].
  destruct (_read_to_memory _ s2) as [[[tail|]|e] s3]; [|by intros [= <- <- <-]..].
  destruct (utf8_decode tail); [|by intros [= <- <- <-]].
  case_bool_decide; intros [= <- <- <-]; split; try done. intros _. by exists data.
Qed.
End facts.

(** ** Property *)

(** C34: reading an upload terminates on every request, touches no other file, and
    accepts it only if the stream is some part header, then data whose SHA-512 is
    the announced digest, then the final boundary, in which case the file holds
    exactly that data; a well-formed request of the announced length is accepted
    when its digest matches and refused with "digest mismatch" otherwise. *)
Theorem upload_correct `{MpcCryptoLaws} `{InputStreamLaws} content_length b digest f s m (Hb : is_ascii b) :
  (∃ r s' m', handle_upload_request content_length b digest f (s, m) = (r, (s', m')) ∧ r ≠ Err OutOfFuel ∧
    (∀ g, g ≠ f → m' !! g = m !! g) ∧
    (r = Ok tt → ∃ hdr data, contents s = hdr ++ data ++ ascii_bytes (final_boundary b) ++ contents s' ∧
       m' = write_file f (CBytes data) m ∧ sha512 data = digest ∧
       zlen data = Z.max 0 (content_length - zlen (final_boundary b) - zlen hdr))) ∧
  (∀ lines data rest, Forall header_line lines →
    contents s = part_header lines ++ data ++ ascii_bytes (final_boundary b) ++ rest →
    content_length = zlen (part_header lines) + zlen data + zlen (final_boundary b) →
    ∃ s', handle_upload_request content_length b digest f (s, m) =
      (if bool_decide (sha512 data = digest) then Ok tt else Err (Exception "digest mismatch"),
       (s', write_file f (CBytes data) m))).
Proof.
  split; [by apply upload_sound|]. intros lines data rest Hl Hc Hlen. by eapply upload_complete.
Qed.

(** ** A concrete upload *)

Module UploadSample.
(** A stream that gives at most three bytes at a time. *)
Fixpoint line_of (b : bytes) : bytes * bytes :=
  match b with
  | [] => ([], [])
  | x :: b => if decide (x = NL) then ([x], b) else let '(l, r) := line_of b in (x :: l, r)
  end.

#[local] Instance small_stream : InputStream := {|
  stream := bytes; contents := λ s, s; readline := line_of;
  read := λ s n, (take (Z.to_nat (Z.min 3 n)) s, drop (Z.to_nat (Z.min 3 n)) s)
|}.

#[local] Instance small_stream_laws : InputStreamLaws.
Proof.
  split; cbn [contents readline read small_stream stream].
  - induction s as [|x s IH]; [done|]. cbn [line_of]. case_decide; [done|]. destruct (line_of s). cbn in *. by rewrite IH at 1.
  - intros s l. revert s. induction l as [|x l IH]; intros s r -> Hn; cbn [app line_of]; [by rewrite decide_True|].
    apply not_elem_of_cons in Hn as [Hx Hn]. rewrite decide_False by done.
    specialize (IH _ r eq_refl Hn). destruct (line_of (l ++ NL :: r)). cbn in *. by rewrite IH.
  - intros [|x s]; [done|]. cbn [line_of]. case_decide; [done|]. by destruct (line_of s).
  - intros s n. cbn [fst snd]. by rewrite take_drop.
  - intros s n Hn. cbn [fst]. unfold zlen. rewrite length_take. lia.
  - intros s n Hn Hs. destruct s as [|x s]; [done|].
    destruct (Z.to_nat (Z.min 3 n)) eqn:E; [lia | done].
Qed.

(** Keys are bytes, a signature repeats the key and the digest. *)
Definition vk_read (b : bytes) : result Byte.byte := match b with [x] => Ok x | _ => Err ValueError end.
#[local] Instance toy_crypto : MpcCrypto := {|
  SigningKey := Byte.byte; VerificationKey := Byte.byte; sk_to_der k := [k]; sk_from_der := vk_read;
  get_verifying_key k := k; vk_to_der k := [k]; vk_from_der := vk_read;
  sign_digest k d := k :: d; verify_digest k sig d := Ok (bool_decide (sig = k :: d));
  sha512 m := to_be 64 (int_from_bytes m)
|}.

#[local] Instance toy_crypto_laws : MpcCryptoLaws.
Proof.
  split; try done. intros sk d. cbn. by rewrite bool_decide_true.
Qed.

Definition line : bytes := ascii_bytes (lit "--x") ++ [NL].
Definition data : bytes := [Byte.x01; Byte.x02; Byte.x03; Byte.x04; Byte.x05].
Definition request : stream := part_header [line] ++ data ++ ascii_bytes (final_boundary (lit "x")) ++ [].

Lemma upload_correct_witness :
  ∃ s', handle_upload_request 20 (lit "x") (sha512 data) (lit "up") (request, ∅) =
    (if bool_decide (sha512 data = sha512 data) then Ok tt else Err (Exception "digest mismatch"),
     (s', write_file (lit "up") (CBytes data) ∅)).
Proof.
  refine (proj2 (upload_correct 20 (lit "x") (sha512 data) (lit "up") request ∅ _) [line] data [] _ _ _).
  - apply (bool_decide_unpack _). vm_compute. exact I.
  - apply Forall_singleton. exists (codes (lit "--x")). split; [reflexivity|]. split_and!.
    + apply (bool_decide_unpack _). vm_compute. exact I.
    + apply (bool_decide_unpack _). vm_compute. exact I.
    + discriminate.
  - reflexivity.
  - reflexivity.
Defined.
End UploadSample.
