(* ===== verification/Handlers.v ===== *)
(** * Contribution handlers of the coordinator

    The interface [IContributionHandler] and its three implementations:
    [null_contribution_handler.py], [phase1_contribution_handler.py] with
    [powersoftau_command.py], and [phase2_contribution_handler.py] with
    [mpc_command.py].  The external programs are the class [Subprocess]: what a
    command line does to the files of the working directory, its output and
    whether it succeeds. *)

From Stdlib Require Import ZArith Lia Ascii String Strings.Byte.
From stdpp Require Import base tactics list gmap strings.
From S2P Require Import Prelude PyStr PyBytes PyIO PyState MpcState.

Local Open Scope Z_scope.
Local Open Scope sm_scope.

(** ** The interface

    A handler has a state of its own and works on the files of the server. *)
Class IContributionHandler := {
  hstate : Type;
  get_current_challenge_file : Z → SM (hstate * fs) str;
  process_contribution : Z → str → SM (hstate * fs) bool;
  on_completed : SM (hstate * fs) unit
}.

Definition on_files {T A : Type} (m : SM fs A) : SM (T * fs) A := zoom snd (λ t st, (st.1, t)) m.

(** ** The null handler *)

Definition CONTRIBUTION_FILE_NAME : str := lit "contrib".
Definition FINAL_FILE_NAME : str := lit "final-upload".

Definition null_process_contribution (idx : Z) (file_name : str) : SM (unit * fs) bool :=
  on_files (f_rename file_name CONTRIBUTION_FILE_NAME) ;;; ret true.

Definition null_on_completed : SM (unit * fs) unit :=
  done <- on_files (f_exists FINAL_FILE_NAME) ;;
  assert (negb done) ;;;
  have <- on_files (f_exists CONTRIBUTION_FILE_NAME) ;;
  if (have : bool) then on_files (f_rename CONTRIBUTION_FILE_NAME FINAL_FILE_NAME) else ret tt.

Definition null_handler : IContributionHandler := {|
  hstate := unit;
  get_current_challenge_file _ := ret CONTRIBUTION_FILE_NAME;
  process_contribution := null_process_contribution;
  on_completed := null_on_completed
|}.

(** ** External programs *)

Class Subprocess := { run : list str → fs → bool * bytes * fs }.

Section commands.
Context `{Subprocess}.

(** [subprocess.run(args, check=False).returncode == 0] *)
Definition run_ok (args : list str) : SM fs bool := λ m,
  let '(ok, _, m) := run args m in (Ok ok, m).

Definition CHALLENGE_FILE : str := lit "challenge".
Definition NEW_CHALLENGE_FILE : str := lit "new_challenge".
Definition RESPONSE_FILE : str := lit "response".

(** [PowersOfTauCommand] *)
Record PowersOfTauCommand : Type := mkPot { powersoftau_path : str; num_powers : option Z }.

Definition pot_args (pot : PowersOfTauCommand) (cmd : str) (args : list str) : list str :=
  let args := path_join (powersoftau_path pot) cmd :: args in
  match num_powers pot with
  | Some n => if n =? 0 then args else args ++ [lit "-n"; str_of_int n]
  | None => args
  end.
Definition pot_exec (pot : PowersOfTauCommand) (cmd : str) (args : list str) : SM fs bool :=
  run_ok (pot_args pot cmd args).

(** [PowersOfTauCommand.__init__]; the default path is an argument. *)
Definition new_PowersOfTauCommand (default_path : str) (path : option str) (num_powers : option Z)
    : SM fs PowersOfTauCommand :=
  let path := match path with Some (c :: p) => c :: p | _ => default_path end in
  have <- f_exists path ;;
  raise_when (negb have) (Exception "expected powersoftau path") ;;;
  ret (mkPot path num_powers).

Definition pot_begin (pot : PowersOfTauCommand) : SM fs bool := pot_exec pot (lit "new") [].
Definition verify_contribution (pot : PowersOfTauCommand) : SM fs bool := pot_exec pot (lit "verify_transform") [].
Definition verify_transcript (pot : PowersOfTauCommand) (num_rounds : Z) : SM fs bool :=
  pot_exec pot (lit "verify") [lit "--rounds"; str_of_int num_rounds].

Definition opt_arg (flag : string) (o : option str) : list str :=
  match o with Some (c :: s) => [lit flag; c :: s] | _ => [] end.

(** [PowersOfTauCommand.contribute]; what the tool reads from its standard input is
    part of the external program. *)
Definition pot_contribute (pot : PowersOfTauCommand) (digest_file : option str) : SM fs bool :=
  have <- f_exists CHALLENGE_FILE ;;
  assert have ;;;
  ok <- pot_exec pot (lit "compute") (opt_arg "--digest" digest_file) ;;
  if (ok : bool) then
    have <- f_exists RESPONSE_FILE ;;
    assert have ;;;
    ret true
  else ret false.

(** The bytes of a file opened in mode "ab"; a missing file is created. *)
Definition file_bytes (p : str) (m : fs) : result bytes :=
  match m !! p with
  | None => Ok []
  | Some (CBytes b) => Ok b
  | Some _ => Err TypeError
  end.

Definition dd_args (response : str) : list str := [lit "dd"; lit "if=" ++ response; lit "bs=64"; lit "skip=1"].

(** [append_response_to_transcript]: the output of [dd] is appended to the
    transcript; a failure raises afterwards. *)
Definition append_response_to_transcript (response transcript_file : str) : SM fs unit :=
  old <- (λ m, (file_bytes transcript_file m, m)) ;;
  ok <- (λ m, let '(ok, out, m) := run (dd_args response) m in
              (Ok ok, write_file transcript_file (CBytes (old ++ out)) m)) ;;
  raise_when (negb ok) (Exception "CalledProcessError").

(** [MPCCommand]: a dry run executes nothing. *)
Record MPCCommand : Type := mkMPCCommand { mpc_tool : str; dry_run : bool }.

Definition new_MPCCommand (default_tool : str) (tool : option str) (dry_run : bool) : SM fs MPCCommand :=
  let tool := match tool with Some (c :: p) => c :: p | _ => default_tool end in
  have <- f_exists tool ;;
  assert have ;;;
  ret (mkMPCCommand tool dry_run).

Definition mpc_exec (mpc : MPCCommand) (args : list str) : SM fs bool :=
  if dry_run mpc then ret true else run_ok (mpc_tool mpc :: args).

(** [["--flag", str(n)] if n else []] *)
Definition opt_int_arg (flag : string) (o : option Z) : list str :=
  match o with Some n => if n =? 0 then [] else [lit flag; str_of_int n] | None => [] end.

Definition linear_combination (mpc : MPCCommand) (powersoftau_file lagrange_file linear_comb_out_file : str)
    (pot_degree : option Z) : SM fs bool :=
  mpc_exec mpc ([lit "linear-combination"] ++ opt_int_arg "--pot-degree" pot_degree ++
    [powersoftau_file; lagrange_file; linear_comb_out_file]).

Definition phase2_begin (mpc : MPCCommand) (linear_comb_file challenge_0_file : str) : SM fs bool :=
  mpc_exec mpc [lit "phase2-begin"; linear_comb_file; challenge_0_file].

Definition phase2_contribute (mpc : MPCCommand) (challenge_file output_file : str) (digest_file : option str)
    (skip_user_input : bool) : SM fs bool :=
  mpc_exec mpc ([lit "phase2-contribute"; challenge_file; output_file] ++ opt_arg "--digest" digest_file ++
    (if skip_user_input then [lit "--skip-user-input"] else [])).

Definition create_keypair (mpc : MPCCommand) (powersoftau_file linear_comb_file final_challenge keypair_out_file : str)
    (pot_degree : option Z) : SM fs bool :=
  mpc_exec mpc ([lit "create-keypair"] ++ opt_int_arg "--pot-degree" pot_degree ++
    [powersoftau_file; linear_comb_file; final_challenge; keypair_out_file]).

Definition verify_contribution_args (orig_challenge response : str) (out_new_challenge transcript : option str)
    : list str :=
  [lit "phase2-verify-contribution"] ++ opt_arg "--new-challenge" out_new_challenge ++
    opt_arg "--transcript" transcript ++ [orig_challenge; response].
Definition verify_transcript_args (orig_challenge final_challenge transcript : str) (digest_file : option str)
    : list str :=
  [lit "phase2-verify-transcript"] ++ opt_arg "--digest" digest_file ++ [orig_challenge; transcript; final_challenge].

Definition phase2_verify_contribution (mpc : MPCCommand) (orig_challenge response : str)
    (out_new_challenge transcript : option str) : SM fs bool :=
  mpc_exec mpc (verify_contribution_args orig_challenge response out_new_challenge transcript).

Definition phase2_verify_transcript (mpc : MPCCommand) (orig_challenge final_challenge transcript : str)
    (digest_file : option str) : SM fs bool :=
  mpc_exec mpc (verify_transcript_args orig_challenge final_challenge transcript digest_file).

(** [PowersOfTauProcessCommand] *)
Definition compute_lagrange (pot_process : MPCCommand) (pot_file : str) (pot_degree : Z) (lagrange_output_file : str)
    (lagrange_degree : option Z) : SM fs bool :=
  let lagrange_degree := match lagrange_degree with Some n => if n =? 0 then pot_degree else n | None => pot_degree end in
  mpc_exec pot_process [lit "--out"; lagrange_output_file; lit "--lagrange-degree"; str_of_int lagrange_degree; pot_file;
                        str_of_int pot_degree].

(** ** Phase 1 *)

Definition PHASE1_STATE_FILE : str := lit "phase1_state.json".
Definition TRANSCRIPT_FILE : str := lit "transcript".
Definition FINAL_OUTPUT : str := lit "final_output.bin".
Definition FINAL_TRANSCRIPT : str := lit "final_transcript.bin".

(** [_Phase1State] has one field. *)
Record Phase1State : Type := mkPhase1State { num_valid_contributions : Z }.

Definition on_valid_contribution (s : Phase1State) : Phase1State :=
  mkPhase1State (num_valid_contributions s + 1).
Definition phase1_state_to_json (s : Phase1State) : json :=
  JDict [ (lit "num_valid_contributions", JInt (num_valid_contributions s)) ].
Definition phase1_state_from_json (j : json) : result Phase1State :=
  nj ← jget (lit "num_valid_contributions") j; n ← as_int nj; Ok (mkPhase1State n).

Definition of_handler {T A : Type} (m : SM T A) : SM (T * fs) A := zoom fst (λ h st, (h, st.2)) m.

Definition phase1_save_state : SM (Phase1State * fs) unit :=
  s <- of_handler get ;;
  on_files (f_write PHASE1_STATE_FILE (CJson (phase1_state_to_json s))).

(** [Phase1ContributionHandler.__init__] *)
Definition new_phase1_handler (pot : PowersOfTauCommand) : SM fs Phase1State :=
  have_state <- f_exists PHASE1_STATE_FILE ;;
  s <- (if (have_state : bool) then j <- f_read_json PHASE1_STATE_FILE ;; lift (phase1_state_from_json j)
        else ret (mkPhase1State 0)) ;;
  have_challenge <- f_exists CHALLENGE_FILE ;;
  (if (have_challenge : bool) then ret tt
   else
     n <- f_exists NEW_CHALLENGE_FILE ;; assert (negb n) ;;;
     t <- f_exists TRANSCRIPT_FILE ;; assert (negb t) ;;;
     _ <- pot_begin pot ;; ret tt) ;;;
  c <- f_exists CHALLENGE_FILE ;; assert c ;;;
  ret s.

Definition phase1_process_contribution (pot : PowersOfTauCommand) (contribution_idx : Z) (file_name : str)
    : SM (Phase1State * fs) bool :=
  on_files (f_rename file_name RESPONSE_FILE) ;;;
  contribution_valid <- on_files (verify_contribution pot) ;;
  if (contribution_valid : bool) then
    have_new <- on_files (f_exists NEW_CHALLENGE_FILE) ;;
    raise_when (negb have_new) (Exception "unknown error creating new challenge") ;;;
    on_files (append_response_to_transcript RESPONSE_FILE TRANSCRIPT_FILE) ;;;
    of_handler (modify on_valid_contribution) ;;;
    phase1_save_state ;;;
    on_files (f_rename NEW_CHALLENGE_FILE CHALLENGE_FILE) ;;;
    ret true
  else ret false.

Definition phase1_on_completed (pot : PowersOfTauCommand) : SM (Phase1State * fs) unit :=
  have <- on_files (f_exists TRANSCRIPT_FILE) ;;
  raise_when (negb have) (Exception "no contributions made") ;;;
  s <- of_handler get ;;
  mpc_valid <- on_files (verify_transcript pot (num_valid_contributions s)) ;;
  raise_when (negb mpc_valid) (Exception "error in MPC transcript") ;;;
  on_files (f_rename CHALLENGE_FILE FINAL_OUTPUT) ;;;
  on_files (f_rename TRANSCRIPT_FILE FINAL_TRANSCRIPT).

Definition phase1_handler (pot : PowersOfTauCommand) : IContributionHandler := {|
  hstate := Phase1State;
  get_current_challenge_file _ := ret CHALLENGE_FILE;
  process_contribution := phase1_process_contribution pot;
  on_completed := phase1_on_completed pot
|}.

(** ** Phase 2 *)

Definition CHALLENGE_0_FILE : str := lit "challenge_0.bin".
Definition NEXT_CHALLENGE_FILE : str := lit "next_challenge.bin".

(** [Phase2ContributionHandler.__init__] up to the creation of the command. *)
Definition new_phase2_handler : SM fs unit :=
  have_0 <- f_exists CHALLENGE_0_FILE ;;
  raise_when (negb have_0) (Exception "no challenge_0.bin found in server dir") ;;;
  have_next <- f_exists NEXT_CHALLENGE_FILE ;;
  if (have_next : bool) then ret tt
  else
    have_transcript <- f_exists TRANSCRIPT_FILE ;;
    raise_when have_transcript (Exception "unexpected transcript in server dir").

Definition phase2_challenge_file (contributor_idx : Z) : SM (unit * fs) str :=
  have_next_challenge <- on_files (f_exists NEXT_CHALLENGE_FILE) ;;
  if (have_next_challenge : bool) then
    raise_when (contributor_idx =? 0) (Exception "unexpected next_challenge.bin for 0-th contributor") ;;;
    ret NEXT_CHALLENGE_FILE
  else ret CHALLENGE_0_FILE.

Definition phase2_process_contribution (mpc : MPCCommand) (contribution_idx : Z) (file_name : str)
    : SM (unit * fs) bool :=
  orig_challenge <- phase2_challenge_file contribution_idx ;;
  contribution_valid <- on_files (phase2_verify_contribution mpc orig_challenge file_name
    (Some NEW_CHALLENGE_FILE) (Some TRANSCRIPT_FILE)) ;;
  if (contribution_valid : bool) then
    have_new <- on_files (f_exists NEW_CHALLENGE_FILE) ;;
    raise_when (negb have_new) (Exception "unknown error creating new challenge") ;;;
    on_files (f_rename NEW_CHALLENGE_FILE NEXT_CHALLENGE_FILE) ;;;
    ret true
  else ret false.

Definition phase2_on_completed (mpc : MPCCommand) : SM (unit * fs) unit :=
  have <- on_files (f_exists NEXT_CHALLENGE_FILE) ;;
  raise_when (negb have) (Exception "no contributions made") ;;;
  mpc_valid <- on_files (phase2_verify_transcript mpc CHALLENGE_0_FILE NEXT_CHALLENGE_FILE TRANSCRIPT_FILE None) ;;
  raise_when (negb mpc_valid) (Exception "error in MPC transcript") ;;;
  on_files (f_rename NEXT_CHALLENGE_FILE FINAL_OUTPUT) ;;;
  on_files (f_rename TRANSCRIPT_FILE FINAL_TRANSCRIPT).

Definition phase2_handler (mpc : MPCCommand) : IContributionHandler := {|
  hstate := unit;
  get_current_challenge_file := phase2_challenge_file;
  process_contribution := phase2_process_contribution mpc;
  on_completed := phase2_on_completed mpc
|}.
End commands.
