(* ===== verification/HandlerFacts.v ===== *)
(** * Correctness of the contribution handlers

    What a handler promises to the server is the class [HandlerKeeps]: it leaves a
    file of the server alone.  The two phases refine an abstract chain of
    challenges, with the external tools described by what they compute. *)

From Stdlib Require Import ZArith Lia Ascii String Strings.Byte.
From stdpp Require Import base tactics list gmap strings.
From S2P Require Import Prelude PyStr PyBytes PyIO PyState MpcState Handlers.

Local Open Scope Z_scope.
Local Open Scope sm_scope.

(** ** Frame *)

Definition same_file {T : Type} (p : str) (s s' : T * fs) : Prop := s'.2 !! p = s.2 !! p.
Definition keeps_file {A : Type} (p : str) (m : SM fs A) : Prop := keeps (λ m m' : fs, m' !! p = m !! p) m.

#[export] Instance same_file_refl {T : Type} p : Reflexive (@same_file T p).
Proof. done. Qed.
#[export] Instance same_file_trans {T : Type} p : Transitive (@same_file T p).
Proof. intros x y z. unfold same_file. congruence. Qed.

(** The promise of a handler: its operations do not change the file [p]; the
    processed file is another one. *)
Class HandlerKeeps `{IContributionHandler} (p : str) : Prop := {
  keeps_challenge i : keeps (same_file p) (get_current_challenge_file i);
  keeps_process i f : f ≠ p → keeps (same_file p) (process_contribution i f);
  keeps_completed : keeps (same_file p) on_completed
}.

Section frame.
Context (p : str).

Lemma keeps_file_exists q : keeps_file p (f_exists q).
Proof. done. Qed.
Lemma keeps_file_write q c : q ≠ p → keeps_file p (f_write q c).
Proof. intros Hq m. cbn. unfold write_file. by rewrite lookup_insert_ne. Qed.
Lemma keeps_file_rename a b : a ≠ p → b ≠ p → keeps_file p (f_rename a b).
Proof.
  intros Ha Hb m. unfold f_rename, rename. destruct (m !! a); [|done]. cbn.
  by rewrite lookup_insert_ne, lookup_delete_ne.
Qed.
Lemma keeps_file_remove a : a ≠ p → keeps_file p (f_remove a).
Proof. intros Ha m. unfold f_remove, remove_file. destruct (m !! a); [|done]. cbn. by rewrite lookup_delete_ne. Qed.

Lemma keeps_on_files {T A : Type} (m : SM fs A) : keeps_file p m → keeps (same_file (T := T) p) (on_files m).
Proof. intros Hm [h s]. specialize (Hm s). unfold on_files, zoom. cbn [snd] in *. by destruct (m s). Qed.
Lemma keeps_of_handler {T A : Type} (m : SM T A) : keeps (same_file p) (of_handler m).
Proof. intros [h s]. unfold of_handler, zoom. cbn [fst]. by destruct (m h). Qed.
Lemma keeps_assert {T : Type} b : keeps (same_file (T := T) p) (assert b).
Proof. apply keeps_raise_when, _. Qed.
End frame.

#[export] Hint Resolve keeps_file_exists keeps_file_write keeps_file_rename keeps_file_remove : zeth.

Ltac frame :=
  repeat first
    [ apply keeps_bind; [apply _ | | intros ?]
    | apply keeps_of_handler | apply keeps_assert
    | apply keeps_ret; apply _ | apply keeps_raise_when; apply _
    | apply keeps_on_files; solve [eauto with zeth]
    | case_match ].

(** The null handler uses two files. *)
Lemma null_handler_keeps p : p ≠ CONTRIBUTION_FILE_NAME → p ≠ FINAL_FILE_NAME → @HandlerKeeps null_handler p.
Proof.
  intros H1 H2. split; cbn.
  - intros i. apply keeps_ret, _.
  - intros i f Hf. unfold null_process_contribution. frame.
  - unfold null_on_completed. frame.
Qed.

Section commands.
Context `{Subprocess} (p : str) (Hrun : ∀ args m, (run args m).2 !! p = m !! p).

Lemma keeps_run_ok args : keeps_file p (run_ok args).
Proof. intros m. specialize (Hrun args m). unfold run_ok. by destruct (run args m) as [[ok out] m']. Qed.

Lemma keeps_mpc_exec mpc args : keeps_file p (mpc_exec mpc args).
Proof. unfold mpc_exec. destruct (dry_run mpc); [done | apply keeps_run_ok]. Qed.

Lemma keeps_append r t : t ≠ p → keeps_file p (append_response_to_transcript r t).
Proof.
  intros Ht m. unfold append_response_to_transcript, bind.
  destruct (file_bytes t m) as [old|e]; [|done]. specialize (Hrun (dd_args r) m).
  destruct (run (dd_args r) m) as [[ok out] m1]. unfold raise_when. destruct ok; cbn; unfold write_file;
    by rewrite lookup_insert_ne.
Qed.

(** The handlers of the two phases, when the tools leave the file alone. *)
Lemma phase1_handler_keeps pot :
  p ∉ [RESPONSE_FILE; NEW_CHALLENGE_FILE; CHALLENGE_FILE; TRANSCRIPT_FILE; PHASE1_STATE_FILE; FINAL_OUTPUT; FINAL_TRANSCRIPT] →
  @HandlerKeeps (phase1_handler pot) p.
Proof.
  rewrite !not_elem_of_cons. intros (H1 & H2 & H3 & H4 & H5 & H6 & H7 & _).
  pose proof keeps_run_ok as Hr. pose proof keeps_append as Ha. split; cbn.
  - intros i. apply keeps_ret, _.
  - intros i f Hf. unfold phase1_process_contribution, phase1_save_state, verify_contribution, pot_exec. frame.
  - unfold phase1_on_completed, verify_transcript, pot_exec. frame.
Qed.

Lemma phase2_handler_keeps tool :
  p ∉ [NEW_CHALLENGE_FILE; NEXT_CHALLENGE_FILE; TRANSCRIPT_FILE; FINAL_OUTPUT; FINAL_TRANSCRIPT] →
  @HandlerKeeps (phase2_handler tool) p.
Proof.
  rewrite !not_elem_of_cons. intros (H1 & H2 & H3 & H4 & H5 & _). pose proof keeps_run_ok as Hr.
  pose proof keeps_mpc_exec as Hx. split; cbn.
  - intros i. unfold phase2_challenge_file. frame.
  - intros i f Hf. unfold phase2_process_contribution, phase2_challenge_file, phase2_verify_contribution. frame.
  - unfold phase2_on_completed, phase2_verify_transcript. frame.
Qed.
End commands.

(** ** The chain of challenges

    The abstract contract of a phase: a contribution is a response to the current
    challenge, the tool refuses it or gives the next challenge and what the
    transcript records. *)

Record Chain : Type := mkChain { count : nat; challenge : bytes; transcript : bytes }.

Definition chain_step (tool : bytes → bytes → option (bytes * bytes)) (ch : Chain) (r : bytes) : bool * Chain :=
  match tool (challenge ch) r with
  | Some (next, entry) => (true, mkChain (S (count ch)) next (transcript ch ++ entry))
  | None => (false, ch)
  end.

Fixpoint chain_run (tool : bytes → bytes → option (bytes * bytes)) (ch : Chain) (rs : list bytes) : list bool * Chain :=
  match rs with
  | [] => ([], ch)
  | r :: rs =>
      let '(b, ch) := chain_step tool ch r in
      let '(bs, ch) := chain_run tool ch rs in (b :: bs, ch)
  end.

(** Uploads handed to a handler one after the other, at the index the server has:
    an accepted contribution moves to the next contributor. *)
Fixpoint rounds `{IContributionHandler} (f : str) (i : Z) (rs : list bytes) : SM (hstate * fs) (list bool) :=
  match rs with
  | [] => ret []
  | r :: rs =>
      on_files (f_write f (CBytes r)) ;;;
      b <- process_contribution i f ;;
      bs <- rounds f (if (b : bool) then i + 1 else i) rs ;;
      ret (b :: bs)
  end.

(** A handler that simulates the chain one contribution at a time simulates runs. *)
Lemma rounds_simulate `{IContributionHandler} (tool : bytes → bytes → option (bytes * bytes)) (f : str)
    (R : Z → Chain → hstate * fs → Prop) :
  (∀ (i : Z) (ch : Chain) (s : hstate * fs) (r : bytes), R i ch s →
     let '(b, ch') := chain_step tool ch r in
     ∃ s', process_contribution i f (s.1, write_file f (CBytes r) s.2) = (Ok b, s') ∧
           R (if b then i + 1 else i) ch' s') →
  ∀ (rs : list bytes) (i : Z) (ch : Chain) (s : hstate * fs), R i ch s →
    let '(bs, ch') := chain_run tool ch rs in
    ∃ i' s', rounds f i rs s = (Ok bs, s') ∧ R i' ch' s'.
Proof.
  intros Hstep rs. induction rs as [|r rs IH]; intros i ch s HR; cbn [chain_run rounds]; [by exists i, s|].
  specialize (Hstep i ch s r HR). destruct (chain_step tool ch r) as [b ch1]. destruct Hstep as (s1 & E1 & HR1).
  specialize (IH _ _ _ HR1). destruct (chain_run tool ch1 rs) as [bs ch2]. destruct IH as (i' & s2 & E2 & HR2).
  exists i', s2. split; [|done]. unfold bind, on_files, zoom, f_write, modify. cbn [fst snd]. rewrite E1, E2. done.
Qed.

Lemma rename_ok (m : fs) (a b : str) c : m !! a = Some c → f_rename a b m = (Ok tt, <[b := c]> (delete a m)).
Proof. intros E. unfold f_rename, rename. by rewrite E. Qed.

Lemma f_exists_some (m : fs) (a : str) c : m !! a = Some c → f_exists a m = (Ok true, m).
Proof. intros E. unfold f_exists, gets, exists_file. by rewrite E. Qed.

Lemma f_exists_none (m : fs) (a : str) : m !! a = None → f_exists a m = (Ok false, m).
Proof. intros E. unfold f_exists, gets, exists_file. by rewrite E. Qed.

Lemma on_files_eq {T A : Type} (m : SM fs A) (h : T) s r s' : m s = (r, s') → on_files m (h, s) = (r, (h, s')).
Proof. intros E. unfold on_files, zoom. cbn [snd]. by rewrite E. Qed.

(** ** Phase 1 *)

Section phase1.
Context `{Subprocess} (pot : PowersOfTauCommand) (tool : bytes → bytes → option bytes) (check : nat → bytes → bool).

(** What the tools do: [verify_transform] checks the response against the
    challenge and writes the new challenge, [dd] copies the response without its
    first 64 bytes to its output, [verify] checks a transcript. *)
Class PotTools : Prop := {
  pot_verify c r m : m !! CHALLENGE_FILE = Some (CBytes c) → m !! RESPONSE_FILE = Some (CBytes r) →
    run (pot_args pot (lit "verify_transform") []) m =
      match tool c r with
      | Some next => (true, [], <[NEW_CHALLENGE_FILE := CBytes next]> m)
      | None => (false, [], m)
      end;
  dd_copy r m : m !! RESPONSE_FILE = Some (CBytes r) → run (dd_args RESPONSE_FILE) m = (true, drop 64 r, m);
  pot_transcript n t m : m !! TRANSCRIPT_FILE = Some (CBytes t) →
    run (pot_args pot (lit "verify") [lit "--rounds"; str_of_int (Z.of_nat n)]) m = (check n t, [], m)
}.

Definition phase1_entry (c r : bytes) : option (bytes * bytes) :=
  match tool c r with Some next => Some (next, drop 64 r) | None => None end.

(** The files of the handler hold the chain. *)
Record phase1_rel (ch : Chain) (s : Phase1State * fs) : Prop := {
  p1_count : num_valid_contributions s.1 = Z.of_nat (count ch);
  p1_challenge : s.2 !! CHALLENGE_FILE = Some (CBytes (challenge ch));
  p1_new : s.2 !! NEW_CHALLENGE_FILE = None;
  p1_transcript : s.2 !! TRANSCRIPT_FILE = if decide (count ch = O) then None else Some (CBytes (transcript ch));
  p1_state : s.2 !! PHASE1_STATE_FILE = if decide (count ch = O) then None else Some (CJson (phase1_state_to_json s.1));
  p1_empty : count ch = O → transcript ch = []
}.

Context `{!PotTools} (f : str)
  (Hf : f ∉ [RESPONSE_FILE; NEW_CHALLENGE_FILE; CHALLENGE_FILE; TRANSCRIPT_FILE; PHASE1_STATE_FILE]).

Lemma file_bytes_transcript ch s : phase1_rel ch s → file_bytes TRANSCRIPT_FILE s.2 = Ok (transcript ch).
Proof.
  intros HR. unfold file_bytes. rewrite (p1_transcript _ _ HR). case_decide as E; [|done]. by rewrite (p1_empty _ _ HR E).
Qed.

Ltac lookups := repeat first [rewrite lookup_insert_eq | rewrite lookup_insert_ne by done | rewrite lookup_delete_eq
  | rewrite lookup_delete_ne by done].

Lemma phase1_step i ch s r : phase1_rel ch s →
  let '(b, ch') := chain_step phase1_entry ch r in
  ∃ s', phase1_process_contribution pot i f (s.1, write_file f (CBytes r) s.2) = (Ok b, s') ∧ phase1_rel ch' s'.
Proof.
  destruct s as [st m]. intros HR. pose proof (file_bytes_transcript _ _ HR) as Ht. destruct HR as [Hc Hch Hn Htr Hst He].
  cbn [fst snd] in *. rewrite !not_elem_of_cons in Hf. destruct Hf as (F1 & F2 & F3 & F4 & F5 & _).
  unfold chain_step, phase1_entry, phase1_process_contribution, write_file.
  set (m1 := <[RESPONSE_FILE := CBytes r]> (delete f (<[f := CBytes r]> m))).
  rewrite (bind_ok _ _ _ tt (st, m1)).
  2: { apply on_files_eq, rename_ok. by rewrite lookup_insert_eq. }
  assert (∀ q, q ≠ RESPONSE_FILE → q ≠ f → m1 !! q = m !! q) as Hm1.
  { intros q Hq1 Hq2. unfold m1. by rewrite lookup_insert_ne, lookup_delete_ne, lookup_insert_ne. }
  assert (m1 !! RESPONSE_FILE = Some (CBytes r)) as Hr1 by apply lookup_insert_eq.
  pose proof (pot_verify (challenge ch) r m1 ltac:(by rewrite Hm1) Hr1) as Hrun.
  destruct (tool (challenge ch) r) as [next|].
  - set (m2 := <[NEW_CHALLENGE_FILE := CBytes next]> m1) in *.
    rewrite (bind_ok _ _ _ true (st, m2)).
    2: { apply on_files_eq. unfold verify_contribution, pot_exec, run_ok. by rewrite Hrun. }
    assert (m2 !! RESPONSE_FILE = Some (CBytes r)) as Hr2 by (unfold m2; by rewrite lookup_insert_ne).
    rewrite (bind_ok _ _ _ true (st, m2)).
    2: { eapply on_files_eq, f_exists_some. apply lookup_insert_eq. }
    cbn [negb raise_when]. rewrite (bind_ok _ _ _ tt (st, m2)) by done.
    set (m3 := <[TRANSCRIPT_FILE := CBytes (transcript ch ++ drop 64 r)]> m2).
    rewrite (bind_ok _ _ _ tt (st, m3)).
    2: { apply on_files_eq. unfold append_response_to_transcript, bind.
         assert (file_bytes TRANSCRIPT_FILE m2 = Ok (transcript ch)) as ->.
         { rewrite <- Ht. unfold file_bytes, m2. by rewrite lookup_insert_ne, Hm1. }
         rewrite (dd_copy _ _ Hr2). done. }
    unfold bind at 1, of_handler, zoom, modify. cbn [fst snd].
    set (m4 := <[PHASE1_STATE_FILE := CJson (phase1_state_to_json (on_valid_contribution st))]> m3).
    rewrite (bind_ok _ _ _ tt (on_valid_contribution st, m4)) by done.
    rewrite (bind_ok _ _ _ tt (on_valid_contribution st, <[CHALLENGE_FILE := CBytes next]> (delete NEW_CHALLENGE_FILE m4))).
    2: { apply on_files_eq, rename_ok. unfold m4, m3, m2. by lookups. }
    eexists. split; [reflexivity|]. split; cbn [fst snd count challenge transcript]; unfold m4, m3, m2; lookups; try done.
    unfold on_valid_contribution. cbn. lia.
  - rewrite (bind_ok _ _ _ false (st, m1)).
    2: { apply on_files_eq. unfold verify_contribution, pot_exec, run_ok. by rewrite Hrun. }
    eexists. split; [reflexivity|]. split; cbn [fst snd]; rewrite ?Hm1; done.
Qed.

(** A handler created from the files has the state that was saved. *)
Lemma phase1_reopen ch s : phase1_rel ch s → new_phase1_handler pot s.2 = (Ok s.1, s.2).
Proof.
  destruct s as [[n] m]. intros [Hc Hch Hn Htr Hst He]. cbn [fst snd] in *. unfold new_phase1_handler.
  destruct (decide (count ch = O)) as [E|E].
  - rewrite (bind_ok _ _ _ false m) by by apply f_exists_none. unfold bind at 1, ret at 1.
    rewrite (bind_ok _ _ _ true m) by by eapply f_exists_some. unfold bind at 1, ret at 1.
    rewrite (bind_ok _ _ _ true m) by by eapply f_exists_some. rewrite E in Hc. cbn in Hc |- *. by rewrite Hc.
  - rewrite (bind_ok _ _ _ true m) by by eapply f_exists_some.
    rewrite (bind_ok _ _ _ (mkPhase1State n) m).
    2: { unfold bind, f_read_json, read_json, read_file. by rewrite Hst. }
    rewrite (bind_ok _ _ _ true m) by by eapply f_exists_some. unfold bind at 1, ret at 1.
    by rewrite (bind_ok _ _ _ true m) by by eapply f_exists_some.
Qed.

(** The end: the transcript is checked and the results get their names. *)
Lemma phase1_complete ch s : phase1_rel ch s →
  ∃ s', phase1_on_completed pot s =
    (if decide (count ch = O) then Err (Exception "no contributions made")
     else if check (count ch) (transcript ch) then Ok tt else Err (Exception "error in MPC transcript"), s') ∧
    s'.1 = s.1 ∧
    if negb (bool_decide (count ch = O)) && check (count ch) (transcript ch)
    then s'.2 !! FINAL_OUTPUT = Some (CBytes (challenge ch)) ∧ s'.2 !! FINAL_TRANSCRIPT = Some (CBytes (transcript ch)) ∧
         s'.2 !! CHALLENGE_FILE = None ∧ s'.2 !! TRANSCRIPT_FILE = None
    else s'.2 = s.2.
Proof.
  destruct s as [st m]. intros [Hc Hch Hn Htr Hst He]. cbn [fst snd] in *. unfold phase1_on_completed.
  destruct (decide (count ch = O)) as [E|E].
  - rewrite (bind_ok _ _ _ false (st, m)) by by apply on_files_eq, f_exists_none.
    eexists. split; [reflexivity|]. by rewrite bool_decide_true.
  - rewrite bool_decide_false by done. cbn [negb andb].
    rewrite (bind_ok _ _ _ true (st, m)) by by eapply on_files_eq, f_exists_some. unfold bind at 1, raise_when at 1. cbn [negb ret].
    unfold bind at 1, of_handler, zoom, get. cbn [fst snd].
    rewrite (bind_ok _ _ _ (check (count ch) (transcript ch)) (st, m)).
    2: { apply on_files_eq. unfold verify_transcript, pot_exec, run_ok. by rewrite Hc, (pot_transcript _ _ _ Htr). }
    unfold bind at 1, raise_when. destruct (check (count ch) (transcript ch)); cbn [negb ret raise]; [|by eexists].
    set (m1 := <[FINAL_OUTPUT := CBytes (challenge ch)]> (delete CHALLENGE_FILE m)).
    rewrite (bind_ok _ _ _ tt (st, m1)) by by apply on_files_eq, rename_ok.
    eexists. split; [eapply on_files_eq, rename_ok; unfold m1; by lookups; exact Htr|].
    cbn [fst snd]. unfold m1. lookups. done.
Qed.
End phase1.

(** C33: the phase 1 handler implements the chain of challenges: handed any
    sequence of uploads it accepts exactly those that the tool accepts against the
    challenge of the moment, counts them, and keeps the current challenge and the
    transcript in its files; a handler created from those files continues with the
    same state; at the end the transcript is checked with that count and, if it is
    valid, moved with the last challenge to the final names.  Without any accepted
    contribution it raises. *)
Theorem phase1_chain `{Subprocess} (pot : PowersOfTauCommand) (tool : bytes → bytes → option bytes)
    (check : nat → bytes → bool) (Htools : PotTools pot tool check)
    (f : str) (rs : list bytes) (i : Z) (c : bytes) (m : fs)
    (Hf : f ∉ [RESPONSE_FILE; NEW_CHALLENGE_FILE; CHALLENGE_FILE; TRANSCRIPT_FILE; PHASE1_STATE_FILE])
    (Hc : m !! CHALLENGE_FILE = Some (CBytes c))
    (Hfresh : Forall (λ p, m !! p = None) [NEW_CHALLENGE_FILE; TRANSCRIPT_FILE; PHASE1_STATE_FILE]) :
  let '(bs, ch) := chain_run (phase1_entry tool) (mkChain 0 c []) rs in
  let final := negb (bool_decide (count ch = O)) && check (count ch) (transcript ch) in
  new_phase1_handler pot m = (Ok (mkPhase1State 0), m) ∧
  ∃ st m' st' m'',
    @rounds (phase1_handler pot) f i rs (mkPhase1State 0, m) = (Ok bs, (st, m')) ∧
    num_valid_contributions st = Z.of_nat (count ch) ∧
    m' !! CHALLENGE_FILE = Some (CBytes (challenge ch)) ∧
    new_phase1_handler pot m' = (Ok st, m') ∧
    phase1_on_completed pot (st, m') =
      (if decide (count ch = O) then Err (Exception "no contributions made")
       else if check (count ch) (transcript ch) then Ok tt else Err (Exception "error in MPC transcript"), (st', m'')) ∧
    (if final then m'' !! FINAL_OUTPUT = Some (CBytes (challenge ch)) ∧
       m'' !! FINAL_TRANSCRIPT = Some (CBytes (transcript ch)) else m'' = m').
Proof.
  rewrite !Forall_cons in Hfresh. destruct Hfresh as (Hn & Ht & Hs & _).
  assert (phase1_rel (mkChain 0 c []) (mkPhase1State 0, m)) as HR by (split; cbn; by rewrite ?Hn, ?Ht, ?Hs).
  pose proof (@rounds_simulate (phase1_handler pot) (phase1_entry tool) f (λ _, phase1_rel)
    (λ i ch s r HR, phase1_step pot tool check f Hf i ch s r HR) rs i _ _ HR) as Hsim.
  destruct (chain_run _ _ rs) as [bs ch]. destruct Hsim as (_ & [st m'] & E & HR').
  split; [by apply (phase1_reopen pot _ _ HR)|].
  destruct (phase1_complete pot tool check _ _ HR') as ([st' m''] & E2 & Est & Hend).
  exists st, m', st', m''. split; [exact E|]. split; [apply (p1_count _ _ HR')|]. split; [apply (p1_challenge _ _ HR')|].
  split; [by apply (phase1_reopen pot _ _ HR')|]. split; [exact E2|].
  cbn [fst snd] in *. destruct (_ && _); [by destruct Hend as (? & ? & _) | done].
Qed.

(** ** Phase 2 *)

Section phase2.
Context `{Subprocess} (mpc : MPCCommand) (tool : bytes → bytes → option (bytes * bytes)) (check : bytes → bytes → bytes → bool).

(** The tool checks a response against a challenge; when it is valid it writes the
    new challenge and appends to the transcript.  It also checks transcripts. *)
Class Phase2Tools (f : str) : Prop := {
  mpc_live : dry_run mpc = false;
  mpc_verify (o : str) c r t m : m !! o = Some (CBytes c) → m !! f = Some (CBytes r) → file_bytes TRANSCRIPT_FILE m = Ok t →
    run (mpc_tool mpc :: verify_contribution_args o f (Some NEW_CHALLENGE_FILE) (Some TRANSCRIPT_FILE)) m =
      match tool c r with
      | Some (next, entry) =>
          (true, [], <[NEW_CHALLENGE_FILE := CBytes next]> (<[TRANSCRIPT_FILE := CBytes (t ++ entry)]> m))
      | None => (false, [], m)
      end;
  mpc_transcript c0 c t m : m !! CHALLENGE_0_FILE = Some (CBytes c0) → m !! NEXT_CHALLENGE_FILE = Some (CBytes c) →
    m !! TRANSCRIPT_FILE = Some (CBytes t) →
    run (mpc_tool mpc :: verify_transcript_args CHALLENGE_0_FILE NEXT_CHALLENGE_FILE TRANSCRIPT_FILE None) m = (check c0 c t, [], m)
}.

Record phase2_rel (c0 : bytes) (i : Z) (ch : Chain) (s : unit * fs) : Prop := {
  p2_index : 0 ≤ i ∧ (count ch ≠ O → 0 < i);
  p2_first : s.2 !! CHALLENGE_0_FILE = Some (CBytes c0);
  p2_next : s.2 !! NEXT_CHALLENGE_FILE = if decide (count ch = O) then None else Some (CBytes (challenge ch));
  p2_new : s.2 !! NEW_CHALLENGE_FILE = None;
  p2_transcript : s.2 !! TRANSCRIPT_FILE = if decide (count ch = O) then None else Some (CBytes (transcript ch));
  p2_empty : count ch = O → transcript ch = [] ∧ challenge ch = c0
}.

Context (f : str) `{!Phase2Tools f}
  (Hf : f ∉ [CHALLENGE_0_FILE; NEXT_CHALLENGE_FILE; NEW_CHALLENGE_FILE; TRANSCRIPT_FILE]).

(** The current challenge is in the file that is served. *)
Lemma phase2_challenge c0 i ch s : phase2_rel c0 i ch s →
  ∃ o, phase2_challenge_file i s = (Ok o, s) ∧ s.2 !! o = Some (CBytes (challenge ch)) ∧
       (o = CHALLENGE_0_FILE ∨ o = NEXT_CHALLENGE_FILE).
Proof.
  destruct s as [[] m]. intros [[Hi0 Hi] H0 Hx Hn Ht He]. cbn [fst snd] in *. unfold phase2_challenge_file.
  destruct (decide (count ch = O)) as [E|E].
  - exists CHALLENGE_0_FILE. rewrite (bind_ok _ _ _ false (tt, m)) by by apply on_files_eq, f_exists_none.
    destruct (He E) as [_ ->]. auto.
  - exists NEXT_CHALLENGE_FILE. rewrite (bind_ok _ _ _ true (tt, m)) by by eapply on_files_eq, f_exists_some.
    specialize (Hi E). unfold bind, raise_when. rewrite (proj2 (Z.eqb_neq _ _)) by lia. auto.
Qed.

Ltac lookups := repeat first [rewrite lookup_insert_eq | rewrite lookup_insert_ne by done | rewrite lookup_delete_eq
  | rewrite lookup_delete_ne by done].

Lemma phase2_upload c0 i ch s r : phase2_rel c0 i ch s → phase2_rel c0 i ch (s.1, write_file f (CBytes r) s.2).
Proof.
  rewrite !not_elem_of_cons in Hf. destruct Hf as (F1 & F2 & F3 & F4 & _).
  intros [Hi H0 Hx Hn Ht He]. split; cbn [fst snd]; unfold write_file; rewrite ?lookup_insert_ne by done; done.
Qed.

Lemma phase2_step c0 i ch s r : phase2_rel c0 i ch s →
  let '(b, ch') := chain_step tool ch r in
  ∃ s', phase2_process_contribution mpc i f (s.1, write_file f (CBytes r) s.2) = (Ok b, s') ∧
        phase2_rel c0 (if b then i + 1 else i) ch' s'.
Proof.
  intros HR%(phase2_upload _ _ _ _ r). destruct s as [[] m]. cbn [fst snd] in *.
  assert (write_file f (CBytes r) m !! f = Some (CBytes r)) as Hfr by apply lookup_insert_eq.
  set (m1 := write_file f (CBytes r) m) in *. destruct (phase2_challenge _ _ _ _ HR) as (o & Eo & Hco & _).
  destruct HR as [[Hi0 Hi] H0 Hx Hn Ht He]. cbn [fst snd] in *.
  assert (file_bytes TRANSCRIPT_FILE m1 = Ok (transcript ch)) as Htr.
  { unfold file_bytes. rewrite Ht. case_decide as E; [|done]. by destruct (He E) as [-> _]. }
  unfold chain_step, phase2_process_contribution. rewrite (bind_ok _ _ _ _ _ Eo).
  pose proof (mpc_verify o (challenge ch) r _ m1 Hco Hfr Htr) as Hrun.
  destruct (tool (challenge ch) r) as [[next entry]|].
  - set (m2 := <[NEW_CHALLENGE_FILE := CBytes next]> _) in Hrun.
    rewrite (bind_ok _ _ _ true (tt, m2)).
    2: { apply on_files_eq. unfold phase2_verify_contribution, mpc_exec, run_ok. by rewrite mpc_live, Hrun. }
    rewrite (bind_ok _ _ _ true (tt, m2)).
    2: { eapply on_files_eq, f_exists_some, lookup_insert_eq. }
    unfold bind at 1, raise_when. cbn [negb ret].
    rewrite (bind_ok _ _ _ tt (tt, <[NEXT_CHALLENGE_FILE := CBytes next]> (delete NEW_CHALLENGE_FILE m2))).
    2: { apply on_files_eq, rename_ok, lookup_insert_eq. }
    eexists. split; [reflexivity|]. split; cbn [snd count challenge transcript]; unfold m2; lookups; try done. lia.
  - rewrite (bind_ok _ _ _ false (tt, m1)).
    2: { apply on_files_eq. unfold phase2_verify_contribution, mpc_exec, run_ok. by rewrite mpc_live, Hrun. }
    eexists. split; [reflexivity|]. by split.
Qed.

(** The index counts the accepted contributions. *)
Lemma phase2_indexed c0 i0 i ch s r : i = i0 + Z.of_nat (count ch) ∧ phase2_rel c0 i ch s →
  let '(b, ch') := chain_step tool ch r in
  ∃ s', phase2_process_contribution mpc i f (s.1, write_file f (CBytes r) s.2) = (Ok b, s') ∧
        (if b then i + 1 else i) = i0 + Z.of_nat (count ch') ∧ phase2_rel c0 (if b then i + 1 else i) ch' s'.
Proof.
  intros [Ei HR]. pose proof (phase2_step c0 i ch s r HR) as Hs. unfold chain_step in *.
  destruct (tool (challenge ch) r) as [[next entry]|]; destruct Hs as (s' & E & HR'); exists s'; (split; [done|]);
    (split; [cbn; lia | done]).
Qed.

Lemma phase2_complete c0 i ch s : phase2_rel c0 i ch s →
  ∃ m', phase2_on_completed mpc s =
    (if decide (count ch = O) then Err (Exception "no contributions made")
     else if check c0 (challenge ch) (transcript ch) then Ok tt else Err (Exception "error in MPC transcript"), (tt, m')) ∧
    if negb (bool_decide (count ch = O)) && check c0 (challenge ch) (transcript ch)
    then m' !! FINAL_OUTPUT = Some (CBytes (challenge ch)) ∧ m' !! FINAL_TRANSCRIPT = Some (CBytes (transcript ch))
    else m' = s.2.
Proof.
  destruct s as [[] m]. intros [Hi H0 Hx Hn Ht He]. cbn [fst snd] in *. unfold phase2_on_completed.
  destruct (decide (count ch = O)) as [E|E].
  - rewrite (bind_ok _ _ _ false (tt, m)) by by apply on_files_eq, f_exists_none.
    eexists. split; [reflexivity|]. by rewrite bool_decide_true.
  - rewrite bool_decide_false by done. cbn [negb andb].
    rewrite (bind_ok _ _ _ true (tt, m)) by by eapply on_files_eq, f_exists_some. unfold bind at 1, raise_when at 1. cbn [negb ret].
    rewrite (bind_ok _ _ _ (check c0 (challenge ch) (transcript ch)) (tt, m)).
    2: { apply on_files_eq. unfold phase2_verify_transcript, mpc_exec, run_ok. by rewrite mpc_live, (mpc_transcript _ _ _ _ H0 Hx Ht). }
    unfold bind at 1, raise_when. destruct (check _ _ _); cbn [negb ret raise]; [|by eexists].
    set (m1 := <[FINAL_OUTPUT := CBytes (challenge ch)]> (delete NEXT_CHALLENGE_FILE m)).
    rewrite (bind_ok _ _ _ tt (tt, m1)) by by apply on_files_eq, rename_ok.
    eexists. split; [eapply on_files_eq, rename_ok; unfold m1; by lookups; exact Ht|].
    cbn [fst snd]. unfold m1. lookups. done.
Qed.

Lemma phase2_reopen c0 i ch s : phase2_rel c0 i ch s → new_phase2_handler s.2 = (Ok tt, s.2).
Proof.
  destruct s as [[] m]. intros [Hi H0 Hx Hn Ht He]. cbn [snd] in *. unfold new_phase2_handler.
  rewrite (bind_ok _ _ _ true m) by by eapply f_exists_some. unfold bind at 1, raise_when at 1. cbn [negb ret].
  destruct (decide (count ch = O)) as [E|E].
  - rewrite (bind_ok _ _ _ false m) by by apply f_exists_none. by rewrite (bind_ok _ _ _ false m) by by apply f_exists_none.
  - by rewrite (bind_ok _ _ _ true m) by by eapply f_exists_some.
Qed.
End phase2.

(** The phase 2 handler implements the chain of challenges that starts with
    the initial challenge: handed any sequence of uploads at the indices of the
    server it accepts exactly those that the tool accepts against the challenge of
    the moment; the challenge it serves afterwards is the last one; a handler can be
    created from its files again; at the end the transcript is checked against the
    first and the last challenge and, if it is valid, the results get their final
    names.  Without any accepted contribution it raises. *)
Theorem phase2_chain `{Subprocess} (mpc : MPCCommand) (tool : bytes → bytes → option (bytes * bytes))
    (check : bytes → bytes → bytes → bool) (f : str) (Htools : Phase2Tools mpc tool check f)
    (rs : list bytes) (i : Z) (c0 : bytes) (m : fs)
    (Hf : f ∉ [CHALLENGE_0_FILE; NEXT_CHALLENGE_FILE; NEW_CHALLENGE_FILE; TRANSCRIPT_FILE]) (Hi : 0 ≤ i)
    (H0 : m !! CHALLENGE_0_FILE = Some (CBytes c0))
    (Hfresh : Forall (λ p, m !! p = None) [NEXT_CHALLENGE_FILE; NEW_CHALLENGE_FILE; TRANSCRIPT_FILE]) :
  let '(bs, ch) := chain_run tool (mkChain 0 c0 []) rs in
  let final := negb (bool_decide (count ch = O)) && check c0 (challenge ch) (transcript ch) in
  new_phase2_handler m = (Ok tt, m) ∧
  ∃ m' o m'',
    @rounds (phase2_handler mpc) f i rs (tt, m) = (Ok bs, (tt, m')) ∧
    phase2_challenge_file (i + Z.of_nat (count ch)) (tt, m') = (Ok o, (tt, m')) ∧ m' !! o = Some (CBytes (challenge ch)) ∧
    new_phase2_handler m' = (Ok tt, m') ∧
    phase2_on_completed mpc (tt, m') =
      (if decide (count ch = O) then Err (Exception "no contributions made")
       else if check c0 (challenge ch) (transcript ch) then Ok tt else Err (Exception "error in MPC transcript"), (tt, m'')) ∧
    (if final then m'' !! FINAL_OUTPUT = Some (CBytes (challenge ch)) ∧
       m'' !! FINAL_TRANSCRIPT = Some (CBytes (transcript ch)) else m'' = m').
Proof.
  rewrite !Forall_cons in Hfresh. destruct Hfresh as (Hx & Hn & Ht & _).
  assert (phase2_rel c0 i (mkChain 0 c0 []) (tt, m)) as HR by (split; cbn; by rewrite ?Hn, ?Ht, ?Hx).
  pose proof (@rounds_simulate (phase2_handler mpc) tool f
    (λ j ch s, j = i + Z.of_nat (count ch) ∧ phase2_rel c0 j ch s)) as Hsim.
  specialize (Hsim (phase2_indexed mpc tool check f Hf c0 i) rs i (mkChain 0 c0 []) (tt, m)
    (conj (eq_sym (Z.add_0_r i)) HR)).
  destruct (chain_run _ _ rs) as [bs ch]. destruct Hsim as (_ & [[] m'] & E & -> & HR').
  split; [by apply (phase2_reopen _ _ _ _ HR)|].
  destruct (phase2_complete mpc tool check f _ _ _ _ HR') as (m'' & E2 & Hend).
  destruct (phase2_challenge _ _ _ _ HR') as (o & Eo & Ho & _).
  exists m', o, m''. split; [exact E|]. split; [exact Eo|]. split; [exact Ho|].
  split; [by apply (phase2_reopen _ _ _ _ HR')|]. split; [exact E2 | exact Hend].
Qed.

(** ** Concrete runs *)

Module HandlerSample.
Definition file (p : str) (m : fs) : bytes := match m !! p with Some (CBytes b) => b | _ => [] end.

(** A response repeats the challenge and gives the next one. *)
Definition pot_tool (c r : bytes) : option bytes := if decide (take 1 r = c) then Some (drop 1 r) else None.
Definition pot : PowersOfTauCommand := mkPot (lit "bin") None.
Definition pot_run (args : list str) (m : fs) : bool * bytes * fs :=
  if decide (args = pot_args pot (lit "verify_transform") []) then
    match pot_tool (file CHALLENGE_FILE m) (file RESPONSE_FILE m) with
    | Some next => (true, [], <[NEW_CHALLENGE_FILE := CBytes next]> m)
    | None => (false, [], m)
    end
  else if decide (args = dd_args RESPONSE_FILE) then (true, drop 64 (file RESPONSE_FILE m), m)
  else (true, [], m).
#[local] Instance pot_process : Subprocess := {| run := pot_run |}.

Lemma pot_tools : PotTools pot pot_tool (λ _ _, true).
Proof.
  split.
  - intros c r m Hc Hr. cbn [run pot_process]. unfold pot_run, file. by rewrite decide_True, Hc, Hr.
  - intros r m Hr. cbn [run pot_process]. unfold pot_run, file. by rewrite decide_False, decide_True, Hr.
  - intros n t m Ht. cbn [run pot_process]. unfold pot_run. by rewrite !decide_False.
Qed.

Definition x1 := Byte.x01.
Definition x2 := Byte.x02.
Definition x3 := Byte.x03.
Definition pot_files : fs := {[ CHALLENGE_FILE := CBytes [x1] ]}.

Lemma phase1_chain_witness :
  let '(bs, ch) := chain_run (phase1_entry pot_tool) (mkChain 0 [x1] []) [[x1; x2]; [x1; x3]; [x2; x3]] in
  bs = [true; false; true] ∧ count ch = 2%nat ∧
  ∃ st m', @rounds (phase1_handler pot) (lit "up") 0 [[x1; x2]; [x1; x3]; [x2; x3]] (mkPhase1State 0, pot_files) =
             (Ok bs, (st, m')) ∧ m' !! CHALLENGE_FILE = Some (CBytes [x3]).
Proof.
  pose proof (phase1_chain pot pot_tool _ pot_tools (lit "up") [[x1; x2]; [x1; x3]; [x2; x3]] 0 [x1] pot_files
    ltac:(by apply (bool_decide_unpack _)) eq_refl ltac:(by repeat constructor)) as Hw.
  vm_compute chain_run in Hw |- *. destruct Hw as (_ & st & m' & _ & _ & E & _ & Hc & _).
  split; [done|]. split; [done|]. exists st, m'. split; [exact E | exact Hc].
Defined.

(** The same for the tool of the second phase; the transcript records responses. *)
Definition mpc_check (c r : bytes) : option (bytes * bytes) :=
  if decide (take 1 r = c) then Some (drop 1 r, r) else None.
Definition mpc_path : MPCCommand := mkMPCCommand (lit "mpc") false.
Definition mpc_run (args : list str) (m : fs) : bool * bytes * fs :=
  match args with
  | [_; _; _; _; _; _; o; r] =>
      match mpc_check (file o m) (file r m) with
      | Some (next, entry) =>
          (true, [], <[NEW_CHALLENGE_FILE := CBytes next]>
                       (<[TRANSCRIPT_FILE := CBytes (file TRANSCRIPT_FILE m ++ entry)]> m))
      | None => (false, [], m)
      end
  | _ => (true, [], m)
  end.
#[local] Instance mpc_process : Subprocess := {| run := mpc_run |}.

Lemma mpc_tools : @Phase2Tools mpc_process mpc_path mpc_check (λ _ _ _, true) (lit "up").
Proof.
  split; [done|..].
  - intros o c r t m Hc Hr Ht. 
    change (run _ m) with (match mpc_check (file o m) (file (lit "up") m) with
      | Some (next, entry) => (true, [] : bytes, <[NEW_CHALLENGE_FILE := CBytes next]>
          (<[TRANSCRIPT_FILE := CBytes (file TRANSCRIPT_FILE m ++ entry)]> m))
      | None => (false, [] : bytes, m) end).
    assert (file o m = c) as -> by (unfold file; by rewrite Hc).
    assert (file (lit "up") m = r) as -> by (unfold file; by rewrite Hr).
    assert (file TRANSCRIPT_FILE m = t) as ->; [|done].
    unfold file_bytes in Ht. unfold file. destruct (m !! TRANSCRIPT_FILE) as [[]|]; try discriminate;
      by apply Ok_inj in Ht.
  - done.
Qed.

Definition mpc_files : fs := {[ CHALLENGE_0_FILE := CBytes [x1] ]}.

Lemma phase2_chain_witness :
  let '(bs, ch) := chain_run mpc_check (mkChain 0 [x1] []) [[x1; x2]; [x1; x3]; [x2; x3]] in
  bs = [true; false; true] ∧ transcript ch = [x1; x2; x2; x3] ∧
  ∃ m', @rounds (@phase2_handler mpc_process mpc_path) (lit "up") 0 [[x1; x2]; [x1; x3]; [x2; x3]] (tt, mpc_files) =
          (Ok bs, (tt, m')) ∧ ∃ o, m' !! o = Some (CBytes [x3]).
Proof.
  pose proof (@phase2_chain mpc_process mpc_path mpc_check _ (lit "up") mpc_tools [[x1; x2]; [x1; x3]; [x2; x3]] 0 [x1]
    mpc_files ltac:(by apply (bool_decide_unpack _)) ltac:(lia) eq_refl ltac:(by repeat constructor)) as Hw.
  vm_compute chain_run in Hw |- *. destruct Hw as (_ & m' & o & _ & E & _ & Hc & _).
  split; [done|]. split; [done|]. exists m'. split; [exact E|]. exists o. exact Hc.
Defined.
End HandlerSample.
