(* ===== verification/Server.v ===== *)
(** * The coordinator's server ([mpc/coordinator/server.py])

    The server keeps the [ServerState], whether a contribution is being processed
    and whether the handler was told of the end; it serves requests one at a time
    under a lock, an interval thread checks deadlines under the same lock, and an
    accepted contribution is processed by a thread of its own, without the lock.
    [Worker] is the state of that thread, and [step] the interleavings. *)

From Stdlib Require Import ZArith Lia Ascii String Strings.Byte.
From stdpp Require Import base tactics list gmap strings.
From S2P Require Import Prelude PyStr PyBytes PyIO PyState MpcState Upload Handlers.

Local Open Scope Z_scope.
Local Open Scope sm_scope.

Definition STATE_FILE : str := lit "server_state.json".
Definition UPLOAD_FILE : str := lit "upload.raw".

(** Paths are relative to the working directory; ["./p"] is ["p"]. *)
Fixpoint norm_fuel (fuel : nat) (p : str) : str :=
  match fuel with
  | O => p
  | S fuel => if startswith (lit "./") p then norm_fuel fuel (drop 2 p) else p
  end.
Definition norm (p : str) : str := norm_fuel (length p) p.

(** ["a; b; c".split("; ")] *)
Fixpoint split_semi (s : str) : list str :=
  match s with
  | [] => [[]]
  | c :: s' =>
      match s' with
      | e :: s'' =>
          if bool_decide (c = ";"%char ∧ e = " "%char) then [] :: split_semi s''
          else match split_semi s' with [] => [[c]] | w :: ws => (c :: w) :: ws end
      | [] => [[c]]
      end
  end.

(** The first value [boundary=...] of a content type, or the empty string. *)
Fixpoint find_boundary (vals : list str) : str :=
  match vals with
  | [] => []
  | v :: vals => if startswith (lit "boundary=") v then drop 9 v else find_boundary vals
  end.

(** ** Requests and responses *)

Inductive Body : Type := BText (s : string) | BJson (j : json) | BFile (path : str).
Record Response : Type := mkResponse { status : Z; body : Body }.

Section server.
Context `{MpcCrypto} `{FloatText} `{InputStream} `{IContributionHandler}.

Record Request : Type := mkRequest { headers : gmap str str; req_stream : stream }.

(** The thread that processes a contribution: not started, started, and with the
    outcome of the handler. *)
Inductive Worker : Type := Idle | Launched | Processed (r : result bool).

Record Mail : Type := mkMail { to_addr : str; mail_index : Z; mail_total : Z; mail_key : str }.

Record World : Type := mkWorld {
  w_state : ServerState;
  w_processing : bool;
  w_worker : Worker;
  w_finalized : bool;
  w_handler : hstate;
  w_fs : fs;
  w_mail : list Mail
}.

Definition set_wstate (s : ServerState) (w : World) : World :=
  mkWorld s (w_processing w) (w_worker w) (w_finalized w) (w_handler w) (w_fs w) (w_mail w).
Definition set_processing (b : bool) (w : World) : World :=
  mkWorld (w_state w) b (w_worker w) (w_finalized w) (w_handler w) (w_fs w) (w_mail w).
Definition set_worker (k : Worker) (w : World) : World :=
  mkWorld (w_state w) (w_processing w) k (w_finalized w) (w_handler w) (w_fs w) (w_mail w).
Definition set_finalized (w : World) : World :=
  mkWorld (w_state w) (w_processing w) (w_worker w) true (w_handler w) (w_fs w) (w_mail w).
Definition set_hfs (hf : hstate * fs) (w : World) : World :=
  mkWorld (w_state w) (w_processing w) (w_worker w) (w_finalized w) hf.1 hf.2 (w_mail w).
Definition set_fs (m : fs) (w : World) : World := set_hfs (w_handler w, m) w.
Definition add_mail (x : Mail) (w : World) : World :=
  mkWorld (w_state w) (w_processing w) (w_worker w) (w_finalized w) (w_handler w) (w_fs w) (w_mail w ++ [x]).

(** [self.processing = True] and the start of the thread. *)
Definition launch (w : World) : World := set_worker Launched (set_processing true w).

Definition on_handler {A : Type} (m : SM (hstate * fs) A) : SM World A :=
  zoom (λ w, (w_handler w, w_fs w)) set_hfs m.
Definition on_fs {A : Type} (m : SM fs A) : SM World A := zoom w_fs set_fs m.

(** The constants of a run: configuration, contributors and directory. *)
Context (config : Configuration) (contributors : ContributorList) (server_dir : str).

Definition upload_file : str := norm (path_join server_dir UPLOAD_FILE).
Definition state_file_path : str := norm (path_join server_dir STATE_FILE).

Definition _write_state_file : SM World unit :=
  s <- gets w_state ;;
  on_fs (f_write state_file_path (CJson (server_state_to_json s))).

(** [_notify_next_contributor]: whether the mail arrives does not matter. *)
Definition _notify_next_contributor : SM World unit :=
  s <- gets w_state ;;
  if have_all_contributions s || negb (opt_truth (email_server config)) then ret tt
  else
    c <- lift (py_get contributors (next_contributor_index s)) ;;
    modify (add_mail (mkMail (email c) (next_contributor_index s + 1) (num_contributors s)
                        (export_verification_key (verification_key c)))).

Definition _finalize_handler_once : SM World unit :=
  fin <- gets w_finalized ;;
  s <- gets w_state ;;
  if negb fin && have_all_contributions s then modify set_finalized ;;; on_handler on_completed
  else ret tt.

Definition _on_next_contributor : SM World unit :=
  _finalize_handler_once ;;; _write_state_file ;;; _notify_next_contributor.

Definition _update_state (now : flt) : SM World unit :=
  s <- gets w_state ;;
  let '(passed, s) := update s now (contribution_interval config) in
  modify (set_wstate s) ;;;
  if (passed : bool) then _on_next_contributor else ret tt.

Definition _on_contribution (now : flt) : SM World unit :=
  let next_deadline := flt_add now (contribution_interval config) in
  s <- gets w_state ;;
  s <- lift (received_contribution s next_deadline) ;;
  modify (set_wstate s) ;;;
  _on_next_contributor.

(** [Server._tick], which nothing calls, and the function [_tick] of [_run], which
    the interval thread calls. *)
Definition _tick (now : flt) : SM World unit :=
  p <- gets w_processing ;;
  if (p : bool) then ret tt else _update_state now.

Definition run_tick (now : flt) : SM World unit := _update_state now.

(** ** Endpoints *)

Definition _contributors (now : flt) (_ : Request) : SM World Response :=
  ret (mkResponse 200 (BJson (contributors_to_json contributors))).

Definition _state (now : flt) (_ : Request) : SM World Response :=
  s <- gets w_state ;; ret (mkResponse 200 (BJson (server_state_to_json s))).

Definition _challenge (now : flt) (_ : Request) : SM World Response :=
  _update_state now ;;;
  s <- gets w_state ;;
  if have_all_contributions s then ret (mkResponse 405 (BText "MPC is complete. No remaining challenges"))
  else
    f <- on_handler (get_current_challenge_file (next_contributor_index s)) ;;
    ret (mkResponse 200 (BFile f)).

(** [if exists(self.upload_file): remove(self.upload_file)] *)
Definition remove_upload : SM World unit :=
  have <- on_fs (f_exists upload_file) ;;
  if (have : bool) then on_fs (f_remove upload_file) else ret tt.

Definition header (k : string) (req : Request) : SM World str :=
  lift (of_option (Exception "missing header") (headers req !! lit k)).

(** [handle_upload_request] on the stream of the request. *)
Definition upload (content_length : Z) (boundary : str) (digest : bytes) (req : Request) : SM World unit :=
  on_fs (λ m, let '(r, (_, m)) := handle_upload_request content_length boundary digest upload_file
                                    (req_stream req, m) in (r, m)).

Definition _contribute (now : flt) (req : Request) : SM World Response :=
  content_length_s <- header "Content-Length" req ;;
  content_type <- header "Content-Type" req ;;
  digest_s <- header "X-MPC-Digest" req ;;
  pub_key_str <- header "X-MPC-Public-Key" req ;;
  sig_s <- header "X-MPC-Signature" req ;;
  content_length <- lift (int_of_str 10 content_length_s) ;;
  digest <- lift (import_digest digest_s) ;;
  sig <- lift (import_signature sig_s) ;;
  let boundary := find_boundary (split_semi content_type) in
  raise_when (bool_decide (boundary = [])) (Exception "content-type contains no boundary") ;;;
  _update_state now ;;;
  s <- gets w_state ;;
  if have_all_contributions s then ret (mkResponse 405 (BText "MPC complete. No contributions accepted."))
  else
    contributor <- lift (py_get contributors (next_contributor_index s)) ;;
    let vk := verification_key contributor in
    if negb (bool_decide (export_verification_key vk = pub_key_str)) then
      ret (mkResponse 403 (BText "Contributor key mismatch"))
    else if negb (verify sig vk digest) then
      ret (mkResponse 403 (BText "Signature check failed"))
    else
      remove_upload ;;;
      upload content_length boundary digest req ;;;
      modify launch ;;;
      ret (mkResponse 200 (BText "OK")).

(** [_with_state_lock] *)
Definition _with_state_lock (callback : Request → SM World Response) (req : Request) : SM World Response :=
  p <- gets w_processing ;;
  if (p : bool) then ret (mkResponse 503 (BText "Processing contribution. Retry later."))
  else try_except (callback req) (λ _, ret (mkResponse 400 (BText "error: {ex}"))).

Inductive Endpoint : Type := EContributors | EState | EChallenge | EContribute.

Definition handle (e : Endpoint) (now : flt) (req : Request) : SM World Response :=
  _with_state_lock (match e with
                    | EContributors => _contributors now
                    | EState => _state now
                    | EChallenge => _challenge now
                    | EContribute => _contribute now
                    end) req.

(** ** The processing thread

    [_process_contribution] in two parts, between which the interval thread may
    run: the handler, on the index at that moment, and the rest. *)

Definition process_begin : SM World unit :=
  s <- gets w_state ;;
  (λ w, let '(r, w) := on_handler (process_contribution (next_contributor_index s) upload_file) w in
        (Ok tt, set_worker (Processed r) w)).

Definition process_cleanup : SM World unit :=
  try_finally remove_upload (modify (set_processing false)).

Definition process_end (now : flt) (r : result bool) : SM World unit :=
  try_finally
    (match r with
     | Ok true => _on_contribution now
     | Ok false => ret tt
     | Err e => raise e
     end)
    process_cleanup.

(** The whole thread without anything in between. *)
Definition _process_contribution (now : flt) : SM World unit :=
  process_begin ;;;
  k <- gets w_worker ;;
  match k with Processed r => modify (set_worker Idle) ;;; process_end now r | _ => ret tt end.

(** ** Interleavings

    Requests and ticks hold the lock; the processing thread runs when it has been
    launched, and its two parts may have ticks and (refused) requests between
    them.  An exception ends the step and leaves the state it reached; in the
    processing thread it ends the thread. *)
Inductive step : World → World → Prop :=
| step_request e now req w r w' : 0 < now → handle e now req w = (r, w') → step w w'
| step_tick now w r w' : 0 < now → run_tick now w = (r, w') → step w w'
| step_begin w r w' : w_worker w = Launched → process_begin w = (r, w') → step w w'
| step_end now w o r w' : 0 < now → w_worker w = Processed o → process_end now o (set_worker Idle w) = (r, w') →
    step w w'.

Inductive steps : World → World → Prop :=
| steps_refl w : steps w w
| steps_step w1 w2 w3 : step w1 w2 → steps w2 w3 → steps w1 w3.
End server.

(** ** Start *)

(** [Server.__init__], up to the start of the threads: the contributors read from
    their file, and the world. *)
Definition new_server `{MpcCrypto} `{FloatText} `{IContributionHandler} (config : Configuration)
    (server_dir : str) (h : hstate) (m : fs) : result (ContributorList * World) * fs :=
  match (j ← read_json (contributors_file config) m;
         contributors ← contributors_from_json j;
         _ ← ensure_validity contributors;
         Ok contributors) with
  | Err e => (Err e, m)
  | Ok contributors =>
      if exists_file STATE_FILE m then
        (j ← read_json STATE_FILE m; s ← server_state_from_json j;
         Ok (contributors, mkWorld s false Idle (have_all_contributions s) h m []), m)
      else
        match initial_server_state config contributors with
        | Err e => (Err e, m)
        | Ok s =>
            match (_write_state_file server_dir ;;; _notify_next_contributor config contributors)
                    (mkWorld s false Idle false h m []) with
            | (Ok _, w) => (Ok (contributors, mkWorld (w_state w) false Idle (have_all_contributions (w_state w)) h
                                                (w_fs w) (w_mail w)), w_fs w)
            | (Err e, w) => (Err e, w_fs w)
            end
        end
  end.
