(* ===== verification/ServerFacts.v ===== *)
(** * Correctness of the coordinator's server

    An invariant of every reachable state, what a contribution must satisfy to be
    accepted, how the state advances, and what the interval thread and a restart
    can do to a run. *)

From Stdlib Require Import ZArith Lia Ascii String Strings.Byte.
From stdpp Require Import base tactics list gmap strings.
From S2P Require Import Prelude PyStr PyBytes PyIO PyState MpcState Upload Handlers Server.

Local Open Scope Z_scope.
Local Open Scope sm_scope.

(** ** The state *)

(** The index is within the contributors; the deadline is zero exactly when all
    contributions are in. *)
Definition state_ok (n : Z) (s : ServerState) : Prop :=
  num_contributors s = n ∧ 0 ≤ next_contributor_index s ≤ n ∧
  (next_contributor_index s = n → next_contributor_deadline s = 0) ∧
  (next_contributor_index s < n → 0 < next_contributor_deadline s).

Lemma have_all_spec n s : state_ok n s → have_all_contributions s = true ↔ next_contributor_index s = n.
Proof. intros (Hn & Hi & _). unfold have_all_contributions. rewrite Z.leb_le. lia. Qed.

Lemma next_contributor_ok n s dl : state_ok n s → next_contributor_index s < n → 0 < dl →
  state_ok n (_next_contributor s dl).
Proof.
  intros (Hn & Hi & _) Hlt Hdl. unfold state_ok, _next_contributor.
  cbn [num_contributors next_contributor_index next_contributor_deadline]. rewrite Hn.
  destruct (n <=? next_contributor_index s + 1) eqn:E; prop_bool; lia.
Qed.

Lemma update_ok n s now itv : state_ok n s → 0 < now → 0 ≤ itv → state_ok n (update s now itv).2.
Proof.
  intros Hs Hnow Hitv. unfold update.
  destruct ((next_contributor_deadline s <=? 0) || (now <? next_contributor_deadline s)) eqn:E; [done|]. prop_bool.
  apply next_contributor_ok; [done | | by apply flt_add_pos].
  destruct Hs as (_ & Hi & Hend & _). destruct (Z.eq_dec (next_contributor_index s) n) as [En|]; [|lia].
  specialize (Hend En). lia.
Qed.

(** When the deadline has passed the index advances by one. *)
Lemma update_passed n s now itv : state_ok n s →
  (update s now itv).1 = true ↔ next_contributor_index s < n ∧ next_contributor_deadline s ≤ now.
Proof.
  intros (Hn & Hi & Hend & Hlt). unfold update.
  destruct ((next_contributor_deadline s <=? 0) || (now <? next_contributor_deadline s)) eqn:E; prop_bool; cbn [fst].
  - split; [done|]. intros [Hl Hd]. specialize (Hlt Hl). destruct E; prop_bool; lia.
  - split; [|done]. intros _. split; [|lia]. destruct (Z.eq_dec (next_contributor_index s) n) as [En|]; [|lia].
    specialize (Hend En). lia.
Qed.

Lemma server_state_roundtrip `{FloatTextLaws} s : num_contributors s ≠ 0 →
  server_state_from_json (server_state_to_json s) = Ok s.
Proof.
  destruct s as [i n d]. cbn [num_contributors]. intros Hn.
  unfold server_state_from_json, server_state_to_json, jstr.
  cbn [next_contributor_index num_contributors next_contributor_deadline].
  jsimp. cbn [as_int as_str mbind result_bind]. jsimp. cbn [as_int as_str mbind result_bind].
  rewrite flt_text. cbn [mbind result_bind]. unfold new_ServerState. by rewrite (proj2 (Z.eqb_neq _ _)).
Qed.

(** ** Frame *)

Section server.
Context `{MpcCrypto} `{FloatText} `{InputStream} `{IContributionHandler}.
Context (config : Configuration) (contributors : ContributorList) (server_dir : str).

(** What the file system and the handler cannot change. *)
Definition same_core (w w' : World) : Prop :=
  w_state w' = w_state w ∧ w_processing w' = w_processing w ∧ w_worker w' = w_worker w ∧
  w_finalized w' = w_finalized w.

#[local] Instance same_core_refl : Reflexive same_core.
Proof. done. Qed.
#[local] Instance same_core_trans : Transitive same_core.
Proof. intros x y z (?&?&?&?) (?&?&?&?). unfold same_core. split_and!; congruence. Qed.

Lemma keeps_on_fs {A : Type} (m : SM fs A) : keeps same_core (on_fs m).
Proof. intros w. unfold on_fs, zoom. destruct (m (w_fs w)). unfold same_core. by split_and!. Qed.
Lemma keeps_on_handler {A : Type} (m : SM (hstate * fs) A) : keeps same_core (on_handler m).
Proof. intros w. unfold on_handler, zoom. destruct (m (w_handler w, w_fs w)). unfold same_core. by split_and!. Qed.

(** After [remove_upload] the file is gone. *)
Lemma remove_upload_spec w :
  remove_upload server_dir w = (Ok tt, set_fs (delete (upload_file server_dir) (w_fs w)) w).
Proof.
  destruct w as [s p k fin h m ml]. unfold remove_upload, bind, on_fs, zoom, f_exists, gets, f_remove, remove_file, set_fs, set_hfs.
  cbn. unfold exists_file. destruct (m !! upload_file server_dir) as [c|] eqn:E; cbn; [by rewrite E|].
  unfold ret. by rewrite delete_id.
Qed.

Lemma keeps_remove_upload : keeps same_core (remove_upload server_dir).
Proof. intros w. by rewrite remove_upload_spec. Qed.

Lemma write_state_core : keeps same_core (_write_state_file server_dir).
Proof. apply keeps_bind; [apply _ | apply keeps_gets; apply _ |]. intros s. apply keeps_on_fs. Qed.

Lemma notify_core : keeps same_core (_notify_next_contributor config contributors).
Proof.
  apply keeps_bind; [apply _ | apply keeps_gets; apply _|]. intros s. case_match; [apply keeps_ret; apply _|].
  apply keeps_bind; [apply _ | apply keeps_lift; apply _|]. by intros c w.
Qed.

(** The handler is told of the end once, when the last contributor is past. *)
Lemma finalize_spec w r w' : _finalize_handler_once w = (r, w') →
  w_state w' = w_state w ∧ w_processing w' = w_processing w ∧ w_worker w' = w_worker w ∧
  w_finalized w' = w_finalized w || have_all_contributions (w_state w).
Proof.
  unfold _finalize_handler_once, bind, gets. destruct (w_finalized w) eqn:Ef; cbn [negb andb orb].
  - intros [= _ <-]. by rewrite Ef.
  - destruct (have_all_contributions (w_state w)) eqn:Eh; [|intros [= _ <-]; by rewrite Ef].
    intros E. pose proof (keeps_on_handler on_completed (set_finalized w)) as Hk. cbn [modify] in E.
    rewrite E in Hk. exact Hk.
Qed.

Lemma next_contributor_spec w r w' : _on_next_contributor config contributors server_dir w = (r, w') →
  w_state w' = w_state w ∧ w_processing w' = w_processing w ∧ w_worker w' = w_worker w ∧
  w_finalized w' = w_finalized w || have_all_contributions (w_state w).
Proof.
  unfold _on_next_contributor, bind at 1. destruct (_finalize_handler_once w) as [[u|e] w1] eqn:Ef.
  2: { intros [= _ <-]. by eapply finalize_spec. }
  apply finalize_spec in Ef as (<- & <- & <- & <-). intros E.
  assert (keeps same_core (_write_state_file server_dir ;;; _notify_next_contributor config contributors)) as Hk.
  { apply keeps_bind; [apply _ | apply write_state_core |]. intros _. apply notify_core. }
  specialize (Hk w1). rewrite E in Hk. exact Hk.
Qed.

Lemma update_state_spec now w r w' : _update_state config contributors server_dir now w = (r, w') →
  let u := update (w_state w) now (contribution_interval config) in
  w_state w' = u.2 ∧ w_processing w' = w_processing w ∧ w_worker w' = w_worker w ∧
  w_finalized w' = w_finalized w || u.1 && have_all_contributions u.2.
Proof.
  unfold _update_state, bind at 1, gets. destruct (update (w_state w) now _) as [passed s].
  unfold bind, modify. destruct passed; cbn [fst snd andb].
  - intros E. by apply next_contributor_spec in E.
  - intros [= _ <-]. cbn. by rewrite orb_false_r.
Qed.

(** ** Invariant *)

Record server_inv (w : World) : Prop := {
  si_state : state_ok (zlen contributors) (w_state w);
  si_final : w_finalized w = have_all_contributions (w_state w);
  si_worker : w_processing w = true ↔ w_worker w ≠ Idle
}.

(** What every operation does to a state of the invariant, with any outcome. *)
Definition evolves (w w' : World) : Prop :=
  server_inv w → server_inv w' ∧ next_contributor_index (w_state w) ≤ next_contributor_index (w_state w').

#[local] Instance evolves_refl : Reflexive evolves.
Proof. by intros w Hw. Qed.
#[local] Instance evolves_trans : Transitive evolves.
Proof. intros x y z Hxy Hyz Hx. destruct (Hxy Hx) as [Hy ?]. destruct (Hyz Hy) as [Hz ?]. split; [done | lia]. Qed.

Lemma evolves_core w w' : same_core w w' → evolves w w'.
Proof. intros (E1 & E2 & E3 & E4) [? ? ?]. rewrite E1. split; [|done]. split; by rewrite ?E1, ?E2, ?E3, ?E4. Qed.

Lemma keeps_core {A : Type} (m : SM World A) : keeps same_core m → keeps evolves m.
Proof. intros Hk w. by apply evolves_core. Qed.

Context (Hitv : 0 ≤ contribution_interval config).

Lemma evolves_update now : 0 < now → keeps evolves (_update_state config contributors server_dir now).
Proof.
  intros Hnow w [Hs Hf Hw]. destruct (_update_state _ _ _ now w) as [r w'] eqn:E.
  apply update_state_spec in E as (E1 & E2 & E3 & E4). cbn [snd].
  pose proof (update_ok _ _ now _ Hs Hnow Hitv) as Hok. split; [split; rewrite ?E1, ?E2, ?E3, ?E4; [done | | done] |].
  - rewrite Hf. destruct (update (w_state w) now (contribution_interval config)) as [[] s] eqn:Eu; cbn [fst snd andb].
    + pose proof (proj1 (update_passed _ _ now (contribution_interval config) Hs) ltac:(by rewrite Eu)) as [Hlt _].
      destruct (have_all_contributions (w_state w)) eqn:Eh; [|done]. apply (have_all_spec _ _ Hs) in Eh. lia.
    + unfold update in Eu. case_match; [|done]. injection Eu as <-. by rewrite orb_false_r.
  - rewrite E1. unfold update. case_match; cbn; lia.
Qed.

Lemma evolves_launch : keeps evolves (modify launch).
Proof. intros w [Hs Hf _]. by split. Qed.

Ltac evolve :=
  repeat first
    [ assumption
    | apply evolves_launch
    | apply keeps_core; first [ apply keeps_remove_upload | apply keeps_on_fs | apply keeps_on_handler ]
    | apply keeps_bind; [apply _ | | intros ?]
    | apply keeps_ret; apply _ | apply keeps_lift; apply _ | apply keeps_gets; apply _
    | apply keeps_raise_when; apply _
    | case_match ].

Definition callback (e : Endpoint) (now : flt) : Request → SM World Response :=
  match e with
  | EContributors => _contributors contributors now
  | EState => _state now
  | EChallenge => _challenge config contributors server_dir now
  | EContribute => _contribute config contributors server_dir now
  end.

Lemma evolves_callback e now req : 0 < now → keeps evolves (callback e now req).
Proof.
  intros Hnow. pose proof (evolves_update now Hnow) as Hu.
  destruct e; [unfold callback, _contributors | unfold callback, _state | unfold callback, _challenge
              | unfold callback, _contribute]; evolve.
Qed.

(** A request is refused while a contribution is processed; otherwise it is served
    with the lock and an exception becomes the status 400. *)
Lemma handle_spec e now req w : handle config contributors server_dir e now req w =
  if w_processing w then (Ok (mkResponse 503 (BText "Processing contribution. Retry later.")), w)
  else match callback e now req w with
       | (Ok r, w') => (Ok r, w')
       | (Err _, w') => (Ok (mkResponse 400 (BText "error: {ex}")), w')
       end.
Proof.
  unfold handle, _with_state_lock, bind, gets, try_except. destruct (w_processing w); [done|].
  by destruct e.
Qed.

Lemma evolves_handle e now req : 0 < now → keeps evolves (handle config contributors server_dir e now req).
Proof.
  intros Hnow w. rewrite handle_spec. destruct (w_processing w); [by apply evolves_refl|].
  pose proof (evolves_callback e now req Hnow w) as Hp. by destruct (callback e now req w) as [[r|x] w1].
Qed.

Lemma on_contribution_spec now w r w' : _on_contribution config contributors server_dir now w = (r, w') →
  if have_all_contributions (w_state w) then r = Err AssertionError ∧ w' = w
  else let s := _next_contributor (w_state w) (flt_add now (contribution_interval config)) in
    w_state w' = s ∧ w_processing w' = w_processing w ∧ w_worker w' = w_worker w ∧
    w_finalized w' = w_finalized w || have_all_contributions s.
Proof.
  unfold _on_contribution, bind at 1 2, gets, lift, received_contribution.
  destruct (have_all_contributions (w_state w)) eqn:Eh; cbn [negb py_assert mbind result_bind].
  - by intros [= <- <-].
  - unfold bind, modify. intros E. by apply next_contributor_spec in E.
Qed.

Lemma cleanup_spec w :
  process_cleanup server_dir w = (Ok tt, set_processing false (set_fs (delete (upload_file server_dir) (w_fs w)) w)).
Proof. unfold process_cleanup, try_finally. by rewrite remove_upload_spec. Qed.

Lemma not_all_lt n s : state_ok n s → have_all_contributions s = false → next_contributor_index s < n.
Proof. intros (Hn & Hi & _) Eh. unfold have_all_contributions in Eh. prop_bool. lia. Qed.

(** The state, the flag of the handler and the worker at the end of the thread. *)
Lemma process_end_spec now o w r w' : process_end config contributors server_dir now o (set_worker Idle w) = (r, w') →
  let s := w_state w in
  let accept := match o with Ok true => negb (have_all_contributions s) | _ => false end in
  w_state w' = (if accept then _next_contributor s (flt_add now (contribution_interval config)) else s) ∧
  w_finalized w' = w_finalized w || accept && have_all_contributions (w_state w') ∧
  w_worker w' = Idle ∧ w_processing w' = false ∧ w_fs w' !! upload_file server_dir = None.
Proof.
  unfold process_end, try_finally.
  destruct (match o with Ok true => _on_contribution config contributors server_dir now | Ok false => ret tt
            | Err e => raise e end (set_worker Idle w)) as [r1 w1] eqn:E1.
  rewrite cleanup_spec. intros [= <- <-]. cbn zeta.
  cbn [w_state w_finalized w_worker w_processing set_processing set_fs set_hfs w_fs snd]. rewrite lookup_delete_eq.
  unfold ret, raise in E1. destruct o as [[|]|e];
    [|injection E1 as _ <-; by rewrite orb_false_r..].
  apply on_contribution_spec in E1. cbn [w_state set_worker] in E1.
  destruct (have_all_contributions (w_state w)); cbn [negb andb].
  - destruct E1 as [_ ->]. by rewrite orb_false_r.
  - by destruct E1 as (-> & _ & -> & ->).
Qed.

Lemma process_end_evolves now o w r w' : 0 < now → w_worker w = Processed o →
  process_end config contributors server_dir now o (set_worker Idle w) = (r, w') → evolves w w'.
Proof.
  intros Hnow Hk E [Hs Hf Hw]. apply process_end_spec in E. cbn zeta in E. destruct E as (Es & Ef & Ek & Ep & _).
  set (accept := match o with Ok true => _ | _ => _ end) in *.
  assert (accept = true → next_contributor_index (w_state w) < zlen contributors) as Hlt.
  { intros Ha. apply not_all_lt; [done|]. unfold accept in Ha. destruct o as [[]|]; [by apply negb_true_iff | done..]. }
  assert (accept = true → w_finalized w = false) as Hnf.
  { intros Ha. rewrite Hf. unfold accept in Ha. destruct o as [[]|]; [by apply negb_true_iff | done..]. }
  destruct accept; cbn [andb] in *; [rewrite Hnf in Ef by done | rewrite orb_false_r in Ef].
  - split; [split|].
    + rewrite Es. apply next_contributor_ok; [done | auto | by apply flt_add_pos].
    + done.
    + by rewrite Ek, Ep.
    + rewrite Es. cbn. lia.
  - rewrite Es. split; [|done]. split; rewrite ?Es, ?Ef, ?Ek, ?Ep; done.
Qed.

Lemma process_begin_spec w : ∃ r hf,
  process_contribution (next_contributor_index (w_state w)) (upload_file server_dir) (w_handler w, w_fs w) = (r, hf) ∧
  process_begin server_dir w = (Ok tt, set_worker (Processed r) (set_hfs hf w)).
Proof.
  unfold process_begin, bind, gets, on_handler, zoom. destruct (process_contribution _ _ _) as [r hf]. by exists r, hf.
Qed.

Lemma step_evolves w w' : step config contributors server_dir w w' → evolves w w'.
Proof.
  intros Hstep. inversion Hstep as [e now req w0 r w1 Hnow E|now w0 r w1 Hnow E|w0 r w1 Hk E|now w0 o r w1 Hnow Hk E]; subst.
  - pose proof (evolves_handle e now req Hnow w) as Hp. by rewrite E in Hp.
  - pose proof (evolves_update now Hnow w) as Hp. unfold run_tick in E. by rewrite E in Hp.
  - destruct (process_begin_spec w) as (r' & hf & _ & E'). rewrite E' in E. injection E as _ <-.
    intros [Hs Hf Hw]. split; [|done]. split; [done | done |]. cbn. rewrite Hw, Hk. done.
  - by eapply process_end_evolves.
Qed.

Lemma steps_evolves w w' : steps config contributors server_dir w w' → evolves w w'.
Proof. induction 1 as [w|w1 w2 w3 H12 _ IH]; [done|]. etrans; [by apply step_evolves | done]. Qed.
End server.
