(* ===== verification/ServerRun.v ===== *)
(** * Starting and stopping the server ([mpc/coordinator/server.py])

    The constructor of [Server] starts the thread [_run] and waits until it has a
    socket; [stop] waits until it has none.  The two threads share [self.server]; a step
    is a statement of one of them.  That the TLS files can be used and that the address
    can be bound are parameters, as the web server is. *)

From Stdlib Require Import ZArith Lia Ascii String.
From stdpp Require Import base tactics list relations gmap strings.
From S2P Require Import Prelude PyStr PyBytes PyFloat PyIO PyState Cli MpcState MpcConfig.

Local Open Scope Z_scope.

(** ** The threads *)

(** Where [_run] is: the checks of the two files, the construction of the web server,
    its adapter, its start, in the loop of the web server, in [finally], ended. *)
Inductive RunPc : Type := RCertificate | RKey | RServer | RAdapter | RStart | RServing | RFinally | REnd.
(** Where the thread that owns the server is: waiting in the constructor, after it,
    waiting in [stop], after it. *)
Inductive MainPc : Type := MWait | MStarted | MStopping | MStopped.

(** [self.server]: the web server, and whether it has a socket. *)
Record Boot : Type := mkBoot { web_server : option bool; run_pc : RunPc; main_pc : MainPc; stop_requested : bool }.

Definition set_run (p : RunPc) (s : Boot) : Boot := mkBoot (web_server s) p (main_pc s) (stop_requested s).
Definition set_main (p : MainPc) (s : Boot) : Boot := mkBoot (web_server s) (run_pc s) p (stop_requested s).
Definition set_web_server (w : option bool) (s : Boot) : Boot := mkBoot w (run_pc s) (main_pc s) (stop_requested s).

(** The thread is started. *)
Definition new_boot : Boot := mkBoot None RCertificate MWait false.

Section run.
Context (config : Configuration) (m : fs) (adapter_ok bind_ok : bool).

(** A statement of [_run]; an exception leads to [finally], and a thread that is in the
    loop of the web server waits for [stop]. *)
Definition _run (s : Boot) : option Boot :=
  match run_pc s with
  | RCertificate => Some (set_run (if exists_file (tls_certificate config) m then RKey else RFinally) s)
  | RKey => Some (set_run (if exists_file (tls_key config) m then RServer else RFinally) s)
  | RServer => Some (set_run RAdapter (set_web_server (Some false) s))
  | RAdapter => Some (set_run (if adapter_ok then RStart else RFinally) s)
  | RStart => Some (if bind_ok then set_run RServing (set_web_server (Some true) s) else set_run RFinally s)
  | RServing => if stop_requested s then Some (set_run RFinally s) else None
  | RFinally => Some (set_run REnd (set_web_server None s))
  | REnd => None
  end.

(** [self.server is None or self.server.socket is None] *)
Definition waiting (s : Boot) : bool := match web_server s with Some true => false | _ => true end.

(** A test of one of the two loops, or the call of [stop]; [None] while a loop sleeps. *)
Definition main (s : Boot) : option Boot :=
  match main_pc s with
  | MWait => if waiting s then None else Some (set_main MStarted s)
  | MStarted => match web_server s with
                | Some _ => Some (mkBoot (web_server s) (run_pc s) MStopping true)
                | None => Some (set_main MStopped s)
                end
  | MStopping => match web_server s, run_pc s with None, REnd => Some (set_main MStopped s) | _, _ => None end
  | MStopped => None
  end.

Inductive bstep : Boot → Boot → Prop :=
| bstep_run s s' : _run s = Some s' → bstep s s'
| bstep_main s s' : main s = Some s' → bstep s s'.

(** What [_run] needs to serve. *)
Definition can_serve : bool :=
  exists_file (tls_certificate config) m && exists_file (tls_key config) m && adapter_ok && bind_ok.

(** ** Invariant *)

(** Without one of them the thread never has a socket, and the constructor waits. *)
Definition stuck (s : Boot) : Prop := main_pc s = MWait ∧ web_server s ≠ Some true ∧
  match run_pc s with
  | RServing => False
  | RKey => exists_file (tls_certificate config) m = true
  | RServer | RAdapter => exists_file (tls_certificate config) m && exists_file (tls_key config) m = true
  | RStart => exists_file (tls_certificate config) m && exists_file (tls_key config) m && adapter_ok = true
  | _ => True
  end.

Lemma stuck_step s s' : can_serve = false → stuck s → bstep s s' → stuck s'.
Proof.
  intros Hc (Hm & Hw & Hpc) Hstep. unfold can_serve in Hc. destruct Hstep as [s s' E | s s' E].
  - unfold _run in E. destruct s as [w rp mp sr]. cbn in *. subst mp.
    destruct rp; simplify_eq; unfold stuck; cbn; split_and!; try done;
      destruct (exists_file (tls_certificate config) m), (exists_file (tls_key config) m), adapter_ok, bind_ok; done.
  - unfold main, waiting in E. rewrite Hm in E. destruct (web_server s) as [[]|]; done.
Qed.

(** When the certificate or the key is missing or unusable, or the address cannot be
    bound, the constructor of the server never returns: the thread raises and ends, and
    the loop that waits for its socket goes on. *)
Theorem start_waits_forever : can_serve = false → ∀ s, rtc bstep new_boot s → main_pc s = MWait ∧ waiting s = true.
Proof.
  intros Hc s Hs. assert (stuck s) as (Hm & Hw & _).
  { assert (stuck new_boot) as H0 by done. induction Hs as [|s1 s2 s3 Hstep _ IH]; [done|]. apply IH. by eapply stuck_step. }
  split; [done|]. unfold waiting. by destruct (web_server s) as [[]|].
Qed.

(** ** Liveness *)

(** Otherwise the states up to the socket and from the call of [stop] on are reached. *)
Definition run_n : nat → Boot → option Boot := fix run_n n s :=
  match n with O => Some s | S n => s ← _run s; run_n n s end.

Lemma run_n_steps n s s' : run_n n s = Some s' → rtc bstep s s'.
Proof.
  revert s. induction n as [|n IH]; intros s E; cbn in E; [injection E as ->; apply rtc_refl|].
  destruct (_run s) as [s1|] eqn:E1; [|done]. eapply rtc_l; [by apply bstep_run | by apply IH].
Qed.

(** The server starts and stops: after five statements of the thread the constructor
    returns with a socket, where the thread stays until [stop] is called; then two
    statements of the thread end it without a server, and [stop] returns. *)
Theorem start_and_stop : can_serve = true →
  let serving := mkBoot (Some true) RServing MWait false in
  let stopping := mkBoot (Some true) RServing MStopping true in
  run_n 5 new_boot = Some serving ∧
  main serving = Some (set_main MStarted serving) ∧ _run (set_main MStarted serving) = None ∧
  main (set_main MStarted serving) = Some stopping ∧
  ∃ stopped, run_n 2 stopping = Some stopped ∧ web_server stopped = None ∧ _run stopped = None ∧
    main stopped = Some (set_main MStopped stopped).
Proof.
  unfold can_serve. intros [[[Hc Hk]%andb_prop Ha]%andb_prop Hb]%andb_prop. cbv zeta. cbn. rewrite Hc. cbn. rewrite Hk. cbn.
  rewrite Ha. cbn. rewrite Hb. cbn. split_and!; try done. by eexists.
Qed.
End run.

(** ** Mail *)

Record EmailMessage : Type := mkEmail { em_subject : str; em_from : str; em_to : str; em_content : str }.

(** A session with a mail server over TLS ([SMTP_SSL]). *)
Class Smtp (Net : Type) := {
  smtp_connect : str → Z → SM Net unit;
  smtp_login : str → str → SM Net unit;
  smtp_send_message : EmailMessage → SM Net unit;
  smtp_quit : SM Net unit
}.

(** The first line of a text, with its end. *)
Fixpoint first_line (s : str) : str :=
  match s with
  | [] => []
  | c :: s => if decide (c = "010"%char) then [c] else c :: first_line s
  end.

Section mail.
Context `{Smtp Net}.
Local Open Scope sm_scope.

(** The host and the port of a server; with more than one colon the port is the default. *)
Definition mail_host_port (email_server : str) : result (str * Z) :=
  let host_port := split_on ":"%char email_server in
  host ← py_get host_port 0;
  port ← (if zlen host_port =? 2 then p ← py_get host_port 1; int_of_str 10 p else Ok 465);
  Ok (host, port).

(** [_send_mail]; the session is closed whatever happens in it. *)
Definition _send_mail (m : fs) (email_server email_address email_password_file to_addr subject body : str) : SM Net unit :=
  hp <- lift (mail_host_port email_server) ;;
  smtp_connect hp.1 hp.2 ;;;
  try_finally
    (passwd <- lift (read_text email_password_file m) ;;
     smtp_login email_address (rstrip (first_line passwd)) ;;;
     smtp_send_message (mkEmail subject email_address to_addr
       (lit "Subject: " ++ subject ++ ["010"%char; "010"%char] ++ body)))
    smtp_quit.
End mail.

(** A host with and without a port. *)
Theorem mail_host_port_correct (host port : str) (p : Z) : ":"%char ∉ host →
  mail_host_port host = Ok (host, 465) ∧
  (":"%char ∉ port → int_of_str 10 port = Ok p → mail_host_port (host ++ ":"%char :: port) = Ok (host, p)).
Proof.
  intros Hh. unfold mail_host_port. split.
  - by rewrite split_on_none.
  - intros Hp Ep. rewrite split_on_app, (split_on_none _ port) by done.
    change (py_get [host; port] 0) with (Ok host). change (py_get [host; port] 1) with (Ok port). cbn [mbind result_bind].
    change (zlen [host; port] =? 2) with true. cbn [mbind result_bind]. by rewrite Ep.
Qed.
