(* ===== verification/Coordinator.v ===== *)
(** * Correctness of the coordinator

    The properties of the server as a whole: what every reachable state satisfies,
    when a contribution is accepted and by whom, how the state advances, that a run
    completes, what a restart finds, and how the interval thread can take a turn
    away. *)

From Stdlib Require Import ZArith Lia Ascii String Strings.Byte.
From stdpp Require Import base tactics list gmap strings.
From S2P Require Import Prelude PyStr PyBytes PyIO PyState MpcState Upload MpcConfig Handlers HandlerFacts Server ServerFacts.

Local Open Scope Z_scope.
Local Open Scope sm_scope.

(** ** The start *)

Section start.
Context `{MpcCrypto} `{FloatText} `{IContributionHandler} (config : Configuration) (server_dir : str).

(** The state file of [server_dir] holds the state. *)
Definition saved (w : World) : Prop :=
  w_fs w !! state_file_path server_dir = Some (CJson (server_state_to_json (w_state w))).

Lemma initial_state_ok {A : Type} (l : list A) s : 0 < start_time_utc config → 0 ≤ contribution_interval config →
  initial_server_state config l = Ok s → state_ok (zlen l) s ∧ have_all_contributions s = false.
Proof.
  intros Ht Hi E. unfold initial_server_state, new_ServerState in E.
  do 2 apply bind_Ok_inv in E as (_ & _ & E). apply bind_Ok_inv in E as ([] & Ha%py_assert_Ok & E).
  apply bind_Ok_inv in E as (_ & _ & E). apply Ok_inj in E as <-. prop_bool. pose proof (zlen_nonneg l).
  unfold state_ok, have_all_contributions. cbn [num_contributors next_contributor_index next_contributor_deadline].
  pose proof (flt_add_pos _ _ Ht Hi). rewrite Z.leb_gt. split_and!; lia.
Qed.

Lemma new_server_fresh (h : hstate) (m m' : fs) l (w : World) : exists_file STATE_FILE m = false →
  new_server config server_dir h m = (Ok (l, w), m') →
  initial_server_state config l = Ok (w_state w) ∧ saved w ∧ m' = w_fs w ∧
  w_finalized w = have_all_contributions (w_state w) ∧ w_processing w = false ∧ w_worker w = Idle ∧
  (∀ p, p ≠ state_file_path server_dir → w_fs w !! p = m !! p) ∧
  (j ← read_json (contributors_file config) m; l ← contributors_from_json j; _ ← ensure_validity l; Ok l) = Ok l.
Proof.
  intros Hne E. unfold new_server in E. rewrite Hne in E.
  destruct (read_json (contributors_file config) m ≫= _) as [l'|e] eqn:El; [|done]. destruct (initial_server_state config l') as [s|e] eqn:Es; [|done].
  unfold _write_state_file, bind, gets, on_fs, zoom, f_write, modify in E. cbn [w_state w_fs] in E.
  set (w1 := set_fs _ _) in E. assert (keeps (λ w w' : World, w_state w' = w_state w ∧ w_fs w' = w_fs w)
    (_notify_next_contributor config l')) as Hk.
  { intros x. unfold _notify_next_contributor, bind, gets, lift, modify, ret. destruct (_ || _); [done|].
    by destruct (py_get l' _). }
  specialize (Hk w1). destruct (_notify_next_contributor config l' w1) as [[u|e] w2]; [|done].
  destruct Hk as [Es2 Ef2]. cbn [snd] in Es2, Ef2. injection E as <- <- <-. cbn [w_state w_fs w_finalized w_processing w_worker].
  rewrite Es2, Ef2. unfold saved, w1. cbn [w_state w_fs set_fs set_hfs snd]. split_and!; try done.
  - unfold write_file. by rewrite lookup_insert_eq.
  - intros p Hp. unfold write_file. by rewrite lookup_insert_ne.
Qed.
End start.


(** ** Contributions *)

Section contribute.
Context `{MpcCrypto} `{FloatText} `{InputStreamLaws} `{IContributionHandler}.
Context (config : Configuration) (contributors : ContributorList) (server_dir : str).

(** The processing thread is not touched. *)
Definition quiet (w w' : World) : Prop := w_processing w' = w_processing w ∧ w_worker w' = w_worker w.

(** What an accepted contribution has passed: [s] is the state after the check of
    the deadline. *)
Definition accepted (now : flt) (req : Request) (w w' : World) : Prop :=
  let s := (update (w_state w) now (contribution_interval config)).2 in
  w_state w' = s ∧ have_all_contributions s = false ∧ w_processing w' = true ∧ w_worker w' = Launched ∧
  ∃ c ds ss digest sig data,
    py_get contributors (next_contributor_index s) = Ok c ∧
    headers req !! lit "X-MPC-Public-Key" = Some (export_verification_key (verification_key c)) ∧
    headers req !! lit "X-MPC-Digest" = Some ds ∧ import_digest ds = Ok digest ∧
    headers req !! lit "X-MPC-Signature" = Some ss ∧ import_signature ss = Ok sig ∧
    verify sig (verification_key c) digest = true ∧
    w_fs w' !! upload_file server_dir = Some (CBytes data) ∧ sha512 data = digest.

Lemma upload_spec n b digest req w r w' : upload server_dir n b digest req w = (r, w') →
  same_core w w' ∧ (r = Ok tt → ∃ data, w_fs w' !! upload_file server_dir = Some (CBytes data) ∧ sha512 data = digest).
Proof.
  unfold upload, on_fs, zoom.
  destruct (handle_upload_request n b digest (upload_file server_dir) (req_stream req, w_fs w)) as [r1 [s1 m1]] eqn:E.
  intros [= <- <-]. split; [by unfold same_core|]. intros ->. apply upload_digest in E as [_ Hd].
  destruct (Hd eq_refl) as (data & -> & Hs). exists data. split; [|done]. apply lookup_insert_eq.
Qed.

Ltac head k := unfold bind at 1, header, lift; destruct (headers _ !! lit k) eqn:?E; cbn [of_option];
  [|by intros [= <- <-]; right].

Lemma contribute_spec now req w r w' : _contribute config contributors server_dir now req w = (r, w') →
  (∃ resp, r = Ok resp ∧ status resp = 200 ∧ accepted now req w w') ∨
  (quiet w w' ∧ ∀ resp, r = Ok resp → status resp = 403 ∨ status resp = 405).
Proof.
  unfold _contribute. head "Content-Length". head "Content-Type". head "X-MPC-Digest". head "X-MPC-Public-Key".
  head "X-MPC-Signature".
  unfold bind at 1, lift. destruct (int_of_str 10 _) as [n|]; [|by intros [= <- <-]; right].
  unfold bind at 1, lift. destruct (import_digest _) as [digest|] eqn:Ed; [|by intros [= <- <-]; right].
  unfold bind at 1, lift. destruct (import_signature _) as [sig|] eqn:Es; [|by intros [= <- <-]; right].
  set (bd := find_boundary _). unfold bind at 1, raise_when.
  destruct (bool_decide (bd = [])); [by intros [= <- <-]; right|]. cbn [ret].
  unfold bind at 1. destruct (_update_state config contributors server_dir now w) as [[u|e] w1] eqn:Eu;
    apply update_state_spec in Eu as (Eu1 & Eu2 & Eu3 & _);
    [|intros [= <- <-]; right; split; [by split | done]].
  unfold bind at 1, gets. rewrite Eu1. set (s := (update _ _ _).2) in *.
  destruct (have_all_contributions s) eqn:Eh; [intros [= <- <-]; right; split; [by split | by intros ? [= <-]; right]|].
  unfold bind at 1, lift. destruct (py_get contributors _) as [c|e] eqn:Ec;
    [|intros [= <- <-]; right; split; [by split | done]].
  case_bool_decide as Ek; cbn [negb]; [|intros [= <- <-]; right; split; [by split | by intros ? [= <-]; left]].
  destruct (verify sig (verification_key c) digest) eqn:Ev; cbn [negb];
    [|intros [= <- <-]; right; split; [by split | by intros ? [= <-]; left]].
  unfold bind at 1. rewrite remove_upload_spec. set (w2 := set_fs _ w1).
  unfold bind at 1. destruct (upload server_dir n bd digest req w2) as [[v|e] w3] eqn:Eup;
    apply upload_spec in Eup as [(Q1 & Q2 & Q3 & _) Hd];
    [|intros [= <- <-]; right; split; [by split; [rewrite Q2 | rewrite Q3] | done]].
  destruct v, (Hd eq_refl) as (data & Hfile & Hdig). intros [= <- <-]. left. eexists. split; [reflexivity|].
  split; [done|]. unfold accepted. fold s. split_and!; try done; [by rewrite <- Eu1|].
  rewrite <- Ek in *. by exists c, l1, l3, digest, sig, data.
Qed.
End contribute.

(** C29: the answer to a contribution: while another one is processed it is 503 and
    nothing changes.  Otherwise it is 200 exactly when the processing of the upload
    was started, which happens only while turns remain and only if the request
    carries the key of the contributor whose turn it is, a digest with a signature
    that verifies under that key, and a body whose data, now in the upload file, has
    that digest; every other request gets 400, 403 or 405 and starts nothing.  The
    server never lets an exception through. *)
Theorem contribute_authorised `{MpcCrypto} `{FloatText} `{InputStreamLaws} `{IContributionHandler}
    config contributors server_dir now req (w : World) (Hinv : server_inv contributors w) :
  ∃ resp w', handle config contributors server_dir EContribute now req w = (Ok resp, w') ∧
    if w_processing w then status resp = 503 ∧ w' = w
    else (status resp = 200 ∧ accepted config contributors server_dir now req w w') ∨
         ((status resp = 400 ∨ status resp = 403 ∨ status resp = 405) ∧ w_processing w' = false ∧ w_worker w' = Idle).
Proof.
  rewrite handle_spec. destruct (w_processing w) eqn:Ep; [by do 2 eexists|]. cbn [callback].
  assert (w_worker w = Idle) as Hidle.
  { destruct (w_worker w) eqn:Ek; [done|..]; exfalso;
      assert (w_processing w = true) by (apply Hinv; by rewrite Ek); congruence. }
  destruct (_contribute config contributors server_dir now req w) as [[resp|e] w'] eqn:E;
    (eexists _, w'; split; [reflexivity|]); apply contribute_spec in E as [(resp' & Er & Hs & Ha)|[[Hq1 Hq2] Hr]].
  - left. injection Er as <-. done.
  - right. rewrite Hq1, Hq2. destruct (Hr _ eq_refl); auto.
  - done.
  - right. rewrite Hq1, Hq2. auto.
Qed.

(** ** Processing *)


(** ** Time *)

(** The interval thread at times [ts]. *)
Fixpoint ticks `{MpcCrypto} `{FloatText} `{IContributionHandler} config contributors server_dir (ts : list flt) (w : World) : World :=
  match ts with
  | [] => w
  | t :: ts => ticks config contributors server_dir ts (run_tick config contributors server_dir t w).2
  end.

(** Each time is at or after the deadline that the previous one set. *)
Fixpoint overdue (interval deadline : flt) (ts : list flt) : Prop :=
  match ts with
  | [] => True
  | t :: ts => 0 < t ∧ deadline ≤ t ∧ overdue interval (flt_add t interval) ts
  end.

(** A tick at or after the deadline moves to the next contributor. *)
Lemma tick_advances `{MpcCrypto} `{FloatText} `{IContributionHandler} config contributors server_dir t (w : World) :
  server_inv contributors w → next_contributor_index (w_state w) < zlen contributors →
  next_contributor_deadline (w_state w) ≤ t →
  let w' := (run_tick config contributors server_dir t w).2 in
  w_state w' = _next_contributor (w_state w) (flt_add t (contribution_interval config)).
Proof.
  intros [Hs _ _] Hlt Hd. destruct (run_tick config contributors server_dir t w) as [r w'] eqn:E.
  apply update_state_spec in E as (E & _). cbn [snd]. rewrite E. unfold update.
  destruct Hs as (_ & _ & _ & Hpos). specialize (Hpos Hlt).
  destruct (_ || _) eqn:Ec; [|done]. apply orb_true_iff in Ec as [Ec|Ec]; prop_bool; lia.
Qed.

(** A run ends even if nobody contributes: after one tick at or past each
    deadline for every remaining contributor, all turns are over, the deadline is
    zero and the handler was told, whatever the handler did or raised. *)
Theorem timeouts_complete `{MpcCrypto} `{FloatText} `{IContributionHandler} config contributors server_dir ts (w : World)
    (Hi : 0 ≤ contribution_interval config) (Hinv : server_inv contributors w)
    (Hdue : overdue (contribution_interval config) (next_contributor_deadline (w_state w)) ts)
    (Hmany : zlen contributors - next_contributor_index (w_state w) ≤ zlen ts) :
  let w' := ticks config contributors server_dir ts w in
  next_contributor_index (w_state w') = zlen contributors ∧ next_contributor_deadline (w_state w') = 0 ∧
  w_finalized w' = true.
Proof.
  enough (server_inv contributors (ticks config contributors server_dir ts w) ∧
    next_contributor_index (w_state (ticks config contributors server_dir ts w)) = zlen contributors) as [[Hs Hf _] Hn].
  { cbn zeta. split; [done|]. split; [by apply Hs|]. rewrite Hf. by apply (have_all_spec _ _ Hs). }
  revert w Hinv Hdue Hmany. induction ts as [|t ts IH]; intros w Hinv Hdue Hmany; cbn [ticks].
  - split; [done|]. destruct Hinv as [(_ & Hr & _) _ _]. change (zlen (@nil flt)) with 0 in Hmany. lia.
  - destruct Hdue as (Ht & Hd & Hdue). pose proof (evolves_update _ _ server_dir Hi t Ht w Hinv) as [Hinv' Hle].
    change (_update_state config contributors server_dir t) with (run_tick config contributors server_dir t) in *.
    assert (zlen (t :: ts) = 1 + zlen ts) as Hz by (unfold zlen; cbn [length]; lia).
    destruct (Z.lt_ge_cases (next_contributor_index (w_state w)) (zlen contributors)) as [Hlt|Hge].
    + pose proof (tick_advances config _ server_dir t w Hinv Hlt Hd) as Es. cbn zeta in Es.
      apply IH; [done| |rewrite Es; cbn; lia]. rewrite Es. unfold _next_contributor. cbn [next_contributor_deadline].
      case_match; [|done]. destruct ts as [|t' ts']; [done|]. destruct Hdue as (Ht' & _ & Hdue).
      split; [done|]. split; [lia | done].
    + destruct Hinv' as [(Hn' & Hr' & Hend' & Hp') Hf' Hw'].
      apply IH; [by split| |pose proof (zlen_nonneg ts); lia]. rewrite Hend' by lia.
      destruct ts as [|t' ts']; [done|]. destruct Hdue as (Ht' & _ & Hdue). split; [done|]. split; [lia | done].
Qed.

(** ** Restarts *)

Lemma norm_fuel_last n p c : last p = Some c → c ≠ "/"%char → last (norm_fuel n p) = Some c.
Proof.
  revert p. induction n as [|n IH]; intros p Hl Hc; cbn [norm_fuel]; [done|].
  destruct (startswith (lit "./") p) eqn:E; [|done]. apply IH; [|done].
  apply bool_decide_eq_true in E. assert (p = lit "./" ++ drop 2 p) as Hp.
  { rewrite <- E at 1. symmetry. apply take_drop. }
  revert Hl. rewrite Hp at 1. generalize (drop 2 p). intros q Hl. clear p E Hp.
  destruct (decide (q = [])) as [->|Hq]; [by cbn in Hl; injection Hl as <-|].
  rewrite last_app in Hl. by destruct (last q) eqn:El; [|apply last_None in El].
Qed.

Lemma path_join_last dir name c : last name = Some c → c ≠ "/"%char → last (path_join dir name) = Some c.
Proof.
  intros Hl Hc. unfold path_join. repeat case_match; rewrite ?last_app, ?last_cons, ?Hl; done.
Qed.

(** The two files of the server are different, whatever its directory is. *)
Lemma upload_not_state server_dir : upload_file server_dir ≠ state_file_path server_dir.
Proof.
  intros E. apply (f_equal last) in E. unfold upload_file, state_file_path, norm in E.
  rewrite (norm_fuel_last _ _ "w"%char), (norm_fuel_last _ _ "n"%char) in E; [done|..]; try done;
    by apply path_join_last.
Qed.

Section restart.
Context `{MpcCrypto} `{FloatText} `{InputStreamLaws} `{IContributionHandler}.
Context (config : Configuration) (contributors : ContributorList) (server_dir : str) (p : str).
Context (Hup : upload_file server_dir ≠ p) (Hsp : state_file_path server_dir ≠ p).
Context `{!HandlerKeeps p} `{!HandlerKeeps (state_file_path server_dir)}.

(** State, state file and the file [p] are left alone. *)
Definition same_disk (w w' : World) : Prop :=
  w_state w' = w_state w ∧ w_fs w' !! p = w_fs w !! p ∧
  w_fs w' !! state_file_path server_dir = w_fs w !! state_file_path server_dir.

(** The file [p] is left alone, and the state stays saved as long as turns remain. *)
Definition disk (w w' : World) : Prop :=
  w_fs w' !! p = w_fs w !! p ∧
  ((have_all_contributions (w_state w) = false → saved server_dir w) →
   have_all_contributions (w_state w') = false → saved server_dir w').

#[local] Instance disk_refl : Reflexive disk.
Proof. by split. Qed.
#[local] Instance disk_trans : Transitive disk.
Proof. intros x y z [? Hxy] [? Hyz]. split; [congruence | auto]. Qed.

Lemma disk_same w w' : same_disk w w' → disk w w'.
Proof. intros (Es & Ep & Ef). split; [done|]. unfold saved. rewrite Es, Ef. auto. Qed.

Lemma disk_on_handler {A : Type} (m : SM (hstate * fs) A) :
  keeps (same_file p) m → keeps (same_file (state_file_path server_dir)) m → keeps disk (on_handler m).
Proof.
  intros Hk1 Hk2 w. apply disk_same. specialize (Hk1 (w_handler w, w_fs w)). specialize (Hk2 (w_handler w, w_fs w)).
  unfold on_handler, zoom. by destruct (m (w_handler w, w_fs w)).
Qed.

Lemma disk_remove_upload : keeps disk (remove_upload server_dir).
Proof.
  intros w. rewrite remove_upload_spec. apply disk_same. unfold same_disk. cbn. split; [done|].
  pose proof (upload_not_state server_dir). by rewrite !lookup_delete_ne.
Qed.

Lemma disk_upload n b digest req : keeps disk (upload server_dir n b digest req).
Proof.
  intros w. unfold upload, on_fs, zoom.
  destruct (handle_upload_request n b digest (upload_file server_dir) (req_stream req, w_fs w)) as [r1 [s1 m1]] eqn:E.
  apply upload_digest in E as [Hf _]. apply disk_same. unfold same_disk. cbn. pose proof (upload_not_state server_dir).
  by rewrite !Hf by done.
Qed.

Lemma notify_disk : keeps disk (_notify_next_contributor config contributors).
Proof.
  intros w. apply disk_same. unfold _notify_next_contributor, bind, gets, lift, modify, ret.
  destruct (_ || _); [done|]. by destruct (py_get contributors _).
Qed.

(** After a turn the state is saved, unless it was the last one. *)
Lemma next_contributor_disk w r w' : _on_next_contributor config contributors server_dir w = (r, w') →
  w_fs w' !! p = w_fs w !! p ∧ (have_all_contributions (w_state w') = false → saved server_dir w').
Proof.
  intros E. pose proof (next_contributor_spec _ _ _ _ _ _ E) as (Es & _). unfold _on_next_contributor, bind at 1 in E.
  destruct (_finalize_handler_once w) as [r1 w1] eqn:E1.
  assert (w_fs w1 !! p = w_fs w !! p) as Hp1.
  { unfold _finalize_handler_once, bind, gets in E1. destruct (_ && _); [|by injection E1 as _ <-].
    pose proof (disk_on_handler on_completed keeps_completed keeps_completed (set_finalized w)) as [Hk _].
    unfold modify in E1. rewrite E1 in Hk. exact Hk. }
  destruct r1 as [u|e].
  - unfold bind, _write_state_file at 1 in E. unfold bind, gets, on_fs, zoom, f_write, modify in E.
    set (w2 := set_fs _ w1) in E. pose proof (notify_disk w2) as [Hp2 Hs2]. rewrite E in Hp2, Hs2. cbn [snd] in *.
    split; [rewrite Hp2; unfold w2; cbn; unfold write_file; by rewrite lookup_insert_ne|].
    apply Hs2. intros _. unfold saved, w2. cbn. apply lookup_insert_eq.
  - injection E as _ <-. split; [done|]. rewrite Es. intros Hn. unfold _finalize_handler_once, bind, gets in E1.
    by rewrite Hn, andb_false_r in E1.
Qed.

Lemma disk_update now : keeps disk (_update_state config contributors server_dir now).
Proof.
  intros w. unfold _update_state, bind at 1, gets, update.
  destruct (_ || _).
  - unfold bind, modify, ret. apply disk_same. by destruct w.
  - unfold bind, modify. set (w1 := set_wstate _ w). destruct (_on_next_contributor _ _ _ w1) as [r w'] eqn:E.
    apply next_contributor_disk in E as [Hp Hs]. by split.
Qed.

Lemma disk_same_fs {A : Type} (m : SM World A) : (∀ w, w_fs (m w).2 = w_fs w ∧ w_state (m w).2 = w_state w) → keeps disk m.
Proof. intros Hm w. apply disk_same. unfold same_disk. by destruct (Hm w) as [-> ->]. Qed.

Ltac disks :=
  repeat first
    [ apply disk_update | apply disk_remove_upload | apply disk_upload
    | apply disk_on_handler; apply keeps_challenge
    | apply keeps_bind; [apply _ | | intros ?]
    | apply keeps_ret; apply _ | apply keeps_lift; apply _ | apply keeps_gets; apply _
    | apply keeps_raise_when; apply _
    | apply disk_same_fs; done
    | case_match ].

Lemma disk_handle e now req : keeps disk (handle config contributors server_dir e now req).
Proof.
  intros w. rewrite handle_spec. destruct (w_processing w); [apply disk_refl|].
  assert (keeps disk (callback config contributors server_dir e now req)) as Hk.
  { destruct e; [unfold callback, _contributors | unfold callback, _state | unfold callback, _challenge
                | unfold callback, _contribute, header]; disks. }
  specialize (Hk w). by destruct (callback _ _ _ e now req w) as [[r|x] w1].
Qed.

Lemma disk_process_end now o w : disk w (process_end config contributors server_dir now o (set_worker Idle w)).2.
Proof.
  unfold process_end, try_finally. set (m := match o with Ok true => _ | _ => _ end).
  assert (disk w (m (set_worker Idle w)).2) as Hm.
  { unfold m. destruct o as [[|]|e]; [|by split..]. unfold _on_contribution, bind at 1 2, gets, lift, received_contribution.
    destruct (negb _); cbn [py_assert mbind result_bind]; [|by split]. unfold bind, modify.
    set (w1 := set_wstate _ _). destruct (_on_next_contributor _ _ _ w1) as [r w'] eqn:E.
    apply next_contributor_disk in E as [Hp Hs]. by split. }
  destruct (m (set_worker Idle w)) as [r w1]. cbn [snd] in Hm. rewrite cleanup_spec. cbn [snd]. etrans; [exact Hm|].
  apply disk_same. unfold same_disk. cbn. split; [done|]. pose proof (upload_not_state server_dir).
  by rewrite !lookup_delete_ne.
Qed.

Lemma step_disk w w' : step config contributors server_dir w w' → disk w w'.
Proof.
  intros Hstep. inversion Hstep as [e now req w0 r w1 Hnow E|now w0 r w1 Hnow E|w0 r w1 Hk E|now w0 o r w1 Hnow Hk E]; subst.
  - pose proof (disk_handle e now req w) as Hp. by rewrite E in Hp.
  - pose proof (disk_update now w) as Hp. unfold run_tick in E. by rewrite E in Hp.
  - assert (keeps disk (process_begin server_dir)) as Hd; [|specialize (Hd w); by rewrite E in Hd].
    unfold process_begin. apply keeps_bind; [apply _ | apply keeps_gets, _ |]. intros s x.
    pose proof (disk_on_handler _ (keeps_process (next_contributor_index s) _ Hup)
      (keeps_process (next_contributor_index s) _ (upload_not_state server_dir)) x) as Hd.
    destruct (on_handler _ x). exact Hd.
  - pose proof (disk_process_end now o w) as Hp. by rewrite E in Hp.
Qed.

Lemma steps_disk w w' : steps config contributors server_dir w w' → disk w w'.
Proof. induction 1 as [w|w1 w2 w3 H12 _ IH]; [done|]. etrans; [by apply step_disk | done]. Qed.
End restart.

(** A first start without mail saves the initial state. *)
Lemma new_server_initial `{MpcCrypto} `{FloatText} `{IContributionHandler} (config : Configuration)
    (server_dir : str) (h : hstate) (m : fs) (l : ContributorList) (s : ServerState) :
  (j ← read_json (contributors_file config) m; l ← contributors_from_json j; _ ← ensure_validity l; Ok l) = Ok l →
  exists_file STATE_FILE m = false → initial_server_state config l = Ok s → opt_truth (email_server config) = false →
  let m' := write_file (state_file_path server_dir) (CJson (server_state_to_json s)) m in
  new_server config server_dir h m = (Ok (l, mkWorld s false Idle (have_all_contributions s) h m' []), m').
Proof.
  intros El Hne Es Hm. cbn zeta. unfold new_server. rewrite El, Hne, Es.
  unfold bind, _write_state_file at 1. unfold bind, gets, on_fs, zoom, f_write, modify. cbn [w_state].
  unfold _notify_next_contributor, bind, gets. rewrite Hm. by rewrite orb_true_r.
Qed.

(** The start reads the state file of the working directory, if there is one. *)
Lemma new_server_existing `{MpcCrypto} `{FloatTextLaws} `{IContributionHandler} (config : Configuration)
    (server_dir : str) (h : hstate) (m : fs) (l : ContributorList) (s : ServerState) :
  (j ← read_json (contributors_file config) m; l ← contributors_from_json j; _ ← ensure_validity l; Ok l) = Ok l →
  m !! STATE_FILE = Some (CJson (server_state_to_json s)) → num_contributors s ≠ 0 →
  new_server config server_dir h m = (Ok (l, mkWorld s false Idle (have_all_contributions s) h m []), m).
Proof.
  intros El Es Hn. unfold new_server. rewrite El.
  assert (exists_file STATE_FILE m = true) as -> by (apply exists_file_true; by rewrite Es).
  unfold read_json at 1, read_file. rewrite Es. cbn [of_option mbind result_bind].
  by rewrite server_state_roundtrip.
Qed.

Lemma server_dir_here server_dir : server_dir = [] ∨ server_dir = lit "." →
  state_file_path server_dir = STATE_FILE ∧ upload_file server_dir = UPLOAD_FILE.
Proof. by intros [-> | ->]. Qed.

(** C32: with the working directory as server directory and a handler that leaves
    the state file and the contributors file alone, the server can be stopped in any
    state it reaches while turns remain and started again: it resumes with the same
    contributors, index and deadline, ready for requests.  The state was saved
    before any other step could follow. *)
Theorem restart_resumes `{MpcCrypto} `{FloatTextLaws} `{InputStreamLaws} `{IContributionHandler} (config : Configuration)
    (server_dir : str) (h h' : hstate) (m m' : fs) (l : ContributorList) (w w' : World)
    (Ht : 0 < start_time_utc config) (Hi : 0 ≤ contribution_interval config)
    (Hfresh : exists_file STATE_FILE m = false) (Hstart : new_server config server_dir h m = (Ok (l, w), m'))
    (Hdir : server_dir = [] ∨ server_dir = lit ".")
    (Hcf : contributors_file config ≠ STATE_FILE ∧ contributors_file config ≠ UPLOAD_FILE)
    (Hk1 : HandlerKeeps (contributors_file config)) (Hk2 : HandlerKeeps STATE_FILE)
    (Hrun : steps config l server_dir w w') (Hturn : have_all_contributions (w_state w') = false) :
  new_server config server_dir h' (w_fs w') = (Ok (l, mkWorld (w_state w') false Idle false h' (w_fs w') []), w_fs w').
Proof.
  destruct (server_dir_here _ Hdir) as [Hsf Huf]. destruct Hcf as [Hc1 Hc2].
  apply new_server_fresh in Hstart as (Es & Hsaved & _ & Ef & Ep & Ek & Hfr & El); [|done].
  destruct (initial_state_ok _ _ _ Ht Hi Es) as [Hok _].
  destruct (steps_evolves _ _ _ Hi _ _ Hrun) as [[(Hn & Hidx & _) _ _] _]; [by split; [done | done | rewrite Ep, Ek]|].
  assert (disk server_dir (contributors_file config) w w') as [Hcf Hsv].
  { eapply steps_disk; [by rewrite Huf | by rewrite Hsf | done | by rewrite Hsf | done]. }
  specialize (Hsv (λ _, Hsaved) Hturn). unfold saved in Hsv. rewrite Hsf in *.
  rewrite (new_server_existing config server_dir h' (w_fs w') l (w_state w')); [by rewrite Hturn| |done|].
  - rewrite <- El. unfold read_json, read_file. by rewrite Hcf, Hfr.
  - unfold have_all_contributions in Hturn. prop_bool. rewrite Hn in *. lia.
Qed.

(** With another server directory the state is saved there and looked for in the
    working directory: the server starts from the first contributor again. *)
Theorem restart_elsewhere `{MpcCrypto} `{FloatText} `{InputStreamLaws} `{IContributionHandler} (config : Configuration)
    (server_dir : str) (h h' : hstate) (m m' : fs) (l : ContributorList) (w w' : World)
    (Hfresh : exists_file STATE_FILE m = false) (Hstart : new_server config server_dir h m = (Ok (l, w), m'))
    (Hdir : state_file_path server_dir ≠ STATE_FILE ∧ upload_file server_dir ≠ STATE_FILE)
    (Hcf : contributors_file config ≠ state_file_path server_dir ∧ contributors_file config ≠ upload_file server_dir)
    (Hk1 : HandlerKeeps (contributors_file config)) (Hk2 : HandlerKeeps (state_file_path server_dir))
    (Hk3 : HandlerKeeps STATE_FILE) (Hrun : steps config l server_dir w w') :
  ∃ w2 m2, new_server config server_dir h' (w_fs w') = (Ok (l, w2), m2) ∧ w_state w2 = w_state w.
Proof.
  apply new_server_fresh in Hstart as (Es & _ & _ & _ & _ & _ & Hfr & El); [|done]. destruct Hdir as [Hd1 Hd2], Hcf as [Hc1 Hc2].
  assert (w_fs w' !! contributors_file config = m !! contributors_file config) as Hcf.
  { rewrite <- Hfr by done. eapply (steps_disk config l server_dir); done. }
  assert (w_fs w' !! STATE_FILE = m !! STATE_FILE) as Hst.
  { rewrite <- Hfr by done. eapply (steps_disk config l server_dir); done. }
  assert ((j ← read_json (contributors_file config) (w_fs w'); l ← contributors_from_json j; _ ← ensure_validity l; Ok l) = Ok l) as El'.
  { rewrite <- El. unfold read_json, read_file. by rewrite Hcf. }
  unfold new_server. rewrite El'. assert (exists_file STATE_FILE (w_fs w') = false) as ->.
  { apply exists_file_false. rewrite Hst. by apply exists_file_false. }
  rewrite Es. unfold bind, _write_state_file at 1. unfold bind, gets, on_fs, zoom, f_write, modify. cbn [w_state].
  set (w1 := set_fs _ _). assert (∃ w2, _notify_next_contributor config l w1 = (Ok tt, w2) ∧ w_state w2 = w_state w) as (w2 & -> & Hw2).
  { unfold _notify_next_contributor, bind, gets, lift, modify, ret. cbn [w1 w_state set_fs set_hfs].
    destruct (have_all_contributions (w_state w)) eqn:Eh; [by eexists|]. destruct (negb _); [by eexists|]. cbn [orb].
    unfold initial_server_state, new_ServerState in Es. do 2 apply bind_Ok_inv in Es as (_ & _ & Es).
    apply bind_Ok_inv in Es as ([] & Ha & Es). apply bind_Ok_inv in Es as (_ & _ & Es). apply Ok_inj in Es.
    rewrite <- Es. cbn [next_contributor_index num_contributors]. destruct l as [|c l]; [done|]. by eexists. }
  do 2 eexists. split; [reflexivity|]. done.
Qed.

(** ** The interval thread during processing *)

Lemma process_end_index `{MpcCrypto} `{FloatText} `{IContributionHandler} config contributors server_dir now (w : World) :
  have_all_contributions (w_state w) = false →
  next_contributor_index (w_state (process_end config contributors server_dir now (Ok true) (set_worker Idle w)).2) =
    next_contributor_index (w_state w) + 1.
Proof.
  intros Hn. destruct (process_end _ _ _ now (Ok true) (set_worker Idle w)) as [r w'] eqn:E. apply process_end_spec in E.
  cbn zeta in E. rewrite Hn in E. destruct E as (E & _). cbn [snd]. by rewrite E.
Qed.

(** The interval thread checks the deadline also while an accepted contribution
    is processed, unlike the method [_tick], which nothing calls.  If the deadline
    passes during the processing, the tick and the end of the processing both
    advance the index: the contribution was in time and is accepted, but the next
    contributor loses the turn.  With [_tick] in place of the interval function the
    turn goes to that contributor. *)
Theorem tick_during_processing `{MpcCrypto} `{FloatText} `{IContributionHandler} config contributors server_dir now t (w : World)
    (Hinv : server_inv contributors w) (Hproc : w_worker w = Processed (Ok true))
    (Hmore : next_contributor_index (w_state w) + 1 < zlen contributors)
    (Hdue : next_contributor_deadline (w_state w) ≤ t) :
  let finish w1 := (process_end config contributors server_dir now (Ok true) (set_worker Idle w1)).2 in
  next_contributor_index (w_state (finish (run_tick config contributors server_dir t w).2)) =
    next_contributor_index (w_state w) + 2 ∧
  next_contributor_index (w_state (finish (_tick config contributors server_dir t w).2)) =
    next_contributor_index (w_state w) + 1.
Proof.
  cbn zeta. pose proof (tick_advances config _ server_dir t w Hinv ltac:(lia) Hdue) as Es. cbn zeta in Es.
  pose proof Hinv as [(Hn & _) _ Hw].
  assert (∀ s, next_contributor_index s < zlen contributors → num_contributors s = zlen contributors →
    have_all_contributions s = false) as Hall.
  { intros s Hlt Hns. unfold have_all_contributions. rewrite Hns. apply Z.leb_gt. lia. }
  split.
  - rewrite process_end_index, Es; [cbn; lia|]. apply Hall; rewrite Es; [cbn; lia | done].
  - assert (_tick config contributors server_dir t w = (Ok tt, w)) as ->.
    { unfold _tick, bind, gets. rewrite (proj2 Hw) by by rewrite Hproc. done. }
    apply process_end_index. apply Hall; [cbn; lia | done].
Qed.

(** ** A concrete run

    Two contributors and the null handler; times are seconds. *)

Module CoordinatorSample.
#[local] Existing Instance UploadSample.toy_crypto.
#[local] Existing Instance UploadSample.small_stream.
#[local] Existing Instance UploadSample.small_stream_laws.
#[local] Existing Instance null_handler.
#[local] Existing Instance ConfigSample.float_text.
#[local] Existing Instance ConfigSample.float_text_laws.

Definition contributor (k : Byte.byte) : Contributor :=
  mkContributor (lit "a@b.c") k (match create_key_evidence k with Ok e => e | Err _ => [] end).
Definition config : Configuration :=
  mkConfiguration (lit "contributors.json") (secs 1000) (secs 100) (lit "key.pem") (lit "cert.pem") 8080 None None None.
Definition people : ContributorList := [contributor Byte.x01; contributor Byte.x02].
Definition files : fs := {[ lit "contributors.json" := CJson (contributors_to_json people) ]}.

Definition first_state : ServerState := mkServerState 0 2 (secs 1100).
Definition start_fs : fs := write_file STATE_FILE (CJson (server_state_to_json first_state)) files.
Definition w0 : World := mkWorld first_state false Idle false (tt : hstate) start_fs [].

Lemma started : new_server config (lit ".") (tt : hstate) files = (Ok (people, w0), start_fs).
Proof.
  apply (@new_server_initial _ _ null_handler config (lit ".") tt files people first_state); [|reflexivity..].
  vm_cast_no_check (eq_refl (Ok people)).
Qed.
Lemma server_inv0 : server_inv people w0.
Proof. split; [|done|done]. split; [done|]. split; [done|]. by split. Qed.

(** A request of the first contributor. *)
Definition digest : bytes := sha512 UploadSample.data.
Definition request : Request := {|
  headers := {[ lit "Content-Length" := lit "20"; lit "Content-Type" := lit "multipart/form-data; boundary=x";
                lit "X-MPC-Digest" := hex digest; lit "X-MPC-Public-Key" := export_verification_key Byte.x01;
                lit "X-MPC-Signature" := hex (sign Byte.x01 digest) ]};
  req_stream := UploadSample.request
|}.

Definition w1 : World := (handle config people (lit ".") EContribute (secs 1050) request w0).2.
Definition w2 : World := (process_begin (lit ".") w1).2.

Lemma handled : (handle config people (lit ".") EContribute (secs 1050) request w0).1 = Ok (mkResponse 200 (BText "OK")).
Proof. vm_compute. reflexivity. Qed.

Lemma server_inv1 : server_inv people w1.
Proof. apply (evolves_handle config people (lit ".") ltac:(unfold config, secs; cbn; lia)); [unfold secs; lia | exact server_inv0]. Qed.

Lemma step1 : step config people (lit ".") w0 w1.
Proof. eapply (step_request _ _ _ EContribute (secs 1050) request); [unfold secs; lia | apply surjective_pairing]. Qed.


Lemma contribute_authorised_witness :
  accepted config people (lit ".") (secs 1050) request w0 w1 ∧ w_worker w1 = Launched.
Proof.
  destruct (contribute_authorised config people (lit ".") (secs 1050) request w0 server_inv0) as (resp & w' & E & Hc).
  pose proof handled as Hh. assert (w' = w1) as -> by (unfold w1; by rewrite E).
  rewrite E in Hh. apply Ok_inj in Hh as ->. destruct Hc as [[_ Ha]|[[Hs|[Hs|Hs]] _]]; [|discriminate Hs..].
  split; [exact Ha|]. apply Ha.
Defined.


Lemma timeouts_complete_witness :
  next_contributor_index (w_state (ticks config people (lit ".") [secs 1100; secs 1200] w0)) = zlen people.
Proof.
  refine (proj1 (timeouts_complete config people (lit ".") [secs 1100; secs 1200] w0 _ server_inv0 _ _)).
  - unfold config, secs. cbn. lia.
  - split; [unfold secs; lia|]. split; [apply Z.le_refl|]. split; [unfold secs; lia|]. split; [|exact I].
    apply (bool_decide_unpack _). vm_compute. exact I.
  - apply (bool_decide_unpack _). vm_compute. exact I.
Defined.

Lemma restart_resumes_witness :
  new_server config (lit ".") (tt : hstate) (w_fs w1) = (Ok (people, mkWorld (w_state w1) false Idle false (tt : hstate) (w_fs w1) []), w_fs w1).
Proof.
  eapply (@restart_resumes _ _ _ _ _ null_handler config (lit ".") tt tt files start_fs people w0 w1);
    [unfold config, secs; cbn; lia | unfold config, secs; cbn; lia | reflexivity | exact started | by right
    | by split | by apply null_handler_keeps | by apply null_handler_keeps
    | exact (steps_step _ _ _ _ _ _ step1 (steps_refl _ _ _ _)) | vm_compute; reflexivity].
Defined.

Lemma server_inv2 : server_inv people w2.
Proof.
  apply (step_evolves config people (lit ".") ltac:(unfold config, secs; cbn; lia) w1 w2); [|exact server_inv1].
  eapply step_begin; [vm_compute; reflexivity | apply surjective_pairing].
Qed.

Lemma tick_during_processing_witness :
  let finish w := (process_end config people (lit ".") (secs 1160) (Ok true) (set_worker Idle w)).2 in
  next_contributor_index (w_state (finish (run_tick config people (lit ".") (secs 1150) w2).2)) =
    next_contributor_index (w_state w2) + 2.
Proof.
  refine (proj1 (tick_during_processing config people (lit ".") (secs 1160) (secs 1150) w2 server_inv2 _ _ _)).
  - vm_compute. reflexivity.
  - vm_compute. reflexivity.
  - apply (bool_decide_unpack _). vm_compute. exact I.
Defined.
End CoordinatorSample.
