(* ===== verification/Client.v ===== *)
(** * The contributor's side ([mpc/coordinator/client.py] and [contribute.py])

    The client polls the server until it is not busy, waits for its turn, downloads
    the challenge, and uploads a signed response.  The HTTP library is third-party
    code: a list of replies in the order they arrive, and the class [HttpPost] for
    the request that carries a file, whose laws are the multipart format. *)

From Stdlib Require Import ZArith Lia Ascii String Strings.Byte.
From stdpp Require Import base tactics list gmap strings.
From S2P Require Import Prelude PyStr PyBytes PyIO PyState MpcState MpcConfig Upload Handlers Server ServerFacts Coordinator.

Local Open Scope Z_scope.
Local Open Scope sm_scope.

Definition SEND_CHUNK_SIZE : Z := 4096.

(** ** Replies *)

Inductive Payload : Type := PText (s : string) | PJson (j : json) | PBytes (b : bytes).
Record Reply : Type := mkReply { code : Z; payload : Payload }.

(** [produce_file_chunks] of [_challenge]: the file in chunks until an empty read. *)
Fixpoint produce_file_chunks (fuel : nat) (rest : bytes) : list bytes :=
  match fuel with
  | O => []
  | S fuel =>
      match take (Z.to_nat SEND_CHUNK_SIZE) rest with
      | [] => []
      | buf => buf :: produce_file_chunks fuel (drop (Z.to_nat SEND_CHUNK_SIZE) rest)
      end
  end.

(** A response as it reaches the client; a file is streamed from the server's
    directory. *)
Definition deliver (m : fs) (r : Response) : result Reply :=
  match body r with
  | BText s => Ok (mkReply (status r) (PText s))
  | BJson j => Ok (mkReply (status r) (PJson j))
  | BFile p =>
      c ← read_file p m;
      match c with
      | CBytes b => Ok (mkReply (status r) (PBytes (concat (produce_file_chunks (S (length b)) b))))
      | _ => Err TypeError
      end
  end.

(** [resp.raise_for_status()] *)
Definition raise_for_status (r : Reply) : result Reply :=
  _ ← raise_if ((400 <=? code r) && (code r <? 600)) (Exception "HTTPError"); Ok r.

(** The loop of every request: retry on 503.  [None] while no other reply has come. *)
Fixpoint poll (rs : list Reply) : option (result Reply * list Reply) :=
  match rs with
  | [] => None
  | r :: rs => if code r =? 503 then poll rs else Some (raise_for_status r, rs)
  end.

Definition reply_json (r : Reply) : result json := match payload r with PJson j => Ok j | _ => Err ValueError end.

Section client.
Context `{MpcCrypto} `{FloatText}.

Definition on_reply {A : Type} (f : Reply → result A) (rs : list Reply) : option (result A * list Reply) :=
  match poll rs with
  | None => None
  | Some (r, rs) => Some (r ≫= f, rs)
  end.

Definition get_contributors : list Reply → option (result ContributorList * list Reply) :=
  on_reply (λ r, j ← reply_json r; contributors_from_json j).
Definition get_state : list Reply → option (result ServerState * list Reply) :=
  on_reply (λ r, j ← reply_json r; server_state_from_json j).

(** [get_challenge]: the chunks are written to the file. *)
Definition get_challenge (challenge_file : str) (m : fs) : list Reply → option (result fs * list Reply) :=
  on_reply (λ r, match payload r with
                 | PBytes b => Ok (write_file challenge_file (CBytes b) m)
                 | _ => Err ValueError
                 end).

(** ** Waiting *)

(** The loop of [wait_for_turn]; every iteration takes a reply. *)
Fixpoint wait_loop (fuel : nat) (our_idx : option Z) (rs : list Reply) : option (result unit * list Reply) :=
  match fuel with
  | O => None
  | S fuel =>
      match get_state rs with
      | None => None
      | Some (Err e, rs) => Some (Err e, rs)
      | Some (Ok state, rs) =>
          let current_index := next_contributor_index state in
          match our_idx with
          | None => Some (Err (Exception "contributor is not in the server list"), rs)
          | Some our_idx =>
              if our_idx <? current_index then Some (Err (Exception "contributor turn has passed"), rs)
              else if our_idx =? current_index then Some (Ok tt, rs)
              else wait_loop fuel (Some our_idx) rs
          end
      end
  end.

Definition wait_for_turn (vk : VerificationKey) (rs : list Reply) : option (result unit * list Reply) :=
  match get_contributors rs with
  | None => None
  | Some (Err e, rs) => Some (Err e, rs)
  | Some (Ok contributors, rs) => wait_loop (S (length rs)) (get_contributor_index contributors vk) rs
  end.

(** ** Uploading *)

Context `{InputStream}.

(** [requests.post(..., files={'response': f}, headers=headers)] as the server
    receives it. *)
Class HttpPost := { post : gmap str str → bytes → Request }.
Class HttpPostLaws `{HttpPost} : Prop := {
  post_headers hs data k : k ≠ lit "Content-Length" → k ≠ lit "Content-Type" → (headers (post hs data)) !! k = hs !! k;
  post_body hs data : ∃ lines b, Forall header_line lines ∧ is_ascii b ∧ b ≠ [] ∧ (";"%char ∉ b) ∧
    (headers (post hs data)) !! lit "Content-Type" = Some (lit "multipart/form-data; boundary=" ++ b) ∧
    (headers (post hs data)) !! lit "Content-Length" =
      Some (str_of_int (zlen (part_header lines) + zlen data + zlen (final_boundary b))) ∧
    contents (req_stream (post hs data)) = part_header lines ++ data ++ ascii_bytes (final_boundary b)
}.

Context `{HttpPost}.

Definition push_contribution (response_file : str) (response_digest : bytes) (vk : VerificationKey) (sig : bytes) (m : fs)
    : result Request :=
  d ← export_digest response_digest;
  let headers := {[ lit "X-MPC-Digest" := d; lit "X-MPC-Public-Key" := export_verification_key vk;
                    lit "X-MPC-Signature" := export_signature sig ]} in
  c ← read_file response_file m;
  match c with
  | CBytes b => Ok (post headers b)
  | _ => Err TypeError
  end.

Definition _upload_response (response_file : str) (sk : SigningKey) (m : fs) : result Request :=
  digest ← compute_file_digest response_file m;
  let signature := sign sk digest in
  let vk := get_verification_key sk in
  push_contribution response_file digest vk signature m.

Definition read_key (key_file : str) (m : fs) : result SigningKey :=
  c ← read_file key_file m;
  match c with
  | CBytes b => import_signing_key b
  | _ => Err TypeError
  end.

Definition upload_response (response_file key_file : str) (m : fs) : result Request :=
  sk ← read_key key_file m; _upload_response response_file sk m.

(** [contribute]: the replies before the upload, and the request it sends. *)
Definition contribute (key_file challenge_file : str) (contribute_cb : fs → result (str * fs)) (wait_interval : Z)
    (m : fs) (rs : list Reply) : option (result Request) :=
  match read_key key_file m with
  | Err e => Some (Err e)
  | Ok sk =>
      let upload rs :=
        match get_challenge challenge_file m rs with
        | None => None
        | Some (r, _) => Some ('(response_file, m) ← r ≫= contribute_cb; _upload_response response_file sk m)
        end in
      if wait_interval =? 0 then upload rs
      else match wait_for_turn (get_verification_key sk) rs with
           | None => None
           | Some (Err e, _) => Some (Err e)
           | Some (Ok _, rs) => upload rs
           end
  end.
End client.

(** ** Files in blocks *)

Lemma hash_blocks_spec `{MpcCrypto} fuel h b : (length b < fuel)%nat → hash_blocks fuel h b = sha512 (h ++ b).
Proof.
  revert h b. induction fuel as [|fuel IH]; intros h b Hf; [lia|]. cbn [hash_blocks].
  destruct b as [|x b]; [by rewrite take_nil, app_nil_r|].
  destruct (take _ (x :: b)) as [|y block] eqn:Et; [by apply (f_equal length) in Et|]. rewrite <- Et.
  rewrite IH; [by rewrite <- app_assoc, take_drop|]. rewrite length_drop. cbn [length] in *.
  change (Z.to_nat HASH_FILE_BLOCK_SIZE) with (S 4095). lia.
Qed.

(** The digest of a file is that of its contents, whatever its size. *)
Lemma compute_file_digest_spec `{MpcCrypto} (f : str) (m : fs) b : m !! f = Some (CBytes b) →
  compute_file_digest f m = Ok (sha512 b).
Proof.
  intros E. unfold compute_file_digest, read_file. rewrite E. cbn [of_option mbind result_bind].
  by rewrite hash_blocks_spec by lia.
Qed.

Lemma file_chunks_concat fuel b : (length b < fuel)%nat → concat (produce_file_chunks fuel b) = b.
Proof.
  revert b. induction fuel as [|fuel IH]; intros b Hf; [lia|]. cbn [produce_file_chunks].
  destruct b as [|x b]; [by rewrite take_nil|].
  destruct (take _ (x :: b)) as [|y block] eqn:Et; [by apply (f_equal length) in Et|]. rewrite <- Et. cbn [concat].
  rewrite IH; [by apply take_drop|]. rewrite length_drop. cbn [length] in *.
  change (Z.to_nat SEND_CHUNK_SIZE) with (S 4095). lia.
Qed.

(** ** The content type *)

Lemma split_semi_none s : ";"%char ∉ s → split_semi s = [s].
Proof.
  induction s as [|c s IH]; [done|]. intros [Hc Hs]%not_elem_of_cons. cbn [split_semi]. rewrite (IH Hs).
  destruct s as [|e s]; [done|]. rewrite bool_decide_false; [done|]. by intros [-> _].
Qed.

Lemma boundary_found b : ";"%char ∉ b → find_boundary (split_semi (lit "multipart/form-data; boundary=" ++ b)) = b.
Proof.
  intros Hb. assert (split_semi (lit "multipart/form-data; boundary=" ++ b) =
    [lit "multipart/form-data"; lit "boundary=" ++ b]) as ->; [|done].
  assert (split_semi (lit "boundary=" ++ b) = [lit "boundary=" ++ b]) as Es.
  { apply split_semi_none. rewrite elem_of_app. intros [Hin|]; [|done]. revert Hin. by apply (bool_decide_unpack _). }
  assert (∀ a s : str, ";"%char ∉ a → split_semi (a ++ ";"%char :: " "%char :: s) = a :: split_semi s) as Happ.
  { induction a as [|x a IH]; intros t Ha; [done|]. apply not_elem_of_cons in Ha as [Hx Ha].
    specialize (IH t Ha). destruct a as [|y a]; cbn [app] in *; cbn [split_semi] in *;
      (rewrite bool_decide_false by (by intros [-> _])); by rewrite IH. }
  change (lit "multipart/form-data; boundary=" ++ b) with 
    (lit "multipart/form-data" ++ ";"%char :: " "%char :: (lit "boundary=" ++ b)).
  rewrite Happ, Es; [done|]. by apply (bool_decide_unpack _).
Qed.

(** ** The request of an honest contributor *)

(** Before the deadline the check of the time changes nothing. *)
Lemma update_in_time `{MpcCrypto} `{FloatText} `{IContributionHandler} config contributors server_dir now (w : World) :
  now < next_contributor_deadline (w_state w) → _update_state config contributors server_dir now w = (Ok tt, w).
Proof.
  intros Ht. unfold _update_state, bind, gets, update. rewrite (proj2 (Z.ltb_lt _ _) Ht), orb_true_r. by destruct w.
Qed.

Lemma import_export_digest d : zlen d = 64 → ∃ t, export_digest d = Ok t ∧ import_digest t = Ok d.
Proof.
  intros Hd. exists (hex d). unfold export_digest, import_digest. rewrite Hd. split; [done|].
  assert (zlen (hex d) = 2 * HASH_BYTE_LENGTH) as Hl.
  { unfold zlen in *. rewrite length_hex. unfold HASH_BYTE_LENGTH. lia. }
  rewrite Hl, Z.eqb_refl. cbn [negb raise_if mbind result_bind]. apply fromhex_hex.
Qed.

Section honest.
Context `{MpcCryptoLaws} `{FloatText} `{InputStreamLaws} `{IContributionHandler} `{HP : !HttpPost} `{!HttpPostLaws}.
Context (config : Configuration) (contributors : ContributorList) (server_dir : str).

(** What the upload of a file looks like. *)
Lemma upload_response_spec (sk : SigningKey) (f : str) (cm : fs) (data : bytes) : cm !! f = Some (CBytes data) →
  ∃ (ds : str) (hs : gmap str str), export_digest (sha512 data) = Ok ds ∧ import_digest ds = Ok (sha512 data) ∧
    _upload_response f sk cm = Ok (post hs data) ∧
    hs !! lit "X-MPC-Digest" = Some ds ∧
    hs !! lit "X-MPC-Public-Key" = Some (export_verification_key (get_verifying_key sk)) ∧
    hs !! lit "X-MPC-Signature" = Some (hex (sign_digest sk (sha512 data))).
Proof.
  intros Hf. destruct (import_export_digest (sha512 data)) as (ds & Ed & Ei).
  { unfold zlen. by rewrite sha512_length. }
  exists ds. unfold _upload_response. rewrite (compute_file_digest_spec _ _ _ Hf). cbn [mbind result_bind].
  unfold push_contribution. rewrite Ed. cbn [mbind result_bind]. unfold read_file. rewrite Hf. cbn [of_option mbind result_bind].
  eexists. split; [done|]. split; [done|]. split; [reflexivity|]. split_and!; by simplify_map_eq.
Qed.

Lemma contribute_honest (now : flt) (sk : SigningKey) (f : str) (cm : fs) (data : bytes) (w : World) (c : Contributor) : cm !! f = Some (CBytes data) →
  have_all_contributions (w_state w) = false → py_get contributors (next_contributor_index (w_state w)) = Ok c →
  verification_key c = get_verification_key sk → now < next_contributor_deadline (w_state w) →
  ∃ req w', _upload_response f sk cm = Ok req ∧
    _contribute config contributors server_dir now req w = (Ok (mkResponse 200 (BText "OK")), w') ∧
    w_worker w' = Launched ∧ w_processing w' = true ∧ w_state w' = w_state w ∧
    w_fs w' !! upload_file server_dir = Some (CBytes data).
Proof.
  intros Hf Hall Hc Hvk Ht. destruct (upload_response_spec sk f cm data Hf) as (ds & hs & Ed & Ei & Eu & H1' & H2' & H3').
  destruct (post_body hs data) as (lines & b & Hl & Hb & Hne & Hsemi & Hct & Hcl & Hbody).
  exists (post hs data). unfold _contribute, header, bind at 1 2 3 4 5, lift.
  rewrite Hcl, Hct, !post_headers, H1', H2', H3' by done. cbn [of_option].
  unfold bind at 1, lift. rewrite int_of_str_of_int.
  2: { pose proof (zlen_nonneg (part_header lines)). pose proof (zlen_nonneg data). pose proof (zlen_nonneg (final_boundary b)). lia. }
  unfold bind at 1. rewrite Ei. unfold bind at 1, import_signature. rewrite fromhex_hex, boundary_found by done.
  unfold bind at 1, raise_when. rewrite bool_decide_false by done. cbn [ret].
  unfold bind at 1. rewrite update_in_time by done. unfold bind at 1, gets. rewrite Hall.
  unfold bind at 1. rewrite Hc, Hvk, bool_decide_true by done. cbn [negb].
  unfold verify, get_verification_key. rewrite verify_signed. cbn [negb].
  unfold bind at 1. rewrite remove_upload_spec. set (w1 := set_fs _ w).
  rewrite <- (app_nil_r (ascii_bytes _)) in Hbody.
  destruct (upload_complete (zlen (part_header lines) + zlen data + zlen (final_boundary b)) b (sha512 data)
    (upload_file server_dir) (req_stream (post hs data)) (w_fs w1) lines data [] Hb Hl Hbody eq_refl) as (s' & Eup).
  rewrite bool_decide_true in Eup by done.
  unfold bind at 1, upload, on_fs, zoom. rewrite Eup. unfold bind, modify, ret.
  eexists. split; [exact Eu|]. split; [reflexivity|]. split_and!; try done. cbn. apply lookup_insert_eq.
Qed.
End honest.

(** C30: a contributor whose turn it is, with the key in the server's list, is
    served: the request that the client makes from its key and response file, sent
    before the deadline to a server that is not busy, is answered with 200, the
    upload file then holds exactly the contents of the response file and the
    processing has started. *)
Theorem honest_contribution `{MpcCryptoLaws} `{FloatText} `{InputStreamLaws} `{IContributionHandler} `{HP : !HttpPost}
    (Hpost : HttpPostLaws) (config : Configuration) (contributors : ContributorList) (server_dir : str) (now : flt)
    (sk : SigningKey) (f key_file : str) (cm : fs) (data : bytes) (w : World) (c : Contributor)
    (Hkey : cm !! key_file = Some (CBytes (export_signing_key sk))) (Hfile : cm !! f = Some (CBytes data))
    (Hinv : server_inv contributors w) (Hidle : w_processing w = false)
    (Hc : contributors !! Z.to_nat (next_contributor_index (w_state w)) = Some c)
    (Hvk : verification_key c = get_verification_key sk)
    (Htime : now < next_contributor_deadline (w_state w)) :
  ∃ req w', upload_response f key_file cm = Ok req ∧
    handle config contributors server_dir EContribute now req w = (Ok (mkResponse 200 (BText "OK")), w') ∧
    w_worker w' = Launched ∧ w_state w' = w_state w ∧ w_fs w' !! upload_file server_dir = Some (CBytes data).
Proof.
  destruct Hinv as [(Hn & Hi & _) _ _]. pose proof (lookup_lt_Some _ _ _ Hc) as Hlt.
  assert (next_contributor_index (w_state w) < zlen contributors) as Hlt' by (unfold zlen; lia).
  destruct (contribute_honest config contributors server_dir now sk f cm data w c) as (req & w' & Eu & Ec & Hk & _ & Hs & Hw).
  - done.
  - unfold have_all_contributions. rewrite Hn. apply Z.leb_gt. done.
  - destruct (py_get_is_ok contributors (next_contributor_index (w_state w))) as (x & Ex & Hx); [lia|].
    rewrite Ex. f_equal. assert (Some x = Some c) as Hxc by (rewrite <- Hx; exact Hc). by injection Hxc.
  - done.
  - done.
  - exists req, w'. split.
    { unfold upload_response, read_key, read_file. rewrite Hkey. cbn [of_option mbind result_bind].
      unfold import_signing_key, export_signing_key. by rewrite sk_der_roundtrip. }
    rewrite handle_spec, Hidle. cbn [callback]. by rewrite Ec.
Qed.

(** ** Waiting for the turn *)

(** The states the client sees; [None] is a busy server. *)
Definition state_reply `{FloatText} (o : option ServerState) : Reply :=
  match o with
  | Some s => mkReply 200 (PJson (server_state_to_json s))
  | None => mkReply 503 (PText "Processing contribution. Retry later.")
  end.

Fixpoint first_reached (i : Z) (os : list (option ServerState)) : option Z :=
  match os with
  | [] => None
  | None :: os => first_reached i os
  | Some s :: os => if i <=? next_contributor_index s then Some (next_contributor_index s) else first_reached i os
  end.

Lemma get_state_reply `{FloatTextLaws} s rs : num_contributors s ≠ 0 →
  get_state (state_reply (Some s) :: rs) = Some (Ok s, rs).
Proof.
  intros Hn. unfold get_state, on_reply. cbn -[server_state_from_json server_state_to_json].
  by rewrite server_state_roundtrip.
Qed.

(** The client returns at the first state that reaches its index, and raises if
    that state is already past it. *)
Lemma wait_loop_spec `{FloatTextLaws} i os fuel : (length os < fuel)%nat →
  Forall (λ o, ∀ s, o = Some s → num_contributors s ≠ 0) os →
  fst <$> wait_loop fuel (Some i) (state_reply <$> os) =
    (λ j, if j =? i then Ok tt else Err (Exception "contributor turn has passed")) <$> first_reached i os.
Proof.
  intros Hf Hos. revert fuel Hf. induction Hos as [|o os Ho Hos IH]; intros [|fuel] Hf; try (cbn in Hf; lia); [done|].
  cbn [length] in Hf. rewrite fmap_cons. destruct o as [s|].
  - cbn [wait_loop first_reached]. rewrite get_state_reply by by apply Ho. cbn zeta.
    destruct (Z.lt_trichotomy i (next_contributor_index s)) as [Hl|[->|Hl]].
    + rewrite (proj2 (Z.ltb_lt _ _)), (proj2 (Z.leb_le _ _)) by lia. cbn. by rewrite (proj2 (Z.eqb_neq _ _)) by lia.
    + rewrite Z.ltb_irrefl, Z.leb_refl, Z.eqb_refl. cbn. by rewrite Z.eqb_refl.
    + rewrite (proj2 (Z.ltb_ge _ _)), (proj2 (Z.eqb_neq _ _)), (proj2 (Z.leb_gt _ _)) by lia. apply IH. lia.
  - cbn [first_reached]. rewrite <- (IH (S fuel)) by lia. done.
Qed.

(** ** A concrete request *)

Module ClientSample.
Import CoordinatorSample.
#[local] Existing Instance UploadSample.toy_crypto.
#[local] Existing Instance UploadSample.toy_crypto_laws.
#[local] Existing Instance UploadSample.small_stream.
#[local] Existing Instance UploadSample.small_stream_laws.
#[local] Existing Instance ConfigSample.float_text.
#[local] Existing Instance null_handler.

#[local] Instance toy_post : HttpPost := {|
  post hs data := {|
    headers := <[lit "Content-Length" :=
                   str_of_int (zlen (part_header [UploadSample.line]) + zlen data + zlen (final_boundary (lit "x")))]>
               (<[lit "Content-Type" := lit "multipart/form-data; boundary=x"]> hs);
    req_stream := part_header [UploadSample.line] ++ data ++ ascii_bytes (final_boundary (lit "x"))
  |}
|}.

#[local] Instance toy_post_laws : HttpPostLaws.
Proof.
  split.
  - intros hs data k H1 H2. cbn [post toy_post headers]. by rewrite !lookup_insert_ne.
  - intros hs data. exists [UploadSample.line], (lit "x"). cbn [post toy_post headers req_stream]. split_and!.
    + apply Forall_singleton. exists (codes (lit "--x")). split; [reflexivity|].
      split_and!; [by apply (bool_decide_unpack _).. | discriminate].
    + by apply (bool_decide_unpack _).
    + done.
    + by apply (bool_decide_unpack _).
    + rewrite lookup_insert_ne by done. apply lookup_insert_eq.
    + apply lookup_insert_eq.
    + done.
Qed.

Definition my_files : fs :=
  {[ lit "key" := CBytes (export_signing_key Byte.x01); lit "response" := CBytes UploadSample.data ]}.

Lemma honest_contribution_witness :
  ∃ req w', upload_response (lit "response") (lit "key") my_files = Ok req ∧
    handle config people (lit ".") EContribute (secs 1050) req w0 = (Ok (mkResponse 200 (BText "OK")), w') ∧
    w_worker w' = Launched ∧ w_state w' = w_state w0 ∧ w_fs w' !! upload_file (lit ".") = Some (CBytes UploadSample.data).
Proof.
  apply (honest_contribution toy_post_laws config people (lit ".") (secs 1050) Byte.x01 (lit "response") (lit "key") my_files
    UploadSample.data w0 (contributor Byte.x01) eq_refl eq_refl server_inv0 eq_refl eq_refl eq_refl).
  apply (bool_decide_unpack _). vm_compute. exact I.
Defined.
End ClientSample.
