(* ===== verification/MpcCommands.v ===== *)
(** * The command line tools of the MPC ([mpc/commands])

    Keys and their evidence, the list of contributors from a CSV file, the preparation of
    phase 2, the contributions and the final key pair, over the coordinator's modules.
    The CSV reader of the library gives the rows; the files of keys hold bytes. *)

From Stdlib Require Import ZArith Lia Ascii String.
From stdpp Require Import base tactics list gmap strings.
From S2P Require Import Prelude PyStr PyBytes PyIO PyState MpcState MpcConfig Handlers Upload Server Client.

Local Open Scope Z_scope.
Local Open Scope sm_scope.

Definition DEFAULT_CONFIG_FILE : str := lit "server_config.json".
Definition LAGRANGE_FILE : str := lit "lagrange.bin".
Definition LINEAR_COMBINATION_FILE : str := lit "linear_combination.bin".
Definition DEFAULT_EMAIL_FIELD_NAME : str := lit "Email".
Definition DEFAULT_KEY_FIELD_NAME : str := lit "Contributor Verification Key".
Definition DEFAULT_EVIDENCE_FIELD_NAME : str := lit "Key Evidence".

(** A [ClickException] of the commands. *)
Definition click_error : pyexc := Exception "ClickException".
Definition given (o : option str) : option str := match o with Some (c :: s) => Some (c :: s) | _ => None end.

(** ** Keys *)

Section keys.
Context `{MpcCrypto}.

Definition write_text (file : option str) (t : str) : SM fs unit :=
  match given file with Some f => f_write f (CText t) | None => ret tt end.
Definition refuse_existing (file : option str) : SM fs unit :=
  match given file with
  | Some f => have <- f_exists f ;; raise_when have (Exception "already exists")
  | None => ret tt
  end.

(** The two texts that are printed. *)
Definition public_key_information (key : SigningKey) (public_key_file evidence_file : option str) : SM fs (str * str) :=
  refuse_existing public_key_file ;;;
  refuse_existing evidence_file ;;;
  let pub_key := get_verification_key key in
  key_evidence <- lift (create_key_evidence key) ;;
  let pub_key_str := export_verification_key pub_key in
  let evidence_str := export_signature key_evidence in
  write_text public_key_file pub_key_str ;;;
  write_text evidence_file evidence_str ;;;
  ret (pub_key_str, evidence_str).

(** [generate_key], with the key that is generated. *)
Definition generate_key (key_file : str) (public_key_file evidence_file : option str) (signing_key : SigningKey)
    : SM fs (str * str) :=
  have <- f_exists key_file ;;
  raise_when have click_error ;;;
  printed <- public_key_information signing_key public_key_file evidence_file ;;
  f_write key_file (CBytes (export_signing_key signing_key)) ;;;
  ret printed.

Definition public_key_cmd (key_file : str) (public_key_file evidence_file : option str) : SM fs (str * str) :=
  key <- (λ m, (read_key key_file m, m)) ;;
  public_key_information key public_key_file evidence_file.

(** The signature that is printed. *)
Definition sign_contribution (key_file digest_hex : str) (m : fs) : result str :=
  digest ← import_digest digest_hex;
  signing_key ← read_key key_file m;
  let sig := sign signing_key digest in
  Ok (export_signature sig).

(** ** Contributors *)

(** A row of the CSV file: the fields by name. *)
Definition Row : Type := list (str * str).

(** Any exception of the key or the evidence becomes a [ClickException]. *)
Definition _row_to_contributor (email_field key_field evidence_field : str) (row : Row) : result Contributor :=
  email ← of_option KeyError (assoc email_field row);
  match (k ← of_option KeyError (assoc key_field row);
         key ← import_verification_key k;
         e ← of_option KeyError (assoc evidence_field row);
         evidence ← import_signature e;
         good ← check_key_evidence key evidence;
         _ ← raise_if (negb good) click_error;
         Ok (key, evidence)) with
  | Ok (key, evidence) => Ok (mkContributor email key evidence)
  | Err _ => Err click_error
  end.

(** The rows are what [csv.DictReader] reads from the file. *)
Definition read_contributors_from_csv (rows : result (list Row)) (email_field key_field evidence_field : str)
    : result ContributorList :=
  rows ← rows;
  mapM (_row_to_contributor email_field key_field evidence_field) rows.

Definition contributors_from_csv (rows : result (list Row)) (output_contributors email_field key_field evidence_field : str)
    : SM fs unit :=
  contributors <- lift (read_contributors_from_csv rows email_field key_field evidence_field) ;;
  f_write output_contributors (CJson (contributors_to_json contributors)).
End keys.

(** ** Phase 2 *)

Section phases.
Context `{MpcCrypto} `{FloatText} `{Subprocess}.

(** Runs a step unless its output file is there. *)
Definition unless_exists (file : str) (step : SM fs bool) (msg : string) : SM fs unit :=
  have <- f_exists file ;;
  if (have : bool) then ret tt
  else ok <- step ;; raise_when (negb ok) (Exception msg).

Definition read_phase1_config (phase1_dir : str) (m : fs) : result Phase1ServerConfig :=
  let phase1_config_file := path_join phase1_dir DEFAULT_CONFIG_FILE in
  j ← read_json phase1_config_file m;
  phase1_config_from_json j (Some phase1_config_file) m.

(** [phase2_prepare]; the default paths of the tools are arguments.  The tool of the
    Lagrange step is only looked for when the step runs. *)
Definition phase2_prepare (default_pot_process default_mpc phase1_dir : str) (lagrange_degree : option Z)
    (pot_tool mpc_tool : option str) (dry_run : bool) : SM fs unit :=
  let pot_file := path_join phase1_dir FINAL_OUTPUT in
  have <- f_exists pot_file ;;
  raise_when (negb have) (Exception "No powersoftau file") ;;;
  phase1_config <- (λ m, (read_phase1_config phase1_dir m, m)) ;;
  let pot_degree := default 0 (p1_num_powers phase1_config) in
  raise_when (pot_degree =? 0) (Exception "powersoftau degree must be specified in config file") ;;;
  unless_exists LAGRANGE_FILE
    (pot_process <- new_MPCCommand default_pot_process pot_tool dry_run ;;
     compute_lagrange pot_process pot_file pot_degree LAGRANGE_FILE lagrange_degree)
    "Lagrange computation failed" ;;;
  mpc <- new_MPCCommand default_mpc mpc_tool dry_run ;;
  unless_exists LINEAR_COMBINATION_FILE
    (linear_combination mpc pot_file LAGRANGE_FILE LINEAR_COMBINATION_FILE (Some pot_degree)) "linear combination failed" ;;;
  unless_exists CHALLENGE_0_FILE (phase2_begin mpc LINEAR_COMBINATION_FILE CHALLENGE_0_FILE) "failed computing challenge 0".

(** The command [create_keypair] *)
Definition create_keypair_cmd (default_mpc phase1_dir keypair_out_file : str) (mpc_tool : option str) : SM fs unit :=
  have <- f_exists keypair_out_file ;;
  raise_when have (Exception "keypair file already exists") ;;;
  phase1_config <- (λ m, (read_phase1_config phase1_dir m, m)) ;;
  let pot_file := path_join phase1_dir FINAL_OUTPUT in
  mpc <- new_MPCCommand default_mpc mpc_tool false ;;
  ok <- create_keypair mpc pot_file LINEAR_COMBINATION_FILE FINAL_OUTPUT keypair_out_file (p1_num_powers phase1_config) ;;
  raise_when (negb ok) (Exception "create_keypair command failed").

(** The callbacks of the two [contribute] commands: the name of the response file. *)
Definition phase1_contribution (default_pot : str) (pot_path : option str) (num_powers : option Z) (response_digest : str)
    : SM fs str :=
  pot <- new_PowersOfTauCommand default_pot pot_path num_powers ;;
  contribution_success <- pot_contribute pot (Some response_digest) ;;
  raise_when (negb contribution_success) click_error ;;;
  have <- f_exists RESPONSE_FILE ;;
  raise_when (negb have) click_error ;;;
  ret RESPONSE_FILE.

Definition phase2_contribution (default_mpc : str) (mpc_tool : option str) (challenge response response_digest : str)
    (skip_user_input : bool) : SM fs str :=
  mpc <- new_MPCCommand default_mpc mpc_tool false ;;
  contribution_success <- phase2_contribute mpc challenge response (Some response_digest) skip_user_input ;;
  raise_when (negb contribution_success) click_error ;;;
  ret response.

(** A callback that raises leaves nothing that [contribute] uses. *)
Definition as_callback (m : SM fs str) (files : fs) : result (str * fs) :=
  let '(r, files') := m files in (λ name, (name, files')) <$> r.

Context `{InputStream} `{HttpPost}.

Definition phase1_contribute (default_pot key_file : str) (wait_interval : Z) (pot_path : option str) (response_digest : str)
    (num_powers : option Z) (m : fs) (rs : list Reply) : option (result Request) :=
  contribute key_file Handlers.CHALLENGE_FILE (as_callback (phase1_contribution default_pot pot_path num_powers response_digest))
    wait_interval m rs.

Definition phase2_contribute_cmd (default_mpc key_file : str) (wait_interval : Z) (challenge response response_digest : str)
    (mpc_tool : option str) (skip_user_input : bool) (m : fs) (rs : list Reply) : option (result Request) :=
  contribute key_file challenge (as_callback (phase2_contribution default_mpc mpc_tool challenge response response_digest skip_user_input))
    wait_interval m rs.
End phases.

(** ** The servers' configuration *)

(** The options of [phase1_server] and [phase2_server] override the file. *)
Definition phase1_server_config `{FloatText} (config : str) (pot_path : option str) (num_powers : option Z) (m : fs)
    : result Phase1ServerConfig :=
  j ← read_json config m;
  c ← phase1_config_from_json j None m;
  let path := match given pot_path with Some p => Some p | None => p1_powersoftau_path c end in
  let n := match num_powers with Some n => if n =? 0 then p1_num_powers c else Some n | None => p1_num_powers c end in
  Ok (mkPhase1Config (p1_server c) path n).

Definition phase2_server_config `{FloatText} (config : str) (mpc_tool : option str) (m : fs) : result Phase2ServerConfig :=
  j ← read_json config m;
  c ← phase2_config_from_json j None m;
  Ok (mkPhase2Config (p2_server c) (match given mpc_tool with Some t => Some t | None => p2_mpc_tool c end)).

(** ** Properties *)

Section facts.
Context `{MpcCryptoLaws}.

Lemma contributor_json (c : Contributor) : contributor_from_json_dict (contributor_to_json_dict c) = Ok c.
Proof.
  destruct c as [e vk ev]. unfold contributor_from_json_dict, contributor_to_json_dict, jstr. jsimp.
  cbn [email verification_key key_evidence as_str mbind result_bind]. jsimp. cbn [as_str mbind result_bind].
  unfold import_verification_key, export_verification_key, import_signature, export_signature.
  rewrite !fromhex_hex. cbn [mbind result_bind]. rewrite vk_der_roundtrip. cbn [mbind result_bind]. by jsimp.
Qed.

Lemma contributors_json (l : ContributorList) : contributors_from_json (contributors_to_json l) = Ok l.
Proof.
  unfold contributors_from_json, contributors_to_json. jsimp. cbn [as_list mbind result_bind].
  induction l as [|c l IH]; [done|]. cbn [fmap list_fmap]. rewrite mapM_cons_res, contributor_json. cbn [mbind result_bind].
  by rewrite IH.
Qed.

Lemma row_contributor ef kf vf (row : Row) c : _row_to_contributor ef kf vf row = Ok c →
  assoc ef row = Some (email c) ∧ check_key_evidence (verification_key c) (key_evidence c) = Ok true ∧
  (∃ k, assoc kf row = Some k ∧ import_verification_key k = Ok (verification_key c)).
Proof using Type.
  unfold _row_to_contributor. intros E. apply bind_Ok_inv in E as (em & He & E). destruct (assoc ef row) as [em'|]; [|done].
  apply Ok_inj in He as ->. destruct (_ ≫= _) as [[key ev]|e] eqn:Ek in E; [|done]. apply Ok_inj in E as <-. cbn [email verification_key key_evidence].
  apply bind_Ok_inv in Ek as (k & Hk & Ek). apply bind_Ok_inv in Ek as (key' & Hkey & Ek). apply bind_Ok_inv in Ek as (? & _ & Ek).
  apply bind_Ok_inv in Ek as (ev' & _ & Ek). apply bind_Ok_inv in Ek as (good & Hg & Ek).
  apply bind_Ok_inv in Ek as ([] & Hgood & Ek). apply raise_if_Ok, negb_false_iff in Hgood as ->. apply Ok_inj in Ek. injection Ek as <- <-.
  destruct (assoc kf row) as [k'|]; [|done]. apply Ok_inj in Hk as ->. by eauto.
Qed.

Lemma rows_valid ef kf vf rows l : mapM (_row_to_contributor ef kf vf) rows = Ok l →
  ensure_validity l = Ok tt ∧ Forall2 (λ row c, assoc ef row = Some (email c) ∧
    ∃ k, assoc kf row = Some k ∧ import_verification_key k = Ok (verification_key c)) rows l.
Proof using Type.
  revert l. induction rows as [|row rows IH]; intros l E; [injection E as <-; by split|].
  rewrite mapM_cons_res in E. apply bind_Ok_inv in E as (c & Hc & E). apply bind_Ok_inv in E as (cs & Hcs & E). apply Ok_inj in E as <-.
  destruct (IH cs Hcs) as [Hv Hf]. apply row_contributor in Hc as (He & Hg & Hk). split; [|by constructor].
  cbn [ensure_validity]. rewrite Hg. exact Hv.
Qed.
End facts.

(** The list of contributors made from a CSV file is one that the coordinator starts
    with.  When the command ends, the output file reads back as one contributor per row,
    in the order of the rows, with the row's address and key, and every key has valid
    evidence, so the check of the coordinator passes; no other file changes.  When any row
    is bad, the output file is as it was. *)
Theorem contributors_from_csv_valid `{MpcCryptoLaws} (rows : result (list Row)) (output ef kf vf : str) (m : fs) :
  let '(r, m') := contributors_from_csv rows output ef kf vf m in
  match r with
  | Ok _ => ∃ rs l, rows = Ok rs ∧
      (j ← read_json output m'; l ← contributors_from_json j; _ ← ensure_validity l; Ok l) = Ok l ∧
      Forall2 (λ row c, assoc ef row = Some (email c) ∧
        ∃ k, assoc kf row = Some k ∧ import_verification_key k = Ok (verification_key c)) rs l ∧
      ∀ g, g ≠ output → m' !! g = m !! g
  | Err _ => m' = m
  end.
Proof.
  destruct (contributors_from_csv rows output ef kf vf m) as [r m'] eqn:E. unfold contributors_from_csv, bind, lift in E.
  destruct (read_contributors_from_csv rows ef kf vf) as [l|e] eqn:El; [|by injection E as <- <-].
  unfold f_write, modify, write_file in E. injection E as <- <-. apply bind_Ok_inv in El as (rs & -> & El).
  apply rows_valid in El as [Hv Hf]. exists rs, l. split; [done|]. split; [|split; [exact Hf | intros g Hg; by rewrite lookup_insert_ne]].
  unfold read_json, read_file. rewrite lookup_insert_eq. cbn [of_option mbind result_bind]. rewrite contributors_json.
  cbn [mbind result_bind]. by rewrite Hv.
Qed.

(** A new key comes with evidence that the coordinator accepts, in files that are all new;
    the key file reads back as the key.  Nothing is written when a file exists. *)
Theorem generate_key_evidence `{MpcCryptoLaws} (key_file p e : str) (sk : SigningKey) (m : fs) :
  p ≠ [] → e ≠ [] → key_file ≠ p → key_file ≠ e → p ≠ e →
  let '(r, m') := generate_key key_file (Some p) (Some e) sk m in
  match r with
  | Ok (pub, evidence) => m !! key_file = None ∧ m !! p = None ∧ m !! e = None ∧
      m' = <[key_file := CBytes (sk_to_der sk)]> (<[e := CText evidence]> (<[p := CText pub]> m)) ∧
      read_key key_file m' = Ok sk ∧ import_verification_key pub = Ok (get_verification_key sk) ∧
      (v ← import_signature evidence; check_key_evidence (get_verification_key sk) v) = Ok true
  | Err _ => m' = m
  end.
Proof.
  intros Hp He Hkp Hke Hpe. destruct (generate_key key_file (Some p) (Some e) sk m) as [r m'] eqn:E.
  assert (given (Some p) = Some p) as Gp by (by destruct p). assert (given (Some e) = Some e) as Ge by (by destruct e).
  assert (∀ f : str, exists_file f m = false → m !! f = None) as Hex.
  { intros f Hf. unfold exists_file in Hf. apply bool_decide_eq_false in Hf. by apply eq_None_not_Some. }
  unfold generate_key, f_exists, gets, bind at 1 in E. unfold bind at 1, raise_when at 1 in E.
  destruct (exists_file key_file m) eqn:Ek; [by injection E as <- <-|]. unfold ret at 1 in E.
  unfold bind at 1 in E. unfold public_key_information, refuse_existing, write_text in E. rewrite Gp, Ge in E.
  unfold f_exists, gets, bind, raise_when, raise, lift, f_write, modify, ret in E.
  destruct (exists_file p m) eqn:Ep; [by injection E as <- <-|]. destruct (exists_file e m) eqn:Ee; [by injection E as <- <-|].
  assert (∃ d, _compute_key_validation_digest = Ok d) as [d Ed] by (unfold _compute_key_validation_digest; by eexists).
  unfold create_key_evidence in E. rewrite Ed in E. cbn [mbind result_bind] in E. injection E as <- <-.
  split; [by apply Hex|]. split; [by apply Hex|]. split; [by apply Hex|]. split; [reflexivity|]. split_and!.
  - unfold read_key, read_file, write_file. rewrite lookup_insert_eq. cbn [of_option mbind result_bind]. apply sk_der_roundtrip.
  - unfold import_verification_key, export_verification_key. rewrite fromhex_hex. apply vk_der_roundtrip.
  - unfold import_signature, export_signature. rewrite fromhex_hex. cbn [mbind result_bind]. unfold check_key_evidence. rewrite Ed.
    cbn [mbind result_bind]. unfold verify, sign, get_verification_key. by rewrite verify_signed.
Qed.

(** The preparation of phase 2 goes on where it stopped, by the names of the files: the two
    steps whose outputs are there are not run, whatever wrote these files, a step that
    failed included. *)
Theorem phase2_prepare_resumes `{FloatText} `{Subprocess} (dpot dmpc dir : str) (deg : option Z) (pot mpc : option str) (m : fs) :
  exists_file LAGRANGE_FILE m = true → exists_file LINEAR_COMBINATION_FILE m = true →
  exists_file (path_join dir FINAL_OUTPUT) m = true →
  (∃ c, read_phase1_config dir m = Ok c ∧ default 0 (p1_num_powers c) ≠ 0) →
  phase2_prepare dpot dmpc dir deg pot mpc false m =
    (tool <- new_MPCCommand dmpc mpc false ;;
     unless_exists CHALLENGE_0_FILE (phase2_begin tool LINEAR_COMBINATION_FILE CHALLENGE_0_FILE) "failed computing challenge 0")%sm m.
Proof.
  intros Hl Hc Hp (c & Hconf & Hn). unfold phase2_prepare. unfold bind at 1, f_exists at 1, gets. rewrite Hp.
  unfold bind at 1, raise_when at 1. cbn [negb ret]. unfold bind at 1. rewrite Hconf. unfold bind at 1, raise_when at 1.
  rewrite (proj2 (Z.eqb_neq _ _) Hn). cbn [ret]. unfold bind at 1, unless_exists at 1, f_exists, gets. unfold bind at 1. rewrite Hl. cbn [ret].
  unfold bind at 1. unfold bind at 2.
  destruct (new_MPCCommand dmpc mpc false m) as [[tool|e] m''] eqn:E; [|done].
  assert (m'' = m) as ->.
  { unfold new_MPCCommand, f_exists, gets, bind, assert, raise_when, raise, ret in E. destruct (negb _); [done|]. by injection E. }
  unfold bind at 1, unless_exists at 1, f_exists, gets. unfold bind at 1. by rewrite Hc.
Qed.

(** ** A concrete list *)

Module MpcCommandsSample.
#[local] Existing Instance UploadSample.toy_crypto.
#[local] Existing Instance UploadSample.toy_crypto_laws.

(** A contributor with the key 7 and its evidence. *)
Definition evidence : str := match create_key_evidence (Byte.x07 : SigningKey) with Ok s => export_signature s | Err _ => [] end.
Definition row : Row :=
  [(DEFAULT_EMAIL_FIELD_NAME, lit "a@b.c"); (DEFAULT_KEY_FIELD_NAME, export_verification_key (Byte.x07 : VerificationKey));
   (DEFAULT_EVIDENCE_FIELD_NAME, evidence)].
Definition imported : result unit * fs :=
  contributors_from_csv (Ok [row]) (lit "people.json") DEFAULT_EMAIL_FIELD_NAME DEFAULT_KEY_FIELD_NAME DEFAULT_EVIDENCE_FIELD_NAME ∅.

Lemma imported_ok : imported.1 = Ok tt.
Proof. vm_compute. reflexivity. Qed.

Lemma contributors_from_csv_valid_witness : ∃ l,
  (j ← read_json (lit "people.json") imported.2; l ← contributors_from_json j; _ ← ensure_validity l; Ok l) = Ok l ∧
  email <$> l = [lit "a@b.c"].
Proof.
  pose proof (contributors_from_csv_valid (Ok [row]) (lit "people.json") DEFAULT_EMAIL_FIELD_NAME DEFAULT_KEY_FIELD_NAME
    DEFAULT_EVIDENCE_FIELD_NAME ∅) as Hv. fold imported in Hv. pose proof imported_ok as Hok.
  destruct imported as [r m]. cbn [fst] in Hok. subst r. destruct Hv as (rs & l & Hrs & Hread & Hf & _).
  exists l. split; [exact Hread|]. apply Ok_inj in Hrs as <-.
  inversion Hf as [|? c ? cs [He _] Hf']; subst. inversion Hf'; subst. cbn [fmap list_fmap]. f_equal.
  apply (inj Some). rewrite <- He. vm_compute. reflexivity.
Defined.
End MpcCommandsSample.
