(* ===== verification/Interval.v ===== *)
(** * The interval thread ([mpc/coordinator/interval.py])

    Two threads share a condition variable over a reentrant lock: the thread that
    runs the callback every period, and the one that calls [stop].  The state holds
    where each of them is, the lock with its owner and count, and the next deadline;
    a step is a statement of one of them.  [None] is a thread that cannot move. *)

From Stdlib Require Import ZArith Lia.
From stdpp Require Import base tactics list relations.
From S2P Require Import Prelude PyState.

Local Open Scope Z_scope.

(** ** State *)

(** Where [_thread] is: the test of the outer loop, the callback, the acquisition,
    the test of the inner loop, in [wait] with the count to restore, woken up, ended. *)
Inductive Pc : Type := TLoop | TCallback | TAcquire | TCheck | TWaiting (count : nat) | TWoken (count : nat) | TDone.
(** Where [stop] is; [SRunning] is before the call. *)
Inductive StopPc : Type := SRunning | SAcquire | SNotify | SRelease | SJoin | SDone.
Inductive Who : Type := TheThread | TheStopper.
#[export] Instance who_eq_dec : EqDecision Who.
Proof. solve_decision. Defined.

Record Interval : Type := mkInterval {
  pc : Pc; stop_pc : StopPc; running : bool; lock : option (Who * nat); next_deadline : flt; calls : nat
}.

Definition set_pc (p : Pc) (s : Interval) : Interval :=
  mkInterval p (stop_pc s) (running s) (lock s) (next_deadline s) (calls s).
Definition set_stop (p : StopPc) (s : Interval) : Interval :=
  mkInterval (pc s) p (running s) (lock s) (next_deadline s) (calls s).
Definition set_lock (l : option (Who * nat)) (s : Interval) : Interval :=
  mkInterval (pc s) (stop_pc s) (running s) l (next_deadline s) (calls s).

(** [condition.acquire()]: reentrant, blocked while another thread owns it. *)
Definition acquire (w : Who) (n : nat) (s : Interval) : option Interval :=
  match lock s with
  | None => Some (set_lock (Some (w, n)) s)
  | Some (o, c) => if decide (o = w) then Some (set_lock (Some (w, (c + n)%nat)) s) else None
  end.
Definition release (s : Interval) : option Interval :=
  match lock s with
  | Some (w, S (S c)) => Some (set_lock (Some (w, S c)) s)
  | Some (_, _) => Some (set_lock None s)
  | None => None
  end.

(** [Interval.__init__] *)
Definition new_Interval (now : flt) : Interval := mkInterval TLoop SRunning true None now 0.

(** ** Steps *)

(** A statement of [_thread] at time [now]; a wait ends when its time is over. *)
Definition _thread (period now : flt) (s : Interval) : option Interval :=
  match pc s with
  | TLoop => Some (set_pc (if running s then TCallback else TDone) s)
  | TCallback => Some (mkInterval TAcquire (stop_pc s) (running s) (lock s) (flt_add (next_deadline s) period) (S (calls s)))
  | TAcquire => s ← acquire TheThread 1 s; Some (set_pc TCheck s)
  | TCheck =>
      if running s then
        if next_deadline s <=? now then Some (set_pc TLoop s)
        else match lock s with
             | Some (TheThread, c) => Some (set_pc (TWaiting c) (set_lock None s))
             | _ => None
             end
      else Some (set_pc TLoop s)
  | TWaiting c => if next_deadline s <=? now then Some (set_pc (TWoken c) s) else None
  | TWoken c => s ← acquire TheThread c s; Some (set_pc TCheck s)
  | TDone => None
  end.

(** A statement of [stop]; [notify] wakes the waiting thread. *)
Definition stop (s : Interval) : option Interval :=
  match stop_pc s with
  | SRunning => Some (mkInterval (pc s) SAcquire false (lock s) (next_deadline s) (calls s))
  | SAcquire => s ← acquire TheStopper 1 s; Some (set_stop SNotify s)
  | SNotify => Some (set_stop SRelease (match pc s with TWaiting c => set_pc (TWoken c) s | _ => s end))
  | SRelease => s ← release s; Some (set_stop SJoin s)
  | SJoin => match pc s with TDone => Some (set_stop SDone s) | _ => None end
  | SDone => None
  end.

Inductive istep (period : flt) : Interval → Interval → Prop :=
| istep_thread now s s' : _thread period now s = Some s' → istep period s s'
| istep_stop s s' : stop s = Some s' → istep period s s'.

Definition ireach (period : flt) : Interval → Interval → Prop := rtc (istep period).

(** ** The lock *)

Definition thread_owns (s : Interval) : Prop := ∃ c, lock s = Some (TheThread, S c).

(** Once the thread has ended with the lock, [stop] cannot get past its acquisition. *)
Lemma deadlock period s s' : pc s = TDone → thread_owns s → stop_pc s = SAcquire → ireach period s s' → s' = s.
Proof.
  intros Hp [c Hl] Hs Hr. induction Hr as [|s1 s2 s3 H12 _ IH]; [done|].
  destruct H12 as [now s1 s2 H12|s1 s2 H12].
  - unfold _thread in H12. by rewrite Hp in H12.
  - unfold stop, acquire in H12. by rewrite Hs, Hl in H12.
Qed.

(** A run with period 60 in which [stop] is called during the second callback. *)
Definition run_steps (period : flt) (acts : list (option flt)) (s : Interval) : option Interval :=
  foldl (λ o a, s ← o; match a with Some now => _thread period now s | None => stop s end) (Some s) acts.

Lemma run_steps_reach period acts s s' : run_steps period acts s = Some s' → ireach period s s'.
Proof.
  unfold run_steps. revert s. induction acts as [|a acts IH]; intros s E; cbn [foldl] in E; [by injection E as ->|].
  cbn [mbind option_bind] in E. destruct (match a with Some now => _ | None => _ end) as [s1|] eqn:E1.
  - apply rtc_l with s1; [destruct a; [by eapply istep_thread | by apply istep_stop] | by apply IH].
  - exfalso. clear IH E1. induction acts as [|a' acts IH]; [done | by apply IH].
Qed.

(** If [stop] is called while a callback other than the first one runs, the thread
    ends with the lock and [stop] never returns: a state is reachable from the start
    that no step leaves and in which [stop] is not done. *)
Theorem interval_stop_deadlock :
  ∃ s, ireach (secs 60) (new_Interval (secs 1000)) s ∧ stop_pc s = SAcquire ∧ pc s = TDone ∧
       ∀ s', ireach (secs 60) s s' → s' = s.
Proof.
  pose (acts := [Some (secs 1000); Some (secs 1000); Some (secs 1000); Some (secs 1000); Some (secs 1060);
    Some (secs 1060); Some (secs 1060); Some (secs 1060); None; Some (secs 1061); Some (secs 1061); Some (secs 1061);
    Some (secs 1061)]).
  destruct (run_steps (secs 60) acts (new_Interval (secs 1000))) as [s|] eqn:E; [|vm_compute in E; discriminate].
  exists s. assert (pc s = TDone ∧ stop_pc s = SAcquire ∧ lock s = Some (TheThread, 2%nat)) as (Hp & Hs & Hl).
  { vm_compute in E. injection E as <-. done. }
  split; [by eapply run_steps_reach|]. split; [done|]. split; [done|]. intros s' Hr. eapply deadlock; [done | by eexists | done | done].
Qed.
