(* ===== verification/ContractTree.v ===== *)
(** * The Merkle tree of the contract ([AbstractMerkleTree.sol])

    The contract keeps all layers in one sparse array: the layer of size [s] starts at
    index [s - 1], and the last entry of a layer holds the layer's default value until
    the layer is full.  Storage that was not written reads as zero.  A revert is an
    exception with its reason; an access out of the array's bounds and a subtraction
    below zero are panics of the language.  The depth is an argument: the contract's is
    [_DEPTH], tests use small trees. *)

From Stdlib Require Import ZArith Lia Ascii String Strings.Byte.
From stdpp Require Import base tactics list gmap strings.
From S2P Require Import Prelude PyStr PyBytes PyFloat PyIO Hashes MerkleTree MerkleTreeFacts.

Local Open Scope Z_scope.

Module AbstractMerkleTree.

Definition Panic : pyexc := Exception "Panic".

(** [require(b, msg)] *)
Definition require (b : bool) (msg : string) : result unit := if b then Ok tt else Err (Exception msg).

(** Checked subtraction of unsigned integers. *)
Definition usub (a b : Z) : result Z := if a <? b then Err Panic else Ok (a - b).

Definition _DEPTH : nat := 32.
(** [~uint256(1)] *)
Definition _MASK_LS_BIT : Z := 2 ^ 256 - 2.
Definition _DEFAULT_LEAF_VALUE : bytes := zero_bytes 32.

(** The storage of the contract: [_nodes] and [_numLeaves]. *)
Abbreviation Nodes := (gmap Z bytes).

Section tree.
Context `{ITreeHash} (depth : nat).

Definition _MAX_NUM_LEAVES : Z := 2 ^ Z.of_nat depth.
Definition _MAX_NUM_NODES : Z := _MAX_NUM_LEAVES * 2 - 1.

Record TreeState : Type := mkTreeState { _nodes : Nodes; _numLeaves : Z }.

Definition load (nodes : Nodes) (i : Z) : result bytes :=
  if (0 <=? i) && (i <? _MAX_NUM_NODES) then Ok (default (zero_bytes 32) (nodes !! i)) else Err Panic.
Definition store (nodes : Nodes) (i : Z) (v : bytes) : result Nodes :=
  if (0 <=? i) && (i <? _MAX_NUM_NODES) then Ok (<[i := v]> nodes) else Err Panic.

Definition insert (st : TreeState) (commitment : bytes) : result TreeState :=
  _ ← require (_numLeaves st <? _MAX_NUM_LEAVES) "Merkle tree full: Cannot append anymore";
  let next_address := _numLeaves st in
  let next_entry_idx := (_MAX_NUM_LEAVES - 1) + next_address in
  nodes ← store (_nodes st) next_entry_idx commitment;
  Ok (mkTreeState nodes (_numLeaves st + 1)).

(** The node above a pair of children. *)
Definition hash_children (nodes : Nodes) (left right : Z) : result Nodes :=
  l ← load nodes left; r ← load nodes right;
  p ← usub left 1;
  store nodes (p / 2) (tree_hash l r).

(** The loop over populated pairs, from the right; [child_left_idx] falls by two. *)
Fixpoint recompute_full_pairs (fuel : nat) (nodes : Nodes) (child_left_idx child_left_idx_rend : Z) : result Nodes :=
  match fuel with
  | O => Err OutOfFuel
  | S f =>
      if child_left_idx_rend <? child_left_idx then
        left ← usub child_left_idx 2;
        nodes ← hash_children nodes left (left + 1);
        recompute_full_pairs f nodes left child_left_idx_rend
      else Ok nodes
  end.

Definition _recomputeParentLayer (nodes : Nodes) (childLayerSize childStartIdx childEndIdx : Z)
    : result (Nodes * (Z * Z)) :=
  child_layer_start ← usub childLayerSize 1;
  let child_left_idx_rend := child_layer_start + Z.land childStartIdx _MASK_LS_BIT in
  '(nodes, child_left_idx) ←
    (if negb (Z.land childEndIdx 1 =? 0) then
       left ← usub (child_layer_start + childEndIdx) 1;
       nodes ← hash_children nodes left (2 * child_layer_start);
       Ok (nodes, left)
     else Ok (nodes, child_layer_start + childEndIdx));
  nodes ← recompute_full_pairs (S (Z.to_nat childEndIdx)) nodes child_left_idx child_left_idx_rend;
  Ok (nodes, (childStartIdx / 2, (childEndIdx + 1) / 2)).

Fixpoint recompute_layers (fuel : nat) (nodes : Nodes) (start_idx end_idx layer_size : Z) : result Nodes :=
  match fuel with
  | O => Err OutOfFuel
  | S f =>
      if 1 <? layer_size then
        '(nodes, (start_idx, end_idx)) ← _recomputeParentLayer nodes layer_size start_idx end_idx;
        recompute_layers f nodes start_idx end_idx (layer_size / 2)
      else Ok nodes
  end.

Definition _recomputeRoot (st : TreeState) (numNewLeaves : Z) : result (bytes * TreeState) :=
  start_idx ← usub (_numLeaves st) numNewLeaves;
  nodes ← recompute_layers (S depth) (_nodes st) start_idx (_numLeaves st) _MAX_NUM_LEAVES;
  root ← load nodes 0;
  Ok (root, mkTreeState nodes (_numLeaves st)).

Fixpoint initialize_layers (fuel : nat) (nodes : Nodes) (default_value : bytes) (layer_size : Z) : result Nodes :=
  match fuel with
  | O => Err OutOfFuel
  | S f =>
      if 0 <? layer_size then
        let default_value := tree_hash default_value default_value in
        layer_final_entry_idx ← usub (2 * layer_size) 2;
        nodes ← store nodes layer_final_entry_idx default_value;
        initialize_layers f nodes default_value (layer_size / 2)
      else Ok nodes
  end.

Definition _initializeTree : result Nodes :=
  nodes ← store ∅ (2 * _MAX_NUM_LEAVES - 2) _DEFAULT_LEAF_VALUE;
  initialize_layers (S depth) nodes _DEFAULT_LEAF_VALUE (_MAX_NUM_LEAVES / 2).

(** The constructor. *)
Definition new_tree (treeDepth : Z) : result TreeState :=
  _ ← require (treeDepth =? Z.of_nat depth) "Invalid depth in AbstractMerkleTree";
  nodes ← _initializeTree;
  Ok (mkTreeState nodes 0).
End tree.

(** ** Lemmas *)

Lemma usub_ok a b : b ≤ a → usub a b = Ok (a - b).
Proof. intros. unfold usub. by rewrite (proj2 (Z.ltb_ge _ _)). Qed.

Section facts.
Context `{ITreeHash} (d : nat).

Abbreviation N := (2 ^ Z.of_nat d).

Lemma load_ok nodes i : 0 ≤ i < 2 * N - 1 → load d nodes i = Ok (default (zero_bytes 32) (nodes !! i)).
Proof.
  intros Hi. unfold load, _MAX_NUM_NODES, _MAX_NUM_LEAVES. rewrite (proj2 (Z.leb_le _ _)), (proj2 (Z.ltb_lt _ _)) by lia. done.
Qed.

Lemma store_ok nodes i v : 0 ≤ i < 2 * N - 1 → store d nodes i v = Ok (<[i := v]> nodes).
Proof.
  intros Hi. unfold store, _MAX_NUM_NODES, _MAX_NUM_LEAVES. rewrite (proj2 (Z.leb_le _ _)), (proj2 (Z.ltb_lt _ _)) by lia. done.
Qed.

(** The value at an index, zero where nothing was written. *)
Definition at_ (nodes : Nodes) (i : Z) : bytes := default (zero_bytes 32) (nodes !! i).

Lemma at_insert nodes i j v : at_ (<[i := v]> nodes) j = if decide (i = j) then v else at_ nodes j.
Proof.
  unfold at_. case_decide as E; [subst; by rewrite lookup_insert_eq | by rewrite lookup_insert_ne].
Qed.

Lemma at_empty i : at_ ∅ i = zero_bytes 32.
Proof. done. Qed.

Lemma mask_even s : 0 ≤ s < 2 ^ 256 → Z.land s _MASK_LS_BIT = 2 * (s / 2).
Proof.
  intros Hs. change _MASK_LS_BIT with (Z.shiftl (Z.ones 255) 1).
  replace (2 * (s / 2)) with (Z.shiftl (Z.shiftr s 1) 1) by (rewrite shiftr_1, Z.shiftl_mul_pow2 by lia; lia).
  apply Z.bits_inj'. intros n Hn. rewrite Z.land_spec, !Z.shiftl_spec by lia.
  destruct (Z.eq_dec n 0) as [->|]; [rewrite !(Z.testbit_neg_r _ (0 - 1)) by lia; apply andb_false_r|].
  rewrite Z.shiftr_spec by lia. replace (n - 1 + 1) with n by lia.
  rewrite Z.testbit_ones_nonneg by lia. destruct (n - 1 <? 255) eqn:E; prop_bool; [apply andb_true_r|].
  rewrite <- (Z.mod_small s (2 ^ 256)), Z.mod_pow2_bits_high by lia. done.
Qed.

(** The loop hashes the pairs from [a] to [b - 1] of a layer of [2 * K] entries into the
    layer above, which starts at [K - 1]; the children are not touched. *)
Lemma full_pairs_spec (C : Z → bytes) K a fuel : ∀ b nodes, 0 ≤ a ≤ b → b ≤ K → 2 * K ≤ N → (Z.to_nat (b - a) < fuel)%nat →
  (∀ i, 2 * a ≤ i < 2 * b → at_ nodes (2 * K - 1 + i) = C i) →
  ∃ nodes', recompute_full_pairs d fuel nodes (2 * K - 1 + 2 * b) (2 * K - 1 + 2 * a) = Ok nodes' ∧
    (∀ j, a ≤ j < b → at_ nodes' (K - 1 + j) = tree_hash (C (2 * j)) (C (2 * j + 1))) ∧
    (∀ i, i < K - 1 + a ∨ K - 1 + b ≤ i → at_ nodes' i = at_ nodes i).
Proof.
  induction fuel as [|fuel IH]; intros b nodes Hab HbK HK Hf HC; [lia|]. cbn [recompute_full_pairs].
  destruct (Z.ltb_spec (2 * K - 1 + 2 * a) (2 * K - 1 + 2 * b)) as [Hlt|Hge].
  - rewrite usub_ok by lia. cbn [mbind result_bind]. unfold hash_children.
    rewrite !load_ok by lia. cbn [mbind result_bind]. rewrite usub_ok by lia. cbn [mbind result_bind].
    replace ((2 * K - 1 + 2 * b - 2 - 1) / 2) with (K - 1 + (b - 1)) by (apply Z.div_unique_exact; lia).
    rewrite store_ok by lia. cbn [mbind result_bind].
    fold (at_ nodes (2 * K - 1 + 2 * b - 2)). fold (at_ nodes (2 * K - 1 + 2 * b - 2 + 1)).
    replace (2 * K - 1 + 2 * b - 2 + 1) with (2 * K - 1 + (2 * (b - 1) + 1)) by lia.
    replace (2 * K - 1 + 2 * b - 2) with (2 * K - 1 + 2 * (b - 1)) by lia. rewrite !HC by lia.
    set (nodes1 := <[K - 1 + (b - 1) := _]> nodes).
    destruct (IH (b - 1) nodes1) as (nodes' & -> & Hnew & Hfr); try lia.
    { intros i Hi. unfold nodes1. rewrite at_insert, decide_False by lia. apply HC. lia. }
    exists nodes'. split; [done|]. split.
    + intros j Hj. destruct (Z.eq_dec j (b - 1)) as [->|]; [|apply Hnew; lia].
      rewrite Hfr by lia. unfold nodes1. by rewrite at_insert, decide_True.
    + intros i Hi. rewrite Hfr by lia. unfold nodes1. by rewrite at_insert, decide_False by lia.
  - exists nodes. split; [done|]. split; [lia | done].
Qed.

(** One layer: with the children [C] up to [e] and the default at the end of the layer,
    the parents from [s / 2] to [(e + 1) / 2] are recomputed. *)
Lemma parent_layer_spec (C : Z → bytes) K s e nodes : 0 ≤ s ≤ e → e ≤ 2 * K → 2 * K ≤ N → 1 ≤ K → N < 2 ^ 256 →
  (∀ i, 0 ≤ i < e → at_ nodes (2 * K - 1 + i) = C i) →
  (Z.odd e = true → at_ nodes (2 * K - 1 + (2 * K - 1)) = C e) →
  ∃ nodes', _recomputeParentLayer d nodes (2 * K) s e = Ok (nodes', (s / 2, (e + 1) / 2)) ∧
    (∀ j, s / 2 ≤ j < (e + 1) / 2 → at_ nodes' (K - 1 + j) = tree_hash (C (2 * j)) (C (2 * j + 1))) ∧
    (∀ i, i < K - 1 + s / 2 ∨ K - 1 + (e + 1) / 2 ≤ i → at_ nodes' i = at_ nodes i).
Proof.
  intros Hse HeK HK HK1 HN HC Hlast. unfold _recomputeParentLayer. rewrite usub_ok by lia. cbn [mbind result_bind].
  rewrite mask_even, land_1_odd by lia. pose proof (half_odd e) as He. pose proof (half_odd s) as Hs.
  assert (s / 2 ≤ (e + 1) / 2) as Hhalf by (apply Z.div_le_mono; lia).
  assert (0 ≤ s / 2) by (apply Z.div_pos; lia).
  destruct (Z.odd e) eqn:Eo.
  - assert ((e + 1) / 2 = e / 2 + 1) as Ehalf by (symmetry; apply Z.div_unique with 0; lia).
    rewrite usub_ok by lia. cbn [mbind result_bind]. unfold hash_children.
    replace (2 * K - 1 + e - 1) with (2 * K - 1 + 2 * (e / 2)) by lia. rewrite !load_ok by lia. cbn [mbind result_bind].
    rewrite usub_ok by lia. cbn [mbind result_bind].
    replace ((2 * K - 1 + 2 * (e / 2) - 1) / 2) with (K - 1 + e / 2) by (apply Z.div_unique_exact; lia).
    rewrite store_ok by lia. cbn [mbind result_bind].
    fold (at_ nodes (2 * K - 1 + 2 * (e / 2))). fold (at_ nodes (2 * (2 * K - 1))).
    replace (2 * (2 * K - 1)) with (2 * K - 1 + (2 * K - 1)) by lia. rewrite Hlast by done. rewrite HC by lia.
    set (nodes1 := <[K - 1 + e / 2 := _]> nodes).
    assert (s / 2 ≤ e / 2) by (apply Z.div_le_mono; lia).
    destruct (full_pairs_spec C K (s / 2) (S (Z.to_nat e)) (e / 2) nodes1) as (nodes' & -> & Hnew & Hfr); try lia.
    { intros i Hi. unfold nodes1. rewrite at_insert, decide_False by lia. apply HC. lia. }
    cbn [mbind result_bind]. exists nodes'. split; [done|]. rewrite Ehalf. split.
    + intros j Hj. destruct (Z.eq_dec j (e / 2)) as [->|]; [|apply Hnew; lia].
      rewrite Hfr by lia. unfold nodes1. rewrite at_insert, decide_True by done. do 2 f_equal. lia.
    + intros i Hi. rewrite Hfr by lia. unfold nodes1. by rewrite at_insert, decide_False by lia.
  - assert ((e + 1) / 2 = e / 2) as Ehalf by (symmetry; apply Z.div_unique with 1; lia). rewrite Ehalf in *.
    cbn [mbind result_bind]. replace (2 * K - 1 + e) with (2 * K - 1 + 2 * (e / 2)) by lia.
    destruct (full_pairs_spec C K (s / 2) (S (Z.to_nat e)) (e / 2) nodes) as (nodes' & -> & Hnew & Hfr); try lia.
    { intros i Hi. apply HC. lia. }
    cbn [mbind result_bind]. by exists nodes'.
Qed.

(** ** The invariant of the storage *)

Definition size (h : nat) : Z := 2 ^ Z.of_nat (d - h).

(** The nodes of height [h] that have a leaf below them, and the last one of the layer,
    which is the default unless the layer is full. *)
Definition layer_at (l : list bytes) (h : nat) (nodes : Nodes) : Prop :=
  ∀ i, 0 ≤ i → i < touched (zlen l) h ∨ i = size h - 1 → at_ nodes (size h - 1 + i) = node l h i.

(** All leaves are stored; the inner layers account for the first [m] of them. *)
Record contract_inv (l : list bytes) (m : Z) (st : TreeState) : Prop := {
  ci_num : _numLeaves st = zlen l;
  ci_full : zlen l ≤ N;
  ci_done : 0 ≤ m ≤ zlen l;
  ci_leaves : layer_at l 0 (_nodes st);
  ci_inner : ∀ h : nat, (1 ≤ h ≤ d)%nat → layer_at (take (Z.to_nat m) l) h (_nodes st)
}.

Lemma size_S h : (h < d)%nat → size h = 2 * size (S h).
Proof. intros. unfold size. by rewrite <- pow2_S; f_equal; f_equal; lia. Qed.
Lemma size_pos h : 1 ≤ size h.
Proof. unfold size. pose proof (pow2_pos (d - h)). lia. Qed.
Lemma size_mul h : (h ≤ d)%nat → size h * 2 ^ Z.of_nat h = N.
Proof. intros. unfold size. rewrite <- Z.pow_add_r by lia. f_equal. lia. Qed.
Lemma size_lt h h' : (h < h' ≤ d)%nat → 2 * size h' ≤ size h.
Proof.
  intros. unfold size. rewrite <- pow2_S. apply Z.pow_le_mono_r; lia.
Qed.
Lemma size_le h : size h ≤ N.
Proof. unfold size. apply Z.pow_le_mono_r; lia. Qed.

Lemma touched_size m h : (h ≤ d)%nat → m ≤ N → touched m h ≤ size h.
Proof.
  intros Hh Hm. pose proof (size_mul h Hh). pose proof (pow2_pos h).
  unfold touched. apply Z.lt_succ_r, Z.div_lt_upper_bound; nia.
Qed.

(** Writing to one layer keeps the others. *)
Lemma layer_at_frame l h k nodes nodes' : (h ≤ d)%nat → (k ≤ d)%nat → h ≠ k → zlen l ≤ N →
  (∀ i, i < size k - 1 ∨ 2 * size k - 1 ≤ i → at_ nodes' i = at_ nodes i) → layer_at l h nodes → layer_at l h nodes'.
Proof.
  intros Hh Hk Hne Hl Hfr Hlay i Hi Hcase. rewrite Hfr; [by apply Hlay|].
  assert (i < size h) by (pose proof (touched_size (zlen l) h Hh Hl); destruct Hcase; lia).
  destruct (Nat.lt_ge_cases h k); [right; pose proof (size_lt h k) | left; pose proof (size_lt k h)]; lia.
Qed.

(** The parents of the children of height [h]: what was right stays, and the nodes from
    [s] on are recomputed. *)
Lemma recompute_parent_at l m s h nodes : (h < d)%nat → N < 2 ^ 256 → zlen l ≤ N → 0 ≤ m ≤ zlen l →
  0 ≤ s ≤ zlen l → 2 * (s / 2) ≤ m → layer_at l h nodes → layer_at (take (Z.to_nat m) l) (S h) nodes →
  ∃ nodes', _recomputeParentLayer d nodes (size h) (s / 2 ^ Z.of_nat h) (touched (zlen l) h) =
      Ok (nodes', (s / 2 ^ Z.of_nat (S h), touched (zlen l) (S h))) ∧
    layer_at l (S h) nodes' ∧
    ∀ i, i < size (S h) - 1 ∨ 2 * size (S h) - 1 ≤ i → at_ nodes' i = at_ nodes i.
Proof.
  intros Hh HN Hl Hm Hs Hsm Hc Hp. set (K := size (S h)) in *. set (e := touched (zlen l) h).
  assert (size h = 2 * K) as ES by by apply size_S. pose proof (size_pos (S h)) as HK1. fold K in HK1.
  pose proof (pow2_pos h) as Hph. pose proof (pow2_pos (S h)) as HpS.
  assert (e ≤ 2 * K) as He by (rewrite <- ES; apply touched_size; lia).
  assert (touched (zlen l) (S h) ≤ K) as HeS by (apply touched_size; lia).
  assert (0 ≤ s / 2 ^ Z.of_nat h ≤ e) as Hse.
  { split; [apply Z.div_pos; lia|]. etrans; [apply floor_le_touched|]. apply touched_mono; lia. }
  rewrite ES. destruct (parent_layer_spec (λ i, node l h i) K (s / 2 ^ Z.of_nat h) e nodes) as (nodes' & -> & Hnew & Hfr);
    [lia | lia | rewrite <- ES; apply size_le | lia | lia | | |].
  - intros i Hi. rewrite <- ES. apply Hc; [lia | left; unfold e in Hi; lia].
  - intros Ho. assert (e ≠ 2 * K) by (intros E; rewrite E, Z.odd_mul in Ho; done).
    rewrite <- ES, Hc; [|lia | by right]. rewrite (node_touched l h (size h - 1)), (node_touched l h e) by lia. done.
  - unfold e in Hnew, Hfr |- *. rewrite <- touched_S, <- floor_S in Hnew, Hfr |- *. exists nodes'. split; [done|]. split.
    + intros j Hj Hcase. fold K in Hcase |- *.
      destruct (Z.lt_ge_cases j (touched (zlen l) (S h))) as [Hlt|Hge];
        [destruct (Z.lt_ge_cases j (s / 2 ^ Z.of_nat (S h))) as [Hlow|Hhigh]|].
      * assert ((j + 1) * 2 ^ Z.of_nat (S h) ≤ m) as Hin.
        { pose proof (Z.mul_div_le s (2 ^ Z.of_nat (S h)) ltac:(lia)). rewrite pow2_S in *.
          set (q := s / (2 * 2 ^ Z.of_nat h)) in *. assert (q * 2 ^ Z.of_nat h ≤ s / 2) by (apply Z.div_le_lower_bound; lia).
          nia. }
        rewrite Hfr by lia. rewrite <- (node_take l m) by lia. apply Hp; [done|]. left.
        rewrite zlen_take_Z by lia. pose proof (floor_le_touched m (S h)).
        assert (j + 1 ≤ m / 2 ^ Z.of_nat (S h)) by (apply Z.div_le_lower_bound; lia). lia.
      * by apply Hnew.
      * assert (j = K - 1) as -> by (destruct Hcase; lia). rewrite Hfr by lia.
        rewrite Hp by (try lia; by right). rewrite (node_touched l) by lia. apply node_touched; [|lia].
        rewrite zlen_take_Z by lia. pose proof (touched_mono m (zlen l) (S h)). lia.
    + intros i Hi. apply Hfr. assert (0 ≤ s / 2 ^ Z.of_nat (S h)) by (apply Z.div_pos; lia). lia.
Qed.
Lemma recompute_layers_spec l m s (j : nat) : ∀ h nodes, (h + j)%nat = d → N < 2 ^ 256 → zlen l ≤ N →
  0 ≤ m ≤ zlen l → 0 ≤ s ≤ zlen l → 2 * (s / 2) ≤ m →
  (∀ k, (k ≤ h)%nat → layer_at l k nodes) →
  (∀ k, (h < k ≤ d)%nat → layer_at (take (Z.to_nat m) l) k nodes) →
  ∃ nodes', recompute_layers d (S j) nodes (s / 2 ^ Z.of_nat h) (touched (zlen l) h) (size h) = Ok nodes' ∧
    ∀ k, (k ≤ d)%nat → layer_at l k nodes'.
Proof.
  induction j as [|j IH]; intros h nodes Hj HN Hl Hm Hs Hsm Hlow Hhigh; cbn [recompute_layers].
  - replace (size h) with 1 by (unfold size; by replace (d - h)%nat with 0%nat by lia). cbn.
    exists nodes. split; [done|]. intros. apply Hlow. lia.
  - rewrite (proj2 (Z.ltb_lt _ _)) by (rewrite size_S by lia; pose proof (size_pos (S h)); lia).
    destruct (recompute_parent_at l m s h nodes) as (nodes1 & -> & Hnew & Hfr); eauto with lia.
    cbn [mbind result_bind].
    replace (size h / 2) with (size (S h)) by (rewrite (size_S h) by lia; apply Z.div_unique_exact; lia).
    assert (zlen (take (Z.to_nat m) l) ≤ N) as Hlm by (rewrite zlen_take_Z; lia).
    apply IH; try lia; intros k Hk.
    + destruct (Nat.eq_dec k (S h)) as [->|]; [done|]. eapply (layer_at_frame l k (S h)); eauto with lia.
    + eapply (layer_at_frame _ k (S h)); eauto with lia.
Qed.

(** Recomputing over enough leaves makes the root that of all leaves. *)
Lemma recompute_root_spec l m n st : N < 2 ^ 256 → contract_inv l m st → 0 ≤ n ≤ zlen l → 2 * ((zlen l - n) / 2) ≤ m →
  ∃ st', _recomputeRoot d st n = Ok (spec_root d l, st') ∧ contract_inv l (zlen l) st'.
Proof.
  intros HN [Hnum Hfull Hm Hleaves Hinner] Hn Hsm. unfold _recomputeRoot. rewrite Hnum, usub_ok by lia.
  cbn [mbind result_bind]. unfold _MAX_NUM_LEAVES.
  destruct (recompute_layers_spec l m (zlen l - n) d 0 (_nodes st)) as (nodes' & E & Hlay);
    [done | done | done | lia | lia | done | intros k Hk; by replace k with 0%nat by lia | intros; apply Hinner; lia |].
  replace ((zlen l - n) / 2 ^ Z.of_nat 0) with (zlen l - n) in E by (cbn; symmetry; apply Z.div_1_r).
  rewrite touched_0 in E. replace (size 0) with N in E by (unfold size; by rewrite Nat.sub_0_r).
  rewrite E. cbn [mbind result_bind]. rewrite load_ok by (pose proof (pow2_pos d); lia). cbn [mbind result_bind].
  eexists. split.
  - do 3 f_equal. specialize (Hlay d ltac:(lia) 0 ltac:(lia)). unfold size in Hlay. rewrite Nat.sub_diag in Hlay.
    apply Hlay. right. done.
  - split; cbn; [done | done | lia | apply Hlay; lia |]. intros h Hh. rewrite take_ge by (unfold zlen; lia).
    apply Hlay. lia.
Qed.
Lemma size_0 : size 0 = N.
Proof. unfold size. by rewrite Nat.sub_0_r. Qed.

(** A leaf is written: the inner layers are as before. *)
Lemma layer_frame_leaf l h nodes i v : (1 ≤ h ≤ d)%nat → zlen l ≤ N → N - 1 ≤ i < 2 * N - 1 →
  layer_at l h nodes → layer_at l h (<[i := v]> nodes).
Proof.
  intros Hh Hl Hi Hlay. eapply (layer_at_frame l h 0); [lia | lia | lia | done | | exact Hlay].
  intros j Hj. rewrite size_0 in Hj. rewrite at_insert, decide_False; [done | lia].
Qed.

Lemma insert_spec l m st v : contract_inv l m st → zlen l < N →
  ∃ st', insert d st v = Ok st' ∧ contract_inv (l ++ [v]) m st'.
Proof.
  intros [Hnum Hfull Hm Hleaves Hinner] Hlt. unfold insert, _MAX_NUM_LEAVES. rewrite Hnum.
  rewrite (proj2 (Z.ltb_lt _ _)) by done. cbn [require mbind result_bind].
  rewrite store_ok by (pose proof (zlen_nonneg l); lia). cbn [mbind result_bind]. eexists. split; [done|].
  assert (zlen (l ++ [v]) = zlen l + 1) as Hz by (rewrite zlen_app; done).
  split; cbn [_nodes _numLeaves]; [lia | lia | lia | |].
  - intros i Hi Hcase. rewrite touched_0, Hz in Hcase. rewrite size_0 in *. rewrite at_insert. cbn [node].
    case_decide as Hdec.
    + replace i with (zlen l) by lia. unfold zlen. by rewrite Nat2Z.id, lookup_app_r, Nat.sub_diag by lia.
    + assert (i ≠ zlen l) by lia. specialize (Hleaves i Hi). rewrite touched_0, size_0 in Hleaves.
      rewrite Hleaves by lia. cbn [node]. f_equal.
      destruct (Z.lt_ge_cases i (zlen l)) as [|Hge].
      * by rewrite lookup_app_l by (unfold zlen in *; lia).
      * rewrite !lookup_ge_None_2; [done | rewrite length_app; cbn; unfold zlen in *; lia | unfold zlen in *; lia].
  - intros h Hh. rewrite take_app_le by (unfold zlen in *; lia).
    apply layer_frame_leaf; [done | rewrite zlen_take_Z; lia | pose proof (zlen_nonneg l); lia | by apply Hinner].
Qed.

(** A full tree refuses the leaf. *)
Lemma insert_full_reverts l m st v : contract_inv l m st → zlen l = N →
  insert d st v = Err (Exception "Merkle tree full: Cannot append anymore").
Proof.
  intros [Hnum _ _ _ _] Hf. unfold insert, _MAX_NUM_LEAVES. rewrite Hnum, Hf.
  by rewrite (proj2 (Z.ltb_ge _ _)) by lia.
Qed.

Lemma insert_all_spec vs : ∀ l m st, contract_inv l m st → zlen l + zlen vs ≤ N →
  ∃ st', foldM (insert d) st vs = Ok st' ∧ contract_inv (l ++ vs) m st'.
Proof.
  induction vs as [|v vs IH]; intros l m st Hinv Hlen; cbn [foldM].
  - exists st. by rewrite app_nil_r.
  - assert (zlen (v :: vs) = 1 + zlen vs) as Hz by (unfold zlen; cbn; lia). pose proof (zlen_nonneg vs).
    destruct (insert_spec l m st v Hinv) as (st1 & -> & Hinv1); [lia|]. cbn [mbind result_bind].
    destruct (IH (l ++ [v]) m st1 Hinv1) as (st' & -> & Hinv'); [rewrite zlen_app; change (zlen [v]) with 1; lia|].
    exists st'. by rewrite <- app_assoc in Hinv'.
Qed.

(** ** The initial tree *)

Lemma initialize_layers_S f nodes v ls : 0 < ls →
  initialize_layers d (S f) nodes v ls =
    (layer_final_entry_idx ← usub (2 * ls) 2;
     nodes ← store d nodes layer_final_entry_idx (tree_hash v v);
     initialize_layers d f nodes (tree_hash v v) (ls / 2)).
Proof. intros. cbn [initialize_layers]. by rewrite (proj2 (Z.ltb_lt _ _)). Qed.

Lemma initialize_layers_spec (j : nat) : ∀ h nodes, (h + j)%nat = d →
  ∃ nodes', initialize_layers d (S j) nodes (default_node h) (size h / 2) = Ok nodes' ∧
    (∀ k, (h < k ≤ d)%nat → at_ nodes' (2 * size k - 2) = default_node k) ∧
    (∀ i, 2 * size h - 2 ≤ i → at_ nodes' i = at_ nodes i).
Proof.
  induction j as [|j IH]; intros h nodes Hj.
  - replace (size h) with 1 by (unfold size; by replace (d - h)%nat with 0%nat by lia). cbn.
    exists nodes. split; [done|]. split; [lia | done].
  - replace (size h / 2) with (size (S h)) by (rewrite (size_S h) by lia; apply Z.div_unique_exact; lia).
    pose proof (size_pos (S h)). pose proof (size_le (S h)) as Hle. pose proof (size_S h ltac:(lia)) as ES.
    pose proof (size_le h).
    rewrite initialize_layers_S, usub_ok by lia. cbn [mbind result_bind].
    rewrite store_ok by lia. cbn [mbind result_bind].
    destruct (IH (S h) (<[2 * size (S h) - 2 := default_node (S h)]> nodes)) as (nodes' & E & Hnew & Hfr); [lia|].
    cbn [default_node] in E. rewrite E. exists nodes'. split; [done|]. split.
    + intros k Hk. destruct (Nat.eq_dec k (S h)) as [->|]; [|apply Hnew; lia].
      rewrite Hfr by lia. by rewrite at_insert, decide_True.
    + intros i Hi. rewrite Hfr by lia. rewrite at_insert, decide_False; [done | lia].
Qed.

(** The constructor makes the tree of no leaves. *)
Lemma new_tree_spec : ∃ st, new_tree d (Z.of_nat d) = Ok st ∧ contract_inv [] 0 st.
Proof.
  unfold new_tree. rewrite Z.eqb_refl. cbn [require mbind result_bind]. unfold _initializeTree, _MAX_NUM_LEAVES.
  pose proof (pow2_pos d). rewrite store_ok by lia. cbn [mbind result_bind].
  destruct (initialize_layers_spec d 0 (<[2 * N - 2 := _DEFAULT_LEAF_VALUE]> ∅)) as (nodes & E & Hnew & Hfr); [done|].
  rewrite size_0 in E, Hfr. change (default_node 0) with _DEFAULT_LEAF_VALUE in E. rewrite E.
  cbn [mbind result_bind]. eexists. split; [done|].
  assert (∀ h : nat, (h ≤ d)%nat → layer_at [] h nodes) as Hall.
  { intros h Hh i Hi Hcase. assert (i = size h - 1) as ->.
    { pose proof (touched_le (zlen (@nil bytes)) h ltac:(done)) as Ht. change (zlen (@nil bytes)) with 0 in Ht, Hcase. lia. }
    rewrite node_default by (unfold zlen; cbn; pose proof (pow2_pos h); pose proof (size_pos h); nia).
    replace (size h - 1 + (size h - 1)) with (2 * size h - 2) by lia.
    destruct h as [|h]; [|apply Hnew; lia].
    rewrite size_0, Hfr by lia. by rewrite at_insert, decide_True. }
  change (zlen (@nil bytes)) with 0 in *.
  split; cbn [_nodes _numLeaves]; change (zlen (@nil bytes)) with 0; [done | lia | lia | apply Hall; lia |].
  intros h Hh. apply Hall. lia.
Qed.

(** The node 0 is the root. *)
Lemma root_node l st : contract_inv l (zlen l) st → at_ (_nodes st) 0 = spec_root d l.
Proof.
  intros [_ _ _ Hleaves Hinner].
  assert (∀ h, (h ≤ d)%nat → layer_at l h (_nodes st)) as Hl.
  { intros [|h] Hh; [exact Hleaves|]. specialize (Hinner (S h) ltac:(lia)).
    by rewrite take_ge in Hinner by (unfold zlen; lia). }
  specialize (Hl d ltac:(lia) 0 ltac:(lia)). unfold size in Hl. rewrite Nat.sub_diag in Hl. apply Hl. by right.
Qed.

(** A batch: the leaves are inserted, then the root over them is recomputed. *)
Definition append_batch (st : TreeState) (vs : list bytes) : result (bytes * TreeState) :=
  st ← foldM (insert d) st vs;
  _recomputeRoot d st (zlen vs).

Lemma append_batch_spec l st vs : N < 2 ^ 256 → contract_inv l (zlen l) st → zlen l + zlen vs ≤ N →
  ∃ st', append_batch st vs = Ok (spec_root d (l ++ vs), st') ∧ contract_inv (l ++ vs) (zlen (l ++ vs)) st'.
Proof.
  intros HN Hinv Hlen. unfold append_batch.
  destruct (insert_all_spec vs l _ st Hinv Hlen) as (st1 & -> & Hinv1). cbn [mbind result_bind].
  pose proof (zlen_nonneg l). pose proof (zlen_nonneg vs).
  apply (recompute_root_spec _ (zlen l)); [done | done | rewrite zlen_app; lia |].
  rewrite zlen_app. replace (zlen l + zlen vs - zlen vs) with (zlen l) by lia.
  pose proof (Z.mul_div_le (zlen l) 2). lia.
Qed.
End facts.

(** The roots a contract and a client compute along a history of batches. *)
Fixpoint contract_roots `{ITreeHash} (d : nat) (st : TreeState) (batches : list (list bytes))
    : result (list bytes * TreeState) :=
  match batches with
  | [] => Ok ([], st)
  | vs :: batches =>
      '(root, st) ← append_batch d st vs;
      '(roots, st) ← contract_roots d st batches;
      Ok (root :: roots, st)
  end.

Fixpoint client_roots `{ITreeHash} (t : MerkleTree) (batches : list (list bytes)) : result (list bytes * MerkleTree) :=
  match batches with
  | [] => Ok ([], t)
  | vs :: batches =>
      t ← add_batch t vs;
      root ← get_root t;
      '(roots, t) ← client_roots t batches;
      Ok (root :: roots, t)
  end.

(** The roots of the reference tree after each batch. *)
Fixpoint spec_roots `{ITreeHash} (d : nat) (l : list bytes) (batches : list (list bytes)) : list bytes :=
  match batches with
  | [] => []
  | vs :: batches => spec_root d (l ++ vs) :: spec_roots d (l ++ vs) batches
  end.

Section histories.
Context `{ITreeHash} (d : nat).

Lemma contract_roots_spec batches : ∀ l st, 2 ^ Z.of_nat d < 2 ^ 256 → contract_inv d l (zlen l) st →
  zlen l + zlen (concat batches) ≤ 2 ^ Z.of_nat d →
  ∃ st', contract_roots d st batches = Ok (spec_roots d l batches, st') ∧
    contract_inv d (l ++ concat batches) (zlen (l ++ concat batches)) st'.
Proof.
  induction batches as [|vs batches IH]; intros l st HN Hinv Hfit; cbn [contract_roots spec_roots concat].
  - exists st. by rewrite app_nil_r.
  - cbn [concat] in Hfit. rewrite zlen_app in Hfit. pose proof (zlen_nonneg (concat batches)).
    destruct (append_batch_spec d l st vs HN Hinv) as (st1 & -> & Hinv1); [lia|]. cbn [mbind result_bind].
    destruct (IH (l ++ vs) st1 HN Hinv1) as (st' & -> & Hinv'); [rewrite zlen_app; lia|]. cbn [mbind result_bind].
    exists st'. by rewrite <- app_assoc in Hinv'.
Qed.

Lemma client_roots_spec batches : ∀ l t, (1 ≤ d ≤ 52)%nat → tree_inv d l t → num_new_leaves t = 0 →
  zlen l + zlen (concat batches) ≤ 2 ^ Z.of_nat d →
  ∃ t', client_roots t batches = Ok (spec_roots d l batches, t') ∧ tree_inv d (l ++ concat batches) t'.
Proof.
  induction batches as [|vs batches IH]; intros l t Hd Hinv Hclean Hfit; cbn [client_roots spec_roots concat].
  - exists t. by rewrite app_nil_r.
  - cbn [concat] in Hfit. rewrite zlen_app in Hfit. pose proof (zlen_nonneg (concat batches)).
    destruct (add_batches_inv d Hd [vs] l t Hinv Hclean) as (t1 & E & Hinv1 & Hc1); [cbn; rewrite app_nil_r; lia|].
    cbn [foldM concat] in E, Hinv1. rewrite app_nil_r in Hinv1. destruct (add_batch t vs) as [t2|]; [|done].
    cbn in E. apply Ok_inj in E as ->. cbn [mbind result_bind].
    rewrite (get_root_inv d ltac:(lia) (l ++ vs)) by done. cbn [mbind result_bind].
    destruct (IH (l ++ vs) t1 Hd Hinv1 Hc1) as (t' & -> & Hinv'); [rewrite zlen_app; lia|]. cbn [mbind result_bind].
    exists t'. by rewrite <- app_assoc in Hinv'.
Qed.

(** C2: the tree of the contract and the tree of the client agree: from the
    constructors, along every history of batches that fits, neither fails and after
    each batch both report the same root, that of the reference tree over all leaves so
    far; one more leaf in a full tree reverts. *)
Theorem contract_client_roots (batches : list (list bytes)) (v : bytes)
  (Hd : (1 ≤ d ≤ 52)%nat) (Hfit : zlen (concat batches) ≤ 2 ^ Z.of_nat d) :
  ∃ st0 t0 st t, new_tree d (Z.of_nat d) = Ok st0 ∧ empty_with_depth (Z.of_nat d) = Ok t0 ∧
    contract_roots d st0 batches = Ok (spec_roots d [] batches, st) ∧
    client_roots t0 batches = Ok (spec_roots d [] batches, t) ∧
    get_leaves t = Ok (concat batches) ∧ _numLeaves st = zlen (concat batches) ∧
    (zlen (concat batches) = 2 ^ Z.of_nat d →
       insert d st v = Err (Exception "Merkle tree full: Cannot append anymore")).
Proof.
  assert (2 ^ Z.of_nat d < 2 ^ 256) as HN by (apply Z.pow_lt_mono_r; lia).
  destruct (new_tree_spec d) as (st0 & E0 & Hinv). destruct (empty_inv d ltac:(lia)) as (t0 & T0 & Htree & Hclean).
  destruct (contract_roots_spec batches [] st0 HN Hinv Hfit) as (st & E & Hst).
  destruct (client_roots_spec batches [] t0 Hd Htree Hclean Hfit) as (t & T & Ht).
  exists st0, t0, st, t. split_and!; [done | done | done | done | by apply (inv_get_leaves d) | apply Hst |].
  intros Hfull. by apply (insert_full_reverts d (concat batches) (zlen (concat batches))).
Qed.
End histories.

(** ** A concrete history *)

Module TreeSample.
#[local] Existing Instance Sample.toy_tree.

Lemma contract_client_roots_witness :
  ∃ st0 t0 st t, new_tree 2 2 = Ok st0 ∧ empty_with_depth 2 = Ok t0 ∧
    contract_roots 2 st0 [[Sample.leaf 7]; [Sample.leaf 8; Sample.leaf 9; Sample.leaf 1]] =
      Ok (spec_roots 2 [] [[Sample.leaf 7]; [Sample.leaf 8; Sample.leaf 9; Sample.leaf 1]], st) ∧
    client_roots t0 [[Sample.leaf 7]; [Sample.leaf 8; Sample.leaf 9; Sample.leaf 1]] =
      Ok (spec_roots 2 [] [[Sample.leaf 7]; [Sample.leaf 8; Sample.leaf 9; Sample.leaf 1]], t) ∧
    insert 2 st (Sample.leaf 5) = Err (Exception "Merkle tree full: Cannot append anymore").
Proof.
  destruct (contract_client_roots 2 [[Sample.leaf 7]; [Sample.leaf 8; Sample.leaf 9; Sample.leaf 1]] (Sample.leaf 5))
    as (st0 & t0 & st & t & E0 & T0 & E & T & _ & _ & Hf); [lia | vm_compute; discriminate |].
  exists st0, t0, st, t. split; [exact E0|]. split; [exact T0|]. split; [exact E|]. split; [exact T|].
  apply Hf. vm_compute. reflexivity.
Defined.
End TreeSample.
End AbstractMerkleTree.
