(* ===== verification/ContractMixer.v ===== *)
(** * The mixer contract ([AbstractMixer.sol], [LibMiMC.sol], [LibOTSchnorrVerifier.sol])

    The contract the client talks to: the hash of its tree, the verifier of one-time
    signatures, and the mixer with its state (accepted roots, used nullifiers, tree of
    commitments).  A revert undoes the whole call, so a call is a function to a result;
    transfers to other accounts come last in a call and are returned as actions whose
    outcome the environment gives.  Not in the sources: keccak-256 and the curve
    precompiles of the machine and the decoder of call data, which are parameters; so is the
    zk-SNARK verifier, which [VerifierAltBN128], [VerifierBLS] and [VerifierPghr13]
    instantiate.  Gas is not modelled. *)

From Stdlib Require Import ZArith Lia Ascii String Strings.Byte.
From stdpp Require Import base tactics list gmap strings.
From S2P Require Import Prelude PyStr PyBytes PyFloat PyIO Hashes Constants MerkleTree MerkleTreeFacts Mimc MimcFacts Signing ContractTree.

Local Open Scope Z_scope.

Import AbstractMerkleTree(Panic, require, usub, TreeState).

#[export] Instance byte_countable : Countable byte := inj_countable Byte.to_N Byte.of_N Byte.of_to_N.

(** [bytes32(x)] of a word, and [uint256(b)] is [int_from_bytes]. *)
Definition bytes32 (x : Z) : bytes := to_be 32 x.
(** [abi.encodePacked] of words. *)
Definition pack_words (ws : list Z) : bytes := ws ≫= to_be 32.

Module LibMiMC.
Section hash.
Context (keccak_256 : bytes → bytes).

Definition addmod (x y r : Z) : Z := (x + y) mod r.
Definition mulmod (x y r : Z) : Z := (x * y) mod r.

(** The seventeenth power by squarings. *)
Definition pow17 (a r : Z) : Z :=
  let a2 := mulmod a a r in
  let a4 := mulmod a2 a2 r in
  let a8 := mulmod a4 a4 r in
  mulmod (mulmod a8 a8 r) a r.

Definition SEED : Z := 0xdec937b7fa8db3de380427a8cc947bfab68514522c3439cfa2e9965509836814.

(** The loop; [word] is the contents of the memory word at 0. *)
Fixpoint rounds_loop (n : nat) (a y r word : Z) : Z :=
  match n with
  | O => a
  | S n =>
      let roundConstant := int_from_bytes (keccak_256 (bytes32 word)) in
      let a := addmod (addmod a roundConstant r) y r in
      rounds_loop n (pow17 a r) y r roundConstant
  end.

Definition _hash_e17 (x y : bytes) (r : Z) (rounds : nat) : bytes :=
  let x := int_from_bytes x in
  let y := int_from_bytes y in
  let a := pow17 (addmod x y r) r in
  let a := rounds_loop (rounds - 1) a y r SEED in
  let a := addmod a y r in
  bytes32 (addmod (addmod a x r) y r).

Definition _hashAltBN128 (x y : bytes) : bytes :=
  _hash_e17 x y 21888242871839275222246405745257275088548364400416034343698204186575808495617 65.
Definition _hashBLS12_377 (x y : bytes) : bytes :=
  _hash_e17 x y 8444461749428370424248824938781546531375899335154063827935233455917409239041 62.
End hash.
End LibMiMC.

(** The precompiled contracts 6 and 7 on pairs of words; a call on words that are not a
    point of the curve fails. *)
Class EcPrecompiles := {
  ecAdd : Z * Z → Z * Z → option (Z * Z);
  ecMul : Z * Z → Z → option (Z * Z)
}.

(** The words of a point: the point at infinity is the pair of zeros. *)
Definition g1_words (P : G1) : Z * Z := default (0, 0) P.

(** The precompiles compute on the group of [py_ecc], with the generator (1, 2). *)
Class EcPrecompilesLaws `{BN128} `{EcPrecompiles} : Prop := {
  ec_generator : g1_words ec_G1 = (1, 2);
  ecMul_generator k : 0 ≤ k < 2 ^ 256 → ecMul (g1_words ec_G1) k = Some (g1_words (ec_multiply ec_G1 k));
  ecMul_spec a k : 0 ≤ a → 0 ≤ k < 2 ^ 256 →
    ecMul (g1_words (ec_multiply ec_G1 a)) k = Some (g1_words (ec_multiply (ec_multiply ec_G1 a) k));
  ecAdd_spec a b : 0 ≤ a → 0 ≤ b →
    ecAdd (g1_words (ec_multiply ec_G1 a)) (g1_words (ec_multiply ec_G1 b)) =
      Some (g1_words (ec_add (ec_multiply ec_G1 a) (ec_multiply ec_G1 b)));
  g1_words_inj a b : 0 ≤ a → 0 ≤ b →
    g1_words (ec_multiply ec_G1 a) = g1_words (ec_multiply ec_G1 b) → ec_multiply ec_G1 a = ec_multiply ec_G1 b
}.

Module LibOTSchnorrVerifier.
Section verify.
Context `{EcPrecompiles}.

(** The words of the output after a call; a failed call leaves the memory as it was. *)
Definition call (r : option (Z * Z)) (out : Z * Z) : Z * Z := default out r.

(** [p0] to [p4] are the words of the memory [pad]. *)
Definition _verify (vk0 vk1 vk2 vk3 sigma : Z) (hashToBeSigned : bytes) : bool :=
  let p0 := vk2 in
  let p1 := vk3 in
  let p2 := int_from_bytes hashToBeSigned in
  let p4 := int_from_bytes (sha256 (pack_words [p0; p1; p2])) in
  let p2 := vk0 in
  let p3 := vk1 in
  let '(p2, p3) := call (ecMul (p2, p3) p4) (p2, p3) in
  let '(p0, p1) := call (ecAdd (p0, p1) (p2, p3)) (p0, p1) in
  let p2 := 1 in
  let p3 := 2 in
  let p4 := sigma in
  let '(p2, p3) := call (ecMul (p2, p3) p4) (p2, p3) in
  (p0 =? p2) && (p1 =? p3).
End verify.
End LibOTSchnorrVerifier.

(** What a curve-specific mixer supplies: [_hash], its modulus and the capacity of a field
    element. *)
Class MixerCurve := {
  mixer_hash : ITreeHash;
  _FIELD_CAPACITY : Z
}.
#[export] Existing Instance mixer_hash.

Definition AbstractMixerAltBN128 (keccak_256 : bytes → bytes) : MixerCurve :=
  {| mixer_hash := LibMiMC._hashAltBN128 keccak_256; _FIELD_CAPACITY := 253 |}.
Definition AbstractMixerBLS12_377 (keccak_256 : bytes → bytes) : MixerCurve :=
  {| mixer_hash := LibMiMC._hashBLS12_377 keccak_256; _FIELD_CAPACITY := 252 |}.

(** A call from the contract to another account, in the order of the calls. *)
Inductive Action : Type :=
  | SendEther (to value : Z)
  | TokenTransferFrom (token from to value : Z)
  | TokenTransfer (token to value : Z).

(** The caller, the ether sent along and the contract's own address. *)
Record Msg : Type := mkMsg { msg_sender : Z; msg_value : Z; msg_this : Z }.

Record LogMix : Type := mkLogMix {
  log_root : bytes;
  log_nullifiers : list bytes;
  log_commitments : list bytes;
  log_ciphertexts : list bytes
}.

Module AbstractMixer.
Definition _JSIN : Z := 2.
Definition _JSOUT : Z := 2.
Definition _PUBLIC_VALUE_BITS : Z := 64.
Definition _PUBLIC_VALUE_MASK : Z := Z.shiftl 1 _PUBLIC_VALUE_BITS - 1.
Definition _TOTAL_PUBLIC_VALUE_BITS : Z := 2 * _PUBLIC_VALUE_BITS.
Definition _DIGEST_LENGTH : Z := 256.
Definition _NUM_HASH_DIGESTS : Z := 1 + 2 * _JSIN.
Definition _NUM_FIELD_RESIDUAL : Z := 1.
Definition _NUM_INPUTS : Z := 1 + _JSOUT + _NUM_HASH_DIGESTS + _NUM_FIELD_RESIDUAL.
Definition _PUBLIC_UNIT_VALUE_WEI : Z := 10 ^ 12.

Record MixerState : Type := mkMixerState {
  _roots : gset bytes;
  _nullifiers : gset bytes;
  _vk : list Z;
  _token : Z;
  _permittedDispatcher : Z;
  _vkHash : Z * Z;
  mixer_tree : TreeState
}.

Definition set_roots (roots : gset bytes) (st : MixerState) : MixerState :=
  mkMixerState roots (_nullifiers st) (_vk st) (_token st) (_permittedDispatcher st) (_vkHash st) (mixer_tree st).
Definition set_nullifiers (nfs : gset bytes) (st : MixerState) : MixerState :=
  mkMixerState (_roots st) nfs (_vk st) (_token st) (_permittedDispatcher st) (_vkHash st) (mixer_tree st).
Definition set_tree (t : TreeState) (st : MixerState) : MixerState :=
  mkMixerState (_roots st) (_nullifiers st) (_vk st) (_token st) (_permittedDispatcher st) (_vkHash st) t.

Definition getConstants : Z * Z * Z := (_JSIN, _JSOUT, _NUM_INPUTS).

Section mixer.
Context `{MixerCurve} `{EcPrecompiles} (depth : nat).

(** A word of a memory array; out of bounds is a panic. *)
Definition word_at (ws : list Z) (i : Z) : result Z := of_option Panic (if i <? 0 then None else ws !! Z.to_nat i).

(** The constructor. *)
Definition new_mixer (treeDepth tokenAddress : Z) (vk : list Z) (permittedDispatcher : Z) (vkHash : Z * Z)
    : result MixerState :=
  t ← AbstractMerkleTree.new_tree depth treeDepth;
  initialRoot ← AbstractMerkleTree.load depth (AbstractMerkleTree._nodes t) 0;
  Ok (mkMixerState {[ initialRoot ]} ∅ vk tokenAddress permittedDispatcher vkHash t).

(** ** Reading the public inputs *)

Definition _NUM_RESIDUAL_BITS : Z := _DIGEST_LENGTH - _FIELD_CAPACITY.
Definition _RESIDUAL_BITS_SHIFT : Z := 256 - _NUM_RESIDUAL_BITS.
Definition _RESIDUAL_BITS_MASK : Z := Z.shiftl (Z.shiftl 1 _NUM_RESIDUAL_BITS - 1) _RESIDUAL_BITS_SHIFT.

Definition _extractBytes32 (fieldElement residual residualBitsSetIdx : Z) : result bytes :=
  let residualBitsIdx := residualBitsSetIdx * _NUM_RESIDUAL_BITS in
  s ← usub _RESIDUAL_BITS_SHIFT _TOTAL_PUBLIC_VALUE_BITS;
  bitsToShift ← usub s residualBitsIdx;
  let residualBits := Z.land (Z.shiftl residual bitsToShift mod 2 ^ 256) _RESIDUAL_BITS_MASK in
  Ok (bytes32 (Z.lor fieldElement residualBits)).

Definition _assemblePublicValues (residualBits : Z) : Z * Z :=
  let vpub_out := Z.land residualBits _PUBLIC_VALUE_MASK * _PUBLIC_UNIT_VALUE_WEI in
  let vpub_in := Z.land (Z.shiftr residualBits _PUBLIC_VALUE_BITS) _PUBLIC_VALUE_MASK * _PUBLIC_UNIT_VALUE_WEI in
  (vpub_in, vpub_out).

Definition _assembleHsig (primaryInputs : list Z) : result bytes :=
  fe ← word_at primaryInputs (1 + _JSIN + _JSOUT);
  residual ← word_at primaryInputs (1 + _JSOUT + _NUM_HASH_DIGESTS);
  _extractBytes32 fe residual (2 * _JSIN).

Definition _assembleNullifier (index : Z) (primaryInputs : list Z) : result bytes :=
  _ ← require (index <? _JSIN) "nullifier index overflow";
  fe ← word_at primaryInputs (1 + _JSOUT + index);
  residual ← word_at primaryInputs (1 + _JSOUT + _NUM_HASH_DIGESTS);
  _extractBytes32 fe residual (_JSIN + index).

Definition HASH_IV : Z := 13196537064117388418196223856311987714388543839552400408340921397545324034315.

Definition _hashPublicProofData (publicData : list Z) : Z :=
  let h := foldl (λ h x, tree_hash h (bytes32 x)) (bytes32 HASH_IV) publicData in
  int_from_bytes (tree_hash h (bytes32 _NUM_INPUTS)).

(** ** The steps of a call *)

(** The loop over the inputs: each nullifier must be new, and is used from then on. *)
Fixpoint use_nullifiers (indices : list Z) (primaryInputs : list Z) (used : gset bytes) (nfs : list bytes)
    : result (gset bytes * list bytes) :=
  match indices with
  | [] => Ok (used, nfs)
  | i :: indices =>
      nullifier ← _assembleNullifier i primaryInputs;
      _ ← require (negb (bool_decide (nullifier ∈ used))) "Invalid nullifier: This nullifier has already been used";
      use_nullifiers indices primaryInputs ({[ nullifier ]} ∪ used) (nfs ++ [nullifier])
  end.

Definition _checkMkrootNullifiersHsigAppendNullifiersState (vk primaryInputs : list Z) (st : MixerState)
    : result (list bytes * MixerState) :=
  root ← word_at primaryInputs 0;
  _ ← require (bool_decide (bytes32 root ∈ _roots st)) "Invalid root: This root doesn't exist";
  '(used, nfs) ← use_nullifiers [0; 1] primaryInputs (_nullifiers st) [];
  let expected_hsig := sha256 (concat nfs ++ pack_words vk) in
  hsig ← _assembleHsig primaryInputs;
  _ ← require (bool_decide (expected_hsig = hsig))
        "Invalid hsig: This hsig does not correspond to the hash of vk and the nfs";
  Ok (nfs, set_nullifiers used st).

(** The loop over the outputs. *)
Fixpoint append_commitments (indices : list Z) (primaryInputs : list Z) (t : TreeState) (comms : list bytes)
    : result (list bytes * TreeState) :=
  match indices with
  | [] => Ok (comms, t)
  | i :: indices =>
      x ← word_at primaryInputs (1 + i);
      let current_commitment := bytes32 x in
      t ← AbstractMerkleTree.insert depth t current_commitment;
      append_commitments indices primaryInputs t (comms ++ [current_commitment])
  end.

Definition _assembleCommitmentsAndAppendToState (primaryInputs : list Z) (st : MixerState)
    : result (list bytes * MixerState) :=
  '(comms, t) ← append_commitments [0; 1] primaryInputs (mixer_tree st) [];
  Ok (comms, set_tree t st).

Definition _addMerkleRoot (root : bytes) (st : MixerState) : MixerState := set_roots ({[ root ]} ∪ _roots st) st.

(** The outcome of a call to another account: [None] when it reverts, otherwise the
    boolean it returns.  The mixer tests the boolean of ether transfers only. *)
Definition ether_call (ext : Action → option bool) (to value : Z) (msg : string) : result (list Action) :=
  _ ← require (bool_decide (ext (SendEther to value) = Some true)) msg;
  Ok [SendEther to value].
Definition token_call (ext : Action → option bool) (a : Action) : result (list Action) :=
  _ ← require (bool_decide (ext a ≠ None)) "reverted";
  Ok [a].

Definition _processPublicValues (ext : Action → option bool) (msg : Msg) (primaryInputs : list Z) (st : MixerState)
    : result (list Action) :=
  residual ← word_at primaryInputs (1 + _JSOUT + _NUM_HASH_DIGESTS);
  let '(vpub_in, vpub_out) := _assemblePublicValues residual in
  acts_in ←
    (if 0 <? vpub_in then
       if negb (_token st =? 0) then
         token_call ext (TokenTransferFrom (_token st) (msg_sender msg) (msg_this msg) vpub_in)
       else _ ← require (msg_value msg =? vpub_in) "Wrong msg.value: Value paid is not correct"; Ok []
     else if 0 <? msg_value msg then
       ether_call ext (msg_sender msg) (msg_value msg) "vpub_in return transfer failed"
     else Ok []);
  acts_out ←
    (if 0 <? vpub_out then
       if negb (_token st =? 0) then token_call ext (TokenTransfer (_token st) (msg_sender msg) vpub_out)
       else ether_call ext (msg_sender msg) vpub_out "vpub_out transfer failed"
     else Ok []);
  Ok (acts_in ++ acts_out).

(** The effects of a call: the new state, the event and the calls to other accounts. *)
Definition Outcome : Type := MixerState * LogMix * list Action.

Definition _mixAppendCommitmentsEmitAndHandlePublicValues (ext : Action → option bool) (msg : Msg)
    (inputs : list Z) (ciphertexts nullifiers : list bytes) (st : MixerState) : result Outcome :=
  '(commitments, st) ← _assembleCommitmentsAndAppendToState inputs st;
  '(new_merkle_root, t) ← AbstractMerkleTree._recomputeRoot depth (mixer_tree st) _JSOUT;
  let st := _addMerkleRoot new_merkle_root (set_tree t st) in
  let log := mkLogMix new_merkle_root nullifiers commitments ciphertexts in
  acts ← _processPublicValues ext msg inputs st;
  Ok (st, log, acts).

(** A 160-bit address as a word. *)
Definition sender_word (msg : Msg) : bytes := bytes32 (msg_sender msg).

(** Words of a fixed-size array of the call data; the decoder only makes arrays of the
    declared size, so the sizes are not checked again. *)
Definition mix (_verifyZkProof : list Z → list Z → Z → result bool) (ext : Action → option bool) (msg : Msg)
    (proof vk : list Z) (sigma : Z) (publicInputs : list Z) (ciphertexts : list bytes) (st : MixerState)
    : result Outcome :=
  '(nullifiers, st) ← _checkMkrootNullifiersHsigAppendNullifiersState vk publicInputs st;
  let hashToBeSigned := sha256 (sender_word msg ++ concat ciphertexts ++ pack_words proof ++ pack_words publicInputs) in
  vk0 ← word_at vk 0; vk1 ← word_at vk 1; vk2 ← word_at vk 2; vk3 ← word_at vk 3;
  _ ← require (LibOTSchnorrVerifier._verify vk0 vk1 vk2 vk3 sigma hashToBeSigned)
        "Invalid signature: Unable to verify the signature correctly";
  let publicInputsHash := _hashPublicProofData publicInputs in
  ok ← _verifyZkProof (_vk st) proof publicInputsHash;
  _ ← require ok "Invalid proof: Unable to verify the proof correctly";
  _mixAppendCommitmentsEmitAndHandlePublicValues ext msg publicInputs ciphertexts nullifiers st.

(** [dispatch], from the decoded parameters; [None] when [abi.decode] fails. *)
Definition dispatch (ext : Action → option bool) (msg : Msg) (nestedVkHash : Z * Z) (nestedInputs : list Z)
    (decoded : option (list Z * Z * list Z * list bytes)) (st : MixerState) : result Outcome :=
  _ ← require (msg_sender msg =? _permittedDispatcher st) "dispatcher not permitted";
  _ ← require (bool_decide (nestedVkHash = _vkHash st)) "invalid nestedVkHash";
  _ ← require (zlen nestedInputs =? 1) "invalid num nested inputs";
  '(vk, sigma, public_data, decoded_ciphertexts) ← of_option (Exception "revert") decoded;
  _ ← require (zlen public_data =? _NUM_INPUTS) "invalid number of public inputs in decoded data.";
  _ ← require (zlen decoded_ciphertexts =? _JSOUT) "invalid number of ciphertexts in decoded data.";
  nested0 ← word_at nestedInputs 0;
  _ ← require (nested0 =? _hashPublicProofData public_data) "hash of public data does not match primary input";
  '(nullifiers, st) ← _checkMkrootNullifiersHsigAppendNullifiersState vk public_data st;
  let hashToBeSigned := sha256 (sender_word msg ++ concat decoded_ciphertexts ++ pack_words public_data) in
  vk0 ← word_at vk 0; vk1 ← word_at vk 1; vk2 ← word_at vk 2; vk3 ← word_at vk 3;
  _ ← require (LibOTSchnorrVerifier._verify vk0 vk1 vk2 vk3 sigma hashToBeSigned) "Invalid signature in dispatch";
  _mixAppendCommitmentsEmitAndHandlePublicValues ext msg public_data decoded_ciphertexts nullifiers st.

(** [insert], which the mixer inherits as a public method. *)
Definition insert (commitment : bytes) (st : MixerState) : result MixerState :=
  t ← AbstractMerkleTree.insert depth (mixer_tree st) commitment;
  Ok (set_tree t st).
End mixer.
End AbstractMixer.
