(* ===== verification/ContractFacts.v ===== *)
(** * The contract computes what the client computes

    The hash of the contract is the client's MiMC, its hash of the public inputs is the
    client's [InputHasher], its signature check is the client's [verify], and its
    reading of the packed public inputs inverts the packing. *)

From Stdlib Require Import ZArith Lia Ascii String Strings.Byte Zpow_facts.
From stdpp Require Import base tactics list gmap strings.
From S2P Require Import Prelude PyStr PyBytes PyFloat PyIO Hashes Constants MerkleTree MerkleTreeFacts Mimc MimcFacts Signing ContractTree ContractMixer.

Local Open Scope Z_scope.

Opaque sha256.

(** ** The hash *)

Lemma pow17_spec a r : 0 < r → LibMiMC.pow17 a r = (a ^ 17) mod r.
Proof.
  intros Hr. unfold LibMiMC.pow17, LibMiMC.mulmod.
  assert (∀ y, (y mod r * (y mod r)) mod r = (y * y) mod r) as Hsq by (intros y; by rewrite <- Zmult_mod).
  cbv zeta. rewrite (Hsq (a * a)), (Hsq (a * a * (a * a))), Hsq, Zmult_mod_idemp_l. f_equal. ring.
Qed.

Section hash.
Context (keccak_256 : bytes → bytes) {HD : Digest256 keccak_256}.

Lemma rounds_loop_spec (n : nat) : ∀ a y r word, 0 < r → 
  LibMiMC.rounds_loop keccak_256 n a y r word =
  foldl (λ m c, mimc17_round r m (y mod r) c) a (rc_list keccak_256 n word).
Proof using Type.
  induction n as [|n IH]; intros a y r word Hr; [done|]. cbn [LibMiMC.rounds_loop rc_list foldl].
  rewrite IH by done. f_equal. rewrite pow17_spec by done. unfold LibMiMC.addmod, mimc17_round.
  change (next_rc keccak_256 word) with (int_from_bytes (keccak_256 (bytes32 word))).
  rewrite Zpower_mod, (Zpower_mod (a + y mod r + _)) by done. do 2 f_equal.
  rewrite Zmod_mod, Zplus_mod_idemp_l. replace (a + y mod r + int_from_bytes (keccak_256 (bytes32 word)))
    with (a + int_from_bytes (keccak_256 (bytes32 word)) + y mod r) by lia. by rewrite Zplus_mod_idemp_r.
Qed.

(** The contract's hash is the client's, when the constant in the contract is the digest
    of the client's seed text. *)
Lemma hash_e17_mimc self r n x y : mimc_wf self → prime self = r → r ≤ 2 ^ 256 → (1 ≤ n)%nat →
  num_rounds self = Z.of_nat n → mimc_round self = mimc17_round r → seed self = LibMiMC.SEED →
  LibMiMC._hash_e17 keccak_256 x y r n = mimc_tree_hash keccak_256 self x y.
Proof using HD.
  intros Hwf Hp Hr Hn Hrounds Hround Hseed. pose proof (mw_prime _ Hwf) as H0. rewrite Hp in H0.
  unfold mimc_tree_hash. destruct (mimc_hash_ok keccak_256 self x y Hwf) as (h & Hh & Hhr & ->); [lia|].
  rewrite Hp in *. unfold hash_int in Hh. rewrite Hp in Hh. apply bind_Ok_inv in Hh as (_ & _ & Hh).
  apply bind_Ok_inv in Hh as (_ & _ & Hh). rewrite encrypt_spec in Hh by done.
  cbn [mbind result_bind] in Hh. apply Ok_inj in Hh as <-. unfold LibMiMC._hash_e17, bytes32.
  f_equal. unfold all_rounds. rewrite Hp, Hround, Hseed, Hrounds.
  replace (Z.to_nat (Z.of_nat n - 1)) with (n - 1)%nat by lia. rewrite !Zmod_mod.
  rewrite rounds_loop_spec by done. cbn [foldl].
  assert (LibMiMC.pow17 (LibMiMC.addmod (int_from_bytes x) (int_from_bytes y) r) r =
    mimc17_round r (int_from_bytes x mod r) (int_from_bytes y mod r) 0) as ->.
  { rewrite pow17_spec by done. unfold LibMiMC.addmod, mimc17_round. rewrite Z.add_0_r.
    rewrite Zpower_mod, (Zpower_mod (_ mod r + _)), <- Z.add_mod by lia. by rewrite Zmod_mod. }
  set (f := foldl _ _ _). unfold LibMiMC.addmod.
  set (u := int_from_bytes x). set (v := int_from_bytes y).
  rewrite !Zplus_mod_idemp_l, <- !Z.add_assoc.
  rewrite (Zplus_mod_idemp_r v f), (Zplus_mod _ (u mod r + v mod r)), <- (Zplus_mod u v). by rewrite <- Zplus_mod.
Qed.
End hash.

(** A client object with the parameters of the contract's curve. *)
Record same_hash `{MixerCurve} (keccak_256 : bytes → bytes) (self : MiMCBase) : Prop := {
  sh_wf : mimc_wf self;
  sh_prime : prime self ≤ 2 ^ 256;
  sh_hash : ∀ x y, mixer_hash x y = mimc_tree_hash keccak_256 self x y
}.

Section curves.
Context (keccak_256 : bytes → bytes) {HD : Digest256 keccak_256}.
Context (Hseed : ∀ b, encode_ascii MIMC_MT_SEED = Ok b → int_from_bytes (keccak_256 b) = LibMiMC.SEED).

Lemma mimc17_seed p n self : mimc17 keccak_256 MIMC_MT_SEED p n = Ok self → seed self = LibMiMC.SEED.
Proof using Hseed.
  intros Hs. unfold mimc17 in Hs. apply bind_Ok_inv in Hs as (b & Hb & Hs). apply Ok_inj in Hs as <-.
  by apply Hseed.
Qed.

Lemma same_hash_alt_bn128 self : MiMCAltBN128 keccak_256 MIMC_MT_SEED = Ok self →
  same_hash (H := AbstractMixerAltBN128 keccak_256) keccak_256 self.
Proof using HD Hseed.
  intros Hs. pose proof (mimc17_seed _ _ _ Hs) as Es. apply mimc17_wf in Hs as (Hwf & Hp & Hn & Hr); [|done..].
  split; [done | by rewrite Hp |]. intros x y. apply (hash_e17_mimc keccak_256 self ALT_BN128_R 65 x y Hwf Hp);
    [by apply Z.leb_le | lia | exact Hn | exact Hr | exact Es].
Qed.

Lemma same_hash_bls12_377 self : MiMCBLS12_377 keccak_256 MIMC_MT_SEED = Ok self →
  same_hash (H := AbstractMixerBLS12_377 keccak_256) keccak_256 self.
Proof using HD Hseed.
  intros Hs. pose proof (mimc17_seed _ _ _ Hs) as Es. apply mimc17_wf in Hs as (Hwf & Hp & Hn & Hr); [|done..].
  split; [done | by rewrite Hp |]. intros x y. apply (hash_e17_mimc keccak_256 self BLS12_377_R 62 x y Hwf Hp);
    [by apply Z.leb_le | lia | exact Hn | exact Hr | exact Es].
Qed.
End curves.

(** ** The hash of the public inputs *)

Section public_inputs.
Context `{MixerCurve} (keccak_256 : bytes → bytes) {HD : Digest256 keccak_256}.
Context (self : MiMCBase) (Hself : same_hash keccak_256 self).
Local Abbreviation r := (prime self).

Lemma tree_hash_int x y : 0 ≤ x < 2 ^ 256 → 0 ≤ y < 2 ^ 256 →
  ∃ h, hash_int keccak_256 self (x mod r) (y mod r) = Ok h ∧ 0 ≤ h < r ∧
    tree_hash (bytes32 x) (bytes32 y) = bytes32 h.
Proof using HD Hself.
  intros Hx Hy. destruct Hself as [Hwf Hp Hh].
  destruct (mimc_hash_ok keccak_256 self (bytes32 x) (bytes32 y) Hwf Hp) as (h & Hi & Hr & Hm).
  unfold bytes32 in Hi. rewrite !int_from_to_be, (Z.mod_small x (256 ^ Z.of_nat 32)), (Z.mod_small y (256 ^ Z.of_nat 32)) in Hi
    by (change (256 ^ Z.of_nat 32) with (2 ^ 256); lia).
  exists h. split_and!; [done | lia | lia |]. unfold tree_hash. rewrite Hh. unfold mimc_tree_hash. by rewrite Hm.
Qed.

Lemma public_chain data : ∀ c, 0 ≤ c < 2 ^ 256 → Forall (λ x, 0 ≤ x < 2 ^ 256) data →
  ∃ c', foldM (hash_int keccak_256 self) (c mod r) ((λ x, x mod r) <$> data) = Ok (c' mod r) ∧ 0 ≤ c' < 2 ^ 256 ∧
    foldl (λ h x, tree_hash h (bytes32 x)) (bytes32 c) data = bytes32 c'.
Proof using HD Hself.
  induction data as [|x data IH]; intros c Hc Hd; [by exists c|]. apply Forall_cons in Hd as [Hx Hd].
  cbn [foldM fmap list_fmap foldl]. destruct (tree_hash_int c x Hc Hx) as (h & -> & Hh & ->).
  cbn [mbind result_bind]. pose proof (sh_prime _ _ Hself). 
  destruct (IH h) as (c' & E & ? & ?); [lia | done |]. exists c'.
  rewrite Z.mod_small in E by lia. done.
Qed.

(** The contract hashes the residues of the words with the client's hasher. *)
Lemma hash_public_data ih data : new_InputHasher self DEFAULT_IV_UINT256 = Ok ih → zlen data = AbstractMixer._NUM_INPUTS →
  AbstractMixer._NUM_INPUTS < r → Forall (λ x, 0 ≤ x < 2 ^ 256) data →
  input_hash keccak_256 ih ((λ x, x mod r) <$> data) = Ok (AbstractMixer._hashPublicProofData data).
Proof using HD Hself.
  intros Hih Hlen Hr Hd. unfold new_InputHasher in Hih. inv_ok. subst ih. unfold input_hash. cbn [iv compression_fn].
  destruct (public_chain data DEFAULT_IV_UINT256) as (c & -> & Hc & Ec); [done | done |]. cbn [mbind result_bind].
  unfold AbstractMixer._hashPublicProofData. change AbstractMixer.HASH_IV with DEFAULT_IV_UINT256. rewrite Ec.
  destruct (tree_hash_int c AbstractMixer._NUM_INPUTS Hc) as (h & Hh & Hhr & ->); [done|].
  replace (zlen ((λ x, x mod r) <$> data)) with AbstractMixer._NUM_INPUTS by (rewrite <- Hlen; unfold zlen; by rewrite length_fmap).
  rewrite (Z.mod_small AbstractMixer._NUM_INPUTS) in Hh by done. rewrite Hh. f_equal.
  pose proof (sh_prime _ _ Hself). unfold bytes32. by rewrite int_from_to_be, Z.mod_small by (change (256 ^ Z.of_nat 32) with (2 ^ 256); lia).
Qed.
End public_inputs.

(** ** Signatures *)

Section signatures.
Context `{BN128Laws} `{!EcPrecompiles} `{!EcPrecompilesLaws}.

Lemma call_Some w o : LibOTSchnorrVerifier.call (Some w) o = w.
Proof. done. Qed.

(** The check of the contract, in the group: the challenge is not reduced. *)
Lemma contract_verify_group a b X0 X1 Y0 Y1 sigma m : 0 ≤ a → 0 ≤ b → 0 ≤ sigma < 2 ^ 256 → length m = 32%nat →
  ec_multiply ec_G1 a = Some (X0, X1) → ec_multiply ec_G1 b = Some (Y0, Y1) →
  LibOTSchnorrVerifier._verify X0 X1 Y0 Y1 sigma m = true ↔
  sigma mod curve_order = (b + int_from_bytes (sha256 (pack_words [Y0; Y1] ++ m)) * a) mod curve_order.
Proof.
  intros Ha Hb Hs Hm HX HY. pose proof (digest256_range sha256 (pack_words [Y0; Y1] ++ m)) as Hh.
  unfold LibOTSchnorrVerifier._verify.
  assert (pack_words [Y0; Y1; int_from_bytes m] = pack_words [Y0; Y1] ++ m) as ->.
  { unfold pack_words. cbn [mbind list_bind]. rewrite !app_nil_r, <- app_assoc. do 2 f_equal.
    rewrite <- Hm. apply to_be_from_bytes. }
  set (h := int_from_bytes (sha256 _)) in *. cbv zeta.
  change (X0, X1) with (g1_words (Some (X0, X1))). change (Y0, Y1) with (g1_words (Some (Y0, Y1))).
  rewrite <- HX, <- HY, ecMul_spec, ec_multiply_mul, call_Some by lia. rewrite <- !ec_generator.
  destruct (g1_words (ec_multiply ec_G1 (a * h))) as [p2 p3] eqn:E2.
  rewrite <- E2, ecAdd_spec, ec_multiply_add, call_Some by nia.
  destruct (g1_words (ec_multiply ec_G1 (b + a * h))) as [p0 p1] eqn:E0.
  rewrite ecMul_generator, call_Some by lia.
  destruct (g1_words (ec_multiply ec_G1 sigma)) as [q0 q1] eqn:E1.
  rewrite andb_true_iff, !Z.eqb_eq. replace (h * a) with (a * h) by lia.
  rewrite <- ec_multiply_eq by nia. split.
  - intros [-> ->]. apply g1_words_inj; [lia | nia | congruence].
  - intros E. rewrite E in E1. split; congruence.
Qed.

(** Below the modulus of the client's field the contract accepts what the client accepts. *)
Lemma contract_verify_client a b X0 X1 Y0 Y1 sigma m : 0 ≤ a → 0 ≤ b → 0 ≤ sigma < field_modulus → length m = 32%nat →
  ec_multiply ec_G1 a = Some (X0, X1) → ec_multiply ec_G1 b = Some (Y0, Y1) →
  verify (mkSVK (Some (X0, X1)) (Some (Y0, Y1))) m sigma = Ok (LibOTSchnorrVerifier._verify X0 X1 Y0 Y1 sigma m).
Proof.
  intros Ha Hb Hs Hm HX HY. pose proof modulus_bounds. pose proof order_bounds.
  pose proof (ec_multiply_range a X0 X1 HX). pose proof (ec_multiply_range b Y0 Y1 HY).
  unfold verify. cbn [spk ppk]. unfold g1_to_bytes. cbn [g1_coords of_option mbind result_bind].
  rewrite !int_to_bytes_Ok by (change (256 ^ Z.of_nat 32) with (2 ^ 256); lia). cbn [mbind result_bind].
  destruct (challenge_ok ((to_be 32 Y0 ++ to_be 32 Y1) ++ m)) as (c & Hc & Hcr). rewrite Hc. cbn [mbind result_bind].
  f_equal. apply eq_bool_prop_intro. rewrite !Is_true_true.
  rewrite (contract_verify_group a b) by (done || lia). rewrite <- HX, <- HY, verify_equation, FQ_small by lia.
  unfold challenge in Hc. rewrite int_of_hex in Hc by (intros E; apply (f_equal length) in E; by rewrite sha256_length in E).
  apply Ok_inj in Hc as <-. unfold pack_words. cbn [mbind list_bind]. rewrite app_nil_r.
  by rewrite Zplus_mod, Zmult_mod_idemp_l, <- Zplus_mod.
Qed.
End signatures.

(** ** The packed public inputs *)

Section packing.
Context `{MixerCurve} (Hcap : 240 ≤ _FIELD_CAPACITY < 256).
Local Abbreviation cap := _FIELD_CAPACITY.
Local Abbreviation nr := (256 - _FIELD_CAPACITY).

Lemma pow_cap : 0 < 2 ^ cap.
Proof using Hcap. apply Z.pow_pos_nonneg; lia. Qed.
Lemma pow_nr : 0 < 2 ^ nr.
Proof using Hcap. apply Z.pow_pos_nonneg; lia. Qed.

Lemma lor_high x y c : 0 ≤ c → 0 ≤ x < 2 ^ c → Z.lor x (y * 2 ^ c) = x + y * 2 ^ c.
Proof.
  intros Hc Hx. assert (Z.land x (y * 2 ^ c) = 0) as Hl.
  { apply Z.bits_inj'. intros n Hn. rewrite Z.land_spec, Z.bits_0, <- Z.shiftl_mul_pow2, Z.shiftl_spec by lia.
    destruct (Z.lt_ge_cases n c); [rewrite (Z.testbit_neg_r _ (n - c)) by lia; apply andb_false_r|].
    rewrite <- (Z.mod_small x (2 ^ c)), Z.mod_pow2_bits_high by lia. done. }
  rewrite <- Z.lxor_lor, Z.add_nocarry_lxor; done.
Qed.

(** The extraction for a residual word of any content. *)
Lemma extract_spec fe residual i : 0 ≤ fe < 2 ^ cap → 0 ≤ i → 128 + (i + 1) * nr ≤ cap →
  AbstractMixer._extractBytes32 fe residual i =
    Ok (bytes32 (fe + (residual / 2 ^ (128 + i * nr)) mod 2 ^ nr * 2 ^ cap)).
Proof using Hcap.
  intros Hfe Hi Hfit. unfold AbstractMixer._extractBytes32, AbstractMixer._RESIDUAL_BITS_SHIFT,
    AbstractMixer._NUM_RESIDUAL_BITS, AbstractMixer._TOTAL_PUBLIC_VALUE_BITS, AbstractMixer._PUBLIC_VALUE_BITS,
    AbstractMixer._DIGEST_LENGTH.
  rewrite !AbstractMerkleTree.usub_ok by nia. cbn [mbind result_bind]. rewrite AbstractMerkleTree.usub_ok by nia.
  cbn [mbind result_bind]. rewrite <- lor_high by lia. do 3 f_equal.
  unfold AbstractMixer._RESIDUAL_BITS_MASK, AbstractMixer._RESIDUAL_BITS_SHIFT, AbstractMixer._NUM_RESIDUAL_BITS,
    AbstractMixer._DIGEST_LENGTH.
  replace (Z.shiftl 1 nr - 1) with (Z.ones nr) by (unfold Z.ones; lia).
  replace (256 - nr) with cap by lia. set (b := cap - 2 * 64 - i * nr).
  apply Z.bits_inj'. intros n Hn. rewrite Z.land_spec.
  rewrite <- Z.shiftl_mul_pow2, !Z.shiftl_spec by lia.
  destruct (Z.lt_ge_cases n cap) as [|Hge]; [by rewrite (Z.testbit_neg_r (Z.ones _)), andb_false_r, Z.testbit_neg_r by lia|].
  rewrite Z.testbit_ones_nonneg by lia. destruct (Z.ltb_spec (n - cap) nr) as [Hlt|].
  - rewrite andb_true_r, !Z.mod_pow2_bits_low by lia. assert (0 ≤ i * nr) by nia. rewrite Z.shiftl_spec, Z.div_pow2_bits by lia.
    f_equal. unfold b. lia.
  - by rewrite andb_false_r, Z.mod_pow2_bits_high by lia.
Qed.

(** The layout of the last public input: the public values and the high bits of five
    digests. *)
Definition high_bits (x : Z) : Z := x / 2 ^ cap.
Definition low_bits (x : Z) : Z := x mod 2 ^ cap.
Fixpoint pack_high (digests : list Z) : Z :=
  match digests with [] => 0 | x :: digests => high_bits x + 2 ^ nr * pack_high digests end.
Definition residual_word (vin vout : Z) (digests : list Z) : Z := vout + 2 ^ 64 * (vin + 2 ^ 64 * pack_high digests).

Lemma high_bits_range x : 0 ≤ x < 2 ^ 256 → 0 ≤ high_bits x < 2 ^ nr.
Proof using Hcap.
  intros Hx. pose proof pow_cap. unfold high_bits. split; [apply Z.div_pos; lia|]. apply Z.div_lt_upper_bound; [lia|].
  rewrite <- Z.pow_add_r by lia. replace (cap + nr) with 256 by lia. lia.
Qed.

Lemma pack_high_nonneg ds : Forall (λ x, 0 ≤ x < 2 ^ 256) ds → 0 ≤ pack_high ds.
Proof using Hcap.
  induction 1 as [|x ds Hx _ IH]; [done|]. cbn [pack_high]. pose proof (high_bits_range x Hx). pose proof pow_nr. nia.
Qed.

Lemma pack_high_bound ds : Forall (λ x, 0 ≤ x < 2 ^ 256) ds → pack_high ds < 2 ^ (zlen ds * nr).
Proof using Hcap.
  induction 1 as [|x ds Hx _ IH]; [done|]. cbn [pack_high]. pose proof (high_bits_range x Hx). pose proof pow_nr.
  replace (zlen (x :: ds) * nr) with (nr + zlen ds * nr) by (unfold zlen; cbn [length]; lia).
  pose proof (zlen_nonneg ds). rewrite Z.pow_add_r by nia. nia.
Qed.

Lemma pack_high_lookup ds : ∀ i x, Forall (λ x, 0 ≤ x < 2 ^ 256) ds → ds !! i = Some x →
  (pack_high ds / 2 ^ (Z.of_nat i * nr)) mod 2 ^ nr = high_bits x.
Proof using Hcap.
  induction ds as [|y ds IH]; intros i x Hds Hx; [done|]. apply Forall_cons in Hds as [Hy Hds].
  pose proof (high_bits_range y Hy) as Hr. pose proof pow_nr. cbn [pack_high]. destruct i as [|i].
  - injection Hx as ->.
    change (Z.of_nat 0 * nr) with 0. rewrite Z.pow_0_r, Z.div_1_r, (Z.mul_comm (2 ^ nr)), Z_mod_plus_full.
    by apply Z.mod_small.
  - rewrite <- (IH i x Hds Hx). replace (Z.of_nat (S i) * nr) with (nr + Z.of_nat i * nr) by lia.
    rewrite Z.pow_add_r, <- Z.div_div by nia. rewrite (Z.mul_comm (2 ^ nr)), Z.div_add by lia.
    rewrite (Z.div_small (high_bits y)) by lia. done.
Qed.

(** The digest at position [i] is read back. *)
Lemma extract_digest vin vout ds i x : 0 ≤ vin < 2 ^ 64 → 0 ≤ vout < 2 ^ 64 → Forall (λ x, 0 ≤ x < 2 ^ 256) ds →
  ds !! i = Some x → 128 + (Z.of_nat i + 1) * nr ≤ cap →
  AbstractMixer._extractBytes32 (low_bits x) (residual_word vin vout ds) (Z.of_nat i) = Ok (bytes32 x).
Proof using Hcap.
  intros Hvin Hvout Hds Hx Hi. pose proof (pack_high_nonneg ds Hds). pose proof pow_cap. pose proof pow_nr.
  rewrite extract_spec; [|apply Z.mod_pos_bound; lia | lia | done].
  do 2 f_equal. rewrite Z.pow_add_r, <- Z.div_div by nia.
  replace (residual_word vin vout ds / 2 ^ 128) with (pack_high ds).
  - rewrite (pack_high_lookup ds i x Hds Hx). unfold low_bits, high_bits. rewrite (Z.div_mod x (2 ^ cap)) at 3 by lia. lia.
  - unfold residual_word. apply Z.div_unique with (vout + 2 ^ 64 * vin); [left; lia | lia].
Qed.

Lemma assemble_public_values vin vout ds : 0 ≤ vin < 2 ^ 64 → 0 ≤ vout < 2 ^ 64 → Forall (λ x, 0 ≤ x < 2 ^ 256) ds →
  AbstractMixer._assemblePublicValues (residual_word vin vout ds) =
    (vin * AbstractMixer._PUBLIC_UNIT_VALUE_WEI, vout * AbstractMixer._PUBLIC_UNIT_VALUE_WEI).
Proof using Hcap.
  intros Hvin Hvout Hds. pose proof (pack_high_nonneg ds Hds).
  unfold AbstractMixer._assemblePublicValues. change AbstractMixer._PUBLIC_VALUE_MASK with (Z.ones 64).
  change AbstractMixer._PUBLIC_VALUE_BITS with 64. rewrite !Z.land_ones, Z.shiftr_div_pow2 by lia. unfold residual_word.
  set (p := pack_high ds) in *. do 2 f_equal.
  - rewrite (Z.mul_comm (2 ^ 64) (vin + _)), Z.div_add, Z.div_small, Z.add_0_l by lia.
    rewrite (Z.mul_comm (2 ^ 64)), Z_mod_plus_full. by apply Z.mod_small.
  - rewrite (Z.mul_comm (2 ^ 64) (vin + _)), Z_mod_plus_full. by apply Z.mod_small.
Qed.

(** The public inputs of a joinsplit, in the order of the contract: root, commitments,
    nullifiers, h_sig, message authentication tags, residual word. *)
Record PublicValues : Type := mkPublicValues {
  pv_root : Z; pv_cm0 : Z; pv_cm1 : Z; pv_nf0 : Z; pv_nf1 : Z; pv_hsig : Z; pv_h0 : Z; pv_h1 : Z;
  pv_in : Z; pv_out : Z
}.

Definition uint256 (x : Z) : Prop := 0 ≤ x < 2 ^ 256.

Record public_values_ok (v : PublicValues) : Prop := {
  pvo_words : Forall uint256 [pv_root v; pv_cm0 v; pv_cm1 v; pv_nf0 v; pv_nf1 v; pv_hsig v; pv_h0 v; pv_h1 v];
  pvo_in : 0 ≤ pv_in v < 2 ^ 64;
  pvo_out : 0 ≤ pv_out v < 2 ^ 64
}.

Definition digests (v : PublicValues) : list Z := [pv_h0 v; pv_h1 v; pv_nf0 v; pv_nf1 v; pv_hsig v].

Definition primary_inputs (v : PublicValues) : list Z :=
  [pv_root v; pv_cm0 v; pv_cm1 v; low_bits (pv_nf0 v); low_bits (pv_nf1 v); low_bits (pv_hsig v);
   low_bits (pv_h0 v); low_bits (pv_h1 v); residual_word (pv_in v) (pv_out v) (digests v)].

Lemma digests_ok v : public_values_ok v → Forall (λ x, 0 ≤ x < 2 ^ 256) (digests v).
Proof.
  intros [Hw _ _]. rewrite !Forall_cons in Hw. destruct Hw as (_ & _ & _ & ? & ? & ? & ? & ? & _).
  unfold digests. repeat (apply Forall_cons; split; [done|]). by apply Forall_nil.
Qed.

Lemma primary_fit i : 0 ≤ i ≤ 4 → 128 + (i + 1) * nr ≤ cap.
Proof using Hcap.
  intros Hi. assert ((i + 1) * nr ≤ 5 * nr) by (apply Z.mul_le_mono_nonneg_r; lia). lia.
Qed.

Lemma assemble_nullifier v i x : public_values_ok v → [pv_nf0 v; pv_nf1 v] !! i = Some x →
  AbstractMixer._assembleNullifier (Z.of_nat i) (primary_inputs v) = Ok (bytes32 x).
Proof using Hcap.
  intros Hv Hx. pose proof (digests_ok v Hv) as Hd. destruct Hv as [_ Hin Hout].
  assert (digests v !! (2 + i)%nat = Some x) as Hi by (by destruct i as [|[|]]).
  unfold AbstractMixer._assembleNullifier, AbstractMixer.word_at.
  rewrite <- (extract_digest (pv_in v) (pv_out v) (digests v) (2 + i) x) by (done || apply primary_fit; apply lookup_lt_Some in Hx; cbn in Hx; lia).
  destruct i as [|[|i]]; cbn in Hx; [by injection Hx as <-.. | done].
Qed.

Lemma assemble_hsig v : public_values_ok v →
  AbstractMixer._assembleHsig (primary_inputs v) = Ok (bytes32 (pv_hsig v)).
Proof using Hcap.
  intros Hv. pose proof (digests_ok v Hv) as Hd. destruct Hv as [_ Hin Hout].
  rewrite <- (extract_digest (pv_in v) (pv_out v) (digests v) 4 (pv_hsig v)) by (done || by apply primary_fit). done.
Qed.

Lemma primary_inputs_words v : public_values_ok v → Forall uint256 (primary_inputs v).
Proof using Hcap.
  intros Hv. pose proof (digests_ok v Hv) as Hd. pose proof (pack_high_nonneg _ Hd). pose proof (pack_high_bound _ Hd) as Hb.
  assert (pack_high (digests v) < 2 ^ 100) as Hb100.
  { eapply Z.lt_le_trans; [exact Hb|]. apply Z.pow_le_mono_r; [lia|]. change (zlen (digests v)) with 5. lia. }
  destruct Hv as [Hw Hin Hout]. rewrite !Forall_cons in Hw. destruct Hw as (? & ? & ? & _).
  assert (∀ x, uint256 (low_bits x)) as Hlow.
  { intros x. unfold uint256, low_bits. pose proof pow_cap. pose proof (Z.mod_pos_bound x (2 ^ cap)).
    assert (2 ^ cap ≤ 2 ^ 256) by (apply Z.pow_le_mono_r; lia). lia. }
  unfold primary_inputs. repeat (apply Forall_cons; split; [by try apply Hlow|]). apply Forall_singleton.
  unfold uint256, residual_word. lia.
Qed.
End packing.
