(* ===== verification/ContractRuns.v ===== *)
(** * Runs of the mixer contract

    What a successful call does to the state, the invariant of the states a contract
    reaches, and the link to the client: the calls made of the client's parameters are
    accepted, and the events of a run are what a wallet can synchronise with. *)

From Stdlib Require Import ZArith Lia Ascii String Strings.Byte.
From stdpp Require Import base tactics list gmap strings.
From S2P Require Import Prelude PyStr PyBytes PyFloat PyIO Hashes Constants MerkleTree MerkleTreeFacts Mimc MimcFacts Signing ContractTree ContractMixer ContractFacts.

Local Open Scope Z_scope.

Import AbstractMerkleTree(TreeState, contract_inv, require).
Import AbstractMixer.

Opaque sha256.

Lemma require_Ok b msg u : require b msg = Ok u → b = true.
Proof. unfold require. by destruct b. Qed.

Lemma require_true b msg : b = true → require b msg = Ok tt.
Proof. by intros ->. Qed.

Lemma require_false b msg : b = false → require b msg = Err (Exception msg).
Proof. by intros ->. Qed.

Lemma word_at_Ok ws i x : word_at ws i = Ok x ↔ 0 ≤ i ∧ ws !! Z.to_nat i = Some x.
Proof.
  unfold word_at. destruct (Z.ltb_spec i 0); [cbn; split; [done | lia]|].
  destruct (ws !! Z.to_nat i); cbn; split; [intros [= ->]; split; [lia | done] | by intros [_ [= ->]] | done | by intros [_ ?]].
Qed.

(** ** The parts of a call *)

Section calls.
Context `{MixerCurve}.

(** The nullifiers of the public inputs. *)
Definition nullifiers_of (data : list Z) : result (list bytes) :=
  n0 ← _assembleNullifier 0 data; n1 ← _assembleNullifier 1 data; Ok [n0; n1].

(** The commitments among the public inputs. *)
Definition commitments_of (data : list Z) : list bytes := bytes32 <$> take 2 (drop 1 data).

(** The loop over the nullifiers. *)
Lemma use_nullifiers_spec data used nfs : nullifiers_of data = Ok nfs →
  use_nullifiers [0; 1] data used [] =
    if decide (NoDup nfs ∧ Forall (λ n, n ∉ used) nfs) then Ok (list_to_set nfs ∪ used, nfs)
    else Err (Exception "Invalid nullifier: This nullifier has already been used").
Proof.
  intros Hn. unfold nullifiers_of in Hn. apply bind_Ok_inv in Hn as (n0 & E0 & Hn). apply bind_Ok_inv in Hn as (n1 & E1 & Hn).
  apply Ok_inj in Hn as <-. cbn [use_nullifiers]. rewrite E0. cbn [mbind result_bind].
  destruct (decide (n0 ∈ used)) as [Hu|Hu].
  { rewrite require_false by (by apply negb_false_iff, bool_decide_eq_true). rewrite decide_False; [done|].
    intros [_ Hf]. by apply Forall_cons in Hf as [? _]. }
  rewrite require_true by (by apply negb_true_iff, bool_decide_eq_false). cbn [mbind result_bind]. rewrite E1. cbn [mbind result_bind].
  destruct (decide (n1 ∈ {[n0]} ∪ used)) as [Hu1|Hu1].
  - rewrite require_false by (by apply negb_false_iff, bool_decide_eq_true). rewrite decide_False; [done|].
    intros [Hnd Hf]. apply elem_of_union in Hu1 as [->%elem_of_singleton|Hu1].
    + apply NoDup_cons in Hnd as [Hnd _]. apply Hnd. apply elem_of_cons. by left.
    + by apply Forall_cons in Hf as [_ [? _]%Forall_cons].
  - rewrite require_true by (by apply negb_true_iff, bool_decide_eq_false). cbn [mbind result_bind app].
    apply not_elem_of_union in Hu1 as [Hne Hu1]. rewrite decide_True.
    + do 2 f_equal. cbn [list_to_set]. set_solver.
    + split.
      * apply NoDup_cons. split; [|apply NoDup_singleton]. intros ->%list_elem_of_singleton. by apply Hne, elem_of_singleton.
      * repeat (apply Forall_cons; split; [done|]). by apply Forall_nil.
Qed.

(** The checks before the signature. *)
Lemma check_spec vk data st nfs st1 :
  _checkMkrootNullifiersHsigAppendNullifiersState vk data st = Ok (nfs, st1) ↔
  ∃ root, data !! 0%nat = Some root ∧ bytes32 root ∈ _roots st ∧ nullifiers_of data = Ok nfs ∧
    NoDup nfs ∧ Forall (λ n, n ∉ _nullifiers st) nfs ∧
    _assembleHsig data = Ok (sha256 (concat nfs ++ pack_words vk)) ∧
    st1 = set_nullifiers (list_to_set nfs ∪ _nullifiers st) st.
Proof.
  unfold _checkMkrootNullifiersHsigAppendNullifiersState. split.
  - intros Hc. apply bind_Ok_inv in Hc as (root & Hroot & Hc). apply bind_Ok_inv in Hc as (u & Hr & Hc).
    apply require_Ok, bool_decide_eq_true in Hr. apply word_at_Ok in Hroot as [_ Hroot].
    apply bind_Ok_inv in Hc as ([used ns] & Hu & Hc). apply bind_Ok_inv in Hc as (hsig & Hh & Hc).
    apply bind_Ok_inv in Hc as (u' & He & Hc). apply require_Ok, bool_decide_eq_true in He as <-.
    apply Ok_inj in Hc. injection Hc as <- <-.
    destruct (nullifiers_of data) as [nfs'|e] eqn:En.
    + rewrite (use_nullifiers_spec _ _ nfs') in Hu by done. case_decide as Hf; [|done]. destruct Hf as [Hnd Hf].
      apply Ok_inj in Hu. injection Hu as <- <-. exists root. by split_and!.
    + exfalso. unfold nullifiers_of in En. cbn [use_nullifiers] in Hu.
      apply bind_Ok_inv in Hu as (n0 & E0 & Hu). apply bind_Ok_inv in Hu as (? & _ & Hu). apply bind_Ok_inv in Hu as (n1 & E1 & Hu).
      rewrite E0 in En. cbn [mbind result_bind] in En. by rewrite E1 in En.
  - intros (root & Hroot & Hr & Hn & Hnd & Hnew & Hh & ->).
    rewrite (proj2 (word_at_Ok data 0 root)) by done. cbn [mbind result_bind].
    rewrite require_true by (by apply bool_decide_eq_true). cbn [mbind result_bind].
    rewrite (use_nullifiers_spec _ _ nfs), decide_True by done. cbn [mbind result_bind]. rewrite Hh. cbn [mbind result_bind].
    by rewrite require_true by (by apply bool_decide_eq_true).
Qed.

(** The failing checks. *)
Lemma check_unknown_root vk data st root : data !! 0%nat = Some root → bytes32 root ∉ _roots st →
  _checkMkrootNullifiersHsigAppendNullifiersState vk data st = Err (Exception "Invalid root: This root doesn't exist").
Proof.
  intros Hroot Hr. unfold _checkMkrootNullifiersHsigAppendNullifiersState.
  rewrite (proj2 (word_at_Ok data 0 root)) by done. cbn [mbind result_bind].
  by rewrite require_false by (by apply bool_decide_eq_false).
Qed.

Lemma check_used_nullifier vk data st root nfs : data !! 0%nat = Some root → nullifiers_of data = Ok nfs →
  bytes32 root ∈ _roots st → ¬ (NoDup nfs ∧ Forall (λ n, n ∉ _nullifiers st) nfs) →
  _checkMkrootNullifiersHsigAppendNullifiersState vk data st =
    Err (Exception "Invalid nullifier: This nullifier has already been used").
Proof.
  intros Hroot Hn Hr Hf. unfold _checkMkrootNullifiersHsigAppendNullifiersState.
  rewrite (proj2 (word_at_Ok data 0 root)) by done. cbn [mbind result_bind].
  rewrite require_true by (by apply bool_decide_eq_true). cbn [mbind result_bind].
  by rewrite (use_nullifiers_spec _ _ nfs), decide_False.
Qed.

Lemma check_wrong_hsig vk data st root nfs hsig : data !! 0%nat = Some root → nullifiers_of data = Ok nfs →
  _assembleHsig data = Ok hsig →
  bytes32 root ∈ _roots st → (NoDup nfs ∧ Forall (λ n, n ∉ _nullifiers st) nfs) → hsig ≠ sha256 (concat nfs ++ pack_words vk) →
  _checkMkrootNullifiersHsigAppendNullifiersState vk data st =
    Err (Exception "Invalid hsig: This hsig does not correspond to the hash of vk and the nfs").
Proof.
  intros Hroot Hn Hh Hr Hf Hne. unfold _checkMkrootNullifiersHsigAppendNullifiersState.
  rewrite (proj2 (word_at_Ok data 0 root)) by done. cbn [mbind result_bind].
  rewrite require_true by (by apply bool_decide_eq_true). cbn [mbind result_bind].
  rewrite (use_nullifiers_spec _ _ nfs), decide_True by done. cbn [mbind result_bind]. rewrite Hh. cbn [mbind result_bind].
  rewrite require_false; [done|]. apply bool_decide_eq_false. congruence.
Qed.

Context `{EcPrecompiles} (d : nat) (HN : 2 ^ Z.of_nat d < 2 ^ 256).

(** The state after the tail of a call. *)
Definition after_mix (root : bytes) (t : TreeState) (st : MixerState) : MixerState :=
  _addMerkleRoot root (set_tree t st).

Lemma process_token ext msg data st st' : _token st = _token st' →
  _processPublicValues ext msg data st = _processPublicValues ext msg data st'.
Proof. intros E. unfold _processPublicValues. by rewrite E. Qed.

(** The tail of a call on a tree of [l], of which all but the last leaf at most are
    accounted for. *)
Lemma tail_spec ext msg data cts nfs st l m : contract_inv d l m (mixer_tree st) → 2 * (zlen l / 2) ≤ m →
  length data = 9%nat → zlen l + 2 ≤ 2 ^ Z.of_nat d →
  ∃ t', contract_inv d (l ++ commitments_of data) (zlen (l ++ commitments_of data)) t' ∧
    _mixAppendCommitmentsEmitAndHandlePublicValues d ext msg data cts nfs st =
      (acts ← _processPublicValues ext msg data st;
       Ok (after_mix (spec_root d (l ++ commitments_of data)) t' st,
           mkLogMix (spec_root d (l ++ commitments_of data)) nfs (commitments_of data) cts, acts)).
Proof using HN.
  intros Hinv Hm Hlen Hfit.
  destruct data as [|x0 [|x1 [|x2 data]]]; [done..|]. clear Hlen.
  set (cs := commitments_of (x0 :: x1 :: x2 :: data)). change cs with [bytes32 x1; bytes32 x2].
  assert (zlen cs = 2) as Hcs by done.
  destruct (AbstractMerkleTree.insert_all_spec d [bytes32 x1; bytes32 x2] l m (mixer_tree st) Hinv) as (t & Ht & Hinv'); [done|].
  destruct (AbstractMerkleTree.recompute_root_spec d (l ++ cs) m 2 t HN Hinv') as (t' & Hr & Hinv'').
  { rewrite zlen_app. pose proof (zlen_nonneg l). lia. }
  { rewrite zlen_app. by replace (zlen l + zlen cs - 2) with (zlen l) by lia. }
  exists t'. split; [done|]. unfold _mixAppendCommitmentsEmitAndHandlePublicValues, _assembleCommitmentsAndAppendToState.
  cbn [foldM] in Ht. apply bind_Ok_inv in Ht as (t1 & Ht1 & Ht). apply bind_Ok_inv in Ht as (t2 & Ht2 & Ht).
  apply Ok_inj in Ht as ->. cbn [append_commitments].
  rewrite (proj2 (word_at_Ok _ (1 + 0) x1)) by done. cbn [mbind result_bind]. rewrite Ht1. cbn [mbind result_bind].
  rewrite (proj2 (word_at_Ok _ (1 + 1) x2)) by done. cbn [mbind result_bind]. rewrite Ht2. cbn [mbind result_bind mixer_tree set_tree app].
  change _JSOUT with 2. rewrite Hr. cbn [mbind result_bind].
  erewrite (process_token _ _ _ _ st) by done. done.
Qed.

(** In a full tree the call reverts. *)
Lemma tail_full ext msg data cts nfs st l m : contract_inv d l m (mixer_tree st) →
  length data = 9%nat → 2 ^ Z.of_nat d < zlen l + 2 →
  _mixAppendCommitmentsEmitAndHandlePublicValues d ext msg data cts nfs st =
    Err (Exception "Merkle tree full: Cannot append anymore").
Proof using Type.
  intros Hinv Hlen Hfull. pose proof (AbstractMerkleTree.ci_full _ _ _ _ Hinv) as Hle.
  destruct data as [|x0 [|x1 [|x2 data]]]; [done..|]. clear Hlen.
  unfold _mixAppendCommitmentsEmitAndHandlePublicValues, _assembleCommitmentsAndAppendToState. cbn [append_commitments].
  rewrite (proj2 (word_at_Ok _ (1 + 0) x1)) by done. cbn [mbind result_bind].
  destruct (Z.eq_dec (zlen l) (2 ^ Z.of_nat d)) as [E|Hne].
  - by rewrite (AbstractMerkleTree.insert_full_reverts d l m).
  - destruct (AbstractMerkleTree.insert_spec d l m _ (bytes32 x1) Hinv) as (t1 & -> & Hinv1); [lia|]. cbn [mbind result_bind].
    rewrite (proj2 (word_at_Ok _ (1 + 1) x2)) by done. cbn [mbind result_bind].
    rewrite (AbstractMerkleTree.insert_full_reverts d (l ++ [bytes32 x1]) m); [done | done |].
    rewrite zlen_app. change (zlen [bytes32 x1]) with 1. lia.
Qed.
End calls.

(** ** Runs *)

(** The transactions that call a method changing the state. *)
Inductive Call : Type :=
  | CallMix (ext : Action → option bool) (msg : Msg) (proof vk : list Z) (sigma : Z) (publicInputs : list Z)
      (ciphertexts : list bytes)
  | CallDispatch (ext : Action → option bool) (msg : Msg) (nestedVkHash : Z * Z) (nestedInputs : list Z)
      (decoded : option (list Z * Z * list Z * list bytes))
  | CallInsert (commitment : bytes).

(** What the decoder of call data ensures: the arrays of fixed size have their size. *)
Definition call_wf (c : Call) : Prop :=
  match c with
  | CallMix _ _ _ vk _ publicInputs ciphertexts => zlen vk = 4 ∧ zlen publicInputs = _NUM_INPUTS ∧ zlen ciphertexts = _JSOUT
  | CallDispatch _ _ _ _ decoded => ∀ vk sigma data cts, decoded = Some (vk, sigma, data, cts) → zlen vk = 4
  | CallInsert _ => True
  end.

Definition is_insert (c : Call) : bool := match c with CallInsert _ => true | _ => false end.

(** ** The invariant *)

Section invariant.
Context `{MixerCurve} (d : nat).

Definition all_commitments (logs : list LogMix) : list bytes := concat (log_commitments <$> logs).
Definition all_nullifiers (logs : list LogMix) : list bytes := concat (log_nullifiers <$> logs).

(** The parts of the state that no call changes. *)
Definition config (st : MixerState) := (_vk st, _token st, _permittedDispatcher st, _vkHash st).

(** The state after the events [logs]. *)
Record mixer_inv (logs : list LogMix) (st : MixerState) : Prop := {
  mi_tree : contract_inv d (all_commitments logs) (zlen (all_commitments logs)) (mixer_tree st);
  mi_once : NoDup (all_nullifiers logs);
  mi_nullifiers : ∀ n, n ∈ _nullifiers st ↔ n ∈ all_nullifiers logs;
  mi_roots : ∀ r, r ∈ _roots st ↔ ∃ k, (k ≤ length logs)%nat ∧ r = spec_root d (all_commitments (take k logs));
  mi_logs : ∀ i log, logs !! i = Some log → log_root log = spec_root d (all_commitments (take (S i) logs)) ∧
    length (log_commitments log) = 2%nat ∧ length (log_ciphertexts log) = 2%nat
}.

Lemma all_commitments_app l1 l2 : all_commitments (l1 ++ l2) = all_commitments l1 ++ all_commitments l2.
Proof. unfold all_commitments. by rewrite fmap_app, concat_app. Qed.
Lemma all_nullifiers_app l1 l2 : all_nullifiers (l1 ++ l2) = all_nullifiers l1 ++ all_nullifiers l2.
Proof. unfold all_nullifiers. by rewrite fmap_app, concat_app. Qed.

Lemma even_commitments logs : Forall (λ log, length (log_commitments log) = 2%nat) logs →
  zlen (all_commitments logs) = 2 * zlen logs.
Proof.
  unfold zlen, all_commitments. induction 1 as [|log logs Hl _ IH]; [done|].
  cbn [fmap list_fmap concat]. rewrite length_app, Hl. cbn [length]. lia.
Qed.

(** The constructor. *)
Lemma new_mixer_inv token vk dispatcher vkh : ∃ st, new_mixer d (Z.of_nat d) token vk dispatcher vkh = Ok st ∧
  mixer_inv [] st ∧ config st = (vk, token, dispatcher, vkh).
Proof.
  unfold new_mixer. destruct (AbstractMerkleTree.new_tree_spec d) as (t & -> & Hinv). cbn [mbind result_bind].
  rewrite AbstractMerkleTree.load_ok by (pose proof (pow2_pos d); lia). cbn [mbind result_bind]. eexists. split; [done|].
  split; [|done]. pose proof (AbstractMerkleTree.root_node d [] t Hinv) as Hroot.
  split; [exact Hinv | constructor | set_solver | | done].
  cbn [_roots]. intros r. rewrite elem_of_singleton. fold (AbstractMerkleTree.at_ (AbstractMerkleTree._nodes t) 0).
  rewrite Hroot. split; [intros ->; by exists 0%nat | by intros ([|?] & ? & ->)].
Qed.
End invariant.

(** ** Transactions *)

Section runs.
Context `{MixerCurve} `{EcPrecompiles} (d : nat).
Context (_verifyZkProof : list Z → list Z → Z → result bool).

Definition exec (c : Call) (st : MixerState) : result (MixerState * list LogMix * list Action) :=
  match c with
  | CallMix ext msg proof vk sigma inputs cts =>
      '(st, log, acts) ← mix d _verifyZkProof ext msg proof vk sigma inputs cts st; Ok (st, [log], acts)
  | CallDispatch ext msg vkh inputs decoded =>
      '(st, log, acts) ← dispatch d ext msg vkh inputs decoded st; Ok (st, [log], acts)
  | CallInsert c => st ← insert d c st; Ok (st, [], [])
  end.

(** A reverted transaction changes nothing. *)
Definition exec_tx (s : MixerState * list LogMix) (c : Call) : MixerState * list LogMix :=
  match exec c s.1 with Ok (st, logs, _) => (st, s.2 ++ logs) | Err _ => s end.

Definition run (st : MixerState) (calls : list Call) : MixerState * list LogMix := foldl exec_tx (st, []) calls.

(** What a successful mix or dispatch did. *)
Lemma exec_inv c st st' logs acts : call_wf c → is_insert c = false → exec c st = Ok (st', logs, acts) →
  ∃ vk data cts ext msg nfs st1 log, length data = 9%nat ∧ length cts = 2%nat ∧ logs = [log] ∧
    _checkMkrootNullifiersHsigAppendNullifiersState vk data st = Ok (nfs, st1) ∧
    _mixAppendCommitmentsEmitAndHandlePublicValues d ext msg data cts nfs st1 = Ok (st', log, acts).
Proof.
  intros Hwf Hins He. destruct c as [ext msg proof vk sigma data cts | ext msg vkh inputs decoded |]; [| |done]; cbn in He.
  - apply bind_Ok_inv in He as ([[st2 log] acts'] & He & E). apply Ok_inj in E. injection E as <- <- <-.
    destruct Hwf as (_ & Hd & Hc). unfold mix in He. apply bind_Ok_inv in He as ([nfs st1] & Hcheck & He).
    do 4 apply bind_Ok_inv in He as (? & _ & He). apply bind_Ok_inv in He as (? & _ & He).
    apply bind_Ok_inv in He as (? & _ & He). apply bind_Ok_inv in He as (? & _ & He).
    exists vk, data, cts, ext, msg, nfs, st1, log. unfold zlen in Hd, Hc. change _NUM_INPUTS with 9 in Hd. change _JSOUT with 2 in Hc.
    split_and!; [lia | lia | done | done | done].
  - apply bind_Ok_inv in He as ([[st2 log] acts'] & He & E). apply Ok_inj in E. injection E as <- <- <-.
    unfold dispatch in He. do 3 apply bind_Ok_inv in He as (? & _ & He).
    apply bind_Ok_inv in He as ([[[vk sigma] data] cts] & _ & He).
    apply bind_Ok_inv in He as (? & Hd & He). apply require_Ok, Z.eqb_eq in Hd.
    apply bind_Ok_inv in He as (? & Hc & He). apply require_Ok, Z.eqb_eq in Hc.
    do 2 apply bind_Ok_inv in He as (? & _ & He). apply bind_Ok_inv in He as ([nfs st1] & Hcheck & He).
    do 4 apply bind_Ok_inv in He as (? & _ & He). apply bind_Ok_inv in He as (? & _ & He).
    exists vk, data, cts, ext, msg, nfs, st1, log. unfold zlen in Hd, Hc. change _NUM_INPUTS with 9 in Hd. change _JSOUT with 2 in Hc.
    split_and!; [lia | lia | done | done | done].
Qed.

(** ** Nullifiers, whatever is called *)

Lemma tail_nullifiers ext msg data cts nfs st st' log acts :
  _mixAppendCommitmentsEmitAndHandlePublicValues d ext msg data cts nfs st = Ok (st', log, acts) →
  _nullifiers st' = _nullifiers st ∧ log_nullifiers log = nfs.
Proof.
  unfold _mixAppendCommitmentsEmitAndHandlePublicValues, _assembleCommitmentsAndAppendToState. intros Ht.
  apply bind_Ok_inv in Ht as ([cms st1] & E & Ht). apply bind_Ok_inv in E as ([cms' t1] & _ & E).
  apply Ok_inj in E. injection E as <- <-. apply bind_Ok_inv in Ht as ([root t2] & _ & Ht).
  apply bind_Ok_inv in Ht as (acts' & _ & Ht). apply Ok_inj in Ht. by injection Ht as <- <- <-.
Qed.

Definition nullifiers_once (logs : list LogMix) (st : MixerState) : Prop :=
  NoDup (all_nullifiers logs) ∧ ∀ n, n ∈ _nullifiers st ↔ n ∈ all_nullifiers logs.

Lemma exec_once logs st c st' new acts : nullifiers_once logs st → call_wf c →
  exec c st = Ok (st', new, acts) → nullifiers_once (logs ++ new) st'.
Proof.
  intros [Honce Hnfs] Hwf He. destruct (is_insert c) eqn:Hins.
  - destruct c as [| |v]; [done..|]. cbn in He. apply bind_Ok_inv in He as (st1 & E & He). apply Ok_inj in He.
    injection He as <- <- <-. unfold insert in E. apply bind_Ok_inv in E as (t & _ & E). apply Ok_inj in E as <-.
    by rewrite app_nil_r.
  - destruct (exec_inv c st st' new acts Hwf Hins He) as (vk & data & cts & ext & msg & nfs & st1 & log & _ & _ & -> & Hc & Ht).
    apply check_spec in Hc as (root & _ & _ & _ & Hnd & Hfresh & _ & ->).
    apply tail_nullifiers in Ht as [Hst Hlog]. cbn [set_nullifiers _nullifiers] in Hst.
    unfold nullifiers_once. rewrite all_nullifiers_app. unfold all_nullifiers at 2 4. cbn. rewrite app_nil_r, Hlog, Hst. split.
    + apply NoDup_app. split_and!; [done | | done]. intros n Hold Hnew. rewrite Forall_forall in Hfresh. apply (Hfresh n Hnew). by apply Hnfs.
    + intros n. rewrite elem_of_union, elem_of_list_to_set, Hnfs. set_solver.
Qed.

Lemma run_once calls : ∀ logs st, nullifiers_once logs st → Forall call_wf calls →
  nullifiers_once (foldl exec_tx (st, logs) calls).2 (foldl exec_tx (st, logs) calls).1.
Proof.
  induction calls as [|c calls IH]; intros logs st Hinv Hwf; [done|]. apply Forall_cons in Hwf as [Hc Hwf]. cbn [foldl].
  unfold exec_tx at 2 4. cbn [fst snd]. destruct (exec c st) as [[[st' new] acts]|] eqn:E; [|by apply IH].
  apply IH; [|done]. by eapply exec_once.
Qed.
(** ** The whole state, without inserted leaves *)

Context (HN : 2 ^ Z.of_nat d < 2 ^ 256).

(** What a call other than [insert] does to a state within the invariant. *)
Lemma exec_spec logs st c st' new acts : mixer_inv d logs st → call_wf c → is_insert c = false →
  exec c st = Ok (st', new, acts) → mixer_inv d (logs ++ new) st' ∧ config st' = config st.
Proof using HN.
  intros [Htree Honce Hnfs Hroots Hlogs] Hwf Hins He.
  destruct (exec_inv c st st' new acts Hwf Hins He) as (vk & data & cts & ext & msg & nfs & st1 & log & Hdata & Hcts & -> & Hc & Ht).
  apply check_spec in Hc as (root & _ & _ & Hn & Hnd & Hfresh & _ & ->).
  destruct (Z.lt_ge_cases (2 ^ Z.of_nat d) (zlen (all_commitments logs) + 2)) as [Hfull|Hfit].
  { erewrite (tail_full d) in Ht; [done | exact Htree | done | done]. }
  destruct (tail_spec d HN ext msg data cts nfs (set_nullifiers (list_to_set nfs ∪ _nullifiers st) st) _ _ Htree)
    as (t' & Hinv' & E); [pose proof (Z.mul_div_le (zlen (all_commitments logs)) 2); lia | done | done |].
  rewrite E in Ht. apply bind_Ok_inv in Ht as (acts' & _ & Ht). apply Ok_inj in Ht. injection Ht as <- <- <-.
  split; [|done].
  assert (all_commitments (logs ++ [mkLogMix (spec_root d (all_commitments logs ++ commitments_of data)) nfs (commitments_of data) cts]) =
    all_commitments logs ++ commitments_of data) as Ec.
  { rewrite all_commitments_app. unfold all_commitments at 2. cbn. by rewrite app_nil_r. }
  split; cbn [mixer_tree after_mix _addMerkleRoot set_roots set_tree set_nullifiers _nullifiers _roots].
  - by rewrite Ec.
  - rewrite all_nullifiers_app. unfold all_nullifiers at 2. cbn. rewrite app_nil_r. apply NoDup_app. split_and!; [done | | done].
    intros n Hold Hnew. rewrite Forall_forall in Hfresh. apply (Hfresh n Hnew). by apply Hnfs.
  - intros n. rewrite all_nullifiers_app. unfold all_nullifiers at 2. cbn. rewrite app_nil_r, elem_of_union, elem_of_list_to_set, Hnfs.
    set_solver.
  - intros r. rewrite elem_of_union, elem_of_singleton, Hroots, length_app. cbn [length]. split.
    + intros [->|(k & Hk & ->)].
      * exists (length logs + 1)%nat. split; [lia|]. rewrite take_ge by (rewrite length_app; cbn; lia). by rewrite Ec.
      * exists k. split; [lia|]. by rewrite take_app_le by lia.
    + intros (k & Hk & ->). destruct (Nat.eq_dec k (length logs + 1)%nat) as [->|].
      * left. rewrite take_ge by (rewrite length_app; cbn; lia). by rewrite Ec.
      * right. exists k. split; [lia|]. by rewrite take_app_le by lia.
  - intros i log Hi. apply lookup_app_Some in Hi as [Hi|[Hge Hi]].
    + rewrite take_app_le by (apply lookup_lt_Some in Hi; lia). by apply Hlogs.
    + apply list_lookup_singleton_Some in Hi as [Hi <-]. cbn.
      rewrite take_ge by (rewrite length_app; cbn; lia). rewrite Ec. split; [done|]. split; [|done].
      unfold commitments_of. rewrite length_fmap, length_take, length_drop. lia.
Qed.

(** The invariant along a run without inserted leaves. *)
Lemma run_inv calls : ∀ logs st, mixer_inv d logs st → Forall call_wf calls → Forall (λ c, is_insert c = false) calls →
  mixer_inv d (foldl exec_tx (st, logs) calls).2 (foldl exec_tx (st, logs) calls).1 ∧
  config (foldl exec_tx (st, logs) calls).1 = config st.
Proof using HN.
  induction calls as [|c calls IH]; intros logs st Hinv Hwf Hins; [done|].
  apply Forall_cons in Hwf as [Hc Hwf]. apply Forall_cons in Hins as [Hi Hins]. cbn [foldl].
  unfold exec_tx at 2 4 6. cbn [fst snd]. destruct (exec c st) as [[[st' new] acts]|] eqn:E; [|by apply IH].
  destruct (exec_spec logs st c st' new acts) as [Hinv' <-]; [done..|]. by apply IH.
Qed.

End runs.

(** ** Properties *)

(** C11: a contract from its constructor, after any transactions that call [mix] or
    [dispatch] (those that revert included): its tree holds exactly the commitments of
    the emitted events, its used nullifiers are exactly those of the events and none
    occurs twice, its accepted roots are exactly the roots after some number of events,
    each event carries the root after it, and the verification key, token and
    dispatcher are those of the constructor. *)
Theorem mixer_invariant `{MixerCurve} `{EcPrecompiles} (d : nat) verifier token vk dispatcher vkh (calls : list Call)
  (HN : (d < 256)%nat) (Hwf : Forall call_wf calls) (Hins : Forall (λ c, is_insert c = false) calls) :
  ∃ st0, new_mixer d (Z.of_nat d) token vk dispatcher vkh = Ok st0 ∧
    let st := (run d verifier st0 calls).1 in
    let logs := (run d verifier st0 calls).2 in
    mixer_inv d logs st ∧ config st = (vk, token, dispatcher, vkh).
Proof.
  destruct (new_mixer_inv d token vk dispatcher vkh) as (st0 & E & Hinv & Hc). exists st0. split; [done|].
  rewrite <- Hc. apply run_inv; [|done..]. apply Z.pow_lt_mono_r; lia.
Qed.

(** C17: whatever methods are called in whatever order, [insert] included, no
    nullifier is accepted twice: the nullifiers of all events are distinct, and they
    are the used nullifiers of the state. *)
Theorem nullifiers_spent_once `{MixerCurve} `{EcPrecompiles} (d : nat) verifier token vk dispatcher vkh (calls : list Call)
  (Hwf : Forall call_wf calls) :
  ∃ st0, new_mixer d (Z.of_nat d) token vk dispatcher vkh = Ok st0 ∧
    let st := (run d verifier st0 calls).1 in
    let logs := (run d verifier st0 calls).2 in
    NoDup (all_nullifiers logs) ∧ ∀ n, n ∈ _nullifiers st ↔ n ∈ all_nullifiers logs.
Proof.
  destruct (new_mixer_inv d token vk dispatcher vkh) as (st0 & E & Hinv & _). exists st0. split; [done|].
  apply run_once; [|done]. split; [constructor | apply (mi_nullifiers _ _ _ Hinv)].
Qed.

(** C19: a call of [mix] that must not go through reverts, with the reason of the first
    check that fails: an unknown root, a nullifier that was used or occurs twice, an
    h_sig that does not belong to the nullifiers and the key, a bad signature, a proof
    the verifier refuses, a tree without room for the commitments. *)
Theorem mix_reverts `{MixerCurve} `{EcPrecompiles} (d : nat) verifier ext msg proof vk sigma data cts st
  (l : list bytes) (root vk0 vk1 vk2 vk3 : Z) (nfs : list bytes) (hsig : bytes)
  (Hdata : length data = 9%nat) (Hroot : data !! 0%nat = Some root) (Hvk : vk = [vk0; vk1; vk2; vk3])
  (Hnfs : nullifiers_of data = Ok nfs) (Hhsig : _assembleHsig data = Ok hsig)
  (Htree : contract_inv d l (zlen l) (mixer_tree st)) :
  let call := mix d verifier ext msg proof vk sigma data cts st in
  let known := bytes32 root ∈ _roots st in
  let fresh := NoDup nfs ∧ Forall (λ n, n ∉ _nullifiers st) nfs in
  let bound := hsig = sha256 (concat nfs ++ pack_words vk) in
  let signed := LibOTSchnorrVerifier._verify vk0 vk1 vk2 vk3 sigma
    (sha256 (sender_word msg ++ concat cts ++ pack_words proof ++ pack_words data)) = true in
  let proved := verifier (_vk st) proof (_hashPublicProofData data) = Ok true in
  (¬ known → call = Err (Exception "Invalid root: This root doesn't exist")) ∧
  (known → ¬ fresh → call = Err (Exception "Invalid nullifier: This nullifier has already been used")) ∧
  (known → fresh → ¬ bound →
     call = Err (Exception "Invalid hsig: This hsig does not correspond to the hash of vk and the nfs")) ∧
  (known → fresh → bound → ¬ signed →
     call = Err (Exception "Invalid signature: Unable to verify the signature correctly")) ∧
  (known → fresh → bound → signed → verifier (_vk st) proof (_hashPublicProofData data) = Ok false →
     call = Err (Exception "Invalid proof: Unable to verify the proof correctly")) ∧
  (known → fresh → bound → signed → proved → 2 ^ Z.of_nat d < zlen l + 2 →
     call = Err (Exception "Merkle tree full: Cannot append anymore")).
Proof.
  intros call known fresh bound signed proved. unfold call, mix.
  assert (known → fresh → bound → _checkMkrootNullifiersHsigAppendNullifiersState vk data st =
    Ok (nfs, set_nullifiers (list_to_set nfs ∪ _nullifiers st) st)) as Hcheck.
  { intros Hk [Hnd Hf] Hb. apply check_spec. exists root. split_and!; try done. by rewrite Hhsig, Hb. }
  assert (∀ i x, vk !! Z.to_nat i = Some x → 0 ≤ i → word_at vk i = Ok x) as Hword by (intros; by apply word_at_Ok).
  assert (Hw : word_at vk 0 = Ok vk0 ∧ word_at vk 1 = Ok vk1 ∧ word_at vk 2 = Ok vk2 ∧ word_at vk 3 = Ok vk3)
    by (rewrite Hvk in *; split_and!; by apply Hword).
  destruct Hw as (W0 & W1 & W2 & W3).
  split_and!.
  - intros Hk. by rewrite (check_unknown_root vk data st root).
  - intros Hk Hf. by rewrite (check_used_nullifier vk data st root nfs).
  - intros Hk Hf Hb. by rewrite (check_wrong_hsig vk data st root nfs hsig).
  - intros Hk Hf Hb Hs. rewrite Hcheck by done. cbn [mbind result_bind]. rewrite W0, W1, W2, W3. cbn [mbind result_bind].
    rewrite require_false by (by apply not_true_is_false). done.
  - intros Hk Hf Hb Hs Hp. rewrite Hcheck by done. cbn [mbind result_bind]. rewrite W0, W1, W2, W3. cbn [mbind result_bind].
    rewrite require_true by done. cbn [mbind result_bind set_nullifiers _vk]. by rewrite Hp.
  - intros Hk Hf Hb Hs Hp Hfull. rewrite Hcheck by done. cbn [mbind result_bind]. rewrite W0, W1, W2, W3. cbn [mbind result_bind].
    rewrite require_true by done. cbn [mbind result_bind set_nullifiers _vk]. rewrite Hp. cbn [mbind result_bind require].
    by apply (tail_full d _ _ _ _ _ _ l (zlen l)).
Qed.
