(* ===== verification/ContractClient.v ===== *)
(** * The contract and its client

    The parameters a client makes are accepted by the contract, and the events of the
    contract's runs are what a wallet synchronises with.  Two ways in which the contract
    accepts what the client's notes do not pay for are proved as well. *)

From Stdlib Require Import ZArith Lia Ascii String Strings.Byte.
From stdpp Require Import base tactics list gmap strings.
From S2P Require Import Prelude PyStr PyBytes PyFloat PyIO Hashes Constants Utils MerkleTree MerkleTreeFacts Mimc MimcFacts Pairing ZkSnark Signing Encryption Notes Contracts MixerClient MixerFacts Wallet WalletFacts WalletSync ContractTree ContractMixer ContractFacts ContractRuns.

Local Open Scope Z_scope.

Import AbstractMerkleTree(TreeState, contract_inv, require).
Import AbstractMixer.

Opaque sha256.

(** ** What the client signs *)

Section digest.
Context `{EthAbiLaws}.

Lemma contract_digest zksnark pp eth_addr sender proof cts ep data dispatch digest :
  eth_address_to_bytes32 eth_addr = Ok (bytes32 sender) →
  proof_to_contract_parameters zksnark (ZkSnark.proof ep) pp = Ok proof →
  Forall uint256 proof → Forall uint256 data →
  joinsplit_digest zksnark pp eth_addr cts ep data dispatch = Ok digest →
  zlen cts = JS_INPUTS ∧
  digest = sha256 (bytes32 sender ++ concat cts ++ (if dispatch then [] else pack_words proof) ++ pack_words data).
Proof.
  intros Haddr Hproof Hp Hd Hdig. unfold joinsplit_digest in Hdig.
  apply bind_Ok_inv in Hdig as ([] & Hlen & Hdig). apply py_assert_Ok, Z.eqb_eq in Hlen. split; [done|].
  rewrite Haddr in Hdig. cbn [mbind result_bind] in Hdig. unfold _proof_and_inputs_to_bytes in Hdig.
  rewrite Hproof in Hdig. cbn [mbind result_bind] in Hdig.
  rewrite !message_to_bytes_ints in Hdig by done. cbn [mbind result_bind] in Hdig. by apply Ok_inj in Hdig as <-.
Qed.
End digest.

(** The words of a key generated from random bytes. *)
Lemma keypair_words `{BN128Laws} rx ry kp : rx ≠ [] → ry ≠ [] →
  int_from_bytes rx mod curve_order ≠ 0 → int_from_bytes ry mod curve_order ≠ 0 →
  gen_signing_keypair rx ry = Ok kp →
  ∃ a b X0 X1 Y0 Y1, 0 ≤ a ∧ 0 ≤ b ∧ ec_multiply ec_G1 a = Some (X0, X1) ∧ ec_multiply ec_G1 b = Some (Y0, Y1) ∧
    Forall uint256 [X0; X1; Y0; Y1] ∧
    kp_vk kp = mkSVK (Some (X0, X1)) (Some (Y0, Y1)) ∧
    svk_to_bytes (kp_vk kp) = Ok (pack_words [X0; X1; Y0; Y1]) ∧
    verification_key_as_mix_parameter (kp_vk kp) = Ok [X0; X1; Y0; Y1].
Proof.
  intros Hrx Hry Hx Hy Hgen. pose proof order_bounds. pose proof modulus_bounds.
  destruct (gen_keypair_ok rx ry Hrx Hry) as (a & b & Ha & Hb & Ea & Eb & E). rewrite E in Hgen. apply Ok_inj in Hgen as <-.
  destruct (multiple_finite a) as (X0 & X1 & EX & HX0 & HX1); [lia|]. destruct (multiple_finite b) as (Y0 & Y1 & EY & HY0 & HY1); [lia|].
  exists a, b, X0, X1, Y0, Y1. cbn [kp_vk]. rewrite EX, EY. split_and!; try done; try lia.
  - repeat (apply Forall_cons; split; [unfold uint256; lia|]). by apply Forall_nil.
  - unfold svk_to_bytes, g1_to_bytes. cbn [ppk spk g1_coords of_option mbind result_bind].
    rewrite !int_to_bytes_Ok by (change (256 ^ Z.of_nat 32) with (2 ^ 256); lia). cbn [mbind result_bind].
    unfold pack_words. cbn [mbind list_bind]. by rewrite app_nil_r, <- !app_assoc.
Qed.

(** ** An honest call *)

Section honest.
Context `{MixerCurve} (Hcap : 240 ≤ _FIELD_CAPACITY < 256).
Context `{BN128Laws} `{!EcPrecompiles} `{!EcPrecompilesLaws} `{EthAbiLaws} `{NoteCrypto}.
Context (d : nat) (verifier : list Z → list Z → Z → result bool) (ext : Action → option bool).

(** The contract can take the call: the root is known, the nullifiers are new, the tree
    has room, the proof is valid and the ether of the joinsplit is paid. *)
Record ready (l : list bytes) (st : MixerState) (msg : Msg) (proof : list Z) (v : PublicValues) : Prop := {
  rd_tree : contract_inv d l (zlen l) (mixer_tree st);
  rd_room : zlen l + 2 ≤ 2 ^ Z.of_nat d;
  rd_root : bytes32 (pv_root v) ∈ _roots st;
  rd_new0 : bytes32 (pv_nf0 v) ∉ _nullifiers st;
  rd_new1 : bytes32 (pv_nf1 v) ∉ _nullifiers st;
  rd_distinct : pv_nf0 v ≠ pv_nf1 v;
  rd_proof : verifier (_vk st) proof (_hashPublicProofData (primary_inputs v)) = Ok true;
  rd_ether : _token st = 0;
  rd_paid : msg_value msg = pv_in v * _PUBLIC_UNIT_VALUE_WEI;
  rd_withdraw : 0 < pv_out v → ext (SendEther (msg_sender msg) (pv_out v * _PUBLIC_UNIT_VALUE_WEI)) = Some true
}.

Definition withdrawal (msg : Msg) (v : PublicValues) : list Action :=
  if 0 <? pv_out v then [SendEther (msg_sender msg) (pv_out v * _PUBLIC_UNIT_VALUE_WEI)] else [].

Lemma honest_payment l st msg proof v st1 : public_values_ok v → ready l st msg proof v → _token st1 = _token st →
  _processPublicValues ext msg (primary_inputs v) st1 = Ok (withdrawal msg v).
Proof using Hcap.
  intros Hv Hr Ht. unfold _processPublicValues.
  rewrite (proj2 (word_at_Ok (primary_inputs v) _ (residual_word (pv_in v) (pv_out v) (digests v)))) by done.
  cbn [mbind result_bind]. rewrite assemble_public_values by (apply digests_ok, Hv || apply Hv || done).
  rewrite Ht, (rd_ether _ _ _ _ _ Hr). cbn [Z.eqb negb].
  assert (0 < _PUBLIC_UNIT_VALUE_WEI) as Hu by done. set (u := _PUBLIC_UNIT_VALUE_WEI) in *.
  pose proof (rd_paid _ _ _ _ _ Hr) as Hp. fold u in Hp. destruct (pvo_in _ Hv) as [Hin _]. destruct (pvo_out _ Hv) as [Hout _].
  unfold withdrawal. fold u.
  assert (∀ x, 0 ≤ x → (0 <? x * u) = (0 <? x)) as Hlt.
  { intros x Hx. destruct (Z.ltb_spec 0 x); [apply Z.ltb_lt | apply Z.ltb_ge]; nia. }
  rewrite !Hlt by done. destruct (Z.ltb_spec 0 (pv_in v)).
  - rewrite require_true by (by apply Z.eqb_eq). cbn [mbind result_bind app].
    destruct (Z.ltb_spec 0 (pv_out v)) as [Hpos|]; [|done].
    unfold ether_call. rewrite require_true by (apply bool_decide_eq_true; by apply (rd_withdraw _ _ _ _ _ Hr)). done.
  - replace (pv_in v) with 0 in Hp by lia. rewrite Hp. cbn [Z.mul Z.ltb Z.compare mbind result_bind app].
    destruct (Z.ltb_spec 0 (pv_out v)) as [Hpos|]; [|done].
    unfold ether_call. rewrite require_true by (apply bool_decide_eq_true; by apply (rd_withdraw _ _ _ _ _ Hr)). done.
Qed.

(** The nullifiers and the check of h_sig. *)
Lemma honest_check l st msg proof v vk vkb : public_values_ok v → ready l st msg proof v →
  svk_to_bytes vk = Ok (pack_words vkb) →
  compute_h_sig [bytes32 (pv_nf0 v); bytes32 (pv_nf1 v)] vk = Ok (bytes32 (pv_hsig v)) →
  _checkMkrootNullifiersHsigAppendNullifiersState vkb (primary_inputs v) st =
    Ok ([bytes32 (pv_nf0 v); bytes32 (pv_nf1 v)],
        AbstractMixer.set_nullifiers (list_to_set [bytes32 (pv_nf0 v); bytes32 (pv_nf1 v)] ∪ _nullifiers st) st).
Proof using Hcap.
  intros Hv Hr Hvk Hh. apply check_spec. exists (pv_root v).
  assert (bytes32 (pv_nf0 v) ≠ bytes32 (pv_nf1 v)) as Hne.
  { pose proof (pvo_words _ Hv) as Hw. rewrite !Forall_cons in Hw. destruct Hw as (_ & _ & _ & H0' & H1' & _).
    intros E. apply (rd_distinct _ _ _ _ _ Hr). apply (f_equal int_from_bytes) in E. unfold bytes32 in E.
    rewrite !int_from_to_be, !Z.mod_small in E; done. }
  split_and!; try done.
  - apply Hr.
  - unfold nullifiers_of. change 0 with (Z.of_nat 0) at 1. change 1 with (Z.of_nat 1) at 1.
    rewrite (assemble_nullifier Hcap v 0 (pv_nf0 v)), (assemble_nullifier Hcap v 1 (pv_nf1 v)) by done. done.
  - apply NoDup_cons. split; [by rewrite list_elem_of_singleton | apply NoDup_singleton].
  - repeat (apply Forall_cons; split; [apply Hr|]). by apply Forall_nil.
  - rewrite assemble_hsig by done. unfold compute_h_sig in Hh. rewrite Hvk in Hh. cbn [mbind result_bind] in Hh.
    by rewrite <- Hh.
Qed.
End honest.

(** The types of the arguments of [mix] in the contract's interface. *)
Definition mix_arguments_typed (args : list Z * list Z * Z * list Z * list bytes) : Prop :=
  let '(proof, vk, sigma, inputs, cts) := args in
  Forall uint256 proof ∧ (Forall uint256 vk ∧ zlen vk = 4) ∧ uint256 sigma ∧
  (Forall uint256 inputs ∧ zlen inputs = _NUM_INPUTS) ∧ zlen cts = _JSOUT.


Section accepted.
Context `{MixerCurve} (Hcap : 240 ≤ _FIELD_CAPACITY < 256).
Context `{BN128Laws} `{!EcPrecompiles} `{!EcPrecompilesLaws} `{EthAbiLaws} `{NoteCrypto}.

(** What is signed with a generated key verifies in the contract. *)
Lemma signature_accepted (zk : IZKSnarkProvider) (pp : PairingParameters) (rx ry : bytes) (kp : SigningKeyPair)
  (ep : ExtendedProof) (eth_addr : str) (data proof vk : list Z) (s : Z) (cs : list bytes) (dispatch : bool) (sender : Z) :
  rx ≠ [] → ry ≠ [] → int_from_bytes rx mod curve_order ≠ 0 → int_from_bytes ry mod curve_order ≠ 0 →
  gen_signing_keypair rx ry = Ok kp → verification_key_as_mix_parameter (kp_vk kp) = Ok vk →
  joinsplit_sign zk pp kp eth_addr cs ep data dispatch = Ok s →
  proof_to_contract_parameters zk (ZkSnark.proof ep) pp = Ok proof →
  Forall uint256 proof → Forall uint256 data → eth_address_to_bytes32 eth_addr = Ok (bytes32 sender) →
  ∃ X0 X1 Y0 Y1, vk = [X0; X1; Y0; Y1] ∧ Forall uint256 vk ∧ svk_to_bytes (kp_vk kp) = Ok (pack_words vk) ∧
    uint256 s ∧ zlen cs = JS_INPUTS ∧
    LibOTSchnorrVerifier._verify X0 X1 Y0 Y1 s
      (sha256 (bytes32 sender ++ concat cs ++ (if dispatch then [] else pack_words proof) ++ pack_words data)) = true.
Proof.
  intros Hrx Hry Hx Hy Hkp Hvk Hs Hws Hproof Hdata Hsender. pose proof order_bounds. pose proof modulus_bounds.
  destruct (keypair_words rx ry kp Hrx Hry Hx Hy Hkp) as (a & b & X0 & X1 & Y0 & Y1 & Ha & Hb & EX & EY & Hw & Evk & Ebytes & Ewords).
  rewrite Ewords in Hvk. apply Ok_inj in Hvk as <-. exists X0, X1, Y0, Y1.
  unfold joinsplit_sign in Hs. apply bind_Ok_inv in Hs as (m & Hm & Hs).
  destruct (contract_digest zk pp eth_addr sender proof cs ep data dispatch m Hsender Hws Hproof Hdata Hm) as [Hc ->].
  set (m := sha256 _) in *. pose proof (sign_verify_ok rx ry kp m s Hrx Hry Hkp Hs) as Hver.
  assert (0 ≤ s < field_modulus) as Hsr.
  { unfold sign in Hs. apply bind_Ok_inv in Hs as (g & _ & Hs). apply bind_Ok_inv in Hs as (c & _ & Hs). apply Ok_inj in Hs as <-.
    assert (0 < curve_order) as Hpos by lia.
    pose proof (Z.mod_pos_bound (ssk_y (kp_sk kp) + c * psk (kp_sk kp)) curve_order Hpos). lia. }
  rewrite Evk, (contract_verify_client a b) in Hver by (done || apply sha256_length). apply Ok_inj in Hver.
  split_and!; try done; unfold uint256; lia.
Qed.

(** What follows the checks of the signature and the proof. *)
Lemma honest_tail (d : nat) (verifier : list Z → list Z → Z → result bool) (ext : Action → option bool)
  (v : PublicValues) (proof : list Z) (cs : list bytes) (msg : Msg) (l : list bytes) (st : MixerState) :
  (d < 256)%nat → public_values_ok v → ready d verifier ext l st msg proof v →
  let cms := [bytes32 (pv_cm0 v); bytes32 (pv_cm1 v)] in
  let nfs := [bytes32 (pv_nf0 v); bytes32 (pv_nf1 v)] in
  let st1 := AbstractMixer.set_nullifiers (list_to_set nfs ∪ _nullifiers st) st in
  ∃ t, contract_inv d (l ++ cms) (zlen (l ++ cms)) t ∧
    _mixAppendCommitmentsEmitAndHandlePublicValues d ext msg (primary_inputs v) cs nfs st1 =
      Ok (after_mix (spec_root d (l ++ cms)) t st1, mkLogMix (spec_root d (l ++ cms)) nfs cms cs, withdrawal msg v).
Proof.
  intros Hd Hv Hready cms nfs st1.
  destruct (tail_spec d ltac:(apply Z.pow_lt_mono_r; lia) ext msg (primary_inputs v) cs nfs st1 l (zlen l)) as (t & Ht & ->);
    [apply (rd_tree _ _ _ _ _ _ _ _ Hready) | pose proof (Z.mul_div_le (zlen l) 2); lia | done | apply (rd_room _ _ _ _ _ _ _ _ Hready) |].
  exists t. split; [done|]. rewrite (honest_payment Hcap d verifier ext l st msg proof v) by done. done.
Qed.

(** A call signed with a generated key over packed values is accepted. *)
Lemma signed_call_accepted (d : nat) (verifier : list Z → list Z → Z → result bool) (ext : Action → option bool)
  (zk : IZKSnarkProvider) (pp : PairingParameters) (rx ry : bytes) (kp : SigningKeyPair) (ep : ExtendedProof) (eth_addr : str)
  (v : PublicValues) (proof vk : list Z) (s : Z) (cs : list bytes) (msg : Msg) (l : list bytes) (st : MixerState) :
  (d < 256)%nat → rx ≠ [] → ry ≠ [] → int_from_bytes rx mod curve_order ≠ 0 → int_from_bytes ry mod curve_order ≠ 0 →
  gen_signing_keypair rx ry = Ok kp → verification_key_as_mix_parameter (kp_vk kp) = Ok vk → public_values_ok v →
  compute_h_sig [bytes32 (pv_nf0 v); bytes32 (pv_nf1 v)] (kp_vk kp) = Ok (bytes32 (pv_hsig v)) →
  joinsplit_sign zk pp kp eth_addr cs ep (primary_inputs v) false = Ok s →
  proof_to_contract_parameters zk (ZkSnark.proof ep) pp = Ok proof →
  Forall uint256 proof → eth_address_to_bytes32 eth_addr = Ok (bytes32 (msg_sender msg)) →
  ready d verifier ext l st msg proof v →
  let cms := [bytes32 (pv_cm0 v); bytes32 (pv_cm1 v)] in
  let nfs := [bytes32 (pv_nf0 v); bytes32 (pv_nf1 v)] in
  let root := spec_root d (l ++ cms) in
  ∃ t, contract_inv d (l ++ cms) (zlen (l ++ cms)) t ∧
    AbstractMixer.mix d verifier ext msg proof vk s (primary_inputs v) cs st =
      Ok (after_mix root t (AbstractMixer.set_nullifiers (list_to_set nfs ∪ _nullifiers st) st),
          mkLogMix root nfs cms cs, withdrawal msg v).
Proof.
  intros Hd Hrx Hry Hx Hy Hkp Hvk Hv Hhsig Hs Hws Hproof Hsender Hready cms nfs root.
  destruct (signature_accepted zk pp rx ry kp ep eth_addr (primary_inputs v) proof vk s cs false (msg_sender msg))
    as (X0 & X1 & Y0 & Y1 & -> & _ & Ebytes & _ & _ & Hver); try done; [by apply primary_inputs_words|].
  destruct (honest_tail d verifier ext v proof cs msg l st Hd Hv Hready) as (t & Ht & Htail). exists t. split; [exact Ht|].
  unfold AbstractMixer.mix. rewrite (honest_check Hcap d verifier ext l st msg proof v (kp_vk kp)) by done.
  cbn [mbind result_bind].
  assert (∀ i x, [X0; X1; Y0; Y1] !! Z.to_nat i = Some x → 0 ≤ i → word_at [X0; X1; Y0; Y1] i = Ok x) as Hword
    by (intros; by apply word_at_Ok).
  rewrite (Hword 0 X0), (Hword 1 X1), (Hword 2 Y0), (Hword 3 Y1) by done. cbn [mbind result_bind].
  unfold sender_word. rewrite require_true by exact Hver. cbn [mbind result_bind].
  rewrite (rd_proof d verifier ext l st msg proof v) by done. cbn [mbind result_bind require]. exact Htail.
Qed.

End accepted.

(** ** Synchronising with a run *)

(** The event as the client reads it. *)
Definition log_result (log : LogMix) : MixResult :=
  event_args_to_mix_result (log_root log) (log_nullifiers log) (log_commitments log) (log_ciphertexts log).

Lemma outputs_commitments logs :
  (∀ i log, logs !! i = Some log → length (log_commitments log) = 2%nat ∧ length (log_ciphertexts log) = 2%nat) →
  commitment <$> outputs_of (log_result <$> logs) = all_commitments logs.
Proof.
  intros Hl. induction logs as [|log logs IH]; [done|].
  destruct (Hl 0%nat log eq_refl) as [Hc Hx]. unfold outputs_of, all_commitments in *. cbn [fmap list_fmap concat].
  rewrite fmap_app. f_equal.
  - unfold log_result, event_args_to_mix_result. cbn [output_events].
    destruct (log_commitments log) as [|c1 [|c2 [|]]]; try done.
    by destruct (log_ciphertexts log) as [|x1 [|x2 [|]]].
  - apply IH. intros i log' Hi. by apply (Hl (S i)).
Qed.

Lemma list_lookup_last {A} (l before : list A) x : l = before ++ [x] →
  l !! length before = Some x ∧ length l = S (length before).
Proof. intros ->. rewrite lookup_app_r, Nat.sub_diag, length_app by lia. split; [done | cbn; lia]. Qed.

Section sync.
Context `{MixerCurve} `{EcPrecompiles} `{NoteCryptoLaws} `{Web3UnitsLaws}.

(** C7: a wallet synchronises with whatever the contract did.  After any
    transactions that call [mix] or [dispatch] on a new contract, a wallet that is in
    step with the first [k] events and reads the others ends with the contract's leaves,
    its own root is the last root the contract accepted, and it reports exactly the
    notes of its key; it is enough that the ciphertexts have the length of encrypted
    notes and that no two leaves share a short commitment. *)
Theorem wallet_follows_contract (verifier : list Z → list Z → Z → result bool) (token : Z) (vk : list Z)
  (dispatcher : Z) (vkh : Z * Z) (calls : list Call) (st0 : MixerState) (k : nat)
  (pp : PairingParameters) (w : Wallet) (dir : WalletDir) (chain : Z) (secret : ZethAddressPriv)
  (Hst0 : new_mixer 32 32 token vk dispatcher vkh = Ok st0)
  (Hwf : Forall call_wf calls) (Hins : Forall (λ c, is_insert c = false) calls)
  (Hpp : field_ok pp) (Hsync : synced w dir) (Hnext : next_block (state w) ≤ chain)
  (Hask : priv_a_sk secret = w_a_sk w) (Hksk : priv_k_sk secret = k_sk_receiver w) :
  let st := (run 32 verifier st0 calls).1 in
  let logs := (run 32 verifier st0 calls).2 in
  let outputs := outputs_of (log_result <$> drop k logs) in
  wallet_inv pp 32 (all_commitments (take k logs)) w dir →
  Forall (λ ev, zlen (ciphertext ev) = ENCRYPTED_NOTE_LENGTH_BYTES) outputs →
  NoDup (short_commitment <$> all_commitments logs) →
  ∃ w' dir', _do_sync w dir pp chain (log_result <$> drop k logs) =
      Ok (our_notes pp (k_sk_receiver w) (zlen (all_commitments (take k logs))) outputs, (w', dir')) ∧
    wallet_inv pp 32 (all_commitments logs) w' dir' ∧ next_block (state w') = chain + 1 ∧
    get_root (merkle_tree w') = Ok (spec_root 32 (all_commitments logs)) ∧
    spec_root 32 (all_commitments logs) ∈ _roots st ∧
    AbstractMerkleTree._numLeaves (mixer_tree st) = zlen (all_commitments logs).
Proof.
  intros st logs outputs Hinv Hcts Hnd.
  destruct (new_mixer_inv 32 token vk dispatcher vkh) as (st0' & E & Hinv0 & _).
  change (Z.of_nat 32) with 32 in E. rewrite Hst0 in E. apply Ok_inj in E as <-.
  destruct (run_inv 32 verifier ltac:(done) calls [] st0 Hinv0 Hwf Hins) as [Hrun _].
  fold (run 32 verifier st0 calls) in Hrun. fold st logs in Hrun. destruct Hrun as [Htree _ _ Hroots Hlogs].
  assert (all_commitments logs = all_commitments (take k logs) ++ all_commitments (drop k logs)) as Eall
    by (by rewrite <- all_commitments_app, take_drop).
  assert (commitment <$> outputs = all_commitments (drop k logs)) as Eout.
  { apply outputs_commitments. intros i log Hi. rewrite lookup_drop in Hi. by apply Hlogs in Hi as (_ & ?). }
  assert (leaves_after (all_commitments (take k logs)) (log_result <$> drop k logs) = all_commitments logs) as Eafter
    by (unfold leaves_after; fold outputs; by rewrite Eout).
  assert (zlen (commitment <$> outputs) = zlen outputs) as Elen by (unfold zlen; by rewrite length_fmap).
  pose proof (AbstractMerkleTree.ci_full _ _ _ _ Htree) as Hfull. rewrite Eall, zlen_app, <- Eout, Elen in Hfull.
  destruct (do_sync_ok pp (all_commitments (take k logs)) w dir chain (log_result <$> drop k logs) secret Hpp Hinv Hsync Hnext)
    as (w' & dir' & Hdo & Hinv' & _ & Hb & _ & Hroot & _); [| | exact Hask | exact Hksk |].
  - split; [exact Hfull|]. split; [exact Hcts|]. fold outputs. rewrite Eout, <- Eall. exact Hnd.
  - intros r Hr. rewrite fmap_last in Hr. destruct (last (drop k logs)) as [log|] eqn:El; [|done]. injection Hr as <-.
    rewrite Eafter. apply last_Some in El as (before & El).
    assert (logs = take k logs ++ before ++ [log]) as E by (by rewrite <- El, take_drop).
    destruct (list_lookup_last logs (take k logs ++ before) log) as [Hi Hlen]; [by rewrite <- app_assoc|].
    destruct (Hlogs _ log Hi) as (Hr & Hc & Hx).
    split.
    + unfold log_result, event_args_to_mix_result. cbn [output_events]. by destruct (log_commitments log), (log_ciphertexts log).
    + unfold log_result. cbn [event_args_to_mix_result new_merkle_root]. rewrite Hr. do 2 f_equal. apply take_ge. lia.
  - rewrite Eafter in *. exists w', dir'. split; [exact Hdo|]. split; [exact Hinv'|]. split; [exact Hb|]. split; [exact Hroot|].
    split; [|apply Htree]. apply Hroots. exists (length logs). split; [done|]. by rewrite take_ge.
Qed.
End sync.
