(* ===== verification/ContractLimits.v ===== *)
(** * What the contract does not check

    The contract hashes the public inputs with the client's hash, which sees residues
    modulo the field, but reads nullifiers from the words themselves; and any account may
    append leaves.  The equality of the hashes is proved first, then what follows. *)

From Stdlib Require Import ZArith Lia Ascii String Strings.Byte.
From stdpp Require Import base tactics list gmap strings.
From S2P Require Import Prelude PyStr PyBytes PyFloat PyIO Hashes Constants MerkleTree MerkleTreeFacts Mimc MimcFacts Signing ContractTree ContractMixer ContractFacts ContractRuns.

Local Open Scope Z_scope.

Import AbstractMerkleTree(TreeState, contract_inv, require).
Import AbstractMixer.

Opaque sha256.

(** ** Words with the same residue *)

Section residues.
Context `{MixerCurve} (Hcap : 240 ≤ _FIELD_CAPACITY < 256).
Context (keccak_256 : bytes → bytes) {HD : Digest256 keccak_256}.
Context (self : MiMCBase) (Hself : same_hash keccak_256 self) (Hr9 : _NUM_INPUTS < prime self).
Local Abbreviation r := (prime self).

(** The hash of the public inputs depends on their residues only. *)
Lemma hash_residues data data' : zlen data = _NUM_INPUTS → Forall uint256 data → zlen data' = _NUM_INPUTS → Forall uint256 data' →
  ((λ x, x mod r) <$> data) = ((λ x, x mod r) <$> data') →
  _hashPublicProofData data = _hashPublicProofData data'.
Proof using HD Hself Hr9.
  intros Hl Hd Hl' Hd' E. destruct (new_InputHasher self DEFAULT_IV_UINT256) as [ih|] eqn:Eih; cycle 1.
  { unfold new_InputHasher, py_assert in Eih. rewrite (proj2 (Z.ltb_lt _ _)) in Eih; [done|].
    pose proof (sh_prime _ _ Hself). change (Z.shiftl 2 256) with (2 ^ 257). lia. }
  pose proof (hash_public_data keccak_256 self Hself ih data Eih Hl Hr9 Hd) as E1.
  pose proof (hash_public_data keccak_256 self Hself ih data' Eih Hl' Hr9 Hd') as E2.
  rewrite E, E2 in E1. by apply Ok_inj in E1.
Qed.

(** Adding the modulus to a word changes the digest read from it. *)
Lemma extract_alias fe residual i n : Z.odd r = true → _extractBytes32 fe residual i = Ok n →
  ∃ n', _extractBytes32 (fe + r) residual i = Ok n' ∧ n' ≠ n.
Proof using Hcap.
  intros Hodd He. unfold _extractBytes32 in *. apply bind_Ok_inv in He as (s & Hs & He). apply bind_Ok_inv in He as (b & Hb & He).
  rewrite Hs. cbn [mbind result_bind]. rewrite Hb. cbn [mbind result_bind]. eexists. split; [done|].
  apply Ok_inj in He as <-. set (m := Z.land _ _). intros E. apply (f_equal int_from_bytes) in E. unfold bytes32 in E.
  rewrite !int_from_to_be in E. apply (f_equal (λ z, Z.testbit z 0)) in E. cbv beta in E.
  change (256 ^ Z.of_nat 32) with (2 ^ 256) in E. rewrite !Z.mod_pow2_bits_low, !Z.lor_spec in E by lia.
  assert (Z.testbit m 0 = false) as Hm.
  { unfold m, _RESIDUAL_BITS_MASK, _RESIDUAL_BITS_SHIFT, _NUM_RESIDUAL_BITS, _DIGEST_LENGTH. rewrite Z.land_spec.
    rewrite Z.shiftl_spec, (Z.testbit_neg_r _ (0 - _)) by lia. apply andb_false_r. }
  rewrite Hm, !orb_false_r, !Z.bit0_odd, Z.odd_add, Hodd in E. by destruct (Z.odd fe).
Qed.
End residues.

(** C16: the hashes of the contract are those of the client, for both curves: the hash of
    the tree on any two words, and the hash of nine public inputs, which is the client's
    on the inputs reduced modulo the field, so the client's own hash when they are field
    elements.  It is relied on that the constant in the contract is the keccak digest of
    the client's seed. *)
Theorem contract_hashes_agree (keccak_256 : bytes → bytes) `{!Digest256 keccak_256}
  (name : str) (self : MiMCBase) (ih : InputHasher) (data : list Z)
  (Hseed : ∀ b, encode_ascii MIMC_MT_SEED = Ok b → int_from_bytes (keccak_256 b) = LibMiMC.SEED)
  (Hself : get_tree_hash_for_pairing keccak_256 name = Ok self) (Hih : new_InputHasher self DEFAULT_IV_UINT256 = Ok ih)
  (Hlen : zlen data = _NUM_INPUTS) (Hdata : Forall uint256 data) :
  let curve := if decide (name = lit "alt-bn128") then AbstractMixerAltBN128 keccak_256 else AbstractMixerBLS12_377 keccak_256 in
  (∀ x y, mixer_hash (MixerCurve := curve) x y = mimc_tree_hash keccak_256 self x y) ∧
  input_hash keccak_256 ih ((λ x, x mod prime self) <$> data) = Ok (_hashPublicProofData (H := curve) data) ∧
  (Forall (λ x, x < prime self) data → input_hash keccak_256 ih data = Ok (_hashPublicProofData (H := curve) data)).
Proof.
  intros curve. assert (same_hash (H := curve) keccak_256 self ∧ _NUM_INPUTS < prime self) as [Hs H9].
  { unfold get_tree_hash_for_pairing in Hself. unfold curve. case_decide as E1; [|case_decide as E2; [|done]].
    - split; [by apply same_hash_alt_bn128|]. apply mimc17_wf in Hself as (_ & -> & _); [|done..]. by apply Z.ltb_lt.
    - split; [by apply same_hash_bls12_377|]. apply mimc17_wf in Hself as (_ & -> & _); [|done..]. by apply Z.ltb_lt. }
  split; [apply Hs|]. pose proof (hash_public_data (H := curve) keccak_256 self Hs ih data Hih Hlen H9 Hdata) as E.
  split; [exact E|]. intros Hlt. rewrite <- E. f_equal. rewrite <- (list_fmap_id data) at 1. apply list_fmap_ext.
  intros i x Hx. rewrite Z.mod_small; [done|]. rewrite !Forall_lookup in Hlt, Hdata. split; [by eapply Hdata | by eapply Hlt].
Qed.

(** The public inputs with the modulus added to the word of the first nullifier. *)
Definition alias_inputs `{MixerCurve} (r : Z) (v : PublicValues) : list Z :=
  <[3%nat := low_bits (pv_nf0 v) + r]> (primary_inputs v).

(** C21: a note can be spent again.  Take a proof the verifier accepts for public values
    whose first nullifier was used already.  The call with these values reverts; but with
    the modulus of the field added to the word of that nullifier the hash of the public
    inputs, and so the proof, stays the same while the nullifier read from the words is
    another one: with an h_sig made for it and a signature, the call is accepted. *)
Theorem nullifier_alias_accepted `{MixerCurve} `{EcPrecompiles} (keccak_256 : bytes → bytes) `{!Digest256 keccak_256}
  (self : MiMCBase) (d : nat) verifier ext msg proof vk0 vk1 vk2 vk3 sigma cts st (l : list bytes) (v : PublicValues)
  (n' : bytes) (acts : list Action)
  (Hcap : 240 ≤ _FIELD_CAPACITY < 256) (Hself : same_hash keccak_256 self) (H9 : _NUM_INPUTS < prime self)
  (Hodd : Z.odd (prime self) = true) (Hbound : prime self + 2 ^ _FIELD_CAPACITY ≤ 2 ^ 256) (Hd : (d < 256)%nat)
  (Hv : public_values_ok v) (Hn' : _assembleNullifier 0 (alias_inputs (prime self) v) = Ok n')
  (Hhsig : bytes32 (pv_hsig v) = sha256 (n' ++ bytes32 (pv_nf1 v) ++ pack_words [vk0; vk1; vk2; vk3]))
  (Hsigned : LibOTSchnorrVerifier._verify vk0 vk1 vk2 vk3 sigma
    (sha256 (sender_word msg ++ concat cts ++ pack_words proof ++ pack_words (alias_inputs (prime self) v))) = true)
  (Hproved : verifier (_vk st) proof (_hashPublicProofData (primary_inputs v)) = Ok true)
  (Htree : contract_inv d l (zlen l) (mixer_tree st)) (Hroom : zlen l + 2 ≤ 2 ^ Z.of_nat d)
  (Hroot : bytes32 (pv_root v) ∈ _roots st) (Hspent : bytes32 (pv_nf0 v) ∈ _nullifiers st)
  (Hnew' : n' ∉ _nullifiers st) (Hnew1 : bytes32 (pv_nf1 v) ∉ _nullifiers st) (Hne : n' ≠ bytes32 (pv_nf1 v))
  (Hpay : _processPublicValues ext msg (primary_inputs v) st = Ok acts) :
  (∀ vk sigma cts, mix d verifier ext msg proof vk sigma (primary_inputs v) cts st =
     Err (Exception "Invalid nullifier: This nullifier has already been used")) ∧
  n' ≠ bytes32 (pv_nf0 v) ∧
  ∃ st', mix d verifier ext msg proof [vk0; vk1; vk2; vk3] sigma (alias_inputs (prime self) v) cts st =
    Ok (st', mkLogMix (spec_root d (l ++ commitments_of (primary_inputs v))) [n'; bytes32 (pv_nf1 v)]
              (commitments_of (primary_inputs v)) cts, acts).
Proof.
  assert (_assembleNullifier 0 (primary_inputs v) = Ok (bytes32 (pv_nf0 v))) as E0 by (by apply (assemble_nullifier Hcap v 0)).
  assert (_assembleNullifier 1 (primary_inputs v) = Ok (bytes32 (pv_nf1 v))) as E1 by (by apply (assemble_nullifier Hcap v 1)).
  split; [|split].
  - intros vk s cs. unfold mix. rewrite (check_used_nullifier vk (primary_inputs v) st (pv_root v) [bytes32 (pv_nf0 v); bytes32 (pv_nf1 v)]);
      [done | done | | done |].
    + unfold nullifiers_of. rewrite E0. cbn [mbind result_bind]. by rewrite E1.
    + intros [_ Hf]. by apply Forall_cons in Hf as [? _].
  - destruct (extract_alias Hcap self (low_bits (pv_nf0 v)) (residual_word (pv_in v) (pv_out v) (digests v)) 2 (bytes32 (pv_nf0 v)) Hodd E0)
      as (n & En & Hn). assert (_assembleNullifier 0 (alias_inputs (prime self) v) = Ok n) as E by exact En. congruence.
  - assert (_hashPublicProofData (alias_inputs (prime self) v) = _hashPublicProofData (primary_inputs v)) as Eh.
    { pose proof (primary_inputs_words Hcap v Hv) as Hw. apply (hash_residues keccak_256 self Hself H9); try done.
      - unfold alias_inputs. apply Forall_insert; [done|]. unfold uint256, low_bits. pose proof (pow_cap Hcap).
        pose proof (Z.mod_pos_bound (pv_nf0 v) (2 ^ _FIELD_CAPACITY)). pose proof (mw_prime _ (sh_wf _ _ Hself)). lia.
      - unfold alias_inputs, primary_inputs. cbn. do 3 f_equal. f_equal.
        rewrite <- (Z.mul_1_l (prime self)) at 1. apply Z_mod_plus_full. }
    pose proof (assemble_hsig Hcap v Hv) as Eh5.
    assert (_checkMkrootNullifiersHsigAppendNullifiersState [vk0; vk1; vk2; vk3] (alias_inputs (prime self) v) st =
      Ok ([n'; bytes32 (pv_nf1 v)], set_nullifiers (list_to_set [n'; bytes32 (pv_nf1 v)] ∪ _nullifiers st) st)) as Ec.
    { apply check_spec. exists (pv_root v). split_and!; try done.
      - unfold nullifiers_of. rewrite Hn'. cbn [mbind result_bind].
        assert (_assembleNullifier 1 (alias_inputs (prime self) v) = Ok (bytes32 (pv_nf1 v))) as -> by exact E1. done.
      - apply NoDup_cons. split; [by rewrite list_elem_of_singleton | apply NoDup_singleton].
      - repeat (apply Forall_cons; split; [done|]). by apply Forall_nil.
      - cbn [concat]. rewrite app_nil_r, <- app_assoc, <- Hhsig. exact Eh5. }
    unfold mix. rewrite Ec. cbn [mbind result_bind].
    assert (∀ i x, [vk0; vk1; vk2; vk3] !! Z.to_nat i = Some x → 0 ≤ i → word_at [vk0; vk1; vk2; vk3] i = Ok x) as Hword
      by (intros; by apply word_at_Ok).
    rewrite (Hword 0 vk0), (Hword 1 vk1), (Hword 2 vk2), (Hword 3 vk3) by done. cbn [mbind result_bind].
    rewrite require_true by exact Hsigned. cbn [mbind result_bind set_nullifiers _vk]. rewrite Eh, Hproved. cbn [mbind result_bind require].
    destruct (tail_spec d ltac:(apply Z.pow_lt_mono_r; lia) ext msg (alias_inputs (prime self) v) cts [n'; bytes32 (pv_nf1 v)]
      (set_nullifiers (list_to_set [n'; bytes32 (pv_nf1 v)] ∪ _nullifiers st) st) l (zlen l)) as (t & _ & ->);
      [done | pose proof (Z.mul_div_le (zlen l) 2); lia | done | done |].
    assert (_processPublicValues ext msg (alias_inputs (prime self) v) (set_nullifiers (list_to_set [n'; bytes32 (pv_nf1 v)] ∪ _nullifiers st) st)
      = Ok acts) as -> by (rewrite <- Hpay; done).
    cbn [mbind result_bind]. eexists. reflexivity.
Qed.

(** C23: any account can append a leaf without a proof or a payment, and the next mix puts
    it into an accepted root: in every state a contract reaches by mixes, [insert]
    succeeds while there is room, and after the next successful mix or dispatch the leaf
    has a path to a root that the contract accepts.  The client, which reads leaves from
    events only, does not count it: its leaves after these events are others. *)
Theorem unpaid_leaf_accepted `{MixerCurve} `{EcPrecompiles} (d : nat) verifier (logs : list LogMix) (st : MixerState) (x : bytes)
  (Hd : (d < 256)%nat) (Hinv : mixer_inv d logs st) (Hroom : zlen (all_commitments logs) < 2 ^ Z.of_nat d) :
  ∃ st1, exec d verifier (CallInsert x) st = Ok (st1, [], []) ∧
    ∀ c st2 new acts, call_wf c → is_insert c = false → exec d verifier c st1 = Ok (st2, new, acts) →
      ∃ root path, root ∈ _roots st2 ∧ length path = d ∧
        path_root x (zlen (all_commitments logs)) path = root ∧
        (log_root <$> new) = [root] ∧ root = spec_root d (all_commitments logs ++ x :: all_commitments new) ∧
        AbstractMerkleTree._numLeaves (mixer_tree st2) = zlen (all_commitments (logs ++ new)) + 1.
Proof.
  destruct Hinv as [Htree _ _ _ Hlogs]. set (l := all_commitments logs) in *.
  destruct (AbstractMerkleTree.insert_spec d l (zlen l) (mixer_tree st) x Htree Hroom) as (t1 & Ht1 & Hinv1).
  exists (set_tree t1 st). split; [unfold exec, insert; by rewrite Ht1|].
  assert (zlen l = 2 * zlen logs) as Heven.
  { apply even_commitments, Forall_lookup. intros i log Hi. by apply Hlogs in Hi as (_ & ? & _). }
  intros c st2 new acts Hwf Hins He.
  destruct (exec_inv d verifier c _ st2 new acts Hwf Hins He) as (vk & data & cts & ext & msg & nfs & st3 & log & Hdata & _ & -> & Hc & Ht).
  apply check_spec in Hc as (root & _ & _ & _ & _ & _ & _ & ->).
  assert (2 ^ Z.of_nat d < 2 ^ 256) as HN by (apply Z.pow_lt_mono_r; lia).
  destruct (Z.lt_ge_cases (2 ^ Z.of_nat d) (zlen (l ++ [x]) + 2)) as [Hfull|Hfit].
  { erewrite (tail_full d) in Ht; [done | exact Hinv1 | done | done]. }
  destruct (tail_spec d HN ext msg data cts nfs (set_nullifiers (list_to_set nfs ∪ _nullifiers (set_tree t1 st)) (set_tree t1 st)) _ _ Hinv1)
    as (t' & Hinv' & E); [| done | done |].
  { rewrite zlen_app. change (zlen [x]) with 1. rewrite Heven.
    replace ((2 * zlen logs + 1) / 2) with (zlen logs) by (apply Z.div_unique with 1; lia). lia. }
  rewrite E in Ht. apply bind_Ok_inv in Ht as (acts' & _ & Ht). apply Ok_inj in Ht. injection Ht as <- <- <-.
  set (cms := commitments_of data) in *. set (L := (l ++ [x]) ++ cms) in *.
  pose proof (zlen_nonneg l). exists (spec_root d L), (siblings L (zlen l) 0 d). split_and!.
  - cbn. apply elem_of_union. left. by apply elem_of_singleton.
  - apply length_siblings.
  - assert (node L 0 (zlen l) = x) as Hx.
    { cbn [node]. unfold L, zlen. by rewrite Nat2Z.id, <- app_assoc, lookup_app_r, Nat.sub_diag by lia. }
    rewrite <- Hx at 1. rewrite path_root_siblings, Z.div_small by lia. done.
  - done.
  - unfold all_commitments. cbn. rewrite app_nil_r. f_equal. unfold L. by rewrite <- app_assoc.
  - cbn [mixer_tree after_mix _addMerkleRoot set_roots set_tree]. rewrite (AbstractMerkleTree.ci_num _ _ _ _ Hinv'). rewrite all_commitments_app. unfold all_commitments at 2. cbn [fmap list_fmap concat].
    rewrite app_nil_r. cbn [log_commitments]. fold l. unfold L. rewrite !zlen_app. change (zlen [x]) with 1. lia.
Qed.

(** A deposit goes through although the token reports that it moved nothing. *)
Lemma token_result_ignored (ext : Action → option bool) (msg : Msg) (data : list Z) (st : MixerState) (residual : Z) :
  data !! 8%nat = Some residual → _token st ≠ 0 → 0 < (_assemblePublicValues residual).1 → (_assemblePublicValues residual).2 = 0 →
  ext (TokenTransferFrom (_token st) (msg_sender msg) (msg_this msg) (_assemblePublicValues residual).1) = Some false →
  _processPublicValues ext msg data st =
    Ok [TokenTransferFrom (_token st) (msg_sender msg) (msg_this msg) (_assemblePublicValues residual).1].
Proof.
  intros Hr Ht Hin Hout Hext. unfold _processPublicValues. rewrite (proj2 (word_at_Ok data _ residual)) by (split; [done | exact Hr]).
  cbn [mbind result_bind]. destruct (_assemblePublicValues residual) as [vin vout]. cbn [fst snd] in *.
  rewrite (proj2 (Z.ltb_lt 0 vin)), (proj2 (Z.eqb_neq (_token st) 0)) by done. cbn [negb]. unfold token_call.
  rewrite Hext, (bool_decide_true (Some false ≠ None)) by discriminate. cbn [require mbind result_bind]. by rewrite Hout.
Qed.
