(* ===== verification/ContractSample.v ===== *)
(** * A concrete contract

    Small instances of the curve, its precompiles and keccak that satisfy what the
    theorems rely on, and the theorems on a contract of depth two (and 32 for the wallet). *)

From Stdlib Require Import ZArith Lia Ascii String Strings.Byte.
From stdpp Require Import base tactics list gmap strings.
From S2P Require Import Prelude PyStr PyBytes PyFloat PyIO Hashes Constants Utils MerkleTree MerkleTreeFacts Mimc MimcFacts Pairing ZkSnark Signing Encryption Notes Contracts MixerClient MixerFacts Wallet WalletFacts WalletSync ContractTree ContractMixer ContractFacts ContractRuns ContractClient ContractLimits.

Local Open Scope Z_scope.

Import AbstractMerkleTree(TreeState, contract_inv, require).
Import AbstractMixer.

(** ** A curve of seven points with the generator (1, 2) *)

Module ToyPrecompiles.
Definition pt (k : Z) : G1 := if k mod 7 =? 0 then None else Some (k mod 7, k mod 7 + 1).
Definition val (P : G1) : Z := match P with Some (x, _) => x | None => 0 end.

#[local] Instance curve : BN128 := {|
  curve_order := 7;
  field_modulus := 11;
  ec_G1 := pt 1;
  ec_multiply P n := pt (val P * n);
  ec_add P Q := pt (val P + val Q);
  ec_eq P Q := bool_decide (P = Q)
|}.

#[local] Instance precompiles : EcPrecompiles := {|
  ecAdd P Q := Some (g1_words (pt (P.1 + Q.1)));
  ecMul P k := Some (g1_words (pt (P.1 * k)))
|}.

Lemma ct_val_pt k : val (pt k) = k mod 7.
Proof. unfold pt, val. destruct (k mod 7 =? 0) eqn:E; prop_bool; done. Qed.
Lemma words_pt k : (g1_words (pt k)).1 = k mod 7.
Proof. unfold pt, g1_words. destruct (k mod 7 =? 0) eqn:E; prop_bool; done. Qed.
Lemma ct_pt_mod j k : j mod 7 = k mod 7 → pt j = pt k.
Proof. unfold pt. by intros ->. Qed.
Lemma ct_pt_inj j k : pt j = pt k → j mod 7 = k mod 7.
Proof. intros E. by rewrite <- !ct_val_pt, E. Qed.

#[local] Instance curve_laws : BN128Laws.
Proof.
  split; cbn [curve curve_order field_modulus ec_G1 ec_multiply ec_add ec_eq].
  - lia.
  - lia.
  - intros P Q. apply bool_decide_eq_true.
  - intros a b _ _. rewrite !ct_val_pt. apply ct_pt_mod. rewrite <- Z.add_mod by lia. change (1 mod 7) with 1. f_equal. lia.
  - intros a b _ _. rewrite !ct_val_pt. apply ct_pt_mod. rewrite Z.mul_mod_idemp_l by lia. change (1 mod 7) with 1. f_equal. lia.
  - intros a b _ _. rewrite !ct_val_pt. change (1 mod 7) with 1. rewrite !Z.mul_1_l. split; [apply ct_pt_inj | apply ct_pt_mod].
  - done.
  - intros a x y. generalize (val (pt 1) * a). intros k. unfold pt. destruct (_ =? 0); [done|].
    intros [= <- <-]. pose proof (Z.mod_pos_bound k 7). lia.
Qed.

#[local] Instance precompiles_laws : EcPrecompilesLaws.
Proof.
  split; cbn [curve precompiles ec_G1 ec_multiply ec_add ecAdd ecMul].
  - done.
  - done.
  - intros a k _ _. by rewrite words_pt, !ct_val_pt.
  - intros a b _ _. by rewrite !words_pt, !ct_val_pt.
  - intros a b _ _ E. apply ct_pt_mod. by rewrite <- !words_pt, E.
Qed.
End ToyPrecompiles.

Module ContractSample.
#[local] Existing Instance ToyPrecompiles.curve.
#[local] Existing Instance ToyPrecompiles.curve_laws.
#[local] Existing Instance ToyPrecompiles.precompiles.
#[local] Existing Instance ToyPrecompiles.precompiles_laws.
#[local] Existing Instance ToyCrypto.toy.
#[local] Existing Instance ToyCrypto.toy_laws.
#[local] Existing Instance NotesSample.abi.
#[local] Existing Instance NotesSample.abi_laws.
#[local] Existing Instance WalletSample.units.
#[local] Existing Instance WalletSample.units_laws.

#[local] Instance toy_curve : MixerCurve := {| mixer_hash := Sample.toy_tree; _FIELD_CAPACITY := 253 |}.
Lemma toy_cap : 240 ≤ _FIELD_CAPACITY < 256.
Proof. cbn. lia. Qed.

(** The verifier accepts every proof; calls to other accounts succeed. *)
Definition accept : list Z → list Z → Z → result bool := λ _ _ _, Ok true.
Definition ext : Action → option bool := λ _, Some true.

Definition kp : SigningKeyPair :=
  mkSigningKeyPair (mkSSK 5 3 (ToyPrecompiles.pt 3)) (mkSVK (ToyPrecompiles.pt 5) (ToyPrecompiles.pt 3)).
Definition sender : Z := 0x00112233445566778899aabbccddeeff00112233.
Definition msg : Msg := mkMsg sender (3 * 10 ^ 12) 1.

(** Public values on the empty tree of depth two. *)
Definition nf0 : Z := 2 ^ 255 + 5.
Definition hsig : Z := Eval vm_compute in
  int_from_bytes (WalletSample.get [] (compute_h_sig [bytes32 nf0; bytes32 7] (kp_vk kp))).
Definition root0 : Z := Eval vm_compute in int_from_bytes (spec_root 2 []).
Definition values : PublicValues := mkPublicValues root0 101 102 nf0 7 hsig 8 9 3 0.

Lemma values_ok : public_values_ok values.
Proof.
  split; [|cbn; lia|cbn; lia]. unfold values, root0, hsig, nf0. cbn [pv_root pv_cm0 pv_cm1 pv_nf0 pv_nf1 pv_hsig pv_h0 pv_h1].
  repeat (apply Forall_cons; split; [unfold uint256; lia|]). by apply Forall_nil.
Qed.

(** The client's parameters and the arguments of the call. *)
Definition no_params : MixParameters := mkMixParameters MixerSample.a_proof [] (kp_vk kp) 0 [].
Definition the_params : MixParameters := Eval vm_compute in WalletSample.get no_params
  (create_mix_parameters_from_proof GROTH16_ZKSNARK MixerSample.pairing MixerSample.desc MixerSample.some_inputs kp
    MixerSample.a_proof (primary_inputs values) MixerSample.eth false (λ _, ToyCrypto.k5)).
Definition a_proof : list Z := Eval vm_compute in
  WalletSample.get [] (proof_to_contract_parameters Groth16_provider (ZkSnark.proof (extended_proof the_params)) MixerSample.pairing).
Definition a_vk : list Z := [5; 6; 3; 4].
Definition a_sigma : Z := Eval vm_compute in signature the_params.
Definition a_inputs : list Z := Eval vm_compute in primary_inputs values.
Definition a_cts : list bytes := Eval vm_compute in ciphertexts the_params.

Definition honest_call : Call := CallMix ext msg a_proof a_vk a_sigma a_inputs a_cts.

Lemma the_params_ok :
  create_mix_parameters_from_proof GROTH16_ZKSNARK MixerSample.pairing MixerSample.desc MixerSample.some_inputs kp
    MixerSample.a_proof (primary_inputs values) MixerSample.eth false (λ _, ToyCrypto.k5) = Ok the_params.
Proof. vm_compute. reflexivity. Qed.

Lemma args_ok : ∃ tx, MixerClient.mix GROTH16_ZKSNARK MixerSample.pairing the_params MixerSample.eth MixerSample.three None =
  Ok ((a_proof, a_vk, a_sigma, a_inputs, a_cts), tx).
Proof. eexists. vm_compute. reflexivity. Qed.

Lemma args_ready dispatcher vkh st : new_mixer 2 2 0 [] dispatcher vkh = Ok st → ready 2 accept ext [] st msg a_proof values.
Proof.
  intros E. destruct (new_mixer_inv 2 0 [] dispatcher vkh) as (st' & E' & Hinv & Hc). change (Z.of_nat 2) with 2 in E'.
  rewrite E in E'. apply Ok_inj in E' as <-. unfold config in Hc. injection Hc as _ Ht _ _.
  split; try done.
  - apply Hinv.
  - apply (mi_roots _ _ _ Hinv). exists 0%nat. split; [done|]. by vm_compute.
  - intros Hn%(mi_nullifiers _ _ _ Hinv). by apply elem_of_nil in Hn.
  - intros Hn%(mi_nullifiers _ _ _ Hinv). by apply elem_of_nil in Hn.
Qed.

Lemma honest_call_wf : call_wf honest_call.
Proof. apply (bool_decide_unpack _). vm_compute. exact I. Qed.

(** The call, its replay, a leaf of a stranger and the call again. *)
Definition calls : list Call := [honest_call; honest_call].

Lemma calls_wf : Forall call_wf calls.
Proof. repeat (apply Forall_cons; split; [apply honest_call_wf|]). by apply Forall_nil. Qed.

Lemma mixer_invariant_witness : ∃ st0, new_mixer 2 2 0 [] 0 (0, 0) = Ok st0 ∧
  mixer_inv 2 (run 2 accept st0 calls).2 (run 2 accept st0 calls).1.
Proof.
  destruct (mixer_invariant 2 accept 0 [] 0 (0, 0) calls) as (st0 & E & Hinv & _); [lia | apply calls_wf | |].
  - repeat (apply Forall_cons; split; [reflexivity|]). apply Forall_nil. exact I.
  - exists st0. split; [exact E | exact Hinv].
Defined.

Lemma nullifiers_spent_once_witness : ∃ st0, new_mixer 2 2 0 [] 0 (0, 0) = Ok st0 ∧
  NoDup (all_nullifiers (run 2 accept st0 (CallInsert (bytes32 1) :: calls)).2).
Proof.
  destruct (nullifiers_spent_once 2 accept 0 [] 0 (0, 0) (CallInsert (bytes32 1) :: calls)) as (st0 & E & Hnd & _).
  - apply Forall_cons. split; [exact I | apply calls_wf].
  - exists st0. split; [exact E | exact Hnd].
Defined.


(** The verifier refuses. *)
Lemma mix_reverts_witness : ∃ st, new_mixer 2 2 0 [] 0 (0, 0) = Ok st ∧
  AbstractMixer.mix 2 (λ _ _ _, Ok false) ext msg a_proof a_vk a_sigma a_inputs a_cts st =
    Err (Exception "Invalid proof: Unable to verify the proof correctly").
Proof.
  destruct (new_mixer_inv 2 0 [] 0 (0, 0)) as (st & E & Hinv & _). pose proof (args_ready 0 (0, 0) st E) as Hr.
  exists st. split; [exact E|].
  destruct (mix_reverts 2 (λ _ _ _, Ok false) ext msg a_proof a_vk a_sigma a_inputs a_cts st
    [] (pv_root values) 5 6 3 4 [bytes32 nf0; bytes32 7] (bytes32 (pv_hsig values)))
    as (_ & _ & _ & _ & Hp & _).
  - vm_compute. reflexivity.
  - vm_compute. reflexivity.
  - vm_compute. reflexivity.
  - vm_compute. reflexivity.
  - vm_compute. reflexivity.
  - apply Hr.
  - apply Hp.
    + apply Hr.
    + split; [apply (bool_decide_unpack _); vm_compute; exact I|].
      repeat (apply Forall_cons; split; [apply Hr|]). apply Forall_nil. exact I.
    + vm_compute. reflexivity.
    + vm_compute. reflexivity.
    + reflexivity.
Defined.

(** A leaf of a stranger, in the contract that then takes the honest call. *)
Definition stranger : bytes := bytes32 77.

Lemma unpaid_leaf_accepted_witness : ∃ st0 st1, new_mixer 2 2 0 [] 0 (0, 0) = Ok st0 ∧
  exec 2 accept (CallInsert stranger) st0 = Ok (st1, [], []) ∧
  ∀ c st2 new acts, call_wf c → is_insert c = false → exec 2 accept c st1 = Ok (st2, new, acts) →
    ∃ root path, root ∈ _roots st2 ∧ length path = 2%nat ∧ path_root stranger 0 path = root.
Proof.
  destruct (new_mixer_inv 2 0 [] 0 (0, 0)) as (st0 & E & Hinv & _).
  destruct (unpaid_leaf_accepted 2 accept [] st0 stranger) as (st1 & E1 & Hnext); [lia | exact Hinv | reflexivity |].
  exists st0, st1. split; [exact E|]. split; [exact E1|]. intros c st2 new acts Hwf Hins He.
  destruct (Hnext c st2 new acts Hwf Hins He) as (root & path & Hr & Hl & Hp & _). exists root, path.
  split; [exact Hr|]. split; [exact Hl | exact Hp].
Defined.

(** The honest call does go through after the stranger's leaf. *)
Example stranger_then_honest :
  is_ok (st0 ← new_mixer 2 2 0 [] 0 (0, 0); '(st1, _, _) ← exec 2 accept (CallInsert stranger) st0;
         exec 2 accept honest_call st1) = true.
Proof. vm_compute. reflexivity. Qed.

(** ** A wallet that follows a contract of the client's depth

    The first output is a note of the wallet, the second ciphertext does not belong to
    its commitment. *)

Definition no_mixer : MixerState := mkMixerState ∅ ∅ [] 0 0 (0, 0) (AbstractMerkleTree.mkTreeState ∅ 0).
Definition st32 : MixerState := WalletSample.get no_mixer (new_mixer 32 32 0 [] 0 (0, 0)).
Definition root32 : Z := Eval vm_compute in int_from_bytes (AbstractMerkleTree.at_ (AbstractMerkleTree._nodes (mixer_tree st32)) 0).
Definition values32 : PublicValues :=
  mkPublicValues root32 (int_from_bytes WalletSample.cm) nf0 nf0 7 hsig 8 9 3 0.
Definition inputs32 : list Z := Eval vm_compute in primary_inputs values32.
Definition cts32 : list bytes := Eval vm_compute in [ciphertext WalletSample.ev; ciphertext WalletSample.ev].
Definition sigma32 : Z := Eval vm_compute in WalletSample.get 0 (sign (kp_sk kp)
  (sha256 (sender_word msg ++ concat cts32 ++ pack_words inputs32))).
Definition call32 : Call := CallMix ext msg [] [5; 6; 3; 4] sigma32 inputs32 cts32.

Definition logs32 : list LogMix := (run 32 accept st32 [call32]).2.

Lemma st32_ok : new_mixer 32 32 0 [] 0 (0, 0) = Ok st32.
Proof. destruct (new_mixer_inv 32 0 [] 0 (0, 0)) as (st & E & _). unfold st32. change 32 with (Z.of_nat 32). by rewrite E. Qed.

Lemma wallet_follows_contract_witness : length logs32 = 1%nat ∧ ∃ notes w' dir',
  _do_sync (WalletSample.w0 32) WalletSample.dir0 WalletSample.pp 7 (log_result <$> drop 0 logs32) =
    Ok (notes, (w', dir')) ∧
  get_root (merkle_tree w') = Ok (spec_root 32 (all_commitments logs32)).
Proof.
  split; [vm_compute; reflexivity|].
  destruct (wallet_follows_contract accept 0 [] 0 (0, 0) [call32] st32 0 WalletSample.pp (WalletSample.w0 32) WalletSample.dir0 7
    WalletSample.secret st32_ok) as (w' & dir' & E & _ & _ & Hr & _).
  - apply Forall_singleton. apply (bool_decide_unpack _). vm_compute. exact I.
  - apply Forall_singleton. reflexivity.
  - exact WalletSample.field.
  - exact WalletSample.synced0.
  - discriminate.
  - reflexivity.
  - reflexivity.
  - exact (WalletSample.inv0 32 ltac:(lia)).
  - apply (bool_decide_unpack _). vm_compute. exact I.
  - apply (bool_decide_unpack _). vm_compute. exact I.
  - eexists. exists w', dir'. split; [exact E | exact Hr].
Defined.

(** ** With the hash of the curve *)

Definition seed_bytes : bytes := WalletSample.get [] (encode_ascii MIMC_MT_SEED).
Definition toy_keccak (b : bytes) : bytes :=
  to_be 32 (if decide (b = seed_bytes) then LibMiMC.SEED else int_from_bytes b + 1).
#[local] Instance toy_keccak_digest : Digest256 toy_keccak.
Proof. split. intros m. apply length_to_be. Qed.

Lemma toy_seed b : encode_ascii MIMC_MT_SEED = Ok b → int_from_bytes (toy_keccak b) = LibMiMC.SEED.
Proof.
  intros E. unfold toy_keccak. rewrite decide_True; [by vm_compute|]. unfold seed_bytes. by rewrite E.
Qed.

Definition mimc : MiMCBase := mkMiMC LibMiMC.SEED ALT_BN128_R 65 (mimc17_round ALT_BN128_R).
Definition hasher : InputHasher := mkInputHasher mimc (DEFAULT_IV_UINT256 mod ALT_BN128_R).

Lemma mimc_eq : MiMCAltBN128 toy_keccak MIMC_MT_SEED = Ok mimc.
Proof.
  unfold MiMCAltBN128, mimc17. destruct (encode_ascii MIMC_MT_SEED) as [b|] eqn:E; [|discriminate E].
  cbn [mbind result_bind]. unfold _keccak_256. rewrite (toy_seed b E). reflexivity.
Qed.

Lemma contract_hashes_agree_witness :
  input_hash toy_keccak hasher ((λ x, x mod ALT_BN128_R) <$> a_inputs) =
    Ok (_hashPublicProofData (H := AbstractMixerAltBN128 toy_keccak) a_inputs).
Proof.
  destruct (contract_hashes_agree toy_keccak (lit "alt-bn128") mimc hasher a_inputs toy_seed) as (_ & E & _).
  - rewrite <- mimc_eq. reflexivity.
  - reflexivity.
  - reflexivity.
  - apply (bool_decide_unpack _). vm_compute. exact I.
  - exact E.
Defined.

Module Alias.
(** The modulus of the curve, with two rounds only. *)
Definition mimc2 : MiMCBase := mkMiMC LibMiMC.SEED ALT_BN128_R 2 (mimc17_round ALT_BN128_R).
#[local] Instance alt : MixerCurve := {| mixer_hash := mimc_tree_hash toy_keccak mimc2; _FIELD_CAPACITY := 253 |}.

Lemma alt_hash : same_hash toy_keccak mimc2.
Proof. split; [split; cbn; [split; by vm_compute | done] | vm_compute; discriminate | done]. Qed.

Lemma alt_cap : 240 ≤ _FIELD_CAPACITY < 256.
Proof. cbn. lia. Qed.

(** The nullifier read from the aliased word does not depend on h_sig. *)
Definition with_hsig (h : Z) : PublicValues := mkPublicValues root0 101 102 nf0 7 h 8 9 0 0.
Definition nf0' : bytes := Eval vm_compute in
  WalletSample.get [] (_assembleNullifier 0 (alias_inputs ALT_BN128_R (with_hsig 0))).
Definition hsig' : Z := Eval vm_compute in int_from_bytes (sha256 (nf0' ++ bytes32 7 ++ pack_words [5; 6; 3; 4])).
Definition root_alt : Z := Eval vm_compute in int_from_bytes (spec_root 2 []).
Definition v : PublicValues := mkPublicValues root_alt 101 102 nf0 7 hsig' 8 9 0 0.
Definition msg0 : Msg := mkMsg sender 0 1.
Definition sigma' : Z := Eval vm_compute in WalletSample.get 0 (sign (kp_sk kp)
  (sha256 (sender_word msg0 ++ pack_words (alias_inputs ALT_BN128_R v)))).

Lemma v_ok : public_values_ok v.
Proof.
  split; [|cbn; lia|cbn; lia]. unfold v, root_alt, hsig', nf0. cbn [pv_root pv_cm0 pv_cm1 pv_nf0 pv_nf1 pv_hsig pv_h0 pv_h1].
  repeat (apply Forall_cons; split; [unfold uint256; lia|]). by apply Forall_nil.
Qed.

Lemma nullifier_alias_accepted_witness : ∃ st st' log, bytes32 nf0 ∈ _nullifiers st ∧
  AbstractMixer.mix 2 accept ext msg0 [] [5; 6; 3; 4] sigma' (primary_inputs v) [[]; []] st =
    Err (Exception "Invalid nullifier: This nullifier has already been used") ∧
  AbstractMixer.mix 2 accept ext msg0 [] [5; 6; 3; 4] sigma' (alias_inputs ALT_BN128_R v) [[]; []] st = Ok (st', log, []).
Proof.
  destruct (new_mixer_inv 2 0 [] 0 (0, 0)) as (st0 & E & Hinv & Hc).
  set (st := AbstractMixer.set_nullifiers {[ bytes32 nf0 ]} st0).
  assert (bytes32 nf0 ∈ _nullifiers st) as Hspent
    by (change (_nullifiers st) with ({[ bytes32 nf0 ]} : gset bytes); by apply elem_of_singleton).
  destruct (nullifier_alias_accepted toy_keccak mimc2 2 accept ext msg0 [] 5 6 3 4 sigma' [[]; []] st [] v nf0' [])
    as (Hold & _ & st' & Hnew).
  - apply alt_cap.
  - apply alt_hash.
  - reflexivity.
  - reflexivity.
  - vm_compute. discriminate.
  - lia.
  - apply v_ok.
  - vm_compute. reflexivity.
  - vm_compute. reflexivity.
  - vm_compute. reflexivity.
  - reflexivity.
  - apply (mi_tree _ _ _ Hinv).
  - vm_compute. discriminate.
  - apply (mi_roots _ _ _ Hinv). exists 0%nat. split; [lia | vm_compute; reflexivity].
  - exact Hspent.
  - change (_nullifiers st) with ({[ bytes32 nf0 ]} : gset bytes). intros Hn%elem_of_singleton. vm_compute in Hn. discriminate Hn.
  - change (_nullifiers st) with ({[ bytes32 nf0 ]} : gset bytes). intros Hn%elem_of_singleton. vm_compute in Hn. discriminate Hn.
  - intros Hn. vm_compute in Hn. discriminate Hn.
  - vm_compute. reflexivity.
  - exists st, st'. eexists. split; [exact Hspent|]. split; [exact (Hold _ _ _) | exact Hnew].
Defined.
End Alias.
End ContractSample.
