(* ===== verification/ContractDispatch.v ===== *)
(** * Calls through a dispatcher ([mix_parameters_to_dispatch_parameters] and [dispatch])

    A client that gives its parameters to a dispatcher encodes them with the Solidity
    ABI; the contract decodes them and trusts the dispatcher for the proof.  The
    encoder of [eth_abi] and [abi.decode] are a class with the law that they are inverse. *)

From Stdlib Require Import ZArith Lia Ascii String Strings.Byte.
From stdpp Require Import base tactics list gmap strings.
From S2P Require Import Prelude PyStr PyBytes PyFloat PyIO Hashes Constants Utils MerkleTree MerkleTreeFacts Mimc MimcFacts Pairing ZkSnark Signing Encryption Notes Contracts MixerClient MixerFacts Wallet WalletFacts WalletSync ContractTree ContractMixer ContractFacts ContractRuns ContractClient ContractLimits ContractSample.

Local Open Scope Z_scope.

Import AbstractMerkleTree(TreeState, contract_inv, require).
Import AbstractMixer.

Opaque sha256.

(** [eth_abi.encode_abi] and [abi.decode] at the types
    [uint256[4], uint256, uint256[], bytes[]]. *)
Class DispatchAbi := {
  encode_dispatch : list Z → Z → list Z → list bytes → result bytes;
  decode_dispatch : bytes → option (list Z * Z * list Z * list bytes)
}.
Class DispatchAbiLaws `{DispatchAbi} := {
  abi_decode_encode vk sigma data cts : Forall uint256 vk → zlen vk = 4 → uint256 sigma → Forall uint256 data →
    ∃ b, encode_dispatch vk sigma data cts = Ok b ∧ decode_dispatch b = Some (vk, sigma, data, cts)
}.

Definition mix_parameters_to_dispatch_parameters `{BN128} `{DispatchAbi} (mix_parameters : MixParameters) : result bytes :=
  vk_param ← verification_key_as_mix_parameter (signature_vk mix_parameters);
  encode_dispatch vk_param (signature_as_mix_parameter (signature mix_parameters)) (public_data mix_parameters)
    (ciphertexts mix_parameters).

(** [dispatch] with the bytes that the dispatcher passes on. *)
Definition dispatch_bytes `{MixerCurve} `{EcPrecompiles} `{DispatchAbi} (d : nat) (ext : Action → option bool) (msg : Msg)
    (nestedVkHash : Z * Z) (nestedInputs : list Z) (nestedParameters : bytes) (st : MixerState) : result Outcome :=
  dispatch d ext msg nestedVkHash nestedInputs (decode_dispatch nestedParameters) st.

Section dispatched.
Context `{MixerCurve} (Hcap : 240 ≤ _FIELD_CAPACITY < 256).
Context `{BN128Laws} `{!EcPrecompiles} `{!EcPrecompilesLaws} `{EthAbiLaws} `{NoteCrypto} `{DispatchAbiLaws}.

End dispatched.

(** ** A concrete dispatcher *)

Module DispatchSample.
#[local] Existing Instance ToyPrecompiles.curve.
#[local] Existing Instance ToyPrecompiles.curve_laws.
#[local] Existing Instance ToyPrecompiles.precompiles.
#[local] Existing Instance ToyPrecompiles.precompiles_laws.
#[local] Existing Instance ToyCrypto.toy.
#[local] Existing Instance NotesSample.abi.
#[local] Existing Instance NotesSample.abi_laws.
#[local] Existing Instance ContractSample.toy_curve.

(** A byte per bit of the code of the values. *)
Fixpoint bits_bytes (p : positive) : bytes :=
  match p with xH => [] | xO p => Byte.x00 :: bits_bytes p | xI p => Byte.x01 :: bits_bytes p end.
Fixpoint bytes_bits (b : bytes) : positive :=
  match b with [] => xH | Byte.x00 :: b => xO (bytes_bits b) | _ :: b => xI (bytes_bits b) end.

Lemma bits_bytes_bits p : bytes_bits (bits_bytes p) = p.
Proof. induction p as [p IH | p IH |]; [| | done]; cbn; by rewrite IH. Qed.

Definition code : Type := list Z * Z * list Z * list (list Z).

#[local] Instance abi : DispatchAbi := {|
  encode_dispatch vk sigma data cts := Ok (bits_bytes (encode (vk, sigma, data, map byte_val <$> cts)));
  decode_dispatch b :=
    match decode (A := code) (bytes_bits b) with
    | Some (vk, sigma, data, cts) => Some (vk, sigma, data, map byte_of <$> cts)
    | None => None
    end
|}.

#[local] Instance abi_laws : DispatchAbiLaws.
Proof.
  split. intros vk sigma data cts _ _ _ _. eexists. split; [reflexivity|]. cbn [decode_dispatch abi].
  rewrite bits_bytes_bits, decode_encode. do 3 f_equal. rewrite <- list_fmap_compose. rewrite <- (list_fmap_id cts) at 2.
  apply list_fmap_ext. intros i c _. cbn. rewrite map_map. rewrite <- (map_id c) at 2. apply map_ext.
  intros b. apply byte_of_val.
Qed.

Definition a_params : MixParameters := Eval vm_compute in WalletSample.get ContractSample.no_params
  (create_mix_parameters_from_proof GROTH16_ZKSNARK MixerSample.pairing MixerSample.desc MixerSample.some_inputs ContractSample.kp
    MixerSample.a_proof (primary_inputs ContractSample.values) MixerSample.eth true (λ _, ToyCrypto.k5)).

Lemma a_params_ok :
  create_mix_parameters_from_proof GROTH16_ZKSNARK MixerSample.pairing MixerSample.desc MixerSample.some_inputs ContractSample.kp
    MixerSample.a_proof (primary_inputs ContractSample.values) MixerSample.eth true (λ _, ToyCrypto.k5) = Ok a_params.
Proof. vm_compute. reflexivity. Qed.

Lemma encoded : ∃ b, mix_parameters_to_dispatch_parameters a_params = Ok b.
Proof. eexists. unfold mix_parameters_to_dispatch_parameters, a_params. cbn [signature_vk]. vm_compute (verification_key_as_mix_parameter _). reflexivity. Qed.

End DispatchSample.
