(* ===== verification/Scenario.v ===== *)
(** * The test scenarios ([client/test_commands/scenario.py], [mock.py])

    The joinsplits that the tests send to a deployed mixer, and the attacks that they
    expect the contract to reject.  The state is the local Merkle tree, which the
    scenarios update from the events, and the chain.  What a node answers about a
    transaction and the ABI decoding of a log are the class [Receipts]; the prover's
    answers and the random values are arguments. *)

From Stdlib Require Import ZArith Lia Ascii String Strings.Byte.
From stdpp Require Import base tactics list gmap strings.
From S2P Require Import Prelude PyStr PyBytes PyIO PyState Hashes Constants Utils MerkleTree Pairing ZkSnark Signing Encryption Notes Contracts MixerClient Prover Cli Commands SyncCommand.

Local Open Scope Z_scope.
Local Open Scope sm_scope.

(** ** The keys of the tests ([mock.py]) *)

Definition key_literal (s : string) : bytes := match fromhex (lit s) with Ok b => b | Err _ => [] end.

Definition alice_25519_enc_private_key : bytes :=
  Eval vm_compute in key_literal "dea2c10bd1f713f84aa43aa4b6fabdd5c98ad9b6b4c4c44988a4d9e2ee9e9aff".
Definition alice_25519_enc_public_key : bytes :=
  Eval vm_compute in key_literal "1e4f220ada576e552bf5aa8a23d22ad3119f63e53220d85ebc2db6f1ee6af431".
Definition bob_25519_enc_private_key : bytes :=
  Eval vm_compute in key_literal "d3f08f202c1d23dcac2c93bdd0d9ed8c928232efd6975e86f7e42f85b610e66f".
Definition bob_25519_enc_public_key : bytes :=
  Eval vm_compute in key_literal "74c57b356ab58ad36eb3ab39e8735e3133baa29178b03128f9bbf940725f917d".
Definition charlie_25519_enc_private_key : bytes :=
  Eval vm_compute in key_literal "7a48b63671970b4fcbb9719bbd2d316049ae002d11b9ed7d189ff68d72aad452".
Definition charlie_25519_enc_public_key : bytes :=
  Eval vm_compute in key_literal "75e7889cbf4528f899ca3ca85b3ca2886dad0d4e22f07decfc4289e696cf1955".

Definition dummy_node : str := lit "6461f753bfe21ba2219ced74875b8dbd8c114c3c79d7e41306dd82118de1895b".
Definition get_dummy_merkle_path (length : Z) : list str := (λ _, dummy_node) <$> py_range length.

Section keystore.
Context `{NoteCrypto} `{EthAbi}.

(** The dictionary of the addresses by name. *)
Definition KeyStore : Type := list (str * ZethAddress).
Definition key_of (keystore : KeyStore) (name : string) : result ZethAddress := of_option KeyError (assoc (lit name) keystore).

Definition test_credentials (a_sk secret public : bytes) : result ZethAddress :=
  ownership ← gen_ownership_keypair a_sk;
  sk ← decode_encryption_secret_key secret;
  pk ← decode_encryption_public_key public;
  Ok (from_key_pairs ownership (mkEncKeyPair sk pk)).

(** [init_test_keystore], with the random spending keys of the three users. *)
Definition init_test_keystore (alice_sk bob_sk charlie_sk : bytes) : result KeyStore :=
  alice ← test_credentials alice_sk alice_25519_enc_private_key alice_25519_enc_public_key;
  bob ← test_credentials bob_sk bob_25519_enc_private_key bob_25519_enc_public_key;
  charlie ← test_credentials charlie_sk charlie_25519_enc_private_key charlie_25519_enc_public_key;
  Ok [(lit "Alice", alice); (lit "Bob", bob); (lit "Charlie", charlie)].
End keystore.

(** ** The amounts *)

Definition BOB_DEPOSIT_ETH : Z := 200.
Definition BOB_SPLIT_1_ETH : Z := 100.
Definition BOB_SPLIT_2_ETH : Z := 100.
Definition BOB_TO_CHARLIE_ETH : Z := 50.
Definition BOB_TO_CHARLIE_CHANGE_ETH : Z := BOB_SPLIT_1_ETH - BOB_TO_CHARLIE_ETH.
(** The texts of the two floating-point numbers, which is what [toWei] converts. *)
Definition CHARLIE_WITHDRAW_ETH : str := lit "10.5".
Definition CHARLIE_WITHDRAW_CHANGE_ETH : str := lit "39.5".

(** ** The attack on the nullifiers *)

(** ["{0:064x}"] *)
Definition fmt_064x (z : Z) : str := sign_str z ++ zpad (64 - length (sign_str z)) (abs_digits 16 false z).

(** The attribute [scalar_field_capacity] of pairing parameters: the rounded-down
    logarithm, which is a double; the orders of the two curves are far enough from
    powers of two. *)
Definition scalar_field_capacity (pp : PairingParameters) : result Z :=
  r ← scalar_field_mod pp;
  _ ← raise_if (r <=? 0) ValueError;
  Ok (Z.log2 r).

(** The first bits of the text of a nullifier, read as a number, and the other bits. *)
Definition split_nullifier (capacity : Z) (nf : bytes) : result (Z * str) :=
  let input_nullifier := hex nf in
  x ← int_of_str 16 input_nullifier;
  let nf_rev := fmt_0wb 256 x in
  let primary_input_bits := take (Z.to_nat capacity) nf_rev in
  let primary_input_res_bits := drop (Z.to_nat capacity) nf_rev in
  v ← int_of_str 2 primary_input_bits;
  Ok (v, primary_input_res_bits).

(** The nullifier put together again from the changed input. *)
Definition attack_nullifier (capacity attack_primary_input : Z) (res_bits : str) : result bytes :=
  let attack_primary_input_bits := fmt_0wb 256 attack_primary_input in
  let attack_nf_bits :=
    drop (Z.to_nat (zlen attack_primary_input_bits - capacity)) attack_primary_input_bits ++ res_bits in
  v ← int_of_str 2 attack_nf_bits;
  fromhex (fmt_064x v).

(** [compute_h_sig_attack_nf] up to the hash: the values that it keeps in
    [attack_primary_input3] and [attack_primary_input4], and the nullifiers it hashes. *)
Definition attack_nullifiers (modulus capacity : Z) (nfs : list bytes)
    : result ((Z * Z) * list bytes) :=
  _ ← py_assert (zlen nfs =? 2);
  nf0 ← py_get nfs 0;
  nf1 ← py_get nfs 1;
  '(v3, res3) ← split_nullifier capacity nf0;
  '(v4, res4) ← split_nullifier capacity nf1;
  let attack_primary_input3 := v3 + modulus in
  let attack_primary_input4 := v4 + modulus in
  attack_nf0 ← attack_nullifier capacity attack_primary_input3 res3;
  attack_nf1 ← attack_nullifier capacity attack_primary_input4 res4;
  Ok ((attack_primary_input3, attack_primary_input4), [attack_nf0; attack_nf1]).

Definition compute_h_sig_attack_nf `{BN128} (modulus capacity : Z) (nfs : list bytes)
    (sign_vk : SigningVerificationKey) : result bytes :=
  '(_, attack_nfs) ← attack_nullifiers modulus capacity nfs;
  compute_h_sig attack_nfs sign_vk.

(** ** Receipts *)

(** A client of a deployed mixer ([MixerClient]). *)
Record ZethClient : Type := mkZethClient { mixer_instance : InstanceDescription; prover_config : ProverConfiguration }.

Section scenario.
Context {Chain Log : Type} `{Web3 Chain} `{Receipts Chain Log} `{ITreeHash} `{BN128} `{NoteCrypto} `{Web3Units} `{EthAbi}.
Context (get_proof : ProofInputs → result (ExtendedProof * list Z)) (zeth_client : ZethClient).

Definition SState : Type := MerkleTree * Chain.
Definition in_tree {A} (m : SM MerkleTree A) : SM SState A := zoom fst (λ t st, (t, st.2)) m.
Definition in_chain {A} (m : SM Chain A) : SM SState A := zoom snd (λ c st, (st.1, c)) m.

(** The methods of the tree that change it. *)
Definition tree_insert (v : bytes) : SM MerkleTree unit := λ t,
  match insert t v with Ok t' => (Ok tt, t') | Err e => (Err e, t) end.
Definition tree_recompute_root : SM MerkleTree bytes := λ t,
  match recompute_root t with Ok (root, t') => (Ok root, t') | Err e => (Err e, t) end.

Definition parse_mix_call (tx_receipt : list Log) : result MixResult :=
  log_mix_events ← get_event_logs_from_tx_receipt log_address log_topics processLog
                     (inst_address (mixer_instance zeth_client)) mix_topic tx_receipt;
  py_get (event_result <$> log_mix_events) 0.

Fixpoint insert_outputs (output_events : list MixOutputEvents) : SM MerkleTree unit :=
  match output_events with
  | [] => ret tt
  | out_ev :: output_events => tree_insert (commitment out_ev) ;;; insert_outputs output_events
  end.

Definition wait_for_tx_update_mk_tree (tx_hash : str) : SM SState MixResult :=
  tx_receipt <- in_chain (receipt_logs tx_hash) ;;
  result <- lift (parse_mix_call tx_receipt) ;;
  in_tree (insert_outputs (output_events result)) ;;;
  root <- in_tree tree_recompute_root ;;
  raise_when (negb (bool_decide (root = new_merkle_root result)))
    (Exception "Merkle root mismatch between log and local tree") ;;;
  ret result.

(** ** Calls of the client *)

(** [MixerClient.joinsplit] up to the transaction. *)
Definition client_joinsplit (mk_tree : MerkleTree) (sender : OwnershipKeyPair) (sender_eth_address : str)
    (sender_eth_private_key : option bytes) (inputs : list (Z * ZethNote))
    (outputs : list (ZethAddressPub * EtherValue.t)) (v_in v_out : EtherValue.t) (tx_value : option EtherValue.t)
    (draws : MixDraws) : SM Chain str :=
  params <- lift (desc ← new_mix_call mk_tree sender inputs outputs v_in v_out None (md_dummies draws) (md_dummy_k_sk draws);
                  create_mix_parameters_and_signing_key (zksnark_name (prover_config zeth_client))
                    (pairing_parameters (prover_config zeth_client)) get_proof desc (md_rand draws) (md_ephs draws)
                    sender_eth_address false) ;;
  send_mix (mixer_instance zeth_client) (prover_config zeth_client) params.1 sender_eth_address sender_eth_private_key
    (value_or tx_value v_in) None.

(** [MixerClient.deposit] *)
Definition client_deposit (mk_tree : MerkleTree) (zeth_address : ZethAddress) (sender_eth_address : str)
    (sender_eth_private_key : option bytes) (eth_amount : EtherValue.t)
    (outputs : option (list (ZethAddressPub * EtherValue.t))) (tx_value : option EtherValue.t) (draws : MixDraws)
    : SM Chain str :=
  let outputs := match outputs with
                 | None | Some [] => [(addr_pk zeth_address, eth_amount)]
                 | Some outputs => outputs
                 end in
  zero <- lift (EtherValue.of_int 0 (lit "ether")) ;;
  client_joinsplit mk_tree (ownership_keypair zeth_address) sender_eth_address sender_eth_private_key [] outputs
    eth_amount zero tx_value draws.

(** The parts of the parameters of a mix call.  The first component, which the code does
    not return, holds the inputs of the prover, whose nullifiers were passed to the
    computation of h_sig. *)
Definition mix_components (mk_tree : MerkleTree) (sender : OwnershipKeyPair) (inputs : list (Z * ZethNote))
    (outputs : list (ZethAddressPub * EtherValue.t)) (v_in v_out : EtherValue.t)
    (compute_h_sig_cb : option (list bytes → SigningVerificationKey → result bytes)) (draws : MixDraws)
    : result (ProofInputs * (ZethNote * ZethNote * ExtendedProof * list Z * SigningKeyPair)) :=
  mix_call_desc ← new_mix_call mk_tree sender inputs outputs v_in v_out compute_h_sig_cb
                    (md_dummies draws) (md_dummy_k_sk draws);
  '(prover_inputs, signing_keypair) ← create_prover_inputs mix_call_desc (md_rand draws);
  '(ext_proof, public_data) ← get_proof prover_inputs;
  note1 ← py_get (js_outputs prover_inputs) 0;
  note2 ← py_get (js_outputs prover_inputs) 1;
  Ok (prover_inputs, (note1, note2, ext_proof, public_data, signing_keypair)).

Definition get_mix_parameters_components (mk_tree : MerkleTree) (sender : OwnershipKeyPair)
    (inputs : list (Z * ZethNote)) (outputs : list (ZethAddressPub * EtherValue.t)) (v_in v_out : EtherValue.t)
    (compute_h_sig_cb : option (list bytes → SigningVerificationKey → result bytes)) (draws : MixDraws)
    : result (ZethNote * ZethNote * ExtendedProof * list Z * SigningKeyPair) :=
  snd <$> mix_components mk_tree sender inputs outputs v_in v_out compute_h_sig_cb draws.

(** ** The scenarios *)

Context (keystore : KeyStore).
Definition ether (n : Z) : result EtherValue.t := EtherValue.of_int n (lit "ether").

Definition bob_deposit (bob_eth_address : str) (tx_value : option EtherValue.t) (draws : MixDraws) : SM SState MixResult :=
  bob <- lift (key_of keystore "Bob") ;;
  split1 <- lift (ether BOB_SPLIT_1_ETH) ;;
  split2 <- lift (ether BOB_SPLIT_2_ETH) ;;
  amount <- lift (ether BOB_DEPOSIT_ETH) ;;
  mk_tree <- gets fst ;;
  tx_hash <- in_chain (client_deposit mk_tree bob bob_eth_address None amount
                         (Some [(addr_pk bob, split1); (addr_pk bob, split2)]) tx_value draws) ;;
  wait_for_tx_update_mk_tree tx_hash.

Definition bob_to_charlie (input1 : Z * ZethNote) (bob_eth_address : str) (draws : MixDraws) : SM SState MixResult :=
  bob <- lift (key_of keystore "Bob") ;;
  charlie <- lift (key_of keystore "Charlie") ;;
  v0 <- lift (ether BOB_TO_CHARLIE_ETH) ;;
  v1 <- lift (ether BOB_TO_CHARLIE_CHANGE_ETH) ;;
  zero <- lift (ether 0) ;;
  one_wei <- lift (EtherValue.of_int 1 (lit "wei")) ;;
  mk_tree <- gets fst ;;
  tx_hash <- in_chain (client_joinsplit mk_tree (mkOwnership (priv_a_sk (addr_sk bob)) (pub_a_pk (addr_pk bob)))
                         bob_eth_address None [input1] [(addr_pk bob, v0); (addr_pk charlie, v1)] zero zero
                         (Some one_wei) draws) ;;
  wait_for_tx_update_mk_tree tx_hash.

Definition charlie_withdraw (input1 : Z * ZethNote) (charlie_eth_address : str) (draws : MixDraws) : SM SState MixResult :=
  charlie <- lift (key_of keystore "Charlie") ;;
  change <- lift (EtherValue.of_str CHARLIE_WITHDRAW_CHANGE_ETH) ;;
  zero <- lift (ether 0) ;;
  v_out <- lift (EtherValue.of_str CHARLIE_WITHDRAW_ETH) ;;
  one_wei <- lift (EtherValue.of_int 1 (lit "wei")) ;;
  mk_tree <- gets fst ;;
  tx_hash <- in_chain (client_joinsplit mk_tree (mkOwnership (priv_a_sk (addr_sk charlie)) (pub_a_pk (addr_pk charlie)))
                         charlie_eth_address None [input1] [(addr_pk charlie, change)] zero v_out (Some one_wei) draws) ;;
  wait_for_tx_update_mk_tree tx_hash.

(** The random values of the attacks that the mix call does not draw. *)
Definition Dummy : Type := bytes * bytes.
Definition dummy_of (a_pk : bytes) (d : Dummy) : result (Z * ZethNote) := get_dummy_input_and_address a_pk d.1 d.2.

(** The parameters of [charlie_double_withdraw]: the public data with the two attacked
    inputs, signed by Charlie. *)
Definition double_withdraw_parameters (mk_tree : MerkleTree) (zksnark : IZKSnarkProvider) (input1 : Z * ZethNote)
    (charlie_eth_address : str) (dummy : Dummy) (draws : MixDraws) : result MixParameters :=
  let pp := pairing_parameters (prover_config zeth_client) in
  r ← scalar_field_mod pp;
  cap ← scalar_field_capacity pp;
  charlie_addr ← key_of keystore "Charlie";
  input2 ← dummy_of (pub_a_pk (addr_pk charlie_addr)) dummy;
  note1_value ← EtherValue.of_str CHARLIE_WITHDRAW_CHANGE_ETH;
  v_out ← EtherValue.of_str CHARLIE_WITHDRAW_ETH;
  zero ← ether 0;
  '(prover_inputs, (output_note1, output_note2, proof, public_data, signing_keypair)) ←
    mix_components mk_tree (ownership_keypair charlie_addr) [input1; input2]
      [(addr_pk charlie_addr, note1_value); (addr_pk charlie_addr, zero)] zero v_out
      (Some (compute_h_sig_attack_nf r cap)) draws;
  nfs ← mapM (λ i, fromhex (nullifier i)) (js_inputs prover_inputs);
  '(attack_primary_input3, attack_primary_input4, _) ← attack_nullifiers r cap nfs;
  _ ← py_assert (negb (attack_primary_input3 =? 0));
  _ ← py_assert (negb (attack_primary_input4 =? 0));
  _ ← py_get public_data 3;
  _ ← py_get public_data 4;
  public_data ← py_set public_data 3 attack_primary_input3;
  public_data ← py_set public_data 4 attack_primary_input4;
  let pk_charlie := pub_k_pk (addr_pk charlie_addr) in
  ciphertexts ← encrypt_notes [(output_note1, pk_charlie); (output_note2, pk_charlie)] (md_ephs draws);
  joinsplit_sig_charlie ← joinsplit_sign zksnark pp signing_keypair charlie_eth_address ciphertexts proof public_data false;
  Ok (mkMixParameters proof public_data (kp_vk signing_keypair) joinsplit_sig_charlie ciphertexts).

Definition charlie_double_withdraw (zksnark : IZKSnarkProvider) (input1 : Z * ZethNote) (charlie_eth_address : str)
    (dummy : Dummy) (draws : MixDraws) : SM SState MixResult :=
  mk_tree <- gets fst ;;
  mix_params <- lift (double_withdraw_parameters mk_tree zksnark input1 charlie_eth_address dummy draws) ;;
  one_wei <- lift (EtherValue.of_int 1 (lit "wei")) ;;
  tx_hash <- in_chain (send_mix (mixer_instance zeth_client) (prover_config zeth_client) mix_params charlie_eth_address
                         None one_wei None) ;;
  wait_for_tx_update_mk_tree tx_hash.

(** ** Corrupting a deposit *)

(** Signs with a key for an address, with the ciphertexts [signed], the parameters with
    the ciphertexts [sent], and sends them from another address. *)
Definition sign_and_send (zksnark : IZKSnarkProvider) (pp : PairingParameters) (keypair : SigningKeyPair)
    (signer : str) (signed sent : list bytes) (proof : ExtendedProof) (public_data : list Z) (sender : str)
    (value : Z) (call_gas : option Z) : SM SState MixResult :=
  joinsplit_sig <- lift (joinsplit_sign zksnark pp keypair signer signed proof public_data false) ;;
  tx_value <- lift (ether value) ;;
  tx_hash <- in_chain (send_mix (mixer_instance zeth_client) (prover_config zeth_client)
                         (mkMixParameters proof public_data (kp_vk keypair) joinsplit_sig sent) sender None tx_value call_gas) ;;
  wait_for_tx_update_mk_tree tx_hash.

(** [try: result = m except Exception: print], and then [assert(result is None)] *)
Definition must_fail (m : SM SState MixResult) : SM SState unit :=
  result <- try_except (r <- m ;; ret (Some r)) (λ _, ret None) ;;
  assert (match result with None => true | Some _ => false end).

Record CorruptDraws : Type := mkCorruptDraws {
  cd_dummies : Dummy * Dummy; cd_draws : MixDraws; cd_fake : bytes * bytes; cd_fake' : bytes * bytes;
  cd_new_key : bytes * bytes
}.

(** The deposit of Bob that Charlie intercepts: the proof, the public data, the key of
    the call and the ciphertexts. *)
Definition intercepted_deposit (mk_tree : MerkleTree) (draws : CorruptDraws)
    : result (ExtendedProof * list Z * SigningKeyPair * list bytes) :=
  bob ← key_of keystore "Bob";
  input1 ← dummy_of (pub_a_pk (addr_pk bob)) (cd_dummies draws).1;
  input2 ← dummy_of (pub_a_pk (addr_pk bob)) (cd_dummies draws).2;
  note1_value ← ether BOB_SPLIT_1_ETH;
  note2_value ← ether BOB_SPLIT_2_ETH;
  v_in ← ether BOB_DEPOSIT_ETH;
  zero ← ether 0;
  '(output_note1, output_note2, proof, public_data, joinsplit_keypair) ←
    get_mix_parameters_components mk_tree (ownership_keypair bob) [input1; input2]
      [(addr_pk bob, note1_value); (addr_pk bob, note2_value)] v_in zero None (cd_draws draws);
  let pk_bob := pub_k_pk (addr_pk bob) in
  ciphertexts ← encrypt_notes [(output_note1, pk_bob); (output_note2, pk_bob)] (md_ephs (cd_draws draws));
  Ok (proof, public_data, joinsplit_keypair, ciphertexts).

Definition charlie_corrupt_bob_deposit (prover_configuration : result ProverConfiguration) (zksnark : IZKSnarkProvider)
    (bob_eth_address charlie_eth_address : str) (draws : CorruptDraws) : SM SState MixResult :=
  _ <- lift (key_of keystore "Bob") ;;
  config <- lift prover_configuration ;;
  let pp := pairing_parameters config in
  mk_tree <- gets fst ;;
  deposit <- lift (intercepted_deposit mk_tree draws) ;;
  let '(proof, public_data, joinsplit_keypair, ciphertexts) := deposit in
  let fake := [(cd_fake draws).1; (cd_fake draws).2] in
  must_fail (sign_and_send zksnark pp joinsplit_keypair charlie_eth_address ciphertexts fake proof public_data
               charlie_eth_address BOB_DEPOSIT_ETH None) ;;;
  let fake := [(cd_fake' draws).1; (cd_fake' draws).2] in
  new_joinsplit_keypair <- lift (gen_signing_keypair (cd_new_key draws).1 (cd_new_key draws).2) ;;
  must_fail (sign_and_send zksnark pp new_joinsplit_keypair charlie_eth_address fake fake proof public_data
               charlie_eth_address BOB_DEPOSIT_ETH None) ;;;
  must_fail (sign_and_send zksnark pp joinsplit_keypair bob_eth_address ciphertexts ciphertexts proof public_data
               charlie_eth_address BOB_DEPOSIT_ETH (Some 4000000)) ;;;
  sign_and_send zksnark pp joinsplit_keypair bob_eth_address ciphertexts ciphertexts proof public_data
    bob_eth_address BOB_DEPOSIT_ETH None.
End scenario.
