(* ===== verification/ScenarioFacts.v ===== *)
(** * What the scenarios show

    The scenarios run on a node whose mixer is the contract of [ContractMixer.v]: the
    class [MixerNode] says what such a node does with a transaction that calls [mix].
    The attempts to corrupt a deposit are rejected because the messages, keys or senders
    differ; the second withdrawal is rejected too, but not because of the check that it
    is meant to test. *)

From Stdlib Require Import ZArith Lia Ascii String Strings.Byte.
From stdpp Require Import base tactics list gmap strings.
From S2P Require Import Prelude PyStr PyBytes PyFloat PyIO PyState Hashes Constants Utils MerkleTree MerkleTreeFacts Pairing ZkSnark Signing Encryption Notes Contracts MixerClient MixerFacts Prover Cli Commands SyncCommand ContractTree ContractMixer ContractFacts ContractRuns ContractClient Scenario.

Local Open Scope Z_scope.

Import AbstractMerkleTree(TreeState, contract_inv, require).
Import AbstractMixer.

Opaque sha256.

(** ** The node *)

Section node.
Context {Chain Log : Type} `{Web3 Chain} `{Receipts Chain Log} `{MixerCurve} `{EcPrecompiles}.
Context (d : nat) (verifier : list Z → list Z → Z → result bool) (inst : InstanceDescription).

(** The events of the mixer in a receipt. *)
Definition mix_events (h : str) (c : Chain) : result (list EventArgs) :=
  logs ← (receipt_logs h c).1;
  get_event_logs_from_tx_receipt log_address log_topics processLog (inst_address inst) mix_topic logs.

Definition event_of (log : LogMix) : EventArgs :=
  mkEventArgs (log_root log) (log_nullifiers log) (log_commitments log) (log_ciphertexts log).

(** A transaction that calls [mix] runs the contract once and its receipt has the event,
    or it changes nothing: the node refuses it, or its receipt has no event of the
    mixer.  Asking for a receipt does not change the contract. *)
Class MixerNode := {
  mixer_state : Chain → MixerState;
  node_mix proof vk sigma inputs cts desc (c : Chain) :
    let '(r, c1) := transact (Commands.MixCall inst (proof, vk, sigma, inputs, cts)) desc c in
    (mixer_state c1 = mixer_state c ∧ ∀ h, r = Ok h → mix_events (hex h) c1 = Ok [] ∨ ∃ e, mix_events (hex h) c1 = Err e) ∨
    (∃ h msg ext st log acts, r = Ok h ∧ eth_address_to_bytes32 (tx_from desc) = Ok (sender_word msg) ∧
       msg_value msg = default 0 (tx_value desc) ∧
       mix d verifier ext msg proof vk sigma inputs cts (mixer_state c) = Ok (st, log, acts) ∧
       mixer_state c1 = st ∧ mix_events (hex h) c1 = Ok [event_of log]);
  node_receipt h (c : Chain) : mixer_state (receipt_logs h c).2 = mixer_state c
}.
End node.

(** ** Calls the contract refuses *)

Section refused.
Context {Chain Log : Type} `{Web3 Chain} `{Receipts Chain Log} `{MixerCurve} `{EcPrecompiles} `{BN128} `{EthAbi} `{NoteCrypto} `{Web3Units}.
Context (d : nat) (verifier : list Z → list Z → Z → result bool) (zeth_client : ZethClient).
Context {node : MixerNode d verifier (mixer_instance zeth_client)}.

(** The local tree and the contract. *)
Definition same_world (s s' : SState (Chain := Chain)) : Prop := s'.1 = s.1 ∧ mixer_state d verifier _ s'.2 = mixer_state d verifier _ s.2.

#[global] Instance same_world_preorder : PreOrder same_world.
Proof. split; [by intros s | intros s1 s2 s3 [H11 H12] [H21 H22]; split; etrans; [exact H21 | done | exact H22 | done]]. Qed.

(** A command that raises and leaves the tree and the contract as they were. *)
Definition refused {A} (m : SM (SState (Chain := Chain)) A) (s : SState) : Prop := ∃ e s', m s = (Err e, s') ∧ same_world s s'.

(** No sender with this address gets the arguments accepted. *)
Definition contract_refuses (proof vk : list Z) (sigma : Z) (inputs : list Z) (cts : list bytes) (sender : str) (st : MixerState) : Prop :=
  ∀ ext msg, eth_address_to_bytes32 sender = Ok (sender_word msg) →
    ∃ e, mix d verifier ext msg proof vk sigma inputs cts st = Err e.

(** A transaction that the contract refuses, and the search for its event. *)
Lemma wait_without_event h (s : SState) :
  mix_events (mixer_instance zeth_client) h s.2 = Ok [] ∨ (∃ e, mix_events (mixer_instance zeth_client) h s.2 = Err e) →
  refused (wait_for_tx_update_mk_tree zeth_client h) s.
Proof.
  intros Hev. pose proof (node_receipt d verifier (mixer_instance zeth_client) h s.2) as Hst.
  unfold refused, wait_for_tx_update_mk_tree, in_chain, zoom, bind. unfold mix_events in Hev.
  destruct (receipt_logs h s.2) as [[logs|e] c'] eqn:Er; cbn [fst snd mbind result_bind] in *.
  - unfold lift, parse_mix_call. destruct (get_event_logs_from_tx_receipt _ _ _ _ _ logs) as [evs|e] eqn:Eg.
    + destruct Hev as [[= ->]|[e [=]]]. cbn. by do 2 eexists.
    + cbn. by do 2 eexists.
  - by do 2 eexists.
Qed.

Lemma send_mix_refused (p : MixParameters) sender value gas (s : SState) :
  (∀ P proof vk sigma inputs cts, ZkSnark.get_zksnark_provider (zksnark_name (prover_config zeth_client)) = Ok P →
     mix_parameters_to_contract_arguments P (pairing_parameters (prover_config zeth_client)) p = Ok (proof, vk, sigma, inputs, cts) →
     contract_refuses proof vk sigma inputs cts sender (mixer_state d verifier _ s.2)) →
  refused (bind (in_chain (send_mix (mixer_instance zeth_client) (prover_config zeth_client) p sender None value gas))
            (wait_for_tx_update_mk_tree zeth_client)) s.
Proof.
  intros Hrefuse. unfold refused, bind at 1, in_chain, zoom, send_mix.
  unfold bind at 1, lift. unfold _create_mix_call.
  destruct (ZkSnark.get_zksnark_provider _) as [P|e] eqn:EP; cbn [mbind result_bind]; [|destruct s; by do 2 eexists].
  destruct (mix_parameters_to_contract_arguments P _ p) as [[[[[proof vk] sigma] inputs] cts]|e] eqn:Ea; cbn [mbind result_bind];
    [|destruct s; by do 2 eexists].
  specialize (Hrefuse P proof vk sigma inputs cts eq_refl Ea). unfold bind, send_contract_call.
  set (desc := contract_call_desc _ _ _). pose proof (node_mix d verifier (mixer_instance zeth_client) proof vk sigma inputs cts desc s.2) as Hn.
  destruct (transact _ desc s.2) as [r c1] eqn:Et.
  destruct Hn as [[Hst Hev]|(h & msg & ext & st & log & acts & -> & Hsender & _ & Hmix & _)].
  - destruct r as [h|e]; cbn; [|by do 2 eexists].
    destruct (wait_without_event (hex h) (s.1, c1) (Hev h eq_refl)) as (e & s' & E & Hw).
    exists e, s'. split; [exact E|]. destruct Hw as [? Hw]. split; [done|]. by rewrite Hw.
  - destruct (Hrefuse ext msg Hsender) as [e E]. rewrite E in Hmix. done.
Qed.

Lemma refused_bind_lift {A B} (r : result A) (k : A → SM (SState (Chain := Chain)) B) s :
  (∀ a, r = Ok a → refused (k a) s) → refused (bind (lift r) k) s.
Proof. intros Hk. unfold refused, bind, lift. destruct r as [a|e]; [by apply Hk | by do 2 eexists]. Qed.

Lemma must_fail_refused `{ITreeHash} (m : SM SState MixResult) s : refused m s →
  ∃ s', must_fail m s = (Ok tt, s') ∧ same_world s s'.
Proof.
  intros (e & s' & E & Hw). exists s'. split; [|done]. unfold must_fail, try_except. unfold bind at 1. unfold bind at 1.
  by rewrite E.
Qed.

Lemma skip_refused `{ITreeHash} {A} (m : SM SState MixResult) (k : unit → SM SState A) s : refused m s →
  ∃ s', bind (must_fail m) k s = k tt s' ∧ same_world s s'.
Proof. intros (s' & E & Hw)%must_fail_refused. exists s'. split; [|done]. unfold bind. by rewrite E. Qed.
End refused.

(** Passes an attempt that is refused. *)
Ltac skip_attempt s' E Hw :=
  match goal with |- context [bind (@must_fail ?C ?m) ?k ?s] =>
    edestruct (skip_refused (Chain := C) _ _ _ m k s) as (s' & E & Hw); cycle 1; [rewrite E; clear E |] end.

Lemma vk_words `{BN128} vk ws : verification_key_as_mix_parameter vk = Ok ws → ∃ v0 v1 v2 v3, ws = [v0; v1; v2; v3].
Proof.
  unfold verification_key_as_mix_parameter. intros E. apply bind_Ok_inv in E as ([x0 x1] & _ & E).
  apply bind_Ok_inv in E as ([y0 y1] & _ & E). apply Ok_inj in E as <-. by do 4 eexists.
Qed.

(** ** Why the contract refuses *)

(** The number that the verifier multiplies the key with. *)
Definition contract_challenge (vk : list Z) (m : bytes) : Z := int_from_bytes (sha256 (pack_words (drop 2 vk) ++ m)).

(** The message that a signature covers. *)
Definition signed_message (sender : bytes) (cts : list bytes) (proof data : list Z) : bytes :=
  sha256 (sender ++ concat cts ++ pack_words proof ++ pack_words data).

Section reasons.
Context `{MixerCurve} `{BN128Laws} `{!EcPrecompiles} `{!EcPrecompilesLaws}.

(** The checks that an accepted call has passed. *)
Lemma mix_checks d verifier ext msg proof v0 v1 v2 v3 sigma data cts st o :
  mix d verifier ext msg proof [v0; v1; v2; v3] sigma data cts st = Ok o →
  (∃ nfs st1, _checkMkrootNullifiersHsigAppendNullifiersState [v0; v1; v2; v3] data st = Ok (nfs, st1)) ∧
  LibOTSchnorrVerifier._verify v0 v1 v2 v3 sigma (signed_message (sender_word msg) cts proof data) = true.
Proof using Type.
  intros Hm. unfold mix in Hm. apply bind_Ok_inv in Hm as ([nfs st1] & Hc & Hm).
  do 4 (apply bind_Ok_inv in Hm as (? & Hw%word_at_Ok & Hm); destruct Hw as [_ Hw]; injection Hw as <-).
  apply bind_Ok_inv in Hm as (u & Hv%require_Ok & _). split; [by do 2 eexists | exact Hv].
Qed.

Lemma prime_cancel n x y a : Z.prime n → a mod n ≠ 0 → (n | (x - y) * a) → x mod n = y mod n.
Proof using Type.
  intros Hn Ha E. pose proof (Z.prime_ge_2 n Hn). apply Z.divide_prime_mul in E as [[k E]|E]; [| |done].
  - apply Z.cong_iff_ex. by exists k.
  - exfalso. apply Ha. by apply Z.mod_divide; [lia|].
Qed.

(** One signature covers two messages only when their challenges agree. *)
Lemma signature_binds rx ry kp m m' sigma (Hprime : Z.prime curve_order) vk : rx ≠ [] → ry ≠ [] →
  int_from_bytes rx mod curve_order ≠ 0 → int_from_bytes ry mod curve_order ≠ 0 →
  gen_signing_keypair rx ry = Ok kp → verification_key_as_mix_parameter (kp_vk kp) = Ok vk →
  length m = 32%nat → length m' = 32%nat → sign (kp_sk kp) m = Ok sigma →
  ∃ v0 v1 v2 v3, vk = [v0; v1; v2; v3] ∧
    (LibOTSchnorrVerifier._verify v0 v1 v2 v3 sigma m' = true →
     contract_challenge vk m' mod curve_order = contract_challenge vk m mod curve_order).
Proof.
  intros Hrx Hry Hx Hy Hkp Hvk Hm Hm' Hs. pose proof order_bounds as Hob. pose proof modulus_bounds.
  destruct (gen_keypair_ok rx ry Hrx Hry) as (a & b & Ha & Hb & Ea & Eb & E). rewrite E in Hkp. apply Ok_inj in Hkp as <-.
  assert (0 < curve_order) as Hpos by lia. assert (0 < a) by (pose proof (Z.mod_pos_bound (int_from_bytes rx) curve_order Hpos); lia).
  destruct (multiple_finite a) as (X0 & X1 & EX & _); [lia|]. destruct (multiple_finite b) as (Y0 & Y1 & EY & _); [lia|].
  pose proof (sign_verify_ok rx ry _ m sigma Hrx Hry E Hs) as Hver.
  assert (0 ≤ sigma < field_modulus) as Hsr.
  { unfold sign in Hs. apply bind_Ok_inv in Hs as (g & _ & Hs). apply bind_Ok_inv in Hs as (c & _ & Hs). apply Ok_inj in Hs as <-.
    cbn [kp_sk ssk_y psk]. pose proof (Z.mod_pos_bound (b + c * a) curve_order Hpos). lia. }
  cbn [kp_vk] in Hvk, Hver. rewrite EX, EY in Hvk, Hver. unfold verification_key_as_mix_parameter in Hvk.
  cbn [ppk spk g1_coords of_option mbind result_bind] in Hvk. apply Ok_inj in Hvk as <-.
  exists X0, X1, Y0, Y1. split; [done|]. intros Hv'. rewrite (contract_verify_client a b) in Hver by (done || lia).
  apply Ok_inj in Hver. apply (contract_verify_group a b) in Hver; [|done || lia..]. apply (contract_verify_group a b) in Hv'; [|done || lia..].
  unfold contract_challenge. cbn [drop]. set (h := int_from_bytes (sha256 (_ ++ m))) in *. set (h' := int_from_bytes (sha256 (_ ++ m'))) in *.
  apply (prime_cancel curve_order h' h a Hprime).
  - rewrite Z.mod_small by lia. lia.
  - rewrite Hver in Hv'. apply Z.cong_iff_ex in Hv' as [k Hk]. exists (- k). lia.
Qed.
End reasons.

(** ** Corrupted calls *)

Section corrupted.
Context {Chain Log : Type} `{Web3 Chain} `{Receipts Chain Log} `{MixerCurve}.
Context `{BN128Laws} `{!EcPrecompiles} `{!EcPrecompilesLaws} `{EthAbiLaws} `{NoteCrypto} `{Web3Units}.
Context (Hcap : 240 ≤ _FIELD_CAPACITY < 256) (Hprime : Z.prime curve_order).
Context (d : nat) (verifier : list Z → list Z → Z → result bool) (zeth_client : ZethClient).
Context {node : MixerNode d verifier (mixer_instance zeth_client)}.
Context (zksnark : IZKSnarkProvider) (HP : ZkSnark.get_zksnark_provider (zksnark_name (prover_config zeth_client)) = Ok zksnark).
Local Abbreviation pp := (pairing_parameters (prover_config zeth_client)).

Lemma sign_and_send_refused kp vk signer signed sent proof pf data sender value gas (s : SState (Chain := Chain)) :
  proof_to_contract_parameters zksnark (ZkSnark.proof proof) pp = Ok pf →
  verification_key_as_mix_parameter (kp_vk kp) = Ok vk →
  (∀ sigma, joinsplit_sign zksnark pp kp signer signed proof data false = Ok sigma →
     contract_refuses d verifier pf vk sigma data sent sender (mixer_state d verifier _ s.2)) →
  refused d verifier zeth_client (sign_and_send zeth_client zksnark pp kp signer signed sent proof data sender value gas) s.
Proof using HP.
  intros Hpf Hvk Hrefuse. unfold sign_and_send. apply refused_bind_lift. intros sigma Hsigma. apply refused_bind_lift. intros v _.
  apply send_mix_refused. intros P pf' vk' sigma' inputs cts EP Ea. rewrite HP in EP. apply Ok_inj in EP as <-.
  unfold mix_parameters_to_contract_arguments in Ea. cbn [extended_proof signature_vk signature public_data ciphertexts] in Ea.
  rewrite Hpf in Ea. cbn [mbind result_bind] in Ea. rewrite Hvk in Ea. cbn [mbind result_bind] in Ea. apply Ok_inj in Ea.
  injection Ea as <- <- <- <- <-. by apply Hrefuse.
Qed.

Context (rx ry : bytes) (kp : SigningKeyPair) (vk : list Z) (Hrx : rx ≠ []) (Hry : ry ≠ []).
Context (Hx : int_from_bytes rx mod curve_order ≠ 0) (Hy : int_from_bytes ry mod curve_order ≠ 0).
Context (Hkp : gen_signing_keypair rx ry = Ok kp) (Hvk : verification_key_as_mix_parameter (kp_vk kp) = Ok vk).

(** The signature does not cover the message: other ciphertexts, or another sender. *)
Lemma refuses_signature signer signer_word signed sent proof pf data sender sender' sigma st :
  proof_to_contract_parameters zksnark (ZkSnark.proof proof) pp = Ok pf → Forall uint256 pf → Forall uint256 data →
  eth_address_to_bytes32 signer = Ok (bytes32 signer_word) → eth_address_to_bytes32 sender = Ok (bytes32 sender') →
  contract_challenge vk (signed_message (bytes32 sender') sent pf data) mod curve_order ≠
    contract_challenge vk (signed_message (bytes32 signer_word) signed pf data) mod curve_order →
  joinsplit_sign zksnark pp kp signer signed proof data false = Ok sigma →
  contract_refuses d verifier pf vk sigma data sent sender st.
Proof using All.
  intros Hpf Hwpf Hwd Hsigner Hsender Hne Hs ext msg Hmsg. rewrite Hsender in Hmsg. apply Ok_inj in Hmsg.
  unfold joinsplit_sign in Hs. apply bind_Ok_inv in Hs as (m & Hm & Hs).
  destruct (contract_digest zksnark pp signer signer_word pf signed proof data false m Hsigner Hpf Hwpf Hwd Hm) as [_ Em].
  change (m = signed_message (bytes32 signer_word) signed pf data) in Em.
  set (m' := signed_message (bytes32 sender') sent pf data) in *.
  destruct (signature_binds rx ry kp m m' sigma Hprime vk Hrx Hry Hx Hy Hkp Hvk) as (v0 & v1 & v2 & v3 & -> & Hv);
    [subst m; apply sha256_length | apply sha256_length | exact Hs |].
  destruct (mix d verifier ext msg pf [v0; v1; v2; v3] sigma data sent st) as [o|e] eqn:E; [|by eexists].
  apply mix_checks in E as [_ E]. rewrite <- Hmsg in E. exfalso. apply Hne. rewrite <- Em. by apply Hv.
Qed.

(** The key is not the one that h_sig was made for. *)
Lemma refuses_key pf sigma v sent sender st vk' hsig_vk : public_values_ok v →
  bytes32 (pv_hsig v) = sha256 (concat [bytes32 (pv_nf0 v); bytes32 (pv_nf1 v)] ++ pack_words hsig_vk) →
  (∃ v0 v1 v2 v3, vk' = [v0; v1; v2; v3]) →
  sha256 (concat [bytes32 (pv_nf0 v); bytes32 (pv_nf1 v)] ++ pack_words vk') ≠
    sha256 (concat [bytes32 (pv_nf0 v); bytes32 (pv_nf1 v)] ++ pack_words hsig_vk) →
  contract_refuses d verifier pf vk' sigma (primary_inputs v) sent sender st.
Proof using Hcap.
  intros Hv Hh (v0 & v1 & v2 & v3 & ->) Hne ext msg _.
  destruct (mix d verifier ext msg pf [v0; v1; v2; v3] sigma (primary_inputs v) sent st) as [o|e] eqn:E; [|by eexists].
  apply mix_checks in E as [(nfs & st1 & Hc) _]. apply check_spec in Hc as (root & _ & _ & Hn & _ & _ & Hs & _).
  rewrite assemble_hsig in Hs by done. apply Ok_inj in Hs. unfold nullifiers_of in Hn.
  change 0 with (Z.of_nat 0) in Hn. change 1 with (Z.of_nat 1) in Hn.
  rewrite (assemble_nullifier Hcap v 0 (pv_nf0 v)), (assemble_nullifier Hcap v 1 (pv_nf1 v)) in Hn by done.
  apply Ok_inj in Hn as <-. congruence.
Qed.
End corrupted.

(** ** Calls the contract accepts *)

(** A node that runs the calls which the contract accepts. *)
Class MixerNodeRuns {Chain Log : Type} `{Web3 Chain} `{Receipts Chain Log} `{MixerCurve} `{EcPrecompiles}
    (d : nat) (verifier : list Z → list Z → Z → result bool) (inst : InstanceDescription)
    {node : MixerNode d verifier inst} : Type := {
  node_msg : TxDesc → Chain → Msg;
  node_ext : Chain → Action → option bool;
  node_runs proof vk sigma inputs cts desc (c : Chain) st log acts :
    eth_address_to_bytes32 (tx_from desc) = Ok (sender_word (node_msg desc c)) →
    mix d verifier (node_ext c) (node_msg desc c) proof vk sigma inputs cts (mixer_state d verifier inst c) = Ok (st, log, acts) →
    ∃ h c1, transact (Commands.MixCall inst (proof, vk, sigma, inputs, cts)) desc c = (Ok h, c1) ∧
      mixer_state d verifier inst c1 = st ∧ mix_events inst (hex h) c1 = Ok [event_of log]
}.

Section followed.
Context {Chain Log : Type} `{Web3 Chain} `{Receipts Chain Log} `{MixerCurve} `{EcPrecompiles} `{BN128} `{EthAbi} `{NoteCrypto} `{Web3Units}.
Context (d : nat) (verifier : list Z → list Z → Z → result bool) (zeth_client : ZethClient).
Context {node : MixerNode d verifier (mixer_instance zeth_client)}.

Lemma insert_outputs_fold (evs : list MixOutputEvents) (t t' : MerkleTree) :
  foldM MerkleTree.insert t (commitment <$> evs) = Ok t' → insert_outputs evs t = (Ok tt, t').
Proof.
  revert t. induction evs as [|ev evs IH]; intros t E; [by injection E as ->|]. cbn [fmap list_fmap foldM] in E.
  apply bind_Ok_inv in E as (t1 & E1 & E). cbn [insert_outputs]. unfold bind, tree_insert. rewrite E1. by apply IH.
Qed.

(** The local tree follows an event whose root is that of the leaves. *)
Lemma wait_follows h log l (s : SState (Chain := Chain)) : (1 ≤ d ≤ 52)%nat → tree_inv d l s.1 →
  mix_events (mixer_instance zeth_client) h s.2 = Ok [event_of log] →
  length (log_ciphertexts log) = length (log_commitments log) →
  zlen l + zlen (log_commitments log) ≤ 2 ^ Z.of_nat d → log_root log = spec_root d (l ++ log_commitments log) →
  ∃ s', wait_for_tx_update_mk_tree zeth_client h s = (Ok (event_result (event_of log)), s') ∧
    tree_inv d (l ++ log_commitments log) s'.1 ∧ get_root s'.1 = Ok (log_root log) ∧
    mixer_state d verifier _ s'.2 = mixer_state d verifier _ s.2.
Proof.
  intros Hd Ht Hev Hlen Hfit Hroot. pose proof (node_receipt d verifier (mixer_instance zeth_client) h s.2) as Hst.
  unfold wait_for_tx_update_mk_tree, in_chain, in_tree, zoom, bind, lift. unfold mix_events in Hev.
  destruct (receipt_logs h s.2) as [[logs|e] c'] eqn:Er; cbn [fst snd mbind result_bind] in *; [|done].
  unfold parse_mix_call. rewrite Hev. cbn [mbind result_bind]. change (py_get (event_result <$> [event_of log]) 0) with (Ok (event_result (event_of log))).
  cbn [fst snd].
  assert (commitment <$> output_events (event_result (event_of log)) = log_commitments log) as Ecms.
  { unfold event_result, event_args_to_mix_result, event_of. cbn [output_events ev_commitments ev_ciphertexts].
    clear -Hlen. revert Hlen. generalize (log_ciphertexts log), (log_commitments log). intros xs cs. revert xs.
    induction cs as [|c cs IH]; intros [|x xs] Hl; try done. cbn. f_equal. apply IH. by injection Hl. }
  destruct (insert_all_inv d ltac:(lia) (log_commitments log) l s.1 Ht Hfit) as (t1 & E1 & Ht1).
  rewrite <- Ecms in E1. rewrite (insert_outputs_fold _ _ _ E1). cbn [fst snd].
  destruct (recompute_root_inv d ltac:(lia) _ t1 ltac:(lia) Ht1) as (t2 & E2 & Ht2 & Hclean).
  unfold tree_recompute_root. rewrite E2. cbn [fst snd]. cbn [event_result event_of event_args_to_mix_result new_merkle_root ev_root].
  rewrite Hroot, bool_decide_true by done. cbn. eexists. split; [reflexivity|]. cbn [fst snd].
  split_and!; [done | by apply get_root_inv; [lia|..] | done].
Qed.
End followed.

Section accepted.
Context {Chain Log : Type} `{Web3 Chain} `{Receipts Chain Log} `{MixerCurve}.
Context `{BN128Laws} `{!EcPrecompiles} `{!EcPrecompilesLaws} `{EthAbiLaws} `{NoteCrypto} `{Web3Units}.

Lemma sign_total rx ry kp m : rx ≠ [] → ry ≠ [] → int_from_bytes ry mod curve_order ≠ 0 → gen_signing_keypair rx ry = Ok kp →
  ∃ sigma, sign (kp_sk kp) m = Ok sigma.
Proof.
  intros Hrx Hry Hy Hkp. pose proof order_bounds. destruct (gen_keypair_ok rx ry Hrx Hry) as (a & b & _ & Hb & _ & Eb & E).
  rewrite E in Hkp. apply Ok_inj in Hkp as <-. unfold sign. cbn [kp_sk ssk_y_g1 ssk_y psk].
  destruct (g1_bytes_ok (ec_multiply ec_G1 b)) as (g & -> & _); [apply multiple_finite; lia|]. cbn [mbind result_bind].
  destruct (challenge_ok (g ++ m)) as (c & -> & _). cbn [mbind result_bind]. by eexists.
Qed.

Lemma joinsplit_sign_total zk pp rx ry kp addr w cts ep proof data : rx ≠ [] → ry ≠ [] → int_from_bytes ry mod curve_order ≠ 0 →
  gen_signing_keypair rx ry = Ok kp → eth_address_to_bytes32 addr = Ok w → length cts = 2%nat →
  proof_to_contract_parameters zk (ZkSnark.proof ep) pp = Ok proof → Forall uint256 proof → Forall uint256 data →
  ∃ sigma, joinsplit_sign zk pp kp addr cts ep data false = Ok sigma.
Proof.
  intros Hrx Hry Hy Hkp Ha Hl Hp Hwp Hwd. unfold joinsplit_sign, joinsplit_digest.
  rewrite py_assert_true by (unfold zlen; by rewrite Hl). cbn [mbind result_bind]. rewrite Ha. cbn [mbind result_bind].
  unfold _proof_and_inputs_to_bytes. rewrite Hp. cbn [mbind result_bind]. rewrite !message_to_bytes_ints by done. cbn [mbind result_bind].
  by apply (sign_total rx ry).
Qed.

Lemma encrypt_notes_length notes idx ephs cs : encrypt_notes_from idx notes ephs = Ok cs → length cs = length notes.
Proof using Type.
  revert idx cs. induction notes as [|[n pk] notes IH]; intros idx cs E; [by injection E as <-|]. cbn [encrypt_notes_from] in E.
  apply bind_Ok_inv in E as (b & _ & E). apply bind_Ok_inv in E as (c & _ & E). apply bind_Ok_inv in E as (cs' & Hcs & E).
  apply Ok_inj in E as <-. cbn. f_equal. by eapply IH.
Qed.

Lemma prover_inputs_key desc rand pi kp : create_prover_inputs desc rand = Ok (pi, kp) →
  gen_signing_keypair (mr_sign_x rand) (mr_sign_y rand) = Ok kp.
Proof using Type.
  intros E. unfold create_prover_inputs in E. do 5 apply bind_Ok_inv in E as (? & _ & E). apply bind_Ok_inv in E as (k & Hk & E).
  do 5 apply bind_Ok_inv in E as (? & _ & E). apply Ok_inj in E. by injection E as _ <-.
Qed.

(** What the interception of the deposit went through. *)
Lemma intercepted_inv get_proof (keystore : KeyStore) tree draws proof data kp cts :
  intercepted_deposit get_proof keystore tree draws = Ok (proof, data, kp, cts) →
  (∃ bob, key_of keystore "Bob" = Ok bob) ∧ (∃ amount, ether BOB_DEPOSIT_ETH = Ok amount) ∧ length cts = 2%nat ∧
  gen_signing_keypair (mr_sign_x (md_rand (cd_draws draws))) (mr_sign_y (md_rand (cd_draws draws))) = Ok kp.
Proof using Type.
  intros E. unfold intercepted_deposit in E. apply bind_Ok_inv in E as (bob & Hb & E). do 4 apply bind_Ok_inv in E as (? & _ & E).
  apply bind_Ok_inv in E as (amount & Ha & E). apply bind_Ok_inv in E as (? & _ & E).
  apply bind_Ok_inv in E as ([[[[n1 n2] p] dt] k] & Hc & E). apply bind_Ok_inv in E as (cs & Hcs & E). apply Ok_inj in E.
  injection E as <- <- <- <-. split_and!; [by eexists | by eexists | by apply encrypt_notes_length in Hcs |].
  unfold get_mix_parameters_components in Hc. destruct (mix_components _ _ _ _ _ _ _ _ _) as [[pi comps]|] eqn:Em; [|done].
  apply Ok_inj in Hc. cbn [snd] in Hc. subst comps. unfold mix_components in Em.
  apply bind_Ok_inv in Em as (desc & _ & Em). apply bind_Ok_inv in Em as ([pi' kp'] & Hpi & Em).
  apply bind_Ok_inv in Em as ([ep pd] & _ & Em). do 2 apply bind_Ok_inv in Em as (? & _ & Em). apply Ok_inj in Em.
  injection Em as _ _ _ _ _ <-. by eapply prover_inputs_key.
Qed.

Context (d : nat) (verifier : list Z → list Z → Z → result bool) (zeth_client : ZethClient).
Context {node : MixerNode d verifier (mixer_instance zeth_client)} {runs : MixerNodeRuns d verifier (mixer_instance zeth_client)}.
Context (zksnark : IZKSnarkProvider) (HP : ZkSnark.get_zksnark_provider (zksnark_name (prover_config zeth_client)) = Ok zksnark).
Local Abbreviation pp := (pairing_parameters (prover_config zeth_client)).
Local Abbreviation node_state := (mixer_state d verifier (mixer_instance zeth_client)).

(** The transaction that sends the parameters, when the contract accepts them. *)
Lemma sign_and_send_accepted kp vk sigma signer cts proof pf data value tx_value gas (s : SState (Chain := Chain)) l st log acts :
  proof_to_contract_parameters zksnark (ZkSnark.proof proof) pp = Ok pf →
  verification_key_as_mix_parameter (kp_vk kp) = Ok vk →
  joinsplit_sign zksnark pp kp signer cts proof data false = Ok sigma → ether value = Ok tx_value →
  (let desc := contract_call_desc signer (Some tx_value) gas in
   eth_address_to_bytes32 signer = Ok (sender_word (node_msg desc s.2)) ∧
   mix d verifier (node_ext s.2) (node_msg desc s.2) pf vk sigma data cts (node_state s.2) = Ok (st, log, acts)) →
  (1 ≤ d ≤ 52)%nat → tree_inv d l s.1 → length (log_ciphertexts log) = length (log_commitments log) →
  zlen l + zlen (log_commitments log) ≤ 2 ^ Z.of_nat d → log_root log = spec_root d (l ++ log_commitments log) →
  ∃ s', sign_and_send zeth_client zksnark pp kp signer cts cts proof data signer value gas s = (Ok (event_result (event_of log)), s') ∧
    tree_inv d (l ++ log_commitments log) s'.1 ∧ get_root s'.1 = Ok (log_root log) ∧ node_state s'.2 = st.
Proof using HP.
  intros Hpf Hvk Hs Hv Hmix Hd Ht Hlen Hfit Hroot. destruct Hmix as [Hsigner Hmix].
  destruct (node_runs pf vk sigma data cts (contract_call_desc signer (Some tx_value) gas) s.2 st log acts Hsigner Hmix) as (h & c1 & Etx & Hst & Hev).
  destruct (wait_follows d verifier zeth_client (hex h) log l (s.1, c1) Hd Ht Hev Hlen Hfit Hroot) as (s' & E & Ht' & Hr' & Hst').
  exists s'. split_and!; [|done|done|by rewrite Hst'].
  unfold sign_and_send. unfold bind at 1, lift at 1. rewrite Hs. unfold bind at 1, lift at 1. rewrite Hv.
  unfold bind at 1, in_chain, zoom, send_mix. unfold bind at 1, lift at 1. unfold _create_mix_call. rewrite HP. cbn [mbind result_bind].
  unfold mix_parameters_to_contract_arguments. cbn [extended_proof signature_vk signature public_data ciphertexts].
  rewrite Hpf. cbn [mbind result_bind]. rewrite Hvk. cbn [mbind result_bind].
  unfold bind at 1, send_contract_call, signature_as_mix_parameter. rewrite Etx. exact E.
Qed.
End accepted.

(** ** Properties *)

