(* ===== verification/ScenarioAttack.v ===== *)
(** * The second withdrawal

    The attack of [charlie_double_withdraw] on the texts of nullifiers, as arithmetic,
    and why the contract refuses it. *)

From Stdlib Require Import ZArith Lia Ascii String Strings.Byte.
From stdpp Require Import base tactics list gmap strings.
From S2P Require Import Prelude PyStr PyBytes PyFloat PyIO PyState Hashes Constants Utils MerkleTree MerkleTreeFacts Pairing ZkSnark Signing Encryption Notes Contracts MixerClient MixerFacts Prover Cli Commands SyncCommand ContractTree ContractMixer ContractFacts ContractRuns ContractClient ContractLimits Scenario ScenarioFacts.

Local Open Scope Z_scope.

Import AbstractMerkleTree(TreeState, contract_inv, require).
Import AbstractMixer.

Opaque sha256.

(** ** Binary texts *)

(** A text of [n] binary digits of the number [z]. *)
Definition binary_text (s : str) (n : nat) (z : Z) : Prop :=
  ∃ ds, mapM digit_val s = Some ds ∧ Forall (λ d, 0 ≤ d < 2) ds ∧ length ds = n ∧ num_of 2 ds = z.

Lemma mapM_take (n : nat) (s : str) ds : mapM digit_val s = Some ds → mapM digit_val (take n s) = Some (take n ds).
Proof.
  revert n ds. induction s as [|c s IH]; intros n ds Hs; [injection Hs as <-; by destruct n|].
  rewrite mapM_cons_opt in Hs. apply bind_Some in Hs as (x & Hx & (ds' & Hs & [= <-])%bind_Some).
  destruct n as [|n]; [done|]. cbn [take]. by rewrite mapM_cons_opt, Hx, (IH n _ Hs).
Qed.

Lemma mapM_drop (n : nat) (s : str) ds : mapM digit_val s = Some ds → mapM digit_val (drop n s) = Some (drop n ds).
Proof.
  revert n ds. induction s as [|c s IH]; intros n ds Hs; [injection Hs as <-; by destruct n|].
  destruct n as [|n]; [done|]. rewrite mapM_cons_opt in Hs. apply bind_Some in Hs as (x & Hx & (ds' & Hs & [= <-])%bind_Some).
  cbn [drop]. by apply IH.
Qed.

Lemma binary_text_length s n z : binary_text s n z → length s = n.
Proof. intros (ds & Hm & _ & <- & _). by eapply length_mapM. Qed.

Lemma binary_text_range s n z : binary_text s n z → 0 ≤ z < 2 ^ Z.of_nat n.
Proof. intros (ds & _ & Hr & <- & <-). pose proof (num_of_bound 2 ds ltac:(lia) Hr) as Hb. exact Hb. Qed.

Lemma binary_text_fmt (w : nat) z : (0 < w)%nat → 0 ≤ z < 2 ^ Z.of_nat w → binary_text (fmt_0wb w z) w z.
Proof.
  intros Hw Hz. unfold fmt_0wb, sign_str, abs_digits, zpad.
  rewrite (proj2 (Z.ltb_ge _ _)), Z.abs_eq by lia. cbn [app length]. rewrite length_fmap.
  pose proof (digits_of_range 2 ltac:(lia) z ltac:(lia)) as Hr.
  pose proof (digits_of_length 2 ltac:(lia) w z ltac:(lia) ltac:(lia)) as Hl.
  set (k := (w - 0 - length (digits_of 2 z))%nat).
  assert (replicate k "0"%char = digit_char false <$> replicate k 0) as -> by by rewrite fmap_replicate.
  rewrite <- fmap_app.
  assert (Forall (λ d, 0 ≤ d < 2) (replicate k 0 ++ digits_of 2 z)) as Hall.
  { apply Forall_app. split; [|done]. apply Forall_replicate. lia. }
  exists (replicate k 0 ++ digits_of 2 z). split_and!; [by apply (mapM_digit_val false 2) | done | |].
  - rewrite length_app, length_replicate. unfold k. lia.
  - by rewrite num_of_zeros, digits_of_num by lia.
Qed.

(** The first digits are the quotient, the others the remainder. *)
Lemma binary_text_split s n z (k : nat) : binary_text s n z → (k ≤ n)%nat →
  binary_text (take k s) k (z / 2 ^ Z.of_nat (n - k)) ∧ binary_text (drop k s) (n - k) (z mod 2 ^ Z.of_nat (n - k)).
Proof.
  intros (ds & Hm & Hr & Hl & Hv) Hk. destruct (Forall_take_drop _ k ds Hr) as [Ht Hd].
  pose proof (num_of_app 2 (take k ds) (drop k ds)) as Hs. rewrite take_drop, Hv in Hs.
  pose proof (num_of_bound 2 (drop k ds) ltac:(lia) Hd) as Hb.
  assert (zlen (drop k ds) = Z.of_nat (n - k)) as Hz by (unfold zlen; rewrite length_drop; lia). rewrite Hz in *.
  split; [exists (take k ds) | exists (drop k ds)]; split_and!; try done;
    [by apply mapM_take | rewrite length_take; lia | | by apply mapM_drop | rewrite length_drop; lia |].
  - rewrite Hs. rewrite Z.div_add_l, Z.div_small by lia. lia.
  - rewrite Hs, Z.add_comm, Z_mod_plus_full. symmetry. by apply Z.mod_small.
Qed.

Lemma binary_text_app s n z t m y : binary_text s n z → binary_text t m y → binary_text (s ++ t) (n + m) (z * 2 ^ Z.of_nat m + y).
Proof.
  intros (ds & Hm & Hr & Hl & Hv) (es & Hm' & Hr' & Hl' & Hv'). exists (ds ++ es).
  split_and!; [by apply mapM_digit_val_app | by apply Forall_app | rewrite length_app; lia |].
  rewrite num_of_app, Hv, Hv'. unfold zlen. by rewrite Hl'.
Qed.

Lemma binary_text_int s n z : binary_text s n z → (0 < n)%nat → int_of_str 2 s = Ok z.
Proof.
  intros Hb Hn. pose proof (binary_text_length s n z Hb) as Hl. destruct Hb as (ds & Hm & Hr & _ & <-).
  apply int_of_digits; [lia | | done | done]. by destruct s; [cbn in Hl; lia|].
Qed.

Lemma fromhex_fmt_064x z : 0 ≤ z < 2 ^ 256 → fromhex (fmt_064x z) = Ok (to_be 32 z).
Proof.
  intros Hz. unfold fmt_064x, sign_str, abs_digits. rewrite (proj2 (Z.ltb_ge _ _)), Z.abs_eq by lia. cbn [app length].
  pose proof (digits_of_length 16 ltac:(lia) 64 z ltac:(lia) Hz) as Hl.
  destruct (fromhex_digits 32 (zpad (64 - 0) (digit_char false <$> digits_of 16 z))
    (replicate (64 - 0 - length (digit_char false <$> digits_of 16 z)) 0 ++ digits_of 16 z)) as (b & Hb & Hlb & Hv).
  - apply hex_digits_zpad, hex_digits_map, digits_of_range; lia.
  - rewrite length_zpad, length_fmap. lia.
  - rewrite num_of_zeros, digits_of_num in Hv by lia. rewrite Hb. f_equal. rewrite <- Hv, <- Hlb. symmetry. apply to_be_from_bytes.
Qed.

(** ** The attack as arithmetic *)

Section attack.
Context (cap r : Z) (Hcap : 0 < cap < 256) (Hr : 2 ^ cap ≤ r < 2 ^ (cap + 1)) (Hfit : r + 2 ^ cap ≤ 2 ^ 256).

(** The bits that the attack takes for the field element: the upper ones. *)
Definition upper_bits (x : Z) : Z := x / 2 ^ (256 - cap).
(** The nullifier of the attack. *)
Definition attacked (x : Z) : Z := (upper_bits x + r) mod 2 ^ cap * 2 ^ (256 - cap) + x mod 2 ^ (256 - cap).

Lemma upper_bits_range x : 0 ≤ x < 2 ^ 256 → 0 ≤ upper_bits x < 2 ^ cap.
Proof using Hcap.
  intros Hx. unfold upper_bits. assert (0 < 2 ^ (256 - cap)) by (apply Z.pow_pos_nonneg; lia).
  split; [apply Z.div_pos; lia|]. apply Z.div_lt_upper_bound; [lia|]. rewrite <- Z.pow_add_r by lia.
  replace (256 - cap + cap) with 256 by lia. lia.
Qed.

Lemma split_nullifier_spec nf : length nf = 32%nat →
  ∃ res, split_nullifier cap nf = Ok (upper_bits (int_from_bytes nf), res) ∧
    binary_text res (Z.to_nat (256 - cap)) (int_from_bytes nf mod 2 ^ (256 - cap)).
Proof using Hcap.
  intros Hl. unfold split_nullifier. rewrite int_of_hex by (by destruct nf). cbn [mbind result_bind].
  pose proof (int_from_bytes_bound nf) as Hb. unfold zlen in Hb. rewrite Hl in Hb. change (256 ^ Z.of_nat 32) with (2 ^ 256) in Hb.
  pose proof (binary_text_fmt 256 (int_from_bytes nf) ltac:(lia) Hb) as Ht.
  apply (binary_text_split _ _ _ (Z.to_nat cap)) in Ht as [Ht Hd]; [|lia].
  replace (256 - Z.to_nat cap)%nat with (Z.to_nat (256 - cap)) in Ht, Hd by lia. rewrite Z2Nat.id in Ht, Hd by lia.
  eexists. rewrite (binary_text_int _ _ _ Ht) by lia. cbn [mbind result_bind]. by split.
Qed.

Lemma attack_nullifier_spec x res : 0 ≤ x < 2 ^ 256 → binary_text res (Z.to_nat (256 - cap)) (x mod 2 ^ (256 - cap)) →
  attack_nullifier cap (upper_bits x + r) res = Ok (to_be 32 (attacked x)).
Proof using Hcap Hr Hfit.
  intros Hx Hres. pose proof (upper_bits_range x Hx) as Hu. unfold attack_nullifier.
  pose proof (binary_text_fmt 256 (upper_bits x + r) ltac:(lia) ltac:(lia)) as Ht.
  assert (zlen (fmt_0wb 256 (upper_bits x + r)) = 256) as -> by (unfold zlen; by rewrite (binary_text_length _ _ _ Ht)).
  apply (binary_text_split _ _ _ (Z.to_nat (256 - cap))) in Ht as [_ Ht]; [|lia].
  replace (256 - Z.to_nat (256 - cap))%nat with (Z.to_nat cap) in Ht by lia. rewrite Z2Nat.id in Ht by lia.
  pose proof (binary_text_app _ _ _ _ _ _ Ht Hres) as Ha. rewrite Z2Nat.id in Ha by lia. fold (attacked x) in Ha.
  rewrite (binary_text_int _ _ _ Ha) by lia. cbn [mbind result_bind]. apply fromhex_fmt_064x.
  apply binary_text_range in Ha. replace (Z.of_nat (Z.to_nat cap + Z.to_nat (256 - cap))) with 256 in Ha by lia. exact Ha.
Qed.

(** What the attack records and hashes. *)
Lemma attack_nullifiers_spec nf0 nf1 : length nf0 = 32%nat → length nf1 = 32%nat →
  attack_nullifiers r cap [nf0; nf1] =
    Ok ((upper_bits (int_from_bytes nf0) + r, upper_bits (int_from_bytes nf1) + r),
        [to_be 32 (attacked (int_from_bytes nf0)); to_be 32 (attacked (int_from_bytes nf1))]).
Proof using Hcap Hr Hfit.
  intros H0 H1. unfold attack_nullifiers. cbn [zlen length Z.of_nat Pos.of_succ_nat Pos.succ Z.eqb Pos.eqb py_assert mbind result_bind].
  change (py_get [nf0; nf1] 0) with (Ok nf0). change (py_get [nf0; nf1] 1) with (Ok nf1). cbn [mbind result_bind].
  destruct (split_nullifier_spec nf0 H0) as (res0 & -> & Hres0). destruct (split_nullifier_spec nf1 H1) as (res1 & -> & Hres1).
  cbn [mbind result_bind].
  assert (∀ nf, length nf = 32%nat → 0 ≤ int_from_bytes nf < 2 ^ 256) as Hb.
  { intros nf Hl. pose proof (int_from_bytes_bound nf) as Hb. unfold zlen in Hb. by rewrite Hl in Hb. }
  rewrite (attack_nullifier_spec (int_from_bytes nf0)), (attack_nullifier_spec (int_from_bytes nf1)) by auto. done.
Qed.

(** The recorded word has the residue of the word of the proof only for digests whose
    upper and lower bits are the same. *)
Lemma attack_residue x : 0 ≤ x < 2 ^ 256 →
  (upper_bits x + r) mod r = (x mod 2 ^ cap) mod r ↔ upper_bits x = x mod 2 ^ cap.
Proof using Hcap Hr.
  intros Hx. pose proof (upper_bits_range x Hx). assert (0 < 2 ^ cap) by (apply Z.pow_pos_nonneg; lia).
  pose proof (Z.mod_pos_bound x (2 ^ cap) ltac:(lia)).
  replace (upper_bits x + r) with (upper_bits x + 1 * r) by lia. rewrite Z_mod_plus_full, !Z.mod_small by lia. done.
Qed.
End attack.

(** ** What the scenario sends *)

(** The prover packs the values it is given. *)
Definition prover_packs `{MixerCurve} (get_proof : ProofInputs → result (ExtendedProof * list Z)) : Prop :=
  ∀ inputs ep data, get_proof inputs = Ok (ep, data) → ∃ v, public_values_ok v ∧ data = primary_inputs v ∧
    pi_h_sig inputs = hex (bytes32 (pv_hsig v)) ∧
    (nullifier <$> js_inputs inputs) = [hex (bytes32 (pv_nf0 v)); hex (bytes32 (pv_nf1 v))].

Section sent.
Context `{MixerCurve} `{BN128} `{EthAbi} `{NoteCrypto} `{Web3Units}.

(** The callback that computes h_sig gets the nullifiers of the inputs. *)
Lemma prover_inputs_hsig desc rand pi kp cb : mc_h_sig desc = Some cb → create_prover_inputs desc rand = Ok (pi, kp) →
  ∃ nfs h, mapM (λ i, fromhex (nullifier i)) (js_inputs pi) = Ok nfs ∧ cb nfs (kp_vk kp) = Ok h ∧ pi_h_sig pi = hex h.
Proof.
  intros Hcb E. unfold create_prover_inputs in E. do 5 apply bind_Ok_inv in E as (? & _ & E). apply bind_Ok_inv in E as (k & _ & E).
  apply bind_Ok_inv in E as (nfs & Hnfs & E). apply bind_Ok_inv in E as (h & Hh & E). rewrite Hcb in Hh.
  do 3 apply bind_Ok_inv in E as (? & _ & E). apply Ok_inj in E. injection E as <- <-. cbn [js_inputs pi_h_sig].
  by exists nfs, h.
Qed.

Lemma new_mix_call_hsig tree sender ins outs vi vo cb dummies sk desc :
  new_mix_call tree sender ins outs vi vo cb dummies sk = Ok desc → mc_h_sig desc = cb.
Proof.
  intros E. unfold new_mix_call in E. do 4 apply bind_Ok_inv in E as (? & _ & E). by apply Ok_inj in E as <-.
Qed.

Lemma packed_nullifiers (l : list JoinsplitInput) (x0 x1 : bytes) nfs : (nullifier <$> l) = [hex x0; hex x1] →
  mapM (λ i, fromhex (nullifier i)) l = Ok nfs → nfs = [x0; x1].
Proof.
  intros El Em. destruct l as [|a [|b [|c l]]]; [done | done | | done]. cbn [fmap list_fmap] in El. injection El as Ea Eb.
  rewrite !mapM_cons_res, Ea, Eb, !fromhex_hex in Em. by apply Ok_inj in Em.
Qed.

(** Another word is read as a digest as well. *)
Lemma extract_any fe fe' residual i n : _extractBytes32 fe residual i = Ok n → ∃ n', _extractBytes32 fe' residual i = Ok n'.
Proof.
  intros He. unfold _extractBytes32 in *. apply bind_Ok_inv in He as (s & -> & He). cbn [mbind result_bind].
  apply bind_Ok_inv in He as (b & -> & _). cbn [mbind result_bind]. by eexists.
Qed.
End sent.

(** The words that the scenario sends for the values the prover packed. *)
Definition attacked_inputs `{MixerCurve} (r : Z) (v : PublicValues) : list Z :=
  <[4%nat := upper_bits _FIELD_CAPACITY (pv_nf1 v) + r]> (<[3%nat := upper_bits _FIELD_CAPACITY (pv_nf0 v) + r]> (primary_inputs v)).

Section inversion.
Context `{MixerCurve} `{BN128} `{EthAbi} `{NoteCrypto} `{Web3Units}.
Context (Hcap : 240 ≤ _FIELD_CAPACITY < 256).

Lemma bytes32_val x : 0 ≤ x < 2 ^ 256 → int_from_bytes (bytes32 x) = x.
Proof. intros Hx. unfold bytes32. rewrite int_from_to_be. by apply Z.mod_small. Qed.

Lemma double_withdraw_inv get_proof (zeth_client : ZethClient) (keystore : KeyStore) tree zksnark input1 charlie dummy draws p r :
  prover_packs get_proof →
  scalar_field_mod (pairing_parameters (prover_config zeth_client)) = Ok r →
  scalar_field_capacity (pairing_parameters (prover_config zeth_client)) = Ok _FIELD_CAPACITY → r + 2 ^ _FIELD_CAPACITY ≤ 2 ^ 256 →
  double_withdraw_parameters get_proof zeth_client keystore tree zksnark input1 charlie dummy draws = Ok p →
  ∃ v, public_values_ok v ∧ public_data p = attacked_inputs r v ∧
    compute_h_sig [bytes32 (attacked _FIELD_CAPACITY r (pv_nf0 v)); bytes32 (attacked _FIELD_CAPACITY r (pv_nf1 v))] (signature_vk p) =
      Ok (bytes32 (pv_hsig v)).
Proof.
  intros Hpack Hr Hc Hfit E. unfold double_withdraw_parameters in E. rewrite Hr in E. cbn [mbind result_bind] in E.
  rewrite Hc in E. cbn [mbind result_bind] in E.
  unfold scalar_field_capacity in Hc. rewrite Hr in Hc. cbn [mbind result_bind] in Hc. apply bind_Ok_inv in Hc as ([] & Hpos & Hc).
  apply raise_if_Ok, Z.leb_gt in Hpos. apply Ok_inj in Hc.
  assert (2 ^ _FIELD_CAPACITY ≤ r < 2 ^ (_FIELD_CAPACITY + 1)) as Hrange.
  { rewrite <- Hc. pose proof (Z.log2_spec r Hpos). replace (Z.log2 r + 1) with (Z.succ (Z.log2 r)) by lia. done. }
  do 5 apply bind_Ok_inv in E as (? & _ & E).
  apply bind_Ok_inv in E as ([pi [[[[n1 n2] ep] data] kp]] & Hcomp & E). apply bind_Ok_inv in E as (nfs & Hnfs & E).
  apply bind_Ok_inv in E as ([[a3 a4] anfs] & Hattack & E). do 4 apply bind_Ok_inv in E as (? & _ & E).
  apply bind_Ok_inv in E as (data3 & Hs3 & E). apply bind_Ok_inv in E as (data4 & Hs4 & E).
  apply bind_Ok_inv in E as (cts & _ & E). apply bind_Ok_inv in E as (sigma & _ & E). apply Ok_inj in E as <-.
  cbn [public_data signature_vk].
  unfold mix_components in Hcomp. apply bind_Ok_inv in Hcomp as (desc & Hdesc & Hcomp). apply new_mix_call_hsig in Hdesc.
  apply bind_Ok_inv in Hcomp as ([pi' kp'] & Hpi & Hcomp). apply bind_Ok_inv in Hcomp as ([ep' data'] & Hproof & Hcomp).
  do 2 apply bind_Ok_inv in Hcomp as (? & _ & Hcomp). apply Ok_inj in Hcomp. injection Hcomp as -> _ _ -> -> ->.
  destruct (prover_inputs_hsig desc _ pi kp _ Hdesc Hpi) as (nfs' & h & Hnfs' & Hh & Ehsig).
  rewrite Hnfs in Hnfs'. apply Ok_inj in Hnfs' as <-.
  destruct (Hpack pi ep data Hproof) as (v & Hv & -> & Ev & Enf). exists v. split; [done|].
  pose proof (packed_nullifiers _ _ _ _ Enf Hnfs) as ->. rewrite Ev in Ehsig. apply hex_inj in Ehsig as <-.
  pose proof (pvo_words _ Hv) as Hw. rewrite !Forall_cons in Hw. destruct Hw as (_ & _ & _ & Hx0 & Hx1 & _).
  assert (0 < _FIELD_CAPACITY < 256) as Hcap' by lia.
  pose proof (attack_nullifiers_spec _FIELD_CAPACITY r Hcap' Hrange Hfit (bytes32 (pv_nf0 v)) (bytes32 (pv_nf1 v))
    (length_to_be 32 _) (length_to_be 32 _)) as Hspec.
  rewrite !bytes32_val in Hspec by done. unfold compute_h_sig_attack_nf in Hh. rewrite Hspec in Hattack, Hh. cbn [mbind result_bind] in Hh.
  apply Ok_inj in Hattack. injection Hattack as <- <- <-. split; [|exact Hh].
  injection Hs3 as <-. injection Hs4 as <-. reflexivity.
Qed.
End inversion.

(** The bytes and the words of a key. *)
Lemma vk_bytes_words `{BN128} vk ws b : verification_key_as_mix_parameter vk = Ok ws → svk_to_bytes vk = Ok b → b = pack_words ws.
Proof.
  unfold verification_key_as_mix_parameter, svk_to_bytes, g1_to_bytes. intros Ew Eb.
  apply bind_Ok_inv in Ew as ([x0 x1] & Ex & Ew). apply bind_Ok_inv in Ew as ([y0 y1] & Ey & Ew). apply Ok_inj in Ew as <-.
  rewrite Ex, Ey in Eb. cbn [mbind result_bind] in Eb.
  apply bind_Ok_inv in Eb as (p & Ep & Eb). apply bind_Ok_inv in Eb as (s & Es & Eb). apply Ok_inj in Eb as <-.
  apply bind_Ok_inv in Ep as (p0 & E0 & Ep). apply bind_Ok_inv in Ep as (p1 & E1 & Ep). apply Ok_inj in Ep as <-.
  apply bind_Ok_inv in Es as (s0 & E2 & Es). apply bind_Ok_inv in Es as (s1 & E3 & Es). apply Ok_inj in Es as <-.
  unfold pack_words. cbn [mbind list_bind]. rewrite app_nil_r, <- app_assoc.
  apply int_to_bytes_inv in E0 as [-> _], E1 as [-> _], E2 as [-> _], E3 as [-> _]. done.
Qed.

Section refusal.
Context `{MixerCurve} `{EcPrecompiles} (Hcap : 240 ≤ _FIELD_CAPACITY < 256).

(** The nullifiers that the contract reads from the words of the attack. *)
Lemma attacked_inputs_read r v : public_values_ok v →
  (∃ n0 n1, nullifiers_of (attacked_inputs r v) = Ok [n0; n1]) ∧ _assembleHsig (attacked_inputs r v) = Ok (bytes32 (pv_hsig v)).
Proof using Hcap.
  intros Hv. pose proof (assemble_nullifier Hcap v 0 (pv_nf0 v) Hv eq_refl) as E0. pose proof (assemble_nullifier Hcap v 1 (pv_nf1 v) Hv eq_refl) as E1.
  split; [|exact (assemble_hsig Hcap v Hv)].
  destruct (extract_any (low_bits (pv_nf0 v)) (upper_bits _FIELD_CAPACITY (pv_nf0 v) + r)
    (residual_word (pv_in v) (pv_out v) (digests v)) 2 _ E0) as [n0 N0].
  destruct (extract_any (low_bits (pv_nf1 v)) (upper_bits _FIELD_CAPACITY (pv_nf1 v) + r)
    (residual_word (pv_in v) (pv_out v) (digests v)) 3 _ E1) as [n1 N1].
  exists n0, n1. unfold nullifiers_of.
  assert (_assembleNullifier 0 (attacked_inputs r v) = Ok n0) as -> by exact N0. cbn [mbind result_bind].
  assert (_assembleNullifier 1 (attacked_inputs r v) = Ok n1) as -> by exact N1. done.
Qed.

Lemma refuses_hsig d verifier ext msg proof vk sigma data cts st nfs hsig : (∃ v0 v1 v2 v3, vk = [v0; v1; v2; v3]) →
  nullifiers_of data = Ok nfs → _assembleHsig data = Ok hsig → hsig ≠ sha256 (concat nfs ++ pack_words vk) →
  ∃ e, mix d verifier ext msg proof vk sigma data cts st = Err e.
Proof using Type.
  intros (v0 & v1 & v2 & v3 & ->) Hn Hh Hne. destruct (mix d verifier ext msg proof [v0; v1; v2; v3] sigma data cts st) as [o|e] eqn:E; [|by eexists].
  apply mix_checks in E as [(nfs' & st1 & Hc) _]. apply check_spec in Hc as (root & _ & _ & Hn' & _ & _ & Hs & _). congruence.
Qed.
End refusal.

(** ** Properties *)

