(* ===== verification/ScenarioSample.v ===== *)
(** * A concrete node

    A chain of one contract on which the scenarios run, and the theorems about them. *)

From Stdlib Require Import ZArith Lia Ascii String Strings.Byte.
From stdpp Require Import base tactics list gmap strings.
From S2P Require Import Prelude PyStr PyBytes PyFloat PyIO PyState Hashes Constants Utils MerkleTree MerkleTreeFacts Mimc Pairing ZkSnark Signing Encryption Notes Contracts MixerClient MixerFacts Wallet WalletFacts WalletSync Prover Cli Commands SyncCommand ContractTree ContractMixer ContractFacts ContractRuns ContractClient ContractSample Scenario ScenarioFacts ScenarioAttack.

Local Open Scope Z_scope.

Import AbstractMerkleTree(TreeState, contract_inv, require).
Import AbstractMixer.

Module ScenarioSample.
#[local] Existing Instance ToyPrecompiles.curve.
#[local] Existing Instance ToyPrecompiles.curve_laws.
#[local] Existing Instance ToyPrecompiles.precompiles.
#[local] Existing Instance ToyPrecompiles.precompiles_laws.
#[local] Existing Instance ToyCrypto.toy.
#[local] Existing Instance NotesSample.abi.
#[local] Existing Instance NotesSample.abi_laws.
#[local] Existing Instance ContractSample.toy_curve.

(** Whole amounts, and texts with a decimal point. *)
#[local] Instance units : Web3Units := {|
  toWei z u := if decide (u = lit "ether") then Ok (z * 10 ^ 18) else Ok z;
  toWei_str s _ :=
    match split_on "."%char s with
    | [a; b] => x ← int_of_str 10 a; y ← int_of_str 10 b; Ok (x * 10 ^ 18 + y * 10 ^ (18 - zlen b))
    | _ => x ← int_of_str 10 s; Ok (x * 10 ^ 18)
    end;
  fromWei_ether w := str_of_int w
|}.

(** ** The node *)

(** The contract and the events of the last transaction. *)
Definition Chain : Type := MixerState * list LogMix.
Definition verifier := ContractSample.accept.
Definition inst : InstanceDescription := mkInstance (lit "mixer") JNull.

Definition sender_of (desc : TxDesc) : result Z := int_from_bytes <$> eth_address_to_bytes32 (tx_from desc).
Definition msg_of (desc : TxDesc) : Msg := mkMsg (WalletSample.get 0 (sender_of desc)) (default 0 (tx_value desc)) 1.

#[local] Instance web3 : Web3 Chain := {|
  gasPrice _ := Ok 1;
  getTransactionCount _ _ := Ok 0;
  signTransaction _ _ _ _ _ _ := Err ValueError;
  sendRawTransaction _ c := (Err ValueError, c);
  transact call desc c :=
    match call with
    | Commands.MixCall _ (proof, vk, sigma, inputs, cts) =>
        match sender_of desc with
        | Ok _ => match mix 2 verifier ContractSample.ext (msg_of desc) proof vk sigma inputs cts c.1 with
                  | Ok (st, log, _) => (Ok [], (st, [log]))
                  | Err _ => (Err ValueError, c)
                  end
        | Err e => (Err e, c)
        end
    | _ => (Err ValueError, c)
    end;
  call_locally _ _ _ := Ok tt;
  waitForTransactionReceipt _ c := (Err ValueError, c)
|}.

#[local] Instance receipts : Receipts Chain LogMix := {|
  receipt_logs _ c := (Ok c.2, c);
  log_address _ := inst_address inst;
  log_topics _ := [lit "LogMix"];
  processLog log := Ok (event_of log);
  mix_topic := lit "LogMix"
|}.

Lemma sender_bytes a b : eth_address_to_bytes32 a = Ok b → bytes32 (int_from_bytes b) = b.
Proof.
  intros E. assert (length b = 32%nat) as Hl; [|unfold bytes32; rewrite <- Hl; apply to_be_from_bytes].
  unfold eth_address_to_bytes32 in E. apply bind_Ok_inv in E as (c & _ & E). unfold extend_32bytes in E.
  apply bind_Ok_inv in E as ([] & Hc%py_assert_Ok%Z.leb_le & E). apply Ok_inj in E as <-.
  unfold zlen in Hc. rewrite length_app, length_zero_bytes. lia.
Qed.

#[local, refine] Instance node : MixerNode 2 verifier inst := {| mixer_state := fst |}.
Proof.
  - intros proof vk sigma inputs cts desc c. unfold transact, web3. destruct (sender_of desc) as [w|e] eqn:Es; [|by left].
    destruct (mix 2 verifier ContractSample.ext (msg_of desc) proof vk sigma inputs cts c.1) as [[[st log] acts]|e] eqn:Em; [|by left].
    right. exists [], (msg_of desc), ContractSample.ext, st, log, acts. split_and!; try done.
    unfold sender_word, msg_of. rewrite Es. cbn [msg_sender WalletSample.get]. unfold sender_of in Es.
    destruct (eth_address_to_bytes32 (tx_from desc)) as [b|] eqn:Eb; [|done]. apply Ok_inj in Es as <-.
    by rewrite (sender_bytes _ _ Eb).
  - done.
Defined.

#[local, refine] Instance runs : MixerNodeRuns 2 verifier inst :=
  {| node_msg := λ desc _, msg_of desc; node_ext := λ _, ContractSample.ext |}.
Proof.
  intros proof vk sigma inputs cts desc c st log acts Hs Hm. exists [], (st, [log]). split_and!; try done.
  unfold transact, web3. unfold sender_of. rewrite Hs. cbn [fmap result_fmap]. cbn [mixer_state node] in Hm. by rewrite Hm.
Defined.

(** ** The deposit of Bob *)

Definition b32 (z : Z) : bytes := to_be 32 z.
Definition pp : PairingParameters :=
  mkPairing (lit "alt-bn128") (hex_of_int ALT_BN128_R) (hex_of 2 257) (g1_of 2 (1, 2)) (g2_of 2 ([3], [4])).
Definition client : ZethClient := mkZethClient inst (mkProverConfig GROTH16_ZKSNARK pp).
Definition address (a : Z) : ZethAddress :=
  mkAddr (mkAddrPub (b32 a) ToyCrypto.p7) (mkAddrPriv (b32 (a + 1)) ToyCrypto.k7).
Definition keystore : KeyStore := [(lit "Alice", address 10); (lit "Bob", address 20); (lit "Charlie", address 30)].
Definition bob : str := MixerSample.eth.
Definition charlie : str := lit "0x3344556677889900112233445566778899aabbcc".
Definition charlie_word : Z := 0x3344556677889900112233445566778899aabbcc.

Definition mix_draws : MixDraws := mkMixDraws (λ _, ([], [])) ToyCrypto.k5 MixerSample.rand (λ _, ToyCrypto.k5).
Definition draws : CorruptDraws :=
  mkCorruptDraws ((b32 1, b32 2), (b32 3, b32 4)) mix_draws (b32 5, b32 7) (b32 7, b32 8) ([Byte.x02], [Byte.x04]).

(** The prover proves for the values of [deposited]. *)
Definition kp : SigningKeyPair := ContractSample.kp.
Definition kp' : SigningKeyPair := Eval vm_compute in WalletSample.get kp (gen_signing_keypair [Byte.x02] [Byte.x04]).
Definition hsig : Z := ContractSample.hsig.
Definition deposited : PublicValues :=
  mkPublicValues ContractSample.root0 101 102 ContractSample.nf0 7 hsig 8 9 (200 * 10 ^ 6) 0.
Definition get_proof (_ : ProofInputs) : result (ExtendedProof * list Z) := Ok (MixerSample.a_proof, primary_inputs deposited).
Definition pf : list Z := Eval vm_compute in WalletSample.get [] (proof_to_contract_parameters Groth16_provider (ZkSnark.proof MixerSample.a_proof) pp).
Definition tree2 : MerkleTree := WalletSample.tree0 2.

Definition deposit_ciphertexts : list bytes := Eval vm_compute in
  match intercepted_deposit get_proof keystore tree2 draws with Ok (_, _, _, cts) => cts | Err _ => [] end.

Lemma intercepted_ok :
  intercepted_deposit get_proof keystore tree2 draws = Ok (MixerSample.a_proof, primary_inputs deposited, kp, deposit_ciphertexts).
Proof. vm_compute. reflexivity. Qed.

Lemma deposited_ok : public_values_ok deposited.
Proof.
  split; [|cbn; lia|cbn; lia]. apply (pvo_words ContractSample.values ContractSample.values_ok).
Qed.

(** The challenges of what is signed and of what is sent. *)
Definition fake : list bytes := [(cd_fake draws).1; (cd_fake draws).2].
Lemma challenge_fake :
  contract_challenge [5; 6; 3; 4] (signed_message (bytes32 charlie_word) fake pf (primary_inputs deposited)) mod curve_order ≠
  contract_challenge [5; 6; 3; 4] (signed_message (bytes32 charlie_word) deposit_ciphertexts pf (primary_inputs deposited)) mod curve_order.
Proof. apply (bool_decide_unpack _). vm_compute. exact I. Qed.
Lemma challenge_sender :
  contract_challenge [5; 6; 3; 4] (signed_message (bytes32 charlie_word) deposit_ciphertexts pf (primary_inputs deposited)) mod curve_order ≠
  contract_challenge [5; 6; 3; 4] (signed_message (bytes32 ContractSample.sender) deposit_ciphertexts pf (primary_inputs deposited)) mod curve_order.
Proof. apply (bool_decide_unpack _). vm_compute. exact I. Qed.
Lemma other_key :
  sha256 (concat [bytes32 (pv_nf0 deposited); bytes32 (pv_nf1 deposited)] ++ pack_words [2; 3; 4; 5]) ≠
  sha256 (concat [bytes32 (pv_nf0 deposited); bytes32 (pv_nf1 deposited)] ++ pack_words [5; 6; 3; 4]).
Proof. apply (bool_decide_unpack _). vm_compute. exact I. Qed.

Lemma prime_7 : Z.prime 7.
Proof.
  split; [lia|]. intros n Hn [k Hk]. assert (n = 2 ∨ n = 3 ∨ n = 4 ∨ n = 5 ∨ n = 6) as H by lia.
  destruct H as [->|[->|[->|[->| ->]]]]; lia.
Qed.

Lemma deposit_ready st : new_mixer 2 2 0 [] 0 (0, 0) = Ok st →
  ready 2 verifier ContractSample.ext [] st (mkMsg ContractSample.sender (200 * 10 ^ 18) 1) pf deposited.
Proof.
  intros E. destruct (new_mixer_inv 2 0 [] 0 (0, 0)) as (st' & E' & Hinv & Hc). change (Z.of_nat 2) with 2 in E'.
  rewrite E in E'. apply Ok_inj in E' as <-. unfold config in Hc. injection Hc as _ Ht _ _.
  split; try done.
  - apply Hinv.
  - apply (mi_roots _ _ _ Hinv). exists 0%nat. split; [done|]. by vm_compute.
  - intros Hn%(mi_nullifiers _ _ _ Hinv). by apply elem_of_nil in Hn.
  - intros Hn%(mi_nullifiers _ _ _ Hinv). by apply elem_of_nil in Hn.
Qed.


(** ** The second withdrawal *)

(** The number in a text of 64 digits, which is the text of that digest. *)
Definition digest_of (s : str) : result Z :=
  b ← fromhex s;
  _ ← py_assert (bool_decide (length b = 32%nat ∧ hex b = s));
  Ok (int_from_bytes b).

(** A prover that packs the nullifiers and h_sig of its inputs. *)
Definition packing_prover (inputs : ProofInputs) : result (ExtendedProof * list Z) :=
  match js_inputs inputs with
  | [i0; i1] =>
      nf0 ← digest_of (nullifier i0);
      nf1 ← digest_of (nullifier i1);
      h ← digest_of (pi_h_sig inputs);
      Ok (MixerSample.a_proof, primary_inputs (mkPublicValues ContractSample.root0 101 102 nf0 nf1 h 8 9 0 10500000))
  | _ => Err ValueError
  end.

Lemma digest_of_spec s x : digest_of s = Ok x → s = hex (bytes32 x) ∧ uint256 x.
Proof.
  intros E. unfold digest_of in E. apply bind_Ok_inv in E as (b & _ & E).
  apply bind_Ok_inv in E as ([] & [Hl <-]%py_assert_Ok%bool_decide_eq_true & E). apply Ok_inj in E as <-.
  pose proof (int_from_bytes_bound b) as Hb. unfold zlen in Hb. rewrite Hl in Hb. split; [|exact Hb].
  unfold bytes32. rewrite <- Hl. by rewrite to_be_from_bytes.
Qed.

Lemma packing_prover_packs : prover_packs packing_prover.
Proof.
  intros inputs ep data E. unfold packing_prover in E. destruct (js_inputs inputs) as [|i0 [|i1 [|]]]; [done | done | | done].
  apply bind_Ok_inv in E as (nf0 & [E0 H0]%digest_of_spec & E). apply bind_Ok_inv in E as (nf1 & [E1 H1]%digest_of_spec & E).
  apply bind_Ok_inv in E as (h & [Eh Hh]%digest_of_spec & E). apply Ok_inj in E. injection E as _ <-.
  eexists. split; [|split; [reflexivity|]]; cbn [fmap list_fmap pv_hsig pv_nf0 pv_nf1].
  - split; [|cbn; lia|cbn; lia]. unfold ContractSample.root0. cbn [pv_root pv_cm0 pv_cm1 pv_nf0 pv_nf1 pv_hsig pv_h0 pv_h1].
    repeat (apply Forall_cons; split; [first [assumption | unfold uint256; lia]|]). by apply Forall_nil.
  - by rewrite E0, E1, Eh.
Qed.

Definition withdraw_input : Z * ZethNote := (0, MixerSample.a_note 1).
Definition dummy : Dummy := (b32 1, b32 2).
Definition withdraw_params : MixParameters := Eval vm_compute in
  WalletSample.get (mkMixParameters MixerSample.a_proof [] (kp_vk kp) 0 [])
    (double_withdraw_parameters packing_prover client keystore tree2 Groth16_provider withdraw_input charlie dummy mix_draws).

Lemma withdraw_params_ok :
  double_withdraw_parameters packing_prover client keystore tree2 Groth16_provider withdraw_input charlie dummy mix_draws = Ok withdraw_params.
Proof. vm_compute. reflexivity. Qed.

End ScenarioSample.
