(* ===== verification/R1cs.v ===== *)
(** * The analyser of constraint systems ([debug/analyzer/parse_r1cs.py])

    The queries over the JSON form of a constraint system.  Indices of wires and
    annotations are read as texts, as the comments of the source describe the file;
    [re.search] is a parameter. *)

From Stdlib Require Import ZArith Lia Ascii String.
From stdpp Require Import base tactics list strings.
From S2P Require Import Prelude PyStr PyBytes PyIO Cli.

Local Open Scope Z_scope.

(** The index of a wire of an entry of the annotations or of a linear combination. *)
Definition entry_index (entry : json) : result str := j ← jget (lit "index") entry; as_str j.

(** [None] when the loop ends without an answer. *)
Fixpoint get_index (annotation_set : list json) (annotation : str) : result (option str) :=
  match annotation_set with
  | [] => Ok None
  | entry :: annotation_set =>
      a ← jget (lit "annotation") entry; a ← as_str a;
      if decide (a = annotation) then Some <$> entry_index entry else get_index annotation_set annotation
  end.

(** No wire is in a combination when the index is [None]. *)
Fixpoint is_in_lin_comb (linear_combination : list json) (annotation_index : option str) : result bool :=
  match linear_combination with
  | [] => Ok false
  | term :: linear_combination =>
      i ← entry_index term;
      if decide (Some i = annotation_index) then Ok true else is_in_lin_comb linear_combination annotation_index
  end.

(** The three combinations of a constraint, all of which are searched. *)
Definition lin_comb (name : string) (constraint : json) : result (list json) :=
  lc ← jget (lit "linear_combination") constraint; l ← jget (lit name) lc; as_list l.

Definition uses_wire (annotation_index : option str) (constraint : json) : result bool :=
  lin_com_a ← lin_comb "A" constraint; lin_com_b ← lin_comb "B" constraint; lin_com_c ← lin_comb "C" constraint;
  found_in_a ← is_in_lin_comb lin_com_a annotation_index;
  found_in_b ← is_in_lin_comb lin_com_b annotation_index;
  found_in_c ← is_in_lin_comb lin_com_c annotation_index;
  Ok (found_in_a || found_in_b || found_in_c).

(** The loop of both queries: the identifiers of the constraints that a test accepts. *)
Fixpoint constraint_ids (test : json → result bool) (constraints_set : list json) : result (list json) :=
  match constraints_set with
  | [] => Ok []
  | constraint :: constraints_set =>
      hit ← test constraint;
      if (hit : bool) then
        i ← jget (lit "constraint_id") constraint;
        ids ← constraint_ids test constraints_set;
        Ok (i :: ids)
      else constraint_ids test constraints_set
  end.

Definition get_constraints (constraints_set : list json) (annotation_index : option str) : result (list json) :=
  constraint_ids (uses_wire annotation_index) constraints_set.

Section regex.
(** [re.search(pattern, text) is not None]; it raises for a malformed pattern. *)
Context (re_search : str → str → result bool).

Definition matches_annotation (annotation_pattern : str) (constraint : json) : result bool :=
  a ← jget (lit "constraint_annotation") constraint; a ← as_str a; re_search annotation_pattern a.

Definition get_constraints_from_annotation_pattern (constraints_set : list json) (annotation_pattern : str)
    : result (list json) :=
  constraint_ids (matches_annotation annotation_pattern) constraints_set.

(** What the script computes: the two numbers of its first line, the index of the
    annotation and the constraints of the two queries. *)
Definition analyze (env : list (str * str)) (m : fs) : result (json * json * option str * list json * list json) :=
  path_zeth ← of_option KeyError (assoc (lit "ZETH_DEBUG_DIR") env);
  r1cs_obj ← read_json (path_join path_zeth (lit "r1cs.json")) m;
  r1cs_variables_nb ← jget (lit "num_variables") r1cs_obj;
  _ ← jget (lit "num_constraints") r1cs_obj;
  j ← jget (lit "variables_annotations") r1cs_obj; variables_annotations_set ← as_list j;
  j ← jget (lit "constraints") r1cs_obj; constraints_set ← as_list j;
  annotation_index ← get_index variables_annotations_set (lit "joinsplit_gadget phi bits_31");
  constraints_using_annotation ← get_constraints constraints_set annotation_index;
  res ← get_constraints_from_annotation_pattern constraints_set (lit "rho");
  Ok (r1cs_variables_nb, r1cs_variables_nb, annotation_index, constraints_using_annotation, res).
End regex.

(** ** Well-formed files *)

(** A constraint: its identifier, its annotation and the wires of its combinations with
    their coefficients. *)
Record Constraint : Type := mkConstraint {
  constraint_id : Z; constraint_annotation : str;
  wires_a : list (str * str); wires_b : list (str * str); wires_c : list (str * str)
}.

Definition term_json (t : str * str) : json := JDict [(lit "index", JStr t.1); (lit "value", JStr t.2)].
Definition constraint_json (c : Constraint) : json :=
  JDict [ (lit "constraint_id", JInt (constraint_id c)); (lit "constraint_annotation", JStr (constraint_annotation c));
          (lit "linear_combination", JDict [ (lit "A", JList (term_json <$> wires_a c));
                                             (lit "B", JList (term_json <$> wires_b c));
                                             (lit "C", JList (term_json <$> wires_c c)) ]) ].
Definition annotation_json (a : str * str) : json := JDict [(lit "index", JStr a.1); (lit "annotation", JStr a.2)].

(** The wires of a constraint. *)
Definition wires (c : Constraint) : list str := (wires_a c ++ wires_b c ++ wires_c c).*1.

Lemma is_in_lin_comb_spec ts i : is_in_lin_comb (term_json <$> ts) (Some i) = Ok (bool_decide (i ∈ ts.*1)).
Proof.
  induction ts as [|t ts IH]; [done|]. cbn [fmap list_fmap is_in_lin_comb].
  change (entry_index (term_json t)) with (Ok t.1). cbn [mbind result_bind].
  destruct (decide (Some t.1 = Some i)) as [E|E].
  - apply (inj Some) in E as <-. rewrite bool_decide_true by by left. done.
  - fold (term_json <$> ts). rewrite IH. f_equal. apply bool_decide_ext. rewrite elem_of_cons. naive_solver.
Qed.

Lemma is_in_no_comb ts : is_in_lin_comb (term_json <$> ts) None = Ok false.
Proof. induction ts as [|t ts IH]; [done | exact IH]. Qed.

Lemma uses_wire_spec i c : uses_wire (Some i) (constraint_json c) = Ok (bool_decide (i ∈ wires c)).
Proof.
  unfold uses_wire. change (lin_comb "A" (constraint_json c)) with (Ok (term_json <$> wires_a c)).
  change (lin_comb "B" (constraint_json c)) with (Ok (term_json <$> wires_b c)).
  change (lin_comb "C" (constraint_json c)) with (Ok (term_json <$> wires_c c)). cbn [mbind result_bind].
  rewrite !is_in_lin_comb_spec. cbn [mbind result_bind]. f_equal. unfold wires. rewrite !fmap_app.
  rewrite <- !bool_decide_or. apply bool_decide_ext. rewrite !elem_of_app. naive_solver.
Qed.

Lemma uses_no_wire c : uses_wire None (constraint_json c) = Ok false.
Proof.
  unfold uses_wire. change (lin_comb "A" (constraint_json c)) with (Ok (term_json <$> wires_a c)).
  change (lin_comb "B" (constraint_json c)) with (Ok (term_json <$> wires_b c)).
  change (lin_comb "C" (constraint_json c)) with (Ok (term_json <$> wires_c c)). cbn [mbind result_bind].
  by rewrite !is_in_no_comb.
Qed.

(** The loop is a filter. *)
Lemma constraint_ids_spec test (p : Constraint → Prop) `{!∀ c, Decision (p c)} cs :
  (∀ c, c ∈ cs → test (constraint_json c) = Ok (bool_decide (p c))) →
  constraint_ids test (constraint_json <$> cs) = Ok (JInt ∘ constraint_id <$> filter p cs).
Proof.
  induction cs as [|c cs IH]; intros Ht; [done|]. cbn [fmap list_fmap constraint_ids].
  rewrite Ht by by left. cbn [mbind result_bind]. rewrite filter_cons.
  fold (constraint_json <$> cs). rewrite IH by (intros; apply Ht; by right). by case_bool_decide; case_decide.
Qed.

(** The analyser answers what the file says.  The index of an annotation is that of
    its first entry; the constraints found for a wire are those one of whose linear
    combinations has it, in the order of the file, none of them for a missing
    annotation; those found for a pattern are those whose annotation it matches. *)
Theorem analyzer_queries (re_search : str → str → result bool) (annotations : list (str * str)) (cs : list Constraint)
  (annotation pattern : str) (found : str → bool) (Hre : ∀ a, re_search pattern a = Ok (found a)) :
  get_index (annotation_json <$> annotations) annotation = Ok (fst <$> head (filter (λ a, a.2 = annotation) annotations)) ∧
  (∀ i, get_constraints (constraint_json <$> cs) (Some i) = Ok (JInt ∘ constraint_id <$> filter (λ c, i ∈ wires c) cs)) ∧
  get_constraints (constraint_json <$> cs) None = Ok [] ∧
  get_constraints_from_annotation_pattern re_search (constraint_json <$> cs) pattern =
    Ok (JInt ∘ constraint_id <$> filter (λ c, found (constraint_annotation c)) cs).
Proof.
  split_and!.
  - induction annotations as [|a l IH]; [done|]. cbn [fmap list_fmap get_index].
    change (jget (lit "annotation") (annotation_json a)) with (Ok (JStr a.2)). cbn [mbind result_bind as_str].
    rewrite filter_cons. case_decide; [done | exact IH].
  - intros i. apply constraint_ids_spec. intros c _. apply uses_wire_spec.
  - unfold get_constraints. induction cs as [|c cs' IH]; [done|]. cbn [fmap list_fmap constraint_ids].
    rewrite uses_no_wire. exact IH.
  - apply constraint_ids_spec. intros c _. unfold matches_annotation.
    change (jget (lit "constraint_annotation") (constraint_json c)) with (Ok (JStr (constraint_annotation c))).
    cbn [mbind result_bind as_str]. rewrite Hre. by destruct (found _).
Qed.

(** ** A concrete file *)

Module R1csSample.
Definition contains (pattern text : str) : result bool :=
  Ok (existsb (λ k, startswith pattern (drop k text)) (seq 0 (S (length text)))).
Definition annotations : list (str * str) := [(lit "2", lit "phi bits_30"); (lit "3", lit "phi bits_31"); (lit "4", lit "rho")].
Definition system : list Constraint :=
  [mkConstraint 0 (lit "rho bits") [(lit "3", lit "0x1")] [(lit "2", lit "0x1")] [];
   mkConstraint 1 (lit "phi") [] [] [(lit "4", lit "0x2")];
   mkConstraint 2 (lit "sum rho") [(lit "4", lit "0x1")] [] [(lit "3", lit "0x1")]].

Lemma analyzer_queries_witness :
  get_index (annotation_json <$> annotations) (lit "phi bits_31") = Ok (Some (lit "3")) ∧
  get_constraints (constraint_json <$> system) (Some (lit "3")) = Ok [JInt 0; JInt 2] ∧
  get_constraints_from_annotation_pattern contains (constraint_json <$> system) (lit "rho") = Ok [JInt 0; JInt 2].
Proof.
  destruct (analyzer_queries contains annotations system (lit "phi bits_31") (lit "rho")
    (λ a, existsb (λ k, startswith (lit "rho") (drop k a)) (seq 0 (S (length a))))) as (E1 & E2 & _ & E3); [reflexivity|].
  split; [rewrite E1; reflexivity|]. split; [rewrite E2; reflexivity | rewrite E3; reflexivity].
Defined.
End R1csSample.
