(* ===== verification/VerifierAltBN128.v ===== *)
(** * The Groth16 verifier of alt-bn128 ([LibGroth16AltBN128.sol], [MixerGroth16AltBN128.sol])

    The memory of the machine as the verifiers use it, and the first of them.  The assembly
    of the Groth16 libraries is kept as it is written: a scratch pad of memory
    words, stores at byte offsets, loads from the storage of the verification key and calls
    that overwrite the pad in place and report success.  The machine's precompiled contracts
    are not in the sources: they are the fields of a class, from words to words, where [None]
    is a failed call.  Gas is not modelled. *)

From Stdlib Require Import ZArith Lia Ascii String Strings.Byte.
From stdpp Require Import base tactics list gmap strings.
From S2P Require Import Prelude PyStr PyBytes PyFloat PyIO Hashes Constants MerkleTree Mimc Pairing ZkSnark Signing ContractTree ContractMixer.

Local Open Scope Z_scope.

Import AbstractMerkleTree(Panic, require, usub).

(** The precompiled contracts for addition and multiplication in G1 and for the product of
    pairings: from the words of the input to those of the output. *)
Class Precompiles := {
  pc_add : list Z → option (list Z);
  pc_mul : list Z → option (list Z);
  pc_pairing : list Z → option (list Z)
}.

(** The same precompiles as the signature verifier sees them. *)
#[export] Instance ec_of_precompiles `{Precompiles} : EcPrecompiles := {|
  ecAdd p q := match pc_add [p.1; p.2; q.1; q.2] with Some [x; y] => Some (x, y) | _ => None end;
  ecMul p k := match pc_mul [p.1; p.2; k] with Some [x; y] => Some (x, y) | _ => None end
|}.

(** ** Memory and storage *)

(** Memory from the start of the pad, in words; it grows with zeros. *)
Definition mstore (off v : Z) (m : list Z) : list Z :=
  let i := Z.to_nat (off / 32) in
  <[i := v]> (m ++ replicate (S i - length m) 0).

Definition mstores (l : list (Z * Z)) (m : list Z) : list Z := foldl (λ m '(off, v), mstore off v m) m l.

(** The words of the memory from a byte offset, for a size in bytes. *)
Definition mread (off size : Z) (m : list Z) : list Z :=
  (λ i, default 0 (m !! (Z.to_nat (off / 32) + i)%nat)) <$> seq 0 (Z.to_nat (size / 32)).

Fixpoint mwrite (off : Z) (ws : list Z) (m : list Z) : list Z :=
  match ws with [] => m | w :: ws => mwrite (off + 32) ws (mstore off w m) end.

(** [call(g, _, 0, off, size, out, outsize)]: whether it succeeded, and the memory after it. *)
Definition call (f : list Z → option (list Z)) (off size out outsize : Z) (m : list Z) : bool * list Z :=
  match f (mread off size m) with
  | Some ws => (true, mwrite out (take (Z.to_nat (outsize / 32)) ws) m)
  | None => (false, m)
  end.

(** A slot of the storage of a dynamic array, relative to its first; slots never written
    hold zero. *)
Definition sload (arr : list Z) (slot : Z) : Z := default 0 (arr !! Z.to_nat slot).

(** A word of an array in memory, by its byte offset after the length. *)
Definition mload (arr : list Z) (off : Z) : Z := default 0 (arr !! Z.to_nat (off / 32)).

(** ** Groth16 over alt-bn128 *)

Module LibGroth16AltBN128.
Definition _PRIME_R : Z := 21888242871839275222246405745257275088548364400416034343698204186575808495617.

Fixpoint inputs_in_field (input : list Z) : result unit :=
  match input with
  | [] => Ok tt
  | x :: input => _ ← require (x <? _PRIME_R) "Input is not in scalar field"; inputs_in_field input
  end.

Section verify.
Context `{Precompiles}.

(** The loop over the inputs, from slot [abc_slot_num]. *)
Fixpoint abc_loop (vk input : list Z) (abc_slot_num : Z) (pad : list Z) (success : bool) : list Z * bool :=
  match input with
  | [] => (pad, success)
  | x :: input =>
      let pad := mstores [ (0x40, sload vk abc_slot_num); (0x60, sload vk (abc_slot_num + 1)); (0x80, x) ] pad in
      let '(s1, pad) := call pc_mul 0x40 0x60 0x40 0x40 pad in
      let '(s2, pad) := call pc_add 0x00 0x80 0x00 0x40 pad in
      abc_loop vk input (abc_slot_num + 2) pad (success && (s1 && s2))
  end.

(** The stores of the second block. *)
Definition pairing_stores (vk proof : list Z) : list (Z * Z) :=
  [ (0x040, 0x198e9393920d483a7260bfb731fb5d25f1aa493335a9e71297e485b7aef312c2);
    (0x060, 0x1800deef121f1e76426a00665e5c4479674322d4f75edadd46debd5cd992f6ed);
    (0x080, 0x275dc4a288d1afb3cbb1ac09187524c7db36395df7be3b99e673b13a075a65ec);
    (0x0a0, 0x1d9befcd05a5323e6da4d435f3b617cdb3af83285c2df711ef39c01571827f9d);
    (0x0c0, sload vk 0); (0x0e0, sload vk 1);
    (0x100, sload vk 2); (0x120, sload vk 3); (0x140, sload vk 4); (0x160, sload vk 5);
    (0x180, mload proof 0); (0x1a0, mload proof 0x20);
    (0x1c0, mload proof 0x40); (0x1e0, mload proof 0x60); (0x200, mload proof 0x80); (0x220, mload proof 0xa0);
    (0x240, mload proof 0xc0); (0x260, mload proof 0xe0);
    (0x280, sload vk 6); (0x2a0, sload vk 7); (0x2c0, sload vk 8); (0x2e0, sload vk 9) ].

Definition _verify (vk proof input : list Z) : result bool :=
  _ ← require (zlen proof =? 8) "Proof size invalid (ALT-BN128)";
  d ← usub (zlen vk) 0x0a;
  numInputs ← usub (d / 2) 1;
  _ ← require (zlen input =? numInputs) "Input length differs from expected";
  _ ← inputs_in_field input;
  let pad := mstores [ (0, sload vk 0x0a); (0x20, sload vk 0x0b) ] (replicate 24 0) in
  let '(pad, success) := abc_loop vk input 0x0c pad true in
  _ ← require success "Call to the bn256Add or bn256ScalarMul precompiled failed";
  let pad := mstores (pairing_stores vk proof) pad in
  let '(success, pad) := call pc_pairing 0 0x300 0 0x20 pad in
  _ ← require success "Call to bn256Add, bn256ScalarMul or bn256Pairing failed";
  Ok (bool_decide (pad !! 0%nat = Some 1)).
End verify.
End LibGroth16AltBN128.

Module MixerGroth16AltBN128.
Definition _verifyZkProof `{Precompiles} (_vk proof : list Z) (publicInputsHash : Z) : result bool :=
  LibGroth16AltBN128._verify _vk proof [publicInputsHash].
End MixerGroth16AltBN128.
