(* ===== verification/VerifierBLS.v ===== *)
(** * The Groth16 verifier of BLS12-377 ([LibGroth16BLS12_377.sol], [MixerGroth16BLS12_377.sol])

    The same scheme on points of four words, with the memory of [VerifierAltBN128.v].  The
    flags of the calls are computed and dropped as in the source. *)

From Stdlib Require Import ZArith Lia Ascii String Strings.Byte.
From stdpp Require Import base tactics list gmap strings.
From S2P Require Import Prelude PyStr PyBytes PyFloat PyIO Hashes Constants MerkleTree Mimc Pairing ZkSnark Signing ContractTree ContractMixer VerifierAltBN128.

Local Open Scope Z_scope.

Import AbstractMerkleTree(Panic, require, usub).

Module LibGroth16BLS12_377.
Section verify.
Context `{Precompiles}.

(** The loop over the inputs.  The flag is computed as in the source. *)
Fixpoint abc_loop (vk inputs : list Z) (abc_slot_num : Z) (pad : list Z) (result : bool) : list Z * bool :=
  match inputs with
  | [] => (pad, result)
  | x :: inputs =>
      let pad := mstores
        [ (0x080, sload vk abc_slot_num); (0x0a0, sload vk (abc_slot_num + 1));
          (0x0c0, sload vk (abc_slot_num + 2)); (0x0e0, sload vk (abc_slot_num + 3)); (0x100, x) ] pad in
      let '(s1, pad) := call pc_mul 0x080 0xa0 0x080 0x80 pad in
      let '(s2, pad) := call pc_add 0x000 0x100 0x000 0x080 pad in
      abc_loop vk inputs (abc_slot_num + 4) pad (result && (s1 && s2))
  end.

Definition pairing_stores (vk proof : list Z) : list (Z * Z) :=
  [ (0x080, 0x0000000000000000000000000000000000d6ac33b84947d9845f81a57a136bfa);
    (0x0a0, 0x326e915fabc8cd6a57ff133b42d00f62e4e1af460228cd5184deae976fa62596);
    (0x0c0, 0x0000000000000000000000000000000000b997fef930828fe1b9e6a1707b8aa5);
    (0x0e0, 0x08a3dbfd7fe2246499c709226a0a6fef49f85b3a375363f4f8f6ea3fbd159f8a);
    (0x100, 0x00000000000000000000000000000000002933c9ab1da3519734bb7d40c74f7c);
    (0x120, 0x96f7cd46d372c68a05fbe4f5d29d09ebac0fdae50f6dde73818058280cc85ff1);
    (0x140, 0x0000000000000000000000000000000000955cf57c9676d751f0b5431b46efdd);
    (0x160, 0x5ea49e8f219e8b28d7bbd2176e29c49caa767e18b569d34dd5c5880f834819df);
    (0x180, sload vk 0); (0x1a0, sload vk 1); (0x1c0, sload vk 2); (0x1e0, sload vk 3);
    (0x200, sload vk 4); (0x220, sload vk 5); (0x240, sload vk 6); (0x260, sload vk 7);
    (0x280, sload vk 8); (0x2a0, sload vk 9); (0x2c0, sload vk 10); (0x2e0, sload vk 11);
    (0x300, mload proof 0); (0x320, mload proof 0x020); (0x340, mload proof 0x040); (0x360, mload proof 0x060);
    (0x380, mload proof 0x080); (0x3a0, mload proof 0x0a0); (0x3c0, mload proof 0x0c0); (0x3e0, mload proof 0x0e0);
    (0x400, mload proof 0x100); (0x420, mload proof 0x120); (0x440, mload proof 0x140); (0x460, mload proof 0x160);
    (0x480, mload proof 0x180); (0x4a0, mload proof 0x1a0); (0x4c0, mload proof 0x1c0); (0x4e0, mload proof 0x1e0);
    (0x500, sload vk 0x0c); (0x520, sload vk 0x0d); (0x540, sload vk 0x0e); (0x560, sload vk 0x0f);
    (0x580, sload vk 0x10); (0x5a0, sload vk 0x11); (0x5c0, sload vk 0x12); (0x5e0, sload vk 0x13) ].

(** The pad when the pairing is called. *)
Definition pairing_pad (vk proof inputs : list Z) : list Z :=
  let pad := mstores
    [ (0, sload vk 0x14); (0x20, sload vk 0x15); (0x40, sload vk 0x16); (0x60, sload vk 0x17) ] (replicate 24 0) in
  let '(pad, _) := abc_loop vk inputs 0x18 pad true in
  mstores (pairing_stores vk proof) pad.

(** Neither the flag of the loop nor that of the last call is looked at. *)
Definition _verify (vk proof inputs : list Z) : result bool :=
  _ ← require (zlen proof =? 0x10) "Proof size invalid (BLS12-377)";
  d ← usub (zlen vk) 0x14;
  num_inputs ← usub (d / 4) 1;
  _ ← require (zlen inputs =? num_inputs) "Input length differs from expected";
  let '(_, pad) := call pc_pairing 0 0x600 0 0x20 (pairing_pad vk proof inputs) in
  Ok (bool_decide (pad !! 0%nat = Some 1)).
End verify.
End LibGroth16BLS12_377.

Module MixerGroth16BLS12_377.
Definition _verifyZkProof `{Precompiles} (_vk proof : list Z) (publicInputsHash : Z) : result bool :=
  LibGroth16BLS12_377._verify _vk proof [publicInputsHash].
End MixerGroth16BLS12_377.
