(* ===== verification/VerifierPghr13.v ===== *)
(** * The PGHR13 verifier of alt-bn128 ([LibPairing.sol], [MixerPghr13AltBN128.sol])

    The pairing utilities, with their structures of points, and the mixer that uses them. *)

From Stdlib Require Import ZArith Lia Ascii String Strings.Byte.
From stdpp Require Import base tactics list gmap strings.
From S2P Require Import Prelude PyStr PyBytes PyFloat PyIO Hashes Constants MerkleTree Mimc Pairing ZkSnark Signing ContractTree ContractMixer VerifierAltBN128.

Local Open Scope Z_scope.

Import AbstractMerkleTree(Panic, require, usub).
Import AbstractMixer(word_at).

(** ** Pairing utilities *)

Module LibPairing.
Record G1Point : Type := mkG1Point { X : Z; Y : Z }.
Record G2Point : Type := mkG2Point { X0 : Z; X1 : Z; Y0 : Z; Y1 : Z }.

Definition _genG1 : G1Point := mkG1Point 1 2.
Definition _genG2 : G2Point := mkG2Point
  11559732032986387107991004021392285783925812861821192530917403151452391805634
  10857046999023057135944570762232829481370756359578518086990519993285655852781
  4082367875863433681332203403145435568316851327593401208105741076214120093531
  8495653923123431417604973247489272438418190587263600148770280649306958101930.

Definition q : Z := 21888242871839275222246405745257275088696311157297823662689037894645226208583.

Definition _negateG2 (p : G1Point) : G1Point :=
  if (X p =? 0) && (Y p =? 0) then mkG1Point 0 0 else mkG1Point (X p) (q - Y p mod q).

Section calls.
Context `{Precompiles}.

(** The words a call writes over a zeroed result. *)
Definition out_point (ws : list Z) : G1Point := mkG1Point (default 0 (ws !! 0%nat)) (default 0 (ws !! 1%nat)).

Definition _addG1 (p1 p2 : G1Point) : result G1Point :=
  match pc_add [X p1; Y p1; X p2; Y p2] with
  | Some r => Ok (out_point r)
  | None => Err (Exception "Call to the bn256Add precompiled failed (probably an out of gas error?)")
  end.

Definition _scalarMulG1 (p : G1Point) (s : Z) : result G1Point :=
  match pc_mul [X p; Y p; s] with
  | Some r => Ok (out_point r)
  | None => Err (Exception "Call to bn256ScalarMul failed (probably an out of gas error?)")
  end.

(** The words of one pair of the input. *)
Definition pair_words (p : G1Point * G2Point) : list Z :=
  [X p.1; Y p.1; X0 p.2; X1 p.2; Y0 p.2; Y1 p.2].

Definition _pairing (p1 : list G1Point) (p2 : list G2Point) : result bool :=
  _ ← require (bool_decide (length p1 = length p2))
        "Mismatch between the number of elements in G1 and elements in G2";
  match pc_pairing (zip p1 p2 ≫= pair_words) with
  | Some out => Ok (negb (default 0 (out !! 0%nat) =? 0))
  | None => Err (Exception "Call to the bn256Pairing precompiled failed (probably an out of gas error?)")
  end.

Definition _pairingProd2 (a1 : G1Point) (a2 : G2Point) (b1 : G1Point) (b2 : G2Point) : result bool :=
  _pairing [a1; b1] [a2; b2].
Definition _pairingProd3 (a1 : G1Point) (a2 : G2Point) (b1 : G1Point) (b2 : G2Point) (c1 : G1Point) (c2 : G2Point)
    : result bool :=
  _pairing [a1; b1; c1] [a2; b2; c2].
Definition _pairingProd4 (a1 : G1Point) (a2 : G2Point) (b1 : G1Point) (b2 : G2Point) (c1 : G1Point) (c2 : G2Point)
    (d1 : G1Point) (d2 : G2Point) : result bool :=
  _pairing [a1; b1; c1; d1] [a2; b2; c2; d2].
End calls.
End LibPairing.

(** ** PGHR13 over alt-bn128 *)

Module MixerPghr13AltBN128.
Import LibPairing.

Record VerifyingKey : Type := mkVerifyingKey {
  vk_A : G2Point; vk_B : G1Point; vk_C : G2Point; vk_gamma : G2Point; vk_gammaBeta1 : G1Point;
  vk_gammaBeta2 : G2Point; vk_Z : G2Point; vk_IC : list G1Point
}.

Record Proof : Type := mkProof {
  A : G1Point; A_p : G1Point; B : G2Point; B_p : G1Point; C : G1Point; C_p : G1Point; K : G1Point; H : G1Point
}.

Definition g1_at (ws : list Z) (i : Z) : result G1Point := x ← word_at ws i; y ← word_at ws (i + 1); Ok (mkG1Point x y).
Definition g2_at (ws : list Z) (i : Z) : result G2Point :=
  x0 ← word_at ws i; x1 ← word_at ws (i + 1); y0 ← word_at ws (i + 2); y1 ← word_at ws (i + 3);
  Ok (mkG2Point x0 x1 y0 y1).

(** The check of the constructor. *)
Definition check_vk (vk : list Z) : result unit := require (26 <=? zlen vk) "invalid vk length".

(** The loop [for (i = 24; i < vk_words; i += 2)] over the rest of the key; an odd word at
    the end is read out of bounds. *)
Fixpoint ic_points (ws : list Z) : result (list G1Point) :=
  match ws with
  | [] => Ok []
  | [_] => Err Panic
  | x :: y :: ws => l ← ic_points ws; Ok (mkG1Point x y :: l)
  end.

Definition decode_vk (_vk : list Z) : result VerifyingKey :=
  _ ← check_vk _vk;
  a ← g2_at _vk 0; b ← g1_at _vk 4; c ← g2_at _vk 6; gamma ← g2_at _vk 10;
  gammaBeta1 ← g1_at _vk 14; gammaBeta2 ← g2_at _vk 16; z ← g2_at _vk 20;
  ic ← ic_points (drop 24 _vk);
  Ok (mkVerifyingKey a b c gamma gammaBeta1 gammaBeta2 z ic).

Section verify.
Context `{Precompiles}.

(** The loop over the inputs, along [IC[1]], [IC[2]], ... *)
Fixpoint lin_loop (inputs : list Z) (ic : list G1Point) (vk_x : G1Point) : result G1Point :=
  match inputs, ic with
  | [], _ => Ok vk_x
  | x :: inputs, p :: ic => t ← _scalarMulG1 p x; vk_x ← _addG1 vk_x t; lin_loop inputs ic vk_x
  | _, [] => Err Panic
  end.

Definition _verify (_vk inputs : list Z) (proof : Proof) : result Z :=
  vk ← decode_vk _vk;
  _ ← require (zlen inputs + 1 =? zlen (vk_IC vk))
        "Using strong input consistency, and the input length differs from expected";
  vk_x ← lin_loop inputs (tail (vk_IC vk)) (mkG1Point 0 0);
  ic0 ← of_option Panic (vk_IC vk !! 0%nat);
  vk_x ← _addG1 vk_x ic0;
  ok ← _pairingProd2 (A proof) (vk_A vk) (_negateG2 (A_p proof)) _genG2;
  if negb ok then Ok 1 else
  ok ← _pairingProd2 (vk_B vk) (B proof) (_negateG2 (B_p proof)) _genG2;
  if negb ok then Ok 2 else
  ok ← _pairingProd2 (C proof) (vk_C vk) (_negateG2 (C_p proof)) _genG2;
  if negb ok then Ok 3 else
  ac ← _addG1 (A proof) (C proof);
  xac ← _addG1 vk_x ac;
  ok ← _pairingProd3 (K proof) (vk_gamma vk) (_negateG2 xac) (vk_gammaBeta2 vk)
         (_negateG2 (vk_gammaBeta1 vk)) (B proof);
  if negb ok then Ok 4 else
  xa ← _addG1 vk_x (A proof);
  ok ← _pairingProd3 xa (B proof) (_negateG2 (H proof)) (vk_Z vk) (_negateG2 (C proof)) _genG2;
  if negb ok then Ok 5 else Ok 0.

Definition _verifyZkProof (_vk proofData : list Z) (publicInputsHash : Z) : result bool :=
  let r := 21888242871839275222246405745257275088548364400416034343698204186575808495617 in
  a ← g1_at proofData 0; a_p ← g1_at proofData 2; b ← g2_at proofData 4; b_p ← g1_at proofData 8;
  c ← g1_at proofData 10; c_p ← g1_at proofData 12; h ← g1_at proofData 14; k ← g1_at proofData 16;
  _ ← require (publicInputsHash <? r) "Input is not is scalar field";
  verification_result ← _verify _vk [publicInputsHash] (mkProof a a_p b b_p c c_p k h);
  Ok (verification_result =? 0).
End verify.
End MixerPghr13AltBN128.
