(* ===== verification/VerifierFacts.v ===== *)
(** * What the verifier contracts check

    A pairing-friendly curve is a class: its groups, its pairing and the coordinates of its
    points.  The precompiled contracts are assumed to compute on the words of points, and to
    fail on words that are not points.  Against that interface the Groth16 libraries are shown to
    decide the Groth16 equation on the parameters the client encodes, the PGHR13 mixer its five
    equations, and the consequences of the flags that [LibGroth16BLS12_377] does not look at
    are spelled out. *)

From Stdlib Require Import ZArith Lia Ascii String Strings.Byte.
From stdpp Require Import base tactics list gmap strings.
From S2P Require Import Prelude PyStr PyBytes PyFloat PyIO Hashes Constants MerkleTree Mimc Pairing ZkSnark Signing ContractTree ContractMixer VerifierAltBN128 VerifierBLS VerifierPghr13.

Local Open Scope Z_scope.

Import AbstractMerkleTree(Panic, require, usub).
Import AbstractMixer(word_at).

(** ** Curves *)

Class PairingCurve := {
  PG1 : Type;
  PG2 : Type;
  PGT : Type;
  zero1 : PG1;
  add1 : PG1 → PG1 → PG1;
  neg1 : PG1 → PG1;
  mul1 : Z → PG1 → PG1;
  zero2 : PG2;
  gen2 : PG2;
  neg2 : PG2 → PG2;
  gt_one : PGT;
  gt_mul : PGT → PGT → PGT;
  gt_eq_dec :: EqDecision PGT;
  e : PG1 → PG2 → PGT;
  coords1 : PG1 → Z * Z;
  coords2 : PG2 → list Z * list Z
}.

(** The size of a field element in bytes, the two moduli and the generator of G2. *)
Record CurveData : Type := mkCurveData {
  cd_bytes : nat;
  cd_q : Z;
  cd_r : Z;
  cd_gen2 : list Z * list Z
}.

Definition alt_bn128 : CurveData := {|
  cd_bytes := 32;
  cd_q := LibPairing.q;
  cd_r := LibGroth16AltBN128._PRIME_R;
  cd_gen2 := ([LibPairing.X0 LibPairing._genG2; LibPairing.X1 LibPairing._genG2],
              [LibPairing.Y0 LibPairing._genG2; LibPairing.Y1 LibPairing._genG2])
|}.

(** The parameters the tests of the client use for BLS12-377. *)
Definition bls12_377 : CurveData := {|
  cd_bytes := 48;
  cd_q := 0x01ae3a4617c510eac63b05c06ca1493b1a22d9f300f5138f1ef3622fba094800170b5d44300000008508c00000000001;
  cd_r := 0x12ab655e9a2ca55660b44d1e5c37b00159aa76fed00000010a11800000000001;
  cd_gen2 :=
    ([0x00d6ac33b84947d9845f81a57a136bfa326e915fabc8cd6a57ff133b42d00f62e4e1af460228cd5184deae976fa62596;
      0x00b997fef930828fe1b9e6a1707b8aa508a3dbfd7fe2246499c709226a0a6fef49f85b3a375363f4f8f6ea3fbd159f8a],
     [0x0185067c6ca76d992f064a432bd9f9be832b0cac2d824d0518f77d39e76c3e146afb825f2092218d038867d7f337a010;
      0x0118dd509b2e9a13744a507d515a595dbb7e3b63df568866473790184bdf83636c94df2b7a962cb2af4337f07cb7e622])
|}.

Section encoding.
Context `{PairingCurve} (D : CurveData).

Definition coord_words (v : Z) : list Z := to_words (num_words (cd_bytes D)) v.
(** The words of a point, as the client writes them. *)
Definition enc1 (P : PG1) : list Z := coord_words (coords1 P).1 ++ coord_words (coords1 P).2.
Definition enc2 (Q : PG2) : list Z := ((coords2 Q).1 ≫= coord_words) ++ ((coords2 Q).2 ≫= coord_words).
Definition enc_pair (p : PG1 * PG2) : list Z := enc1 p.1 ++ enc2 p.2.

Definition gt_prod (l : list (PG1 * PG2)) : PGT := foldr (λ p acc, gt_mul (e p.1 p.2) acc) gt_one l.

(** [acc + Σ k P]. *)
Definition lincomb (acc : PG1) (l : list (Z * PG1)) : PG1 := foldl (λ acc p, add1 acc (mul1 p.1 p.2)) acc l.
End encoding.

Class CurveLaws `{PairingCurve} (D : CurveData) : Prop := {
  gt_assoc x y z : gt_mul x (gt_mul y z) = gt_mul (gt_mul x y) z;
  gt_comm x y : gt_mul x y = gt_mul y x;
  gt_unit x : gt_mul gt_one x = x;
  e_neg1 P Q : gt_mul (e (neg1 P) Q) (e P Q) = gt_one;
  e_neg2 P Q : gt_mul (e P (neg2 Q)) (e P Q) = gt_one;
  coords1_range P : 0 ≤ (coords1 P).1 < cd_q D ∧ 0 ≤ (coords1 P).2 < cd_q D;
  coords2_length Q : length (coords2 Q).1 = 2%nat ∧ length (coords2 Q).2 = 2%nat;
  coords2_range Q : Forall (λ v, 0 ≤ v < cd_q D) ((coords2 Q).1 ++ (coords2 Q).2);
  coords2_gen : coords2 gen2 = cd_gen2 D;
  gen2_nonzero : gen2 ≠ zero2;
  coords2_neg Q : Q ≠ zero2 →
    coords2 (neg2 Q) = ((coords2 Q).1, (λ y, (- y) mod cd_q D) <$> (coords2 Q).2)
}.

(** The machine's conventions for alt-bn128: the pair of zeros is the point at infinity and no
    other point has a zero ordinate. *)
Class EvmPoints `{PairingCurve} (D : CurveData) : Prop := {
  add1_zero P : add1 zero1 P = P;
  add1_comm P Q : add1 P Q = add1 Q P;
  coords1_zero : coords1 zero1 = (0, 0);
  coords1_ordinate P : (coords1 P).2 = 0 → (coords1 P).1 = 0;
  coords1_neg P : coords1 (neg1 P) = ((coords1 P).1, (- (coords1 P).2) mod cd_q D)
}.

Class PrecompileLaws `{PairingCurve} `{Precompiles} (D : CurveData) : Prop := {
  pc_add_enc P Q : pc_add (enc1 D P ++ enc1 D Q) = Some (enc1 D (add1 P Q));
  pc_mul_enc P k : 0 ≤ k < cd_r D → pc_mul (enc1 D P ++ [k]) = Some (enc1 D (mul1 k P));
  pc_pairing_enc l : pc_pairing (l ≫= enc_pair D) = Some [if decide (gt_prod l = gt_one) then 1 else 0];
  pc_pairing_valid ws : is_Some (pc_pairing ws) → ∃ l, ws = l ≫= enc_pair D
}.

(** The three equations of the schemes. *)
Definition groth16_equation `{PairingCurve} (alpha : PG1) (beta delta : PG2) (vk_x A : PG1) (B : PG2) (C : PG1) : Prop :=
  e A B = gt_mul (e alpha beta) (gt_mul (e vk_x gen2) (e C delta)).

#[export] Instance groth16_equation_dec `{PairingCurve} alpha beta delta vk_x A B C :
  Decision (groth16_equation alpha beta delta vk_x A B C) := decide (_ = _).

(** ** Memory *)

(** A list of known length is a list of variables. *)
Ltac explicit l :=
  match goal with
  | H : length l = _ |- _ =>
      repeat (let x := fresh "w" in destruct l as [|x l]; [try discriminate H | cbn in H; try discriminate H];
        try (apply Nat.succ_inj in H))
  end; try done.

Lemma sload_drop vk slot i w : 0 ≤ slot → drop (Z.to_nat slot) vk !! i = Some w → sload vk (slot + Z.of_nat i) = w.
Proof.
  intros Hs Hw. unfold sload. rewrite Z2Nat.inj_add, Nat2Z.id by lia. rewrite lookup_drop in Hw. by rewrite Hw.
Qed.

Lemma usub_to a b c : b ≤ a → a - b = c → usub a b = Ok c.
Proof. intros Hab <-. unfold usub. by rewrite (proj2 (Z.ltb_ge a b) Hab). Qed.

Section group.
Context `{PairingCurve} {D : CurveData} `{!CurveLaws D}.

Lemma gt_unit_r x : gt_mul x gt_one = x.
Proof using All. rewrite (gt_comm (D:=D)). apply (gt_unit (D:=D)). Qed.

(** A product with the inverse of [a] is one exactly when the rest is [a]. *)
Lemma gt_cancel x a a' : gt_mul a' a = gt_one → gt_mul a' x = gt_one ↔ x = a.
Proof using All.
  intros Ha. split; [|by intros ->]. intros Hx.
  rewrite <- (gt_unit (D:=D) x), <- Ha, <- (gt_assoc (D:=D)), (gt_comm (D:=D) a x), (gt_assoc (D:=D)), Hx.
  apply (gt_unit (D:=D)).
Qed.

Lemma gt_inv_mul a a' b b' : gt_mul a' a = gt_one → gt_mul b' b = gt_one →
  gt_mul (gt_mul a' b') (gt_mul a b) = gt_one.
Proof using All.
  intros Ha Hb. rewrite <- (gt_assoc (D:=D)), (gt_assoc (D:=D) b' a b), (gt_comm (D:=D) b' a),
    <- (gt_assoc (D:=D) a), Hb, gt_unit_r. done.
Qed.

Lemma groth16_product alpha beta delta X A B C :
  gt_prod [(X, neg2 gen2); (alpha, neg2 beta); (A, B); (C, neg2 delta)] = gt_one ↔
  groth16_equation alpha beta delta X A B C.
Proof using All.
  cbn [gt_prod foldr fst snd]. rewrite gt_unit_r. unfold groth16_equation.
  rewrite (gt_comm (D:=D) (e A B) (e C (neg2 delta))).
  rewrite (gt_assoc (D:=D) (e alpha (neg2 beta))), (gt_assoc (D:=D) (e X (neg2 gen2))).
  rewrite (gt_cancel _ (gt_mul (e X gen2) (gt_mul (e alpha beta) (e C delta)))).
  - rewrite !(gt_assoc (D:=D)), (gt_comm (D:=D) (e X gen2)). done.
  - repeat apply gt_inv_mul; apply (e_neg2 (D:=D)).
Qed.

(** [e a a2 = e b b2], as a product of two pairings. *)
Lemma product2 P Q P' Q' : gt_prod [(P, Q); (neg1 P', Q')] = gt_one ↔ e P Q = e P' Q'.
Proof using All.
  cbn [gt_prod foldr fst snd]. rewrite gt_unit_r, (gt_comm (D:=D)). apply gt_cancel, (e_neg1 (D:=D)).
Qed.

Lemma product3 P Q P1 Q1 P2 Q2 : gt_prod [(P, Q); (neg1 P1, Q1); (neg1 P2, Q2)] = gt_one ↔
  e P Q = gt_mul (e P1 Q1) (e P2 Q2).
Proof using All.
  cbn [gt_prod foldr fst snd]. rewrite gt_unit_r, (gt_comm (D:=D)). apply gt_cancel.
  apply gt_inv_mul; apply (e_neg1 (D:=D)).
Qed.

Lemma enc1_length P : length (enc1 D P) = (2 * num_words (cd_bytes D))%nat.
Proof using Type. unfold enc1, coord_words. rewrite length_app, !length_to_words. lia. Qed.

Lemma enc2_length Q : length (enc2 D Q) = (4 * num_words (cd_bytes D))%nat.
Proof using All.
  destruct (coords2_length (D:=D) Q) as [Hx Hy]. unfold enc2.
  destruct (coords2 Q).1 as [|x0 [|x1 [|]]]; try done. destruct (coords2 Q).2 as [|y0 [|y1 [|]]]; try done.
  cbn [mbind list_bind]. unfold coord_words. rewrite !length_app, !length_to_words. simpl. lia.
Qed.
Lemma pairs_length l : length (l ≫= enc_pair D) = (6 * num_words (cd_bytes D) * length l)%nat.
Proof using All.
  induction l as [|[P Q] l IH]; [cbn; lia|]. rewrite bind_cons, length_app, IH. unfold enc_pair. cbn [fst snd].
  rewrite length_app, enc2_length, enc1_length. cbn [length]. lia.
Qed.

(** Four pairs of points, seen as two pairs, a proof and a last point of G2. *)
Lemma proof_points l pre proof post : (0 < num_words (cd_bytes D))%nat → pre ++ proof ++ post = l ≫= enc_pair D →
  length pre = (12 * num_words (cd_bytes D))%nat → length proof = (8 * num_words (cd_bytes D))%nat →
  length post = (4 * num_words (cd_bytes D))%nat → ∃ A B C, proof = enc1 D A ++ enc2 D B ++ enc1 D C.
Proof using All.
  intros Hw El Hpre Hp Hpost. assert (length l = 4%nat) as Hl4.
  { apply (f_equal length) in El. rewrite pairs_length, !length_app, Hpre, Hp, Hpost in El. nia. }
  destruct l as [|p0 [|p1 [|[A B] [|[C Q3] [|]]]]]; try done. exists A, B, C.
  rewrite !bind_cons, app_assoc in El. unfold enc_pair in El at 3 4. cbn [fst snd] in El. change ([] ≫= enc_pair D) with (@nil Z) in El. rewrite app_nil_r in El.
  rewrite <- app_assoc in El. rewrite (app_assoc (enc_pair D p0)) in El. apply app_inj_1 in El as [_ El].
  2:{ pose proof (pairs_length [p0; p1]) as H2. cbn [mbind list_bind] in H2. rewrite app_nil_r in H2. rewrite H2, Hpre. cbn. lia. }
  repeat rewrite <- app_assoc in El. rewrite (app_assoc (enc1 D A)), (app_assoc (enc1 D A ++ enc2 D B)) in El.
  apply app_inj_1 in El as [El _]; [by rewrite El, <- app_assoc|].
  rewrite Hp, !length_app, enc2_length, !enc1_length. lia.
Qed.
End group.

(** ** Groth16 over alt-bn128 *)

Module Groth16AltBN128Facts.
Import LibGroth16AltBN128.

Lemma abc_stores a b c d x rest : length rest = 22%nat → ∃ r, length r = 19%nat ∧
  mstores [(0x40, c); (0x60, d); (0x80, x)] (a :: b :: rest) = a :: b :: c :: d :: x :: r.
Proof. intros Hr. explicit rest. eexists. split; [|reflexivity]. done. Qed.

Lemma abc_mul f a b c d x r out : length r = 19%nat → f [c; d; x] = out →
  call f 0x40 0x60 0x40 0x40 (a :: b :: c :: d :: x :: r) =
  match out with
  | Some ws => (true, mwrite 0x40 (take 2 ws) (a :: b :: c :: d :: x :: r))
  | None => (false, a :: b :: c :: d :: x :: r)
  end.
Proof. intros Hr <-. explicit r. Qed.

Lemma abc_add f a b c d r out : length r = 20%nat → f [a; b; c; d] = out →
  call f 0x00 0x80 0x00 0x40 (a :: b :: c :: d :: r) =
  match out with
  | Some ws => (true, mwrite 0 (take 2 ws) (a :: b :: c :: d :: r))
  | None => (false, a :: b :: c :: d :: r)
  end.
Proof. intros Hr <-. explicit r. Qed.

Lemma write_mul a b c d r c' d' : length r = 20%nat → mwrite 0x40 [c'; d'] (a :: b :: c :: d :: r) = a :: b :: c' :: d' :: r.
Proof. intros Hr. explicit r. Qed.

Lemma write_add a b r a' b' : length r = 22%nat → mwrite 0 [a'; b'] (a :: b :: r) = a' :: b' :: r.
Proof. intros Hr. explicit r. Qed.

(** The memory handed to the pairing. *)
Lemma pairing_layout x y rest vk proof : length rest = 22%nat → (10 ≤ length vk)%nat → length proof = 8%nat →
  mread 0 0x300 (mstores (pairing_stores vk proof) (x :: y :: rest)) =
  [x; y;
   0x198e9393920d483a7260bfb731fb5d25f1aa493335a9e71297e485b7aef312c2;
   0x1800deef121f1e76426a00665e5c4479674322d4f75edadd46debd5cd992f6ed;
   0x275dc4a288d1afb3cbb1ac09187524c7db36395df7be3b99e673b13a075a65ec;
   0x1d9befcd05a5323e6da4d435f3b617cdb3af83285c2df711ef39c01571827f9d]
   ++ take 6 vk ++ proof ++ take 4 (drop 6 vk) ∧
  length (mstores (pairing_stores vk proof) (x :: y :: rest)) = 24%nat.
Proof.
  intros Hr Hvk Hp. explicit rest. explicit proof.
  do 10 (destruct vk as [|? vk]; [cbn in Hvk; lia|]). split; reflexivity.
Qed.

Section verify.
Context `{PairingCurve} `{Precompiles} `{!CurveLaws alt_bn128} `{!PrecompileLaws alt_bn128}.

Local Abbreviation enc1 := (enc1 alt_bn128).
Local Abbreviation enc2 := (enc2 alt_bn128).

Lemma enc1_two P : length (enc1 P) = 2%nat.
Proof using Type. exact (enc1_length (D:=alt_bn128) P). Qed.

Lemma enc1_shape P : ∃ x y, enc1 P = [x; y].
Proof using Type. pose proof (enc1_two P) as Hl. destruct (enc1 P) as [|x [|y [|]]]; try done. eauto. Qed.

Lemma enc2_shape Q : length (enc2 Q) = 4%nat.
Proof using All. exact (enc2_length (D:=alt_bn128) Q). Qed.

(** One round: the accumulator moves by [x] times the next point. *)
Lemma abc_round vk x inputs slot acc P tl rest s : 0 ≤ slot → 0 ≤ x < _PRIME_R → length rest = 22%nat →
  drop (Z.to_nat slot) vk = enc1 P ++ tl →
  ∃ rest', length rest' = 22%nat ∧
    abc_loop vk (x :: inputs) slot (enc1 acc ++ rest) s =
    abc_loop vk inputs (slot + 2) (enc1 (add1 acc (mul1 x P)) ++ rest') s.
Proof using All.
  intros Hs Hx Hr Hd. destruct (enc1_shape P) as (c & d & HP). destruct (enc1_shape acc) as (a & b & Ha).
  destruct (enc1_shape (mul1 x P)) as (c' & d' & HM). destruct (enc1_shape (add1 acc (mul1 x P))) as (a' & b' & HA).
  rewrite HP in Hd. rewrite Ha, HA.
  assert (sload vk slot = c) as Hc by (rewrite <- (Z.add_0_r slot); apply (sload_drop _ _ 0); [done | by rewrite Hd]).
  assert (sload vk (slot + 1) = d) as Hd' by (apply (sload_drop _ _ 1); [done | by rewrite Hd]).
  cbn [abc_loop]. rewrite Hc, Hd'. cbn [app].
  destruct (abc_stores a b c d x rest Hr) as (r & Hr' & ->).
  rewrite (abc_mul _ a b c d x r _ Hr' eq_refl).
  pose proof (pc_mul_enc (D:=alt_bn128) P x Hx) as Em. rewrite HP, HM in Em. cbn [app] in Em. rewrite Em.
  cbn [take firstn]. rewrite write_mul by (cbn; lia).
  rewrite (abc_add _ a b c' d' (x :: r) _ ltac:(cbn; lia) eq_refl).
  pose proof (pc_add_enc (D:=alt_bn128) acc (mul1 x P)) as Ea. rewrite Ha, HM, HA in Ea. cbn [app] in Ea. rewrite Ea.
  cbn [take firstn]. rewrite write_add by (cbn; lia). exists (c' :: d' :: x :: r). split; [cbn; lia|].
  by rewrite andb_true_r.
Qed.

Lemma abc_loop_spec inputs : ∀ vk pts slot acc tl rest, 0 ≤ slot → Forall (λ x, 0 ≤ x < _PRIME_R) inputs →
  length pts = length inputs → length rest = 22%nat → drop (Z.to_nat slot) vk = (pts ≫= enc1) ++ tl →
  ∃ rest', length rest' = 22%nat ∧
    abc_loop vk inputs slot (enc1 acc ++ rest) true = (enc1 (lincomb acc (zip inputs pts)) ++ rest', true).
Proof using All.
  induction inputs as [|x inputs IH]; intros vk pts slot acc tl rest Hs Hin Hl Hr Hd; [by exists rest|].
  destruct pts as [|P pts]; [done|]. apply Forall_cons in Hin as [Hx Hin]. cbn [length] in Hl.
  rewrite bind_cons, <- app_assoc in Hd.
  destruct (abc_round vk x inputs slot acc P _ rest true Hs Hx Hr Hd) as (r & Hr' & ->).
  cbn [zip zip_with lincomb foldl]. apply IH with tl; [lia | done | lia | done |].
  replace (Z.to_nat (slot + 2)) with (Z.to_nat slot + 2)%nat by lia.
  rewrite <- drop_drop, Hd. destruct (enc1_shape P) as (c & d & ->). done.
Qed.

Lemma inputs_in_field_ok inputs : Forall (λ x, 0 ≤ x < _PRIME_R) inputs → inputs_in_field inputs = Ok tt.
Proof using Type.
  induction 1 as [|x l Hx _ IH]; [done|]. cbn [inputs_in_field].
  rewrite (proj2 (Z.ltb_lt x _PRIME_R)) by lia. exact IH.
Qed.

(** The constants of the library are the opposite of the generator. *)
Lemma minus_g2_words : enc2 (neg2 gen2) =
  [0x198e9393920d483a7260bfb731fb5d25f1aa493335a9e71297e485b7aef312c2;
   0x1800deef121f1e76426a00665e5c4479674322d4f75edadd46debd5cd992f6ed;
   0x275dc4a288d1afb3cbb1ac09187524c7db36395df7be3b99e673b13a075a65ec;
   0x1d9befcd05a5323e6da4d435f3b617cdb3af83285c2df711ef39c01571827f9d].
Proof using All.
  unfold VerifierFacts.enc2. rewrite (coords2_neg (D:=alt_bn128)), (coords2_gen (D:=alt_bn128))
    by apply (gen2_nonzero (D:=alt_bn128)).
  vm_compute. reflexivity.
Qed.

(** The second block, once the accumulator holds [X]. *)
Lemma pairing_check X rest vk alpha mbeta mdelta A B C : length rest = 22%nat → (10 ≤ length vk)%nat →
  let proof := enc1 A ++ enc2 B ++ enc1 C in
  length proof = 8%nat → take 6 vk = enc1 alpha ++ enc2 mbeta → take 4 (drop 6 vk) = enc2 mdelta →
  (let '(success, pad) := call pc_pairing 0 0x300 0 0x20 (mstores (pairing_stores vk proof) (enc1 X ++ rest)) in
   _ ← require success "Call to bn256Add, bn256ScalarMul or bn256Pairing failed";
   Ok (bool_decide (pad !! 0%nat = Some 1))) =
  Ok (bool_decide (gt_prod [(X, neg2 gen2); (alpha, mbeta); (A, B); (C, mdelta)] = gt_one)).
Proof using All.
  intros Hrest Hlv proof Hp Hv6 Hv10. destruct (enc1_shape X) as (x & y & HX). rewrite HX. cbn [app].
  destruct (pairing_layout x y rest vk proof Hrest Hlv Hp) as [Hlay Hlen].
  pose proof (pc_pairing_enc (D:=alt_bn128) [(X, neg2 gen2); (alpha, mbeta); (A, B); (C, mdelta)]) as Epair.
  unfold call. rewrite Hlay, Hv6, Hv10. cbn [mbind list_bind] in Epair. unfold enc_pair in Epair. cbn [fst snd] in Epair.
  rewrite minus_g2_words, HX, app_nil_r in Epair. unfold proof in *. cbn [app] in Epair |- *.
  repeat rewrite <- app_assoc in Epair. repeat rewrite <- app_assoc. rewrite Epair.
  cbn [require mbind result_bind]. destruct (mstores _ _) as [|w m]; [done|]. f_equal. apply bool_decide_ext.
  change (mwrite _ _ _ !! _) with (Some (if decide (gt_prod [(X, neg2 gen2); (alpha, mbeta); (A, B); (C, mdelta)] = gt_one) then 1 else 0)).
  case_decide; split; intros; congruence || done.
Qed.

Definition vk_words (alpha : PG1) (mbeta mdelta : PG2) (abc : list PG1) : list Z :=
  enc1 alpha ++ enc2 mbeta ++ enc2 mdelta ++ (abc ≫= enc1).

(** The slots of a key. *)
Lemma vk_words_slots alpha mbeta mdelta abc : let vk := vk_words alpha mbeta mdelta abc in
  length vk = (10 + 2 * length abc)%nat ∧ take 6 vk = enc1 alpha ++ enc2 mbeta ∧
  take 4 (drop 6 vk) = enc2 mdelta ∧ drop 10 vk = abc ≫= enc1.
Proof using All.
  intros vk. unfold vk, vk_words. destruct (enc1_shape alpha) as (a & b & ->).
  pose proof (enc2_shape mbeta) as Hb. pose proof (enc2_shape mdelta) as Hd.
  destruct (enc2 mbeta) as [|b0 [|b1 [|b2 [|b3 [|]]]]]; try done.
  destruct (enc2 mdelta) as [|d0 [|d1 [|d2 [|d3 [|]]]]]; try done. split_and!; try done.
  cbn [app length]. enough (length (abc ≫= enc1) = 2 * length abc)%nat by lia.
  clear. induction abc as [|P l IH]; [done|]. rewrite bind_cons, length_app, IH. destruct (enc1_shape P) as (? & ? & ->). cbn. lia.
Qed.

(** Up to the second block, for any proof of eight words. *)
Lemma verify_guards alpha mbeta mdelta abc0 abc proof inputs :
  Forall (λ x, 0 ≤ x < _PRIME_R) inputs → length abc = length inputs → length proof = 8%nat →
  ∃ rest, length rest = 22%nat ∧
  _verify (vk_words alpha mbeta mdelta (abc0 :: abc)) proof inputs =
  let '(success, pad) := call pc_pairing 0 0x300 0 0x20
    (mstores (pairing_stores (vk_words alpha mbeta mdelta (abc0 :: abc)) proof)
      (enc1 (lincomb abc0 (zip inputs abc)) ++ rest)) in
  _ ← require success "Call to bn256Add, bn256ScalarMul or bn256Pairing failed";
  Ok (bool_decide (pad !! 0%nat = Some 1)).
Proof using All.
  intros Hin Hl Hp. set (vk := vk_words _ _ _ _).
  destruct (vk_words_slots alpha mbeta mdelta (abc0 :: abc)) as (Hlv & _ & _ & H10). fold vk in Hlv, H10.
  rewrite bind_cons in H10. destruct (enc1_shape abc0) as (x & y & Hx).
  assert (sload vk 10 = x ∧ sload vk 11 = y) as [E10 E11].
  { rewrite Hx in H10. split; [apply (sload_drop vk 10 0) | apply (sload_drop vk 10 1)]; [done | | done |];
      (change (Z.to_nat 10) with 10%nat; by rewrite H10). }
  assert (drop 12 vk = (abc ≫= enc1)) as H12.
  { change 12%nat with (10 + 2)%nat. rewrite <- drop_drop, H10, Hx. done. }
  unfold _verify. unfold zlen. rewrite Hp, Hlv. change (Z.of_nat 8 =? 8) with true. cbn [require mbind result_bind length].
  rewrite (usub_to _ 10 ((1 + Z.of_nat (length inputs)) * 2)) by lia. cbn [mbind result_bind].
  rewrite Z.div_mul by done. rewrite (usub_to _ 1 (Z.of_nat (length inputs))) by lia.
  cbn [mbind result_bind]. rewrite Z.eqb_refl.
  cbn [require mbind result_bind]. rewrite inputs_in_field_ok by done. cbn [mbind result_bind].
  change (mstores _ (replicate 24 0)) with ([sload vk 10; sload vk 11] ++ replicate 22 0).
  rewrite E10, E11, <- Hx.
  destruct (abc_loop_spec inputs vk abc 12 abc0 [] (replicate 22 0)) as (rest & Hrest & ->);
    [lia | done | done | done | by rewrite app_nil_r |].
  by exists rest.
Qed.

(** The library on the words of points. *)
Lemma verify_words alpha mbeta mdelta abc0 abc A B C inputs :
  Forall (λ x, 0 ≤ x < _PRIME_R) inputs → length abc = length inputs →
  _verify (vk_words alpha mbeta mdelta (abc0 :: abc)) (enc1 A ++ enc2 B ++ enc1 C) inputs =
  Ok (bool_decide (gt_prod [(lincomb abc0 (zip inputs abc), neg2 gen2); (alpha, mbeta); (A, B); (C, mdelta)] = gt_one)).
Proof using All.
  intros Hin Hl.
  assert (length (enc1 A ++ enc2 B ++ enc1 C) = 8%nat) as Hp
    by (rewrite !length_app, enc2_shape, !enc1_two; done).
  destruct (verify_guards alpha mbeta mdelta abc0 abc _ inputs Hin Hl Hp) as (rest & Hrest & ->).
  destruct (vk_words_slots alpha mbeta mdelta (abc0 :: abc)) as (Hlv & H6 & H10 & _).
  apply pairing_check; [done | lia | done..].
Qed.

(** Words that the pairing accepts are the words of points. *)
Lemma verify_points alpha mbeta mdelta abc0 abc proof inputs b :
  Forall (λ x, 0 ≤ x < _PRIME_R) inputs → length abc = length inputs → length proof = 8%nat →
  _verify (vk_words alpha mbeta mdelta (abc0 :: abc)) proof inputs = Ok b →
  ∃ A B C, proof = enc1 A ++ enc2 B ++ enc1 C.
Proof using All.
  intros Hin Hl Hp Hv. destruct (verify_guards alpha mbeta mdelta abc0 abc proof inputs Hin Hl Hp) as (rest & Hrest & E).
  rewrite E in Hv. clear E. destruct (vk_words_slots alpha mbeta mdelta (abc0 :: abc)) as (Hlv & H6 & H10 & _).
  destruct (enc1_shape (lincomb abc0 (zip inputs abc))) as (x & y & HX). rewrite HX in Hv. cbn [app] in Hv.
  unfold call in Hv. rewrite (proj1 (pairing_layout x y rest (vk_words alpha mbeta mdelta (abc0 :: abc)) proof Hrest ltac:(lia) Hp)), H6, H10 in Hv.
  destruct (pc_pairing _) as [out|] eqn:Epc; [|done].
  destruct (pc_pairing_valid (D:=alt_bn128) _ (mk_is_Some _ _ Epc)) as (l & Hw). clear Epc Hv.
  rewrite app_assoc in Hw. apply (proof_points (D:=alt_bn128) l _ proof _ (le_n 1) Hw);
    [by rewrite !length_app, enc2_shape, enc1_two | done | apply enc2_shape].
Qed.
End verify.
End Groth16AltBN128Facts.

(** ** Groth16 over BLS12-377 *)

Module Groth16BLS12_377Facts.
Import LibGroth16BLS12_377.

Lemma bls_abc_stores p c0 c1 c2 c3 x rest : length p = 4%nat → length rest = 20%nat → ∃ r, length r = 15%nat ∧
  mstores [(0x080, c0); (0x0a0, c1); (0x0c0, c2); (0x0e0, c3); (0x100, x)] (p ++ rest) =
    p ++ [c0; c1; c2; c3] ++ x :: r.
Proof. intros Hp Hr. explicit p. explicit rest. eexists. split; [|reflexivity]. done. Qed.

Lemma bls_abc_mul f p c x r : length p = 4%nat → length c = 4%nat → length r = 15%nat →
  call f 0x080 0xa0 0x080 0x80 (p ++ c ++ x :: r) =
  match f (c ++ [x]) with
  | Some ws => (true, mwrite 0x080 (take 4 ws) (p ++ c ++ x :: r))
  | None => (false, p ++ c ++ x :: r)
  end.
Proof. intros Hp Hc Hr. explicit p; explicit c; explicit r. Qed.

Lemma bls_abc_add f p c r : length p = 4%nat → length c = 4%nat → length r = 16%nat →
  call f 0x000 0x100 0x000 0x080 (p ++ c ++ r) =
  match f (p ++ c) with
  | Some ws => (true, mwrite 0x000 (take 4 ws) (p ++ c ++ r))
  | None => (false, p ++ c ++ r)
  end.
Proof. intros Hp Hc Hr. explicit p; explicit c; explicit r. Qed.

Lemma bls_write_mul p c r c' : length p = 4%nat → length c = 4%nat → length r = 16%nat → length c' = 4%nat →
  mwrite 0x080 c' (p ++ c ++ r) = p ++ c' ++ r.
Proof. intros Hp Hc Hr Hc'. explicit p; explicit c; explicit r; explicit c'. Qed.

Lemma bls_write_add p r p' : length p = 4%nat → length r = 20%nat → length p' = 4%nat →
  mwrite 0x000 p' (p ++ r) = p' ++ r.
Proof. intros Hp Hr Hp'. explicit p; explicit r; explicit p'. Qed.

(** The memory handed to the pairing; it is twice as long as the pad. *)
Lemma bls_pairing_layout p rest vk proof : length p = 4%nat → length rest = 20%nat → (20 ≤ length vk)%nat → length proof = 16%nat →
  mstores (pairing_stores vk proof) (p ++ rest) =
  p ++
  [0x0000000000000000000000000000000000d6ac33b84947d9845f81a57a136bfa;
   0x326e915fabc8cd6a57ff133b42d00f62e4e1af460228cd5184deae976fa62596;
   0x0000000000000000000000000000000000b997fef930828fe1b9e6a1707b8aa5;
   0x08a3dbfd7fe2246499c709226a0a6fef49f85b3a375363f4f8f6ea3fbd159f8a;
   0x00000000000000000000000000000000002933c9ab1da3519734bb7d40c74f7c;
   0x96f7cd46d372c68a05fbe4f5d29d09ebac0fdae50f6dde73818058280cc85ff1;
   0x0000000000000000000000000000000000955cf57c9676d751f0b5431b46efdd;
   0x5ea49e8f219e8b28d7bbd2176e29c49caa767e18b569d34dd5c5880f834819df]
  ++ take 12 vk ++ proof ++ take 8 (drop 12 vk).
Proof.
  intros Hp Hr Hvk Hpr. explicit p. explicit rest. explicit proof.
  do 20 (destruct vk as [|? vk]; [cbn in Hvk; lia|]). reflexivity.
Qed.

Lemma mread_all m : length m = 48%nat → mread 0 0x600 m = m.
Proof. intros Hm. explicit m. Qed.

Lemma mwrite_head w m : (0 < length m)%nat → mwrite 0 [w] m !! 0%nat = Some w.
Proof. destruct m; [cbn; lia | done]. Qed.

Section verify.
Context `{PairingCurve} `{Precompiles} `{!CurveLaws bls12_377} `{!PrecompileLaws bls12_377}.

Local Abbreviation enc1 := (enc1 bls12_377).
Local Abbreviation enc2 := (enc2 bls12_377).

Lemma enc1_four P : length (enc1 P) = 4%nat.
Proof using Type. exact (enc1_length (D:=bls12_377) P). Qed.
Lemma enc2_eight Q : length (enc2 Q) = 8%nat.
Proof using All. exact (enc2_length (D:=bls12_377) Q). Qed.

(** The point that a call of the multiplication leaves in the pad: the product, or the point
    itself when the call fails. *)
Definition mul_or_keep (x : Z) (P P' : PG1) : Prop :=
  match pc_mul (enc1 P ++ [x]) with Some ws => ws = enc1 P' | None => P' = P end.

Lemma mul_in_field x P : 0 ≤ x < cd_r bls12_377 → mul_or_keep x P (mul1 x P).
Proof using All. intros Hx. unfold mul_or_keep. by rewrite (pc_mul_enc (D:=bls12_377)). Qed.

(** One round, whether or not the multiplication succeeds. *)
Lemma bls_abc_round vk x inputs slot acc P P' tl rest s : 0 ≤ slot → length rest = 20%nat → mul_or_keep x P P' →
  drop (Z.to_nat slot) vk = enc1 P ++ tl →
  ∃ rest' s', length rest' = 20%nat ∧
    abc_loop vk (x :: inputs) slot (enc1 acc ++ rest) s =
    abc_loop vk inputs (slot + 4) (enc1 (add1 acc P') ++ rest') s'.
Proof using All.
  intros Hs Hr HP Hd.
  assert (∀ i w, enc1 P !! i = Some w → sload vk (slot + Z.of_nat i) = w) as Hload.
  { intros i w Hw. apply sload_drop; [done|]. rewrite Hd. by apply lookup_app_l_Some. }
  pose proof (enc1_four P) as HlP. cbn [abc_loop].
  assert (∃ c0 c1 c2 c3, enc1 P = [c0; c1; c2; c3]) as (c0 & c1 & c2 & c3 & Ec).
  { destruct (enc1 P) as [|? [|? [|? [|? [|]]]]]; try done. eauto 6. }
  rewrite Ec in Hload. assert (sload vk slot = c0) as -> by (rewrite <- (Z.add_0_r slot); by apply (Hload 0%nat)).
  rewrite (Hload 1%nat c1 eq_refl : sload vk (slot + 1) = _), (Hload 2%nat c2 eq_refl : sload vk (slot + 2) = _),
    (Hload 3%nat c3 eq_refl : sload vk (slot + 3) = _).
  destruct (bls_abc_stores (enc1 acc) c0 c1 c2 c3 x rest) as (r & Hr' & ->); [apply enc1_four | done |].
  rewrite <- Ec, bls_abc_mul by (done || apply enc1_four).
  assert (∃ b, match pc_mul (enc1 P ++ [x]) with
     | Some ws => (true, mwrite 0x080 (take 4 ws) (enc1 acc ++ enc1 P ++ x :: r))
     | None => (false, enc1 acc ++ enc1 P ++ x :: r) end = (b, enc1 acc ++ enc1 P' ++ x :: r)) as [b ->].
  { unfold mul_or_keep in HP. destruct (pc_mul _) as [ws|]; [|subst; eauto]. subst ws. exists true.
    rewrite take_ge by (rewrite enc1_four; lia). rewrite bls_write_mul; [done| apply enc1_four.. | cbn; lia | apply enc1_four]. }
  rewrite bls_abc_add by (apply enc1_four || (cbn; lia)). rewrite (pc_add_enc (D:=bls12_377)).
  rewrite take_ge by (rewrite enc1_four; lia).
  rewrite bls_write_add; [|apply enc1_four | rewrite length_app, enc1_four; cbn; lia | apply enc1_four].
  exists (enc1 P' ++ x :: r), (s && (b && true)). split; [rewrite length_app, enc1_four; cbn; lia | done].
Qed.

Lemma bls_abc_loop_spec inputs : ∀ vk pts pts' slot acc tl rest s, 0 ≤ slot →
  Forall2 (λ xP P', mul_or_keep xP.1 xP.2 P') (zip inputs pts) pts' →
  length pts = length inputs → length rest = 20%nat → drop (Z.to_nat slot) vk = (pts ≫= enc1) ++ tl →
  ∃ rest' s', length rest' = 20%nat ∧
    abc_loop vk inputs slot (enc1 acc ++ rest) s = (enc1 (foldl add1 acc pts') ++ rest', s').
Proof using All.
  induction inputs as [|x inputs IH]; intros vk pts pts' slot acc tl rest s Hs Hin Hl Hr Hd.
  { apply (Forall2_nil_inv_l (λ xP P', mul_or_keep xP.1 xP.2 P')) in Hin as ->. by exists rest, s. }
  destruct pts as [|P pts]; [done|]. cbn [zip zip_with] in Hin.
  apply (Forall2_cons_inv_l (λ xP P', mul_or_keep xP.1 xP.2 P')) in Hin as (P' & ps & HP & Hin & ->).
  cbn [length] in Hl. rewrite bind_cons, <- app_assoc in Hd.
  destruct (bls_abc_round vk x inputs slot acc P P' _ rest s Hs Hr HP Hd) as (r & s' & Hr' & ->).
  cbn [foldl]. apply IH with pts tl; [lia | done | lia | done |].
  replace (Z.to_nat (slot + 4)) with (Z.to_nat slot + 4)%nat by lia.
  rewrite <- drop_drop, Hd. apply drop_app_length'; symmetry; apply enc1_four.
Qed.

Lemma bls_minus_g2_words : enc2 (neg2 gen2) =
  [0x0000000000000000000000000000000000d6ac33b84947d9845f81a57a136bfa;
   0x326e915fabc8cd6a57ff133b42d00f62e4e1af460228cd5184deae976fa62596;
   0x0000000000000000000000000000000000b997fef930828fe1b9e6a1707b8aa5;
   0x08a3dbfd7fe2246499c709226a0a6fef49f85b3a375363f4f8f6ea3fbd159f8a;
   0x00000000000000000000000000000000002933c9ab1da3519734bb7d40c74f7c;
   0x96f7cd46d372c68a05fbe4f5d29d09ebac0fdae50f6dde73818058280cc85ff1;
   0x0000000000000000000000000000000000955cf57c9676d751f0b5431b46efdd;
   0x5ea49e8f219e8b28d7bbd2176e29c49caa767e18b569d34dd5c5880f834819df].
Proof using All.
  unfold VerifierFacts.enc2. rewrite (coords2_neg (D:=bls12_377)), (coords2_gen (D:=bls12_377))
    by apply (gen2_nonzero (D:=bls12_377)).
  vm_compute. reflexivity.
Qed.

Definition vk_words (alpha : PG1) (mbeta mdelta : PG2) (abc : list PG1) : list Z :=
  enc1 alpha ++ enc2 mbeta ++ enc2 mdelta ++ (abc ≫= enc1).

Lemma vk_words_length alpha mbeta mdelta abc : length (vk_words alpha mbeta mdelta abc) = (20 + 4 * length abc)%nat.
Proof using All.
  unfold vk_words. rewrite !length_app, enc1_four, !enc2_eight.
  enough (length (abc ≫= enc1) = 4 * length abc)%nat by lia.
  induction abc as [|P l IH]; [done|]. rewrite bind_cons, length_app, IH, enc1_four. cbn. lia.
Qed.

(** The words that reach the pairing, for any proof of sixteen words. *)
Lemma pairing_pad_spec alpha mbeta mdelta abc0 abc abc' proof inputs :
  Forall2 (λ xP P', mul_or_keep xP.1 xP.2 P') (zip inputs abc) abc' → length abc = length inputs → length proof = 16%nat →
  pairing_pad (vk_words alpha mbeta mdelta (abc0 :: abc)) proof inputs =
  enc_pair bls12_377 (foldl add1 abc0 abc', neg2 gen2) ++ enc_pair bls12_377 (alpha, mbeta) ++ proof ++ enc2 mdelta.
Proof using All.
  intros Hin Hl Hp. set (vk := vk_words _ _ _ _).
  assert (drop 12 vk = enc2 mdelta ++ enc1 abc0 ++ (abc ≫= enc1)) as H12.
  { unfold vk, vk_words. rewrite app_assoc, drop_app_length'; [done|]. by rewrite length_app, enc1_four, enc2_eight. }
  assert (drop 20 vk = enc1 abc0 ++ (abc ≫= enc1)) as H20.
  { change 20%nat with (12 + 8)%nat. rewrite <- drop_drop, H12. apply drop_app_length'; symmetry; apply enc2_eight. }
  assert (∀ i w, enc1 abc0 !! i = Some w → sload vk (20 + Z.of_nat i) = w) as Hload.
  { intros i w Hw. apply sload_drop; [done|]. change (Z.to_nat 20) with 20%nat. rewrite H20. by apply lookup_app_l_Some. }
  assert ([sload vk 20; sload vk 21; sload vk 22; sload vk 23] = enc1 abc0) as Hacc.
  { pose proof (enc1_four abc0) as H4. destruct (enc1 abc0) as [|a0 [|a1 [|a2 [|a3 [|]]]]]; try done.
    by rewrite <- (Hload 0%nat a0), <- (Hload 1%nat a1), <- (Hload 2%nat a2), <- (Hload 3%nat a3). }
  unfold pairing_pad.
  change (mstores _ (replicate 24 0)) with ([sload vk 20; sload vk 21; sload vk 22; sload vk 23] ++ replicate 20 0).
  rewrite Hacc.
  destruct (bls_abc_loop_spec inputs vk abc abc' 24 abc0 [] (replicate 20 0) true) as (rest & s & Hrest & ->);
    [lia | done | done | done | |].
  { change (Z.to_nat 24) with (20 + 4)%nat. rewrite <- drop_drop, H20, app_nil_r. apply drop_app_length'; symmetry; apply enc1_four. }
  rewrite bls_pairing_layout; [| apply enc1_four | done | unfold vk; rewrite vk_words_length; lia | done].
  rewrite <- bls_minus_g2_words, H12, (take_app_length' (enc2 mdelta)) by (symmetry; apply enc2_eight).
  assert (take 12 vk = enc1 alpha ++ enc2 mbeta) as ->.
  { unfold vk, vk_words. rewrite app_assoc. apply take_app_length'. by rewrite length_app, enc1_four, enc2_eight. }
  unfold enc_pair. cbn [fst snd]. repeat rewrite <- app_assoc. done.
Qed.

(** The guards of the library pass. *)
Lemma bls_verify_guards alpha mbeta mdelta abc0 abc proof inputs : length abc = length inputs → length proof = 16%nat →
  _verify (vk_words alpha mbeta mdelta (abc0 :: abc)) proof inputs =
  let '(_, pad) := call pc_pairing 0 0x600 0 0x20 (pairing_pad (vk_words alpha mbeta mdelta (abc0 :: abc)) proof inputs) in
  Ok (bool_decide (pad !! 0%nat = Some 1)).
Proof using All.
  intros Hl Hp. unfold _verify, zlen. rewrite Hp, vk_words_length. change (Z.of_nat 16 =? 16) with true.
  cbn [require mbind result_bind length]. rewrite (usub_to _ 20 ((1 + Z.of_nat (length inputs)) * 4)) by lia.
  cbn [mbind result_bind]. rewrite Z.div_mul by done. rewrite (usub_to _ 1 (Z.of_nat (length inputs))) by lia.
  cbn [mbind result_bind]. by rewrite Z.eqb_refl.
Qed.

(** The library on the words of points. *)
Lemma bls_verify_words alpha mbeta mdelta abc0 abc abc' A B C inputs :
  Forall2 (λ xP P', mul_or_keep xP.1 xP.2 P') (zip inputs abc) abc' → length abc = length inputs →
  _verify (vk_words alpha mbeta mdelta (abc0 :: abc)) (enc1 A ++ enc2 B ++ enc1 C) inputs =
  Ok (bool_decide (gt_prod [(foldl add1 abc0 abc', neg2 gen2); (alpha, mbeta); (A, B); (C, mdelta)] = gt_one)).
Proof using All.
  intros Hin Hl. assert (length (enc1 A ++ enc2 B ++ enc1 C) = 16%nat) as Hp by by rewrite !length_app, enc2_eight, !enc1_four.
  rewrite bls_verify_guards by done. rewrite (pairing_pad_spec _ _ _ _ _ abc') by done.
  unfold call. rewrite mread_all
    by (unfold enc_pair; cbn [fst snd]; rewrite !length_app, !enc2_eight, !enc1_four; lia).
  pose proof (pc_pairing_enc (D:=bls12_377) [(foldl add1 abc0 abc', neg2 gen2); (alpha, mbeta); (A, B); (C, mdelta)]) as E.
  cbn [mbind list_bind] in E. rewrite app_nil_r in E. unfold enc_pair at 3 4 in E. cbn [fst snd] in E.
  repeat rewrite <- app_assoc in E. repeat rewrite <- app_assoc. rewrite E.
  change (Z.to_nat (32 / 32)) with 1%nat. cbn [take firstn]. rewrite mwrite_head by (unfold enc_pair; cbn [fst snd]; rewrite !length_app, enc1_four; lia).
  f_equal. apply bool_decide_ext. case_decide; split; intros; congruence || done.
Qed.

(** The pairing refuses sixteen words that are not those of points. *)
Lemma pairing_refuses p0 p1 Q proof : length proof = 16%nat →
  (∀ A B C, proof ≠ enc1 A ++ enc2 B ++ enc1 C) →
  pc_pairing (enc_pair bls12_377 p0 ++ enc_pair bls12_377 p1 ++ proof ++ enc2 Q) = None.
Proof using All.
  intros Hp Hno. apply eq_None_not_Some. intros Hs.
  destruct (pc_pairing_valid (D:=bls12_377) _ Hs) as (l & Hw). rewrite app_assoc in Hw.
  apply proof_points in Hw as (A & B & C & E); [by apply Hno in E | exact (le_S _ _ (le_n 1)) | | done | apply enc2_eight].
  unfold enc_pair. by rewrite !length_app, !enc2_eight, !enc1_four.
Qed.

(** When the pairing call fails, the word compared with one is the first of the accumulator. *)
Lemma verify_failed_pairing alpha mbeta mdelta abc0 abc abc' proof inputs :
  Forall2 (λ xP P', mul_or_keep xP.1 xP.2 P') (zip inputs abc) abc' → length abc = length inputs → length proof = 16%nat →
  pc_pairing (enc_pair bls12_377 (foldl add1 abc0 abc', neg2 gen2) ++ enc_pair bls12_377 (alpha, mbeta) ++ proof ++ enc2 mdelta) = None →
  _verify (vk_words alpha mbeta mdelta (abc0 :: abc)) proof inputs =
  Ok (bool_decide (head (enc1 (foldl add1 abc0 abc')) = Some 1)).
Proof using All.
  intros Hin Hl Hp HN. rewrite bls_verify_guards by done. rewrite (pairing_pad_spec _ _ _ _ _ abc') by done.
  unfold call. rewrite mread_all
    by (unfold enc_pair; cbn [fst snd]; rewrite !length_app, !enc2_eight, !enc1_four; lia).
  rewrite HN. unfold enc_pair. cbn [fst snd]. rewrite <- app_assoc.
  pose proof (enc1_four (foldl add1 abc0 abc')) as H4. by destruct (enc1 (foldl add1 abc0 abc')).
Qed.
End verify.
End Groth16BLS12_377Facts.
