(* ===== verification/VerifierClient.v ===== *)
(** * The client's keys and proofs in the verifier contracts

    The parameters that [zksnark.py] computes from a key and a proof, in the verifiers of
    [VerifierAltBN128.v] and [VerifierBLS.v]: what the contract accepts is the equation of the scheme on the client's
    points, and a mix goes through only with points that satisfy it. *)

From Stdlib Require Import ZArith Lia Ascii String Strings.Byte.
From stdpp Require Import base tactics list gmap strings.
From S2P Require Import Prelude PyStr PyBytes PyFloat PyIO Hashes Constants MerkleTree Mimc Pairing ZkSnark Signing ContractTree ContractMixer ContractFacts ContractRuns VerifierAltBN128 VerifierBLS VerifierPghr13 VerifierFacts.

Local Open Scope Z_scope.

Import AbstractMerkleTree(Panic, require, usub).
Import AbstractMixer.

(** Points as the client keeps them, in hexadecimal. *)
Definition client_g1 `{PairingCurve} (D : CurveData) (P : PG1) : G1Point := g1_of (cd_bytes D) (coords1 P).
Definition client_g2 `{PairingCurve} (D : CurveData) (Q : PG2) : G2Point := g2_of (cd_bytes D) (coords2 Q).

Definition client_vk `{PairingCurve} (D : CurveData) (alpha : PG1) (beta delta : PG2) (abc : list PG1) : IVerificationKey :=
  VK_Groth16 (Groth16.mkVK (client_g1 D alpha) (client_g2 D beta) (client_g2 D delta) (client_g1 D <$> abc)).
Definition client_proof `{PairingCurve} (D : CurveData) (A : PG1) (B : PG2) (C : PG1) : IProof :=
  Proof_Groth16 (Groth16.mkProof (client_g1 D A) (client_g2 D B) (client_g1 D C)).

(** A point whose opposite the client can write: it is not the point at infinity and no
    coordinate of its ordinate is zero. *)
Definition negatable `{PairingCurve} (Q : PG2) : Prop := Q ≠ zero2 ∧ 0 ∉ (coords2 Q).2.

Section encoding.
Context `{PairingCurve} (D : CurveData) `{!CurveLaws D}.
Context (Hn : 0 < Z.of_nat (cd_bytes D) < 2 ^ 52) (Hq : 0 < cd_q D < 256 ^ Z.of_nat (cd_bytes D)).

Lemma coords1_field P : in_field (cd_bytes D) (coords1 P).1 ∧ in_field (cd_bytes D) (coords1 P).2.
Proof using All. destruct (coords1_range (D:=D) P). unfold in_field. lia. Qed.

Lemma coords2_field Q : Forall (in_field (cd_bytes D)) (coords2 Q).1 ∧ Forall (in_field (cd_bytes D)) (coords2 Q).2.
Proof using All.
  pose proof (coords2_range (D:=D) Q) as Hr. apply Forall_app in Hr as [Hx Hy].
  split; eapply Forall_impl; try eassumption; intros v Hv; cbn in Hv; unfold in_field; lia.
Qed.

Lemma coords2_opposite Q : negatable Q → coords2 (neg2 Q) = ((coords2 Q).1, neg_mod (cd_q D) <$> (coords2 Q).2).
Proof using All.
  intros [HQ Hy]. rewrite (coords2_neg (D:=D)) by done. f_equal. apply list_fmap_ext. intros i y Hi.
  pose proof (coords2_range (D:=D) Q) as Hr. apply Forall_app in Hr as [_ Hr].
  pose proof (proj1 (Forall_lookup _ _) Hr i y Hi) as Hb. cbn in Hb.
  assert (y ≠ 0) by (intros ->; apply Hy, list_elem_of_lookup; eauto).
  unfold neg_mod. rewrite (Z.mod_small y) by lia. rewrite <- (Z_mod_plus_full _ 1), Z.mod_small by lia. lia.
Qed.

(** The parameters of a key and a proof are the words of their points, with minus beta and
    minus delta. *)
Lemma client_words pp alpha beta delta abc A B C : pp_q pp = hex_of (cd_bytes D) (cd_q D) →
  negatable beta → negatable delta →
  groth16_vk_to_contract_parameters (client_vk D alpha beta delta abc) pp =
    Ok (enc1 D alpha ++ enc2 D (neg2 beta) ++ enc2 D (neg2 delta) ++ (abc ≫= enc1 D)) ∧
  groth16_proof_to_contract_parameters (client_proof D A B C) pp = Ok (enc1 D A ++ enc2 D B ++ enc1 D C).
Proof using All.
  intros Hpp Hb Hd.
  destruct (groth16_contract_parameters (cd_bytes D) (cd_q D) pp (coords1 alpha) (coords1 A) (coords1 C)
    (coords2 beta) (coords2 delta) (coords2 B) (coords1 <$> abc) Hn Hq Hpp) as [Ev Ep].
  - repeat (apply Forall_cons; split; [apply coords1_field|]). apply Forall_fmap, Forall_forall. intros P _. apply coords1_field.
  - repeat (apply Forall_cons; split; [apply coords2_field|]). by apply Forall_nil.
  - split; [|exact Ep]. unfold client_vk, client_g1, client_g2. rewrite <- list_fmap_compose in Ev. unfold compose in Ev.
    rewrite Ev. unfold enc2. rewrite !coords2_opposite by done. do 3 f_equal. f_equal.
    clear. induction abc as [|P l IH]; [done|]. rewrite fmap_cons, !bind_cons. by rewrite IH.
Qed.
End encoding.

Lemma alt_bn128_sizes : (0 < Z.of_nat (cd_bytes alt_bn128) < 2 ^ 52) ∧ (0 < cd_q alt_bn128 < 256 ^ Z.of_nat (cd_bytes alt_bn128)).
Proof. by vm_compute. Qed.

Lemma bls12_377_sizes : (0 < Z.of_nat (cd_bytes bls12_377) < 2 ^ 52) ∧ (0 < cd_q bls12_377 < 256 ^ Z.of_nat (cd_bytes bls12_377)).
Proof. by vm_compute. Qed.

(** What passes in a mix, whatever the verifier. *)
Lemma mix_verified `{MixerCurve} `{EcPrecompiles} d verifier ext msg proof vk sigma inputs cts st out :
  mix d verifier ext msg proof vk sigma inputs cts st = Ok out →
  verifier (_vk st) proof (_hashPublicProofData inputs) = Ok true.
Proof.
  unfold mix. intros Hm. apply bind_Ok_inv in Hm as ([nfs st1] & Hc & Hm).
  apply check_spec in Hc as (? & _ & _ & _ & _ & _ & _ & ->).
  do 4 apply bind_Ok_inv in Hm as (? & _ & Hm). apply bind_Ok_inv in Hm as (? & _ & Hm).
  apply bind_Ok_inv in Hm as (ok & Hok & Hm). apply bind_Ok_inv in Hm as (? & ->%require_Ok & _). exact Hok.
Qed.

Section altbn128.
Context `{PairingCurve} `{Precompiles} `{!CurveLaws alt_bn128} `{!PrecompileLaws alt_bn128}.

(** What [_verify] accepts has eight words and inputs of the scalar field. *)
Lemma verify_accepted vk proof x b : LibGroth16AltBN128._verify vk proof [x] = Ok b →
  length proof = 8%nat ∧ x < cd_r alt_bn128.
Proof using Type.
  unfold LibGroth16AltBN128._verify. intros Hv. apply bind_Ok_inv in Hv as (? & Hp%require_Ok & Hv).
  do 2 apply bind_Ok_inv in Hv as (? & _ & Hv). apply bind_Ok_inv in Hv as (? & _ & Hv).
  apply bind_Ok_inv in Hv as (? & Hx & _). cbn [LibGroth16AltBN128.inputs_in_field] in Hx.
  apply bind_Ok_inv in Hx as (? & Hx%require_Ok & _). unfold zlen in Hp. cbn in Hx. split; [lia|]. by apply Z.ltb_lt.
Qed.

(** C8: on the parameters that the client computes from a Groth16 key with two ABC
    points and from a proof, the alt-bn128 mixer accepts a public inputs hash of the
    scalar field exactly when the Groth16 equation
    e(A, B) = e(alpha, beta) e(ABC0 + hash ABC1, g2) e(C, delta) holds; a hash outside
    the scalar field reverts. *)
Theorem groth16_contract_verifies (pp : PairingParameters) (alpha abc0 abc1 A C : PG1) (beta delta B : PG2) (h : Z)
  (Hpp : pp_q pp = hex_of 32 LibPairing.q) (Hbeta : negatable beta) (Hdelta : negatable delta) (Hh : 0 ≤ h) :
  ∃ vk proof,
    groth16_vk_to_contract_parameters (client_vk alt_bn128 alpha beta delta [abc0; abc1]) pp = Ok vk ∧
    groth16_proof_to_contract_parameters (client_proof alt_bn128 A B C) pp = Ok proof ∧
    MixerGroth16AltBN128._verifyZkProof vk proof h =
      if h <? LibGroth16AltBN128._PRIME_R
      then Ok (bool_decide (groth16_equation alpha beta delta (add1 abc0 (mul1 h abc1)) A B C))
      else Err (Exception "Input is not in scalar field").
Proof using All.
  destruct alt_bn128_sizes as [Hn Hq].
  destruct (client_words alt_bn128 Hn Hq pp alpha beta delta [abc0; abc1] A B C Hpp Hbeta Hdelta) as [Ev Ep].
  do 2 eexists. split; [exact Ev|]. split; [exact Ep|]. unfold MixerGroth16AltBN128._verifyZkProof.
  destruct (h <? LibGroth16AltBN128._PRIME_R) eqn:Er.
  - etrans; [apply (Groth16AltBN128Facts.verify_words alpha (neg2 beta) (neg2 delta) abc0 [abc1] A B C [h])|].
    + apply Forall_cons. split; [|by apply Forall_nil]. apply Z.ltb_lt in Er. lia.
    + done.
    + f_equal. apply bool_decide_ext. apply groth16_product.
  - unfold LibGroth16AltBN128._verify.
    destruct (Groth16AltBN128Facts.vk_words_slots alpha (neg2 beta) (neg2 delta) [abc0; abc1]) as [Hlv _].
    unfold Groth16AltBN128Facts.vk_words in Hlv. unfold zlen.
    rewrite Hlv, !length_app, Groth16AltBN128Facts.enc2_shape, !Groth16AltBN128Facts.enc1_two. cbn. by rewrite Er.
Qed.

(** C9: a mix goes through on the Groth16 alt-bn128 mixer, deployed with a client's
    key, only when the words of the proof are points A, B, C that satisfy the Groth16
    equation for the hash of the public inputs of the call. *)
Theorem groth16_mix_sound `{MixerCurve} (d : nat) (ext : Action → option bool) (msg : Msg) (proof vk : list Z) (sigma : Z)
  (inputs : list Z) (cts : list bytes) (st : MixerState) (out : Outcome)
  (pp : PairingParameters) (alpha abc0 abc1 : PG1) (beta delta : PG2)
  (Hpp : pp_q pp = hex_of 32 LibPairing.q) (Hbeta : negatable beta) (Hdelta : negatable delta)
  (Hvk : groth16_vk_to_contract_parameters (client_vk alt_bn128 alpha beta delta [abc0; abc1]) pp = Ok (_vk st))
  (Hmix : mix d MixerGroth16AltBN128._verifyZkProof ext msg proof vk sigma inputs cts st = Ok out) :
  ∃ A B C, proof = enc1 alt_bn128 A ++ enc2 alt_bn128 B ++ enc1 alt_bn128 C ∧
    groth16_equation alpha beta delta (add1 abc0 (mul1 (_hashPublicProofData inputs) abc1)) A B C.
Proof using All.
  destruct alt_bn128_sizes as [Hn Hq].
  destruct (client_words alt_bn128 Hn Hq pp alpha beta delta [abc0; abc1] alpha beta alpha Hpp Hbeta Hdelta) as [Ev _].
  rewrite Hvk in Ev. apply Ok_inj in Ev. apply mix_verified in Hmix. rewrite Ev in Hmix.
  unfold MixerGroth16AltBN128._verifyZkProof in Hmix. set (h := _hashPublicProofData inputs) in *.
  pose proof (verify_accepted _ _ _ _ Hmix) as [Hp Hr].
  assert (Forall (λ x, 0 ≤ x < LibGroth16AltBN128._PRIME_R) [h]) as Hin.
  { apply Forall_cons. split; [|by apply Forall_nil]. split; [apply int_from_bytes_bound | exact Hr]. }
  destruct (Groth16AltBN128Facts.verify_points alpha (neg2 beta) (neg2 delta) abc0 [abc1] proof [h] true Hin eq_refl Hp Hmix)
    as (A & B & C & ->).
  exists A, B, C. split; [done|]. apply (groth16_product (D:=alt_bn128)).
  pose proof (Groth16AltBN128Facts.verify_words alpha (neg2 beta) (neg2 delta) abc0 [abc1] A B C [h] Hin eq_refl) as E.
  unfold Groth16AltBN128Facts.vk_words in E. rewrite E in Hmix. apply Ok_inj in Hmix. by apply bool_decide_eq_true in Hmix.
Qed.
End altbn128.

Section bls12_377.
Context `{PairingCurve} `{Precompiles} `{!CurveLaws bls12_377} `{!PrecompileLaws bls12_377}.

Lemma client_vk_words pp alpha beta delta abc A B C : pp_q pp = hex_of 48 (cd_q bls12_377) →
  negatable beta → negatable delta →
  groth16_vk_to_contract_parameters (client_vk bls12_377 alpha beta delta abc) pp =
    Ok (Groth16BLS12_377Facts.vk_words alpha (neg2 beta) (neg2 delta) abc) ∧
  groth16_proof_to_contract_parameters (client_proof bls12_377 A B C) pp =
    Ok (enc1 bls12_377 A ++ enc2 bls12_377 B ++ enc1 bls12_377 C).
Proof using All. destruct bls12_377_sizes as [Hn Hq]. intros Hpp. by apply (client_words bls12_377 Hn Hq). Qed.

(** The same over BLS12-377, for a hash of the scalar field. *)
Theorem groth16_bls12_377_verifies (pp : PairingParameters) (alpha abc0 abc1 A C : PG1) (beta delta B : PG2) (h : Z)
  (Hpp : pp_q pp = hex_of 48 (cd_q bls12_377)) (Hbeta : negatable beta) (Hdelta : negatable delta)
  (Hh : 0 ≤ h < cd_r bls12_377) :
  ∃ vk proof,
    groth16_vk_to_contract_parameters (client_vk bls12_377 alpha beta delta [abc0; abc1]) pp = Ok vk ∧
    groth16_proof_to_contract_parameters (client_proof bls12_377 A B C) pp = Ok proof ∧
    MixerGroth16BLS12_377._verifyZkProof vk proof h =
      Ok (bool_decide (groth16_equation alpha beta delta (add1 abc0 (mul1 h abc1)) A B C)).
Proof using All.
  destruct (client_vk_words pp alpha beta delta [abc0; abc1] A B C Hpp Hbeta Hdelta) as [Ev Ep].
  do 2 eexists. split; [exact Ev|]. split; [exact Ep|]. unfold MixerGroth16BLS12_377._verifyZkProof.
  rewrite (Groth16BLS12_377Facts.bls_verify_words _ _ _ _ _ [mul1 h abc1]);
    [|apply Forall2_cons; split; [by apply Groth16BLS12_377Facts.mul_in_field | by apply Forall2_nil] | done].
  f_equal. apply bool_decide_ext, groth16_product.
Qed.

(** C24: [LibGroth16BLS12_377] ignores the failure of a precompiled contract.  A public
    input that the multiplication refuses is verified as if it were one: the equation
    is checked for ABC0 + ABC1.  And for sixteen words that are not a proof (they are not the
    words of points), the answer is whether the first word of ABC0 + hash ABC1 is one,
    instead of a revert. *)
Theorem bls12_377_failures_ignored (pp : PairingParameters) (alpha abc0 abc1 A C : PG1) (beta delta B : PG2)
  (h x : Z) (bad : list Z)
  (Hpp : pp_q pp = hex_of 48 (cd_q bls12_377)) (Hbeta : negatable beta) (Hdelta : negatable delta)
  (Hx : pc_mul (enc1 bls12_377 abc1 ++ [x]) = None)
  (Hh : 0 ≤ h < cd_r bls12_377) (Hbad : length bad = 16%nat)
  (Hrefused : ∀ A B C, bad ≠ enc1 bls12_377 A ++ enc2 bls12_377 B ++ enc1 bls12_377 C) :
  ∃ vk proof,
    groth16_vk_to_contract_parameters (client_vk bls12_377 alpha beta delta [abc0; abc1]) pp = Ok vk ∧
    groth16_proof_to_contract_parameters (client_proof bls12_377 A B C) pp = Ok proof ∧
    MixerGroth16BLS12_377._verifyZkProof vk proof x =
      Ok (bool_decide (groth16_equation alpha beta delta (add1 abc0 abc1) A B C)) ∧
    MixerGroth16BLS12_377._verifyZkProof vk bad h =
      Ok (bool_decide (head (enc1 bls12_377 (add1 abc0 (mul1 h abc1))) = Some 1)).
Proof using All.
  destruct (client_vk_words pp alpha beta delta [abc0; abc1] A B C Hpp Hbeta Hdelta) as [Ev Ep].
  do 2 eexists. split; [exact Ev|]. split; [exact Ep|]. unfold MixerGroth16BLS12_377._verifyZkProof. split.
  - rewrite (Groth16BLS12_377Facts.bls_verify_words _ _ _ _ _ [abc1]);
      [|apply Forall2_cons; split; [by unfold Groth16BLS12_377Facts.mul_or_keep; cbn [fst snd]; rewrite Hx | by apply Forall2_nil] | done].
    f_equal. apply bool_decide_ext, groth16_product.
  - apply (Groth16BLS12_377Facts.verify_failed_pairing alpha (neg2 beta) (neg2 delta) abc0 [abc1] [mul1 h abc1] bad [h]);
      [|reflexivity | exact Hbad | by apply Groth16BLS12_377Facts.pairing_refuses].
    apply Forall2_cons. split; [by apply Groth16BLS12_377Facts.mul_in_field | by apply Forall2_nil].
Qed.
End bls12_377.
