(* ===== verification/Pghr13Facts.v ===== *)
(** * PGHR13 in the contract

    [MixerPghr13AltBN128] on the parameters that the client computes from a key and a proof:
    the code it returns is the number of the first of the five equations that fails. *)

From Stdlib Require Import ZArith Lia Ascii String Strings.Byte.
From stdpp Require Import base tactics list gmap strings.
From S2P Require Import Prelude PyStr PyBytes PyFloat PyIO Hashes Constants MerkleTree Mimc Pairing ZkSnark Signing ContractTree ContractMixer ContractFacts ContractRuns VerifierAltBN128 VerifierBLS VerifierPghr13 VerifierFacts VerifierClient.

Local Open Scope Z_scope.

Import AbstractMerkleTree(Panic, require, usub).
Import LibPairing.

Section pghr13.
Context `{PairingCurve} `{Precompiles} `{!CurveLaws alt_bn128} `{!PrecompileLaws alt_bn128} `{!EvmPoints alt_bn128}.

(** Points as the structures of the contract. *)
Definition pt1 (P : PG1) : G1Point := mkG1Point (coords1 P).1 (coords1 P).2.
Definition pt2 (Q : PG2) : G2Point :=
  mkG2Point (default 0 ((coords2 Q).1 !! 0%nat)) (default 0 ((coords2 Q).1 !! 1%nat))
            (default 0 ((coords2 Q).2 !! 0%nat)) (default 0 ((coords2 Q).2 !! 1%nat)).

Lemma word_small v : 0 ≤ v < cd_q alt_bn128 → coord_words alt_bn128 v = [v].
Proof using Type.
  intros Hv. change (coord_words alt_bn128 v) with ([v mod 2 ^ 256]). rewrite Z.mod_small; [done|].
  destruct alt_bn128_sizes as [_ Hq]. change (256 ^ Z.of_nat (cd_bytes alt_bn128)) with (2 ^ 256) in Hq. lia.
Qed.

Lemma enc1_pt P : enc1 alt_bn128 P = [X (pt1 P); Y (pt1 P)].
Proof using All. destruct (coords1_range (D:=alt_bn128) P). unfold enc1. by rewrite !word_small. Qed.

Lemma enc2_pt Q : enc2 alt_bn128 Q = [X0 (pt2 Q); X1 (pt2 Q); Y0 (pt2 Q); Y1 (pt2 Q)].
Proof using All.
  unfold enc2, pt2. pose proof (coords2_range (D:=alt_bn128) Q) as Hr. destruct (coords2_length (D:=alt_bn128) Q) as [Hx Hy].
  destruct (coords2 Q) as [xs ys]. cbn [fst snd] in *.
  destruct xs as [|x0 [|x1 [|]]]; try done. destruct ys as [|y0 [|y1 [|]]]; try done.
  cbn [app] in Hr. rewrite !Forall_cons in Hr. destruct Hr as (? & ? & ? & ? & _). cbn [mbind list_bind].
  by rewrite !word_small.
Qed.

Lemma genG2_pt : _genG2 = pt2 gen2.
Proof using All. unfold pt2. rewrite (coords2_gen (D:=alt_bn128)). done. Qed.

Lemma zero_pt : mkG1Point 0 0 = pt1 zero1.
Proof using All. unfold pt1. by rewrite (coords1_zero (D:=alt_bn128)). Qed.

Lemma negateG2_pt P : _negateG2 (pt1 P) = pt1 (neg1 P).
Proof using All.
  unfold _negateG2, pt1. cbn [X Y]. rewrite (coords1_neg (D:=alt_bn128)). cbn [fst snd].
  destruct (coords1_range (D:=alt_bn128) P) as [_ Hy]. pose proof (coords1_ordinate (D:=alt_bn128) P) as Ho.
  change (cd_q alt_bn128) with q in *. destruct (Z.eqb_spec (coords1 P).2 0) as [E|E].
  - rewrite E, Ho by done. done.
  - rewrite andb_false_r, (Z.mod_small (coords1 P).2) by lia. f_equal.
    rewrite <- (Z_mod_plus_full _ 1), Z.mod_small by lia. lia.
Qed.

Lemma addG1_pt P Q : _addG1 (pt1 P) (pt1 Q) = Ok (pt1 (add1 P Q)).
Proof using All.
  pose proof (pc_add_enc (D:=alt_bn128) P Q) as E. rewrite !enc1_pt in E. cbn [app] in E. unfold _addG1. by rewrite E.
Qed.

Lemma scalarMulG1_pt P k : 0 ≤ k < cd_r alt_bn128 → _scalarMulG1 (pt1 P) k = Ok (pt1 (mul1 k P)).
Proof using All.
  intros Hk. pose proof (pc_mul_enc (D:=alt_bn128) P k Hk) as E. rewrite !enc1_pt in E. cbn [app] in E.
  unfold _scalarMulG1. by rewrite E.
Qed.

Lemma pairing_pt l : _pairing (pt1 <$> l.*1) (pt2 <$> l.*2) = Ok (bool_decide (gt_prod l = gt_one)).
Proof using All.
  unfold _pairing. rewrite bool_decide_true by by rewrite !length_fmap. cbn [require mbind result_bind].
  assert (zip (pt1 <$> l.*1) (pt2 <$> l.*2) ≫= pair_words = l ≫= enc_pair alt_bn128) as ->.
  { induction l as [|[P Q] l IH]; [done|]. rewrite !fmap_cons. cbn [zip zip_with fst snd]. rewrite !bind_cons.
    unfold enc_pair at 1. cbn [fst snd]. rewrite enc1_pt, enc2_pt. by f_equal. }
  rewrite (pc_pairing_enc (D:=alt_bn128)). destruct (decide (gt_prod l = gt_one)) as [E|E];
    [by rewrite bool_decide_true | by rewrite bool_decide_false].
Qed.

Lemma prod2_pt P Q P' Q' : _pairingProd2 (pt1 P) (pt2 Q) (_negateG2 (pt1 P')) (pt2 Q') = Ok (bool_decide (e P Q = e P' Q')).
Proof using All.
  rewrite negateG2_pt. etrans; [exact (pairing_pt [(P, Q); (neg1 P', Q')])|].
  f_equal. apply bool_decide_ext, (product2 (D:=alt_bn128)).
Qed.

Lemma prod3_pt P Q P1 Q1 P2 Q2 :
  _pairingProd3 (pt1 P) (pt2 Q) (_negateG2 (pt1 P1)) (pt2 Q1) (_negateG2 (pt1 P2)) (pt2 Q2) =
  Ok (bool_decide (e P Q = gt_mul (e P1 Q1) (e P2 Q2))).
Proof using All.
  rewrite !negateG2_pt. etrans; [exact (pairing_pt [(P, Q); (neg1 P1, Q1); (neg1 P2, Q2)])|].
  f_equal. apply bool_decide_ext, (product3 (D:=alt_bn128)).
Qed.

(** ** Keys and proofs *)

Record Key : Type := mkKey {
  kA : PG2; kB : PG1; kC : PG2; kgamma : PG2; kgammaBeta1 : PG1; kgammaBeta2 : PG2; kZ : PG2; kIC0 : PG1; kIC1 : PG1
}.
Record Pi : Type := mkPi {
  piA : PG1; piA' : PG1; piB : PG2; piB' : PG1; piC : PG1; piC' : PG1; piH : PG1; piK : PG1
}.

Definition client_key (k : Key) : IVerificationKey :=
  let g1 := client_g1 alt_bn128 in let g2 := client_g2 alt_bn128 in
  VK_PGHR13 (PGHR13.mkVK (g2 (kA k)) (g1 (kB k)) (g2 (kC k)) (g2 (kgamma k)) (g1 (kgammaBeta1 k)) (g2 (kgammaBeta2 k))
    (g2 (kZ k)) [g1 (kIC0 k); g1 (kIC1 k)]).
Definition client_pi (p : Pi) : IProof :=
  let g1 := client_g1 alt_bn128 in let g2 := client_g2 alt_bn128 in
  Proof_PGHR13 (PGHR13.mkProof (g1 (piA p)) (g1 (piA' p)) (g2 (piB p)) (g1 (piB' p)) (g1 (piC p)) (g1 (piC' p))
    (g1 (piH p)) (g1 (piK p))).

(** The equations of the scheme, in the order of the code: knowledge of A, B and C, the same
    coefficients, divisibility. *)
Definition pghr13_equations (k : Key) (p : Pi) (h : Z) : list bool :=
  let x := add1 (mul1 h (kIC1 k)) (kIC0 k) in
  [ bool_decide (e (piA p) (kA k) = e (piA' p) gen2);
    bool_decide (e (kB k) (piB p) = e (piB' p) gen2);
    bool_decide (e (piC p) (kC k) = e (piC' p) gen2);
    bool_decide (e (piK p) (kgamma k) =
      gt_mul (e (add1 x (add1 (piA p) (piC p))) (kgammaBeta2 k)) (e (kgammaBeta1 k) (piB p)));
    bool_decide (e (add1 x (piA p)) (piB p) = gt_mul (e (piH p) (kZ k)) (e (piC p) gen2)) ].

(** The number of the first that fails, zero when none does. *)
Fixpoint first_failure (i : Z) (l : list bool) : Z :=
  match l with [] => 0 | b :: l => if b then first_failure (i + 1) l else i end.

Definition key_words (k : Key) : list Z :=
  enc2 alt_bn128 (kA k) ++ enc1 alt_bn128 (kB k) ++ enc2 alt_bn128 (kC k) ++ enc2 alt_bn128 (kgamma k) ++
  enc1 alt_bn128 (kgammaBeta1 k) ++ enc2 alt_bn128 (kgammaBeta2 k) ++ enc2 alt_bn128 (kZ k) ++
  enc1 alt_bn128 (kIC0 k) ++ enc1 alt_bn128 (kIC1 k).
Definition pi_words (p : Pi) : list Z :=
  enc1 alt_bn128 (piA p) ++ enc1 alt_bn128 (piA' p) ++ enc2 alt_bn128 (piB p) ++ enc1 alt_bn128 (piB' p) ++
  enc1 alt_bn128 (piC p) ++ enc1 alt_bn128 (piC' p) ++ enc1 alt_bn128 (piH p) ++ enc1 alt_bn128 (piK p).
Definition pi_points (p : Pi) : MixerPghr13AltBN128.Proof :=
  MixerPghr13AltBN128.mkProof (pt1 (piA p)) (pt1 (piA' p)) (pt2 (piB p)) (pt1 (piB' p)) (pt1 (piC p)) (pt1 (piC' p))
    (pt1 (piK p)) (pt1 (piH p)).

Lemma client_g1_words P : g1_point_to_contract_parameters (client_g1 alt_bn128 P) = Ok (enc1 alt_bn128 P).
Proof using All.
  destruct alt_bn128_sizes as [Hn Hq]. destruct (coords1_field alt_bn128 Hn Hq P).
  apply (g1_parameters 32); [lia | lia | done | done].
Qed.
Lemma client_g2_words Q : g2_point_to_contract_parameters (client_g2 alt_bn128 Q) = Ok (enc2 alt_bn128 Q).
Proof using All.
  destruct alt_bn128_sizes as [Hn Hq]. destruct (coords2_field alt_bn128 Hn Hq Q).
  apply (g2_parameters 32); [lia | lia | done | done].
Qed.

Lemma client_key_words k p pp :
  pghr13_vk_to_contract_parameters (client_key k) pp = Ok (key_words k) ∧
  pghr13_proof_to_contract_parameters (client_pi p) pp = Ok (pi_words p).
Proof using All.
  unfold pghr13_vk_to_contract_parameters, client_key, pghr13_proof_to_contract_parameters, client_pi.
  cbn [PGHR13.a PGHR13.b PGHR13.c PGHR13.g PGHR13.gb1 PGHR13.gb2 PGHR13.z PGHR13.ic g1s fmap list_fmap app
       PGHR13.pa PGHR13.pa_p PGHR13.pb PGHR13.pb_p PGHR13.pc PGHR13.pc_p PGHR13.ph PGHR13.pk concatM].
  rewrite !client_g1_words, !client_g2_words. cbn [mbind result_bind]. by rewrite !app_nil_r.
Qed.

Lemma decode_key k : MixerPghr13AltBN128.decode_vk (key_words k) =
  Ok (MixerPghr13AltBN128.mkVerifyingKey (pt2 (kA k)) (pt1 (kB k)) (pt2 (kC k)) (pt2 (kgamma k)) (pt1 (kgammaBeta1 k))
    (pt2 (kgammaBeta2 k)) (pt2 (kZ k)) [pt1 (kIC0 k); pt1 (kIC1 k)]).
Proof using All. unfold key_words. rewrite !enc1_pt, !enc2_pt. reflexivity. Qed.

(** The verifier on a decoded proof. *)
Lemma verify_code k p h : 0 ≤ h < cd_r alt_bn128 →
  MixerPghr13AltBN128._verify (key_words k) [h] (pi_points p) = Ok (first_failure 1 (pghr13_equations k p h)).
Proof using All.
  intros Hh. unfold MixerPghr13AltBN128._verify. rewrite decode_key. cbn [mbind result_bind].
  change (zlen [h] + 1 =? _) with true. cbn [require mbind result_bind MixerPghr13AltBN128.vk_IC tail MixerPghr13AltBN128.lin_loop].
  rewrite scalarMulG1_pt by done. cbn [mbind result_bind]. rewrite zero_pt, addG1_pt. cbn [mbind result_bind].
  change (of_option Panic ([pt1 (kIC0 k); pt1 (kIC1 k)] !! 0%nat)) with (Ok (pt1 (kIC0 k))). cbn [mbind result_bind].
  rewrite addG1_pt, (add1_zero (D:=alt_bn128)). cbn [mbind result_bind]. rewrite genG2_pt.
  unfold pi_points, pghr13_equations.
  cbn [MixerPghr13AltBN128.A MixerPghr13AltBN128.A_p MixerPghr13AltBN128.B MixerPghr13AltBN128.B_p MixerPghr13AltBN128.C
       MixerPghr13AltBN128.C_p MixerPghr13AltBN128.K MixerPghr13AltBN128.H MixerPghr13AltBN128.vk_A MixerPghr13AltBN128.vk_B
       MixerPghr13AltBN128.vk_C MixerPghr13AltBN128.vk_gamma MixerPghr13AltBN128.vk_gammaBeta1
       MixerPghr13AltBN128.vk_gammaBeta2 MixerPghr13AltBN128.vk_Z first_failure].
  rewrite (prod2_pt (piA p) (kA k)). cbn [mbind result_bind]. destruct (bool_decide (e (piA p) (kA k) = _)); cbn [negb]; [|done].
  rewrite (prod2_pt (kB k) (piB p)). cbn [mbind result_bind]. destruct (bool_decide (e (kB k) (piB p) = _)); cbn [negb]; [|done].
  rewrite (prod2_pt (piC p) (kC k)). cbn [mbind result_bind]. destruct (bool_decide (e (piC p) (kC k) = _)); cbn [negb]; [|done].
  rewrite (addG1_pt (piA p) (piC p)). cbn [mbind result_bind]. rewrite (addG1_pt _ (add1 (piA p) (piC p))).
  cbn [mbind result_bind]. rewrite (prod3_pt (piK p)). cbn [mbind result_bind].
  destruct (bool_decide (e (piK p) _ = _)); cbn [negb]; [|done].
  rewrite (addG1_pt _ (piA p)). cbn [mbind result_bind]. rewrite prod3_pt. cbn [mbind result_bind]. by destruct (bool_decide _).
Qed.

Lemma first_failure_zero l i : 0 < i → (first_failure i l =? 0) = forallb id l.
Proof using Type.
  revert i. induction l as [|b l IH]; intros i Hi; [done|]. cbn [first_failure forallb]. destruct b; cbn [id andb]; [apply IH; lia|].
  apply Z.eqb_neq. lia.
Qed.

(** C26: on the parameters that the client computes from a PGHR13 key with two IC points
    and from a proof, the contract's verifier returns the number of the first of the
    five equations that fails (zero when all hold), for a hash of the scalar field; the
    mixer accepts exactly when all five hold, and reverts on a hash outside the field. *)
Theorem pghr13_contract_verifies (k : Key) (p : Pi) (pp : PairingParameters) (h : Z) (Hh : 0 ≤ h) :
  ∃ vk proof,
    pghr13_vk_to_contract_parameters (client_key k) pp = Ok vk ∧
    pghr13_proof_to_contract_parameters (client_pi p) pp = Ok proof ∧
    (h < cd_r alt_bn128 →
      MixerPghr13AltBN128._verify vk [h] (pi_points p) = Ok (first_failure 1 (pghr13_equations k p h))) ∧
    MixerPghr13AltBN128._verifyZkProof vk proof h =
      if h <? cd_r alt_bn128 then Ok (forallb id (pghr13_equations k p h))
      else Err (Exception "Input is not is scalar field").
Proof using All.
  destruct (client_key_words k p pp) as [Ek Ep]. exists (key_words k), (pi_words p).
  split; [done|]. split; [done|]. split; [intros; apply verify_code; lia|].
  transitivity (
    _ ← require (h <? cd_r alt_bn128) "Input is not is scalar field";
    v ← MixerPghr13AltBN128._verify (key_words k) [h] (pi_points p); Ok (v =? 0)).
  { unfold pi_words. rewrite !enc1_pt, !enc2_pt. reflexivity. }
  destruct (Z.ltb_spec h (cd_r alt_bn128)); cbn [require mbind result_bind]; [|done].
  rewrite verify_code by lia. cbn [mbind result_bind]. by rewrite first_failure_zero.
Qed.
End pghr13.
