(* ===== verification/VerifierSample.v ===== *)
(** * A concrete pairing

    The subgroup of three points generated by a point and its opposite, with the coordinates of
    the real generators, satisfies what the theorems on the verifiers rely on. *)

From Stdlib Require Import ZArith Lia Ascii String Strings.Byte.
From stdpp Require Import base tactics list gmap strings.
From S2P Require Import Prelude PyStr PyBytes PyFloat PyIO Hashes Constants MerkleTree Mimc Pairing ZkSnark Signing ContractTree ContractMixer ContractFacts ContractRuns ContractClient VerifierAltBN128 VerifierBLS VerifierPghr13 VerifierFacts VerifierClient Pghr13Facts.

Local Open Scope Z_scope.

Import AbstractMixer.

(** ** Three points *)

Module ThreePoints.
Inductive three : Set := Zero | Plus | Minus.
#[export] Instance three_eq_dec : EqDecision three.
Proof. solve_decision. Defined.

Definition add3 (a b : three) : three :=
  match a, b with
  | Zero, c | c, Zero => c
  | Plus, Plus => Minus
  | Minus, Minus => Plus
  | _, _ => Zero
  end.
Definition neg3 (a : three) : three := match a with Zero => Zero | Plus => Minus | Minus => Plus end.
Definition mul3 (k : Z) (a : three) : three :=
  match k mod 3 with 0 => Zero | 1 => a | _ => neg3 a end.
Definition e3 (a b : three) : three := match a with Zero => Zero | Plus => b | Minus => neg3 b end.

Section curve.
Context (D : CurveData) (g : Z * Z).

Definition at1 (a : three) : Z * Z :=
  match a with Zero => (0, 0) | Plus => g | Minus => (g.1, (- g.2) mod cd_q D) end.
Definition at2 (a : three) : list Z * list Z :=
  match a with
  | Zero => ([0; 0], [0; 0])
  | Plus => cd_gen2 D
  | Minus => ((cd_gen2 D).1, (λ y, (- y) mod cd_q D) <$> (cd_gen2 D).2)
  end.

Definition curve : PairingCurve := {|
  PG1 := three; PG2 := three; PGT := three;
  zero1 := Zero; add1 := add3; neg1 := neg3; mul1 := mul3;
  zero2 := Zero; gen2 := Plus; neg2 := neg3;
  gt_one := Zero; gt_mul := add3; e := e3;
  coords1 := at1; coords2 := at2
|}.
#[local] Existing Instance curve.

(** Reading the words of a point. *)
Definition decode (enc : three → list Z) (ws : list Z) : option three :=
  if decide (ws = enc Zero) then Some Zero else if decide (ws = enc Plus) then Some Plus
  else if decide (ws = enc Minus) then Some Minus else None.

Definition n1 : nat := 2 * num_words (cd_bytes D).
Definition n2 : nat := 4 * num_words (cd_bytes D).

Fixpoint decode_pairs (fuel : nat) (ws : list Z) : option (list (PG1 * PG2)) :=
  match fuel, ws with
  | _, [] => Some []
  | O, _ => None
  | S fuel, ws =>
      P ← decode (enc1 D) (take n1 ws); Q ← decode (enc2 D) (take n2 (drop n1 ws));
      l ← decode_pairs fuel (drop (n1 + n2) ws); Some ((P, Q) :: l)
  end.

Definition precompiles : Precompiles := {|
  pc_add ws := P ← decode (enc1 D) (take n1 ws); Q ← decode (enc1 D) (drop n1 ws); Some (enc1 D (add3 P Q));
  pc_mul ws :=
    P ← decode (enc1 D) (take n1 ws);
    match drop n1 ws with
    | [k] => if (0 <=? k) && (k <? cd_r D) then Some (enc1 D (mul3 k P)) else None
    | _ => None
    end;
  pc_pairing ws := l ← decode_pairs (length ws) ws; Some [if decide (gt_prod l = Zero) then 1 else 0]
|}.
#[local] Existing Instance precompiles.

Context (Hdec1 : ∀ P, decode (enc1 D) (enc1 D P) = Some P) (Hdec2 : ∀ Q, decode (enc2 D) (enc2 D Q) = Some Q).
Context (Hl1 : ∀ P, length (enc1 D P) = n1) (Hl2 : ∀ Q, length (enc2 D Q) = n2) (Hpos : (0 < n1)%nat).

Lemma decode_sound enc ws P : decode enc ws = Some P → ws = enc P.
Proof using Type. unfold decode. repeat case_decide; by intros [= <-]. Qed.

Lemma decode_pairs_enc (l : list (PG1 * PG2)) : ∀ fuel, (length l ≤ fuel)%nat → decode_pairs fuel (l ≫= enc_pair D) = Some l.
Proof using All.
  induction l as [|[P Q] l IH]; intros fuel Hf; [by destruct fuel|].
  destruct fuel as [|fuel]; [cbn in Hf; lia|]. rewrite bind_cons. unfold enc_pair at 1. cbn [fst snd].
  set (tl := mbind (M:=list) (enc_pair D) l). destruct ((enc1 D P ++ enc2 D Q) ++ tl) as [|w ws] eqn:E.
  { apply (f_equal length) in E. rewrite !length_app, Hl1 in E. cbn [length] in E. lia. }
  cbn [decode_pairs]. rewrite <- E. rewrite <- app_assoc.
  rewrite take_app_length' by (symmetry; apply Hl1). rewrite Hdec1. cbn [mbind option_bind].
  rewrite (drop_app_length' (enc1 D P) _ n1) by (symmetry; apply Hl1). rewrite take_app_length' by (symmetry; apply Hl2). rewrite Hdec2. cbn [mbind option_bind].
  rewrite app_assoc, drop_app_length' by (rewrite length_app, Hl1, Hl2; done). unfold tl. rewrite IH by (cbn [length] in Hf; lia). done.
Qed.

Lemma decode_pairs_sound fuel : ∀ ws l, decode_pairs fuel ws = Some l → ws = l ≫= enc_pair D.
Proof using All.
  induction fuel as [|fuel IH]; intros ws l Hd; destruct ws as [|w ws]; try done; try by (injection Hd as <-).
  cbn [decode_pairs] in Hd. set (m := w :: ws) in *.
  apply bind_Some in Hd as (P & HP%decode_sound & Hd). apply bind_Some in Hd as (Q & HQ%decode_sound & Hd).
  apply bind_Some in Hd as (l' & Hl%IH & [= <-]). rewrite bind_cons. unfold enc_pair at 1. cbn [fst snd].
  rewrite <- HP, <- HQ, <- Hl, <- drop_drop, <- app_assoc, (take_drop n2), take_drop. done.
Qed.

Lemma precompiles_laws : PrecompileLaws D.
Proof using All.
  split.
  - intros P Q. cbn [pc_add precompiles]. rewrite take_app_length' by (symmetry; apply Hl1).
    rewrite drop_app_length' by (symmetry; apply Hl1). by rewrite !Hdec1.
  - intros P k Hk. cbn [pc_mul precompiles]. rewrite take_app_length' by (symmetry; apply Hl1).
    rewrite drop_app_length' by (symmetry; apply Hl1). rewrite Hdec1. cbn [mbind option_bind].
    rewrite (proj2 (Z.leb_le 0 k)), (proj2 (Z.ltb_lt k (cd_r D))) by lia. done.
  - intros l. cbn [pc_pairing precompiles]. rewrite decode_pairs_enc; [done|].
    induction l as [|[P Q] l IH]; [done|]. rewrite bind_cons, length_app. unfold enc_pair at 1. cbn [fst snd].
    rewrite length_app, Hl1. cbn [length]. lia.
  - intros ws [out Hs]. cbn [pc_pairing precompiles] in Hs. apply bind_Some in Hs as (l & Hl & _).
    exists l. by apply decode_pairs_sound in Hl.
Qed.
End curve.

(** The group laws, by cases. *)
Ltac by_cases := repeat match goal with a : three |- _ => destruct a end; try done.

Lemma curve_laws_of D g :
  (∀ P, 0 ≤ (at1 D g P).1 < cd_q D ∧ 0 ≤ (at1 D g P).2 < cd_q D) →
  (∀ Q, length (at2 D Q).1 = 2%nat ∧ length (at2 D Q).2 = 2%nat) →
  (∀ Q, Forall (λ v, 0 ≤ v < cd_q D) ((at2 D Q).1 ++ (at2 D Q).2)) →
  (λ y, (- y) mod cd_q D) <$> (at2 D Minus).2 = (cd_gen2 D).2 → CurveLaws (H := curve D g) D.
Proof.
  intros H1 H2 H3 H4. split; cbn [curve PG1 PG2 PGT]; try done; try (intros; by_cases).
  etrans; [|apply (f_equal (pair (cd_gen2 D).1)); symmetry; exact H4]. cbn. by destruct (cd_gen2 D).
Qed.
End ThreePoints.

(** ** Witnesses over alt-bn128 *)

Module VerifierSample.
Import ThreePoints.

#[local] Instance bn_curve : PairingCurve := curve alt_bn128 (1, 2).
#[local] Instance bn_precompiles : Precompiles := precompiles alt_bn128 (1, 2).

#[local] Instance bn_laws : CurveLaws alt_bn128.
Proof.
  apply curve_laws_of.
  - intros []; vm_compute; done.
  - intros []; done.
  - intros []; apply (bool_decide_unpack _); vm_compute; exact I.
  - vm_compute. reflexivity.
Qed.

#[local] Instance bn_points : EvmPoints alt_bn128.
Proof.
  split; cbn [bn_curve curve PG1 PG2 PGT].
  - intros []; done.
  - intros [] []; done.
  - done.
  - intros []; vm_compute; done.
  - intros []; vm_compute; done.
Qed.

#[local] Instance bn_precompiles_laws : PrecompileLaws alt_bn128.
Proof.
  apply precompiles_laws; cbn [bn_curve curve PG1 PG2 PGT].
  - intros []; vm_compute; reflexivity.
  - intros []; vm_compute; reflexivity.
  - intros []; reflexivity.
  - intros []; reflexivity.
  - change (0 < 2)%nat. lia.
Qed.

Definition bn_pairing : PairingParameters :=
  mkPairing (lit "alt-bn128") (hex_of 32 LibGroth16AltBN128._PRIME_R) (hex_of 32 LibPairing.q) (g1_of 32 (1, 2))
    (g2_of 32 (cd_gen2 alt_bn128)).

Local Abbreviation bn_vk := (@client_vk bn_curve alt_bn128).
Local Abbreviation bn_proof := (@client_proof bn_curve alt_bn128).

Lemma plus_negatable : @negatable bn_curve Plus.
Proof. split; [done|]. apply (bool_decide_unpack _). vm_compute. exact I. Qed.

(** Groth16 with every point of the key the generator: ABC0 + 4 ABC1 is the opposite. *)
Lemma groth16_contract_verifies_witness : ∃ vk proof,
  groth16_vk_to_contract_parameters (bn_vk Plus Plus Plus [Plus; Plus]) bn_pairing = Ok vk ∧
  groth16_proof_to_contract_parameters (bn_proof Plus Plus Plus) bn_pairing = Ok proof ∧
  MixerGroth16AltBN128._verifyZkProof vk proof 4 = Ok true.
Proof.
  destruct (@groth16_contract_verifies bn_curve _ _ _ bn_pairing Plus Plus Plus Plus Plus Plus Plus Plus 4 eq_refl
    plus_negatable plus_negatable ltac:(lia)) as (vk & proof & Hv & Hp & Hok).
  exists vk, proof. split; [exact Hv|]. split; [exact Hp|]. rewrite Hok. vm_compute. reflexivity.
Defined.

Definition a_key : Key := @mkKey bn_curve Plus Plus Plus Plus Plus Plus Plus Zero Plus.
Definition a_pi : Pi := @mkPi bn_curve Plus Plus Plus Plus Zero Zero Minus Zero.

Lemma pghr13_contract_verifies_witness : ∃ vk proof,
  pghr13_vk_to_contract_parameters (client_key a_key) bn_pairing = Ok vk ∧
  pghr13_proof_to_contract_parameters (client_pi a_pi) bn_pairing = Ok proof ∧
  MixerPghr13AltBN128._verify vk [1] (pi_points a_pi) = Ok (first_failure 1 (pghr13_equations a_key a_pi 1)) ∧
  MixerPghr13AltBN128._verifyZkProof vk proof 1 = Ok true.
Proof.
  destruct (pghr13_contract_verifies a_key a_pi bn_pairing 1 ltac:(lia)) as (vk & proof & Hv & Hp & Hc & Hok).
  exists vk, proof. split; [exact Hv|]. split; [exact Hp|]. split; [by apply Hc|]. rewrite Hok. vm_compute. reflexivity.
Defined.

(** *** A mix on the Groth16 mixer *)

(** A hash into the scalar field. *)
#[local] Instance bn_mixer : MixerCurve := {|
  mixer_hash := λ l r, to_be 32 ((int_from_bytes l + 3 * int_from_bytes r + 1) mod LibGroth16AltBN128._PRIME_R);
  _FIELD_CAPACITY := 253
|}.

(** A one-time key whose two points are at infinity, signed with the order of the group. *)
Definition sig_vk : list Z := [0; 0; 0; 0].
Definition sigma : Z := 3.
Definition nf0 : Z := 2 ^ 255 + 5.
Definition hsig : Z := Eval vm_compute in int_from_bytes (sha256 ((bytes32 nf0 ++ bytes32 7) ++ pack_words sig_vk)).
Definition deployed_vk : list Z := Eval vm_compute in
  @Groth16AltBN128Facts.vk_words bn_curve Plus Minus Minus [Plus; Zero].
Definition proof_words : list Z := Eval vm_compute in
  enc1 (H:=bn_curve) alt_bn128 Plus ++ enc2 (H:=bn_curve) alt_bn128 Plus ++ enc1 (H:=bn_curve) alt_bn128 Minus.
Definition root0 : Z := Eval vm_compute in int_from_bytes (spec_root 2 []).
Definition inputs : list Z := Eval vm_compute in
  primary_inputs (mkPublicValues root0 101 102 nf0 7 hsig 8 9 0 0).
Definition no_ext : Action → option bool := λ _, None.
Definition a_msg : Msg := mkMsg 5 0 1.
Definition ct : bytes := [Byte.x01].

Definition is_ok {A} (r : result A) : bool := match r with Ok _ => true | Err _ => false end.

Local Abbreviation mix_call :=
  (mix 2 MixerGroth16AltBN128._verifyZkProof no_ext a_msg proof_words sig_vk sigma inputs [ct; ct]).

Lemma mix_runs : (st ← new_mixer 2 2 0 deployed_vk 0 (0, 0); Ok (is_ok (mix_call st))) = Ok true.
Proof. vm_compute. reflexivity. Qed.

Lemma deployed_words : groth16_vk_to_contract_parameters (bn_vk Plus Plus Plus [Plus; Zero]) bn_pairing = Ok deployed_vk.
Proof.
  destruct alt_bn128_sizes as [Hn Hq].
  exact (proj1 (@client_words bn_curve alt_bn128 _ Hn Hq bn_pairing Plus Plus Plus [Plus; Zero] Plus Plus Plus eq_refl
    plus_negatable plus_negatable)).
Qed.

(** The mixer deployed with that key accepts the call. *)
Lemma mix_accepted : ∃ st out,
  groth16_vk_to_contract_parameters (bn_vk Plus Plus Plus [Plus; Zero]) bn_pairing = Ok (_vk st) ∧ mix_call st = Ok out.
Proof.
  destruct (bind_Ok_inv _ _ _ mix_runs) as (st & Hst & Hok).
  destruct (new_mixer_inv 2 0 deployed_vk 0 (0, 0)) as (st' & E & _ & Hc). change (Z.of_nat 2) with 2 in E.
  rewrite Hst in E. apply Ok_inj in E as <-. unfold config in Hc. injection Hc as Hc _ _ _.
  destruct (mix_call st) as [out|err] eqn:Emix; [|discriminate Hok].
  exists st, out. rewrite Hc. split; [exact deployed_words | exact Emix].
Qed.

Lemma groth16_mix_sound_witness : ∃ (A : @PG1 bn_curve) (B : @PG2 bn_curve) (C : @PG1 bn_curve),
  proof_words = enc1 (H:=bn_curve) alt_bn128 A ++ enc2 (H:=bn_curve) alt_bn128 B ++ enc1 (H:=bn_curve) alt_bn128 C ∧
  @groth16_equation bn_curve Plus Plus Plus (@add1 bn_curve Plus (@mul1 bn_curve (_hashPublicProofData inputs) Zero)) A B C.
Proof.
  destruct mix_accepted as (st & out & Hvk & Hmix).
  apply (@groth16_mix_sound bn_curve _ _ _ _ 2 no_ext a_msg proof_words sig_vk sigma inputs [ct; ct] st out bn_pairing
    Plus Plus Zero Plus Plus eq_refl plus_negatable plus_negatable Hvk Hmix).
Defined.
End VerifierSample.

(** ** Witnesses over BLS12-377 *)

Module VerifierSampleBLS.
Import ThreePoints.

Definition g1_gen : Z * Z :=
  (0x008848defe740a67c8fc6225bf87ff5485951e2caa9d41bb188282c8bd37cb5cd5481512ffcd394eeab9b16eb21be9ef,
   0x01914a69c5102eff1f674f5d30afeec4bd7fb348ca3e52d96d182ad44fb82305c2fe3d3634a9591afd82de55559c8ea6).

#[local] Instance bls_curve : PairingCurve := curve bls12_377 g1_gen.
#[local] Instance bls_precompiles : Precompiles := precompiles bls12_377 g1_gen.

#[local] Instance bls_laws : CurveLaws bls12_377.
Proof.
  apply curve_laws_of.
  - intros []; vm_compute; done.
  - intros []; done.
  - intros []; apply (bool_decide_unpack _); vm_compute; exact I.
  - vm_compute. reflexivity.
Qed.

#[local] Instance bls_precompiles_laws : PrecompileLaws bls12_377.
Proof.
  apply precompiles_laws; cbn [bls_curve curve PG1 PG2 PGT].
  - intros []; vm_compute; reflexivity.
  - intros []; vm_compute; reflexivity.
  - intros []; reflexivity.
  - intros []; reflexivity.
  - change (0 < 4)%nat. lia.
Qed.

Definition bls_pairing : PairingParameters :=
  mkPairing (lit "bls12-377") (hex_of 32 (cd_r bls12_377)) (hex_of 48 (cd_q bls12_377)) (g1_of 48 g1_gen)
    (g2_of 48 (cd_gen2 bls12_377)).

Local Abbreviation bls_vk := (@client_vk bls_curve bls12_377).
Local Abbreviation bls_proof := (@client_proof bls_curve bls12_377).

Lemma bls_plus_negatable : @negatable bls_curve Plus.
Proof. split; [done|]. apply (bool_decide_unpack _). vm_compute. exact I. Qed.

Lemma groth16_bls12_377_verifies_witness : ∃ vk proof,
  groth16_vk_to_contract_parameters (bls_vk Plus Plus Plus [Plus; Plus]) bls_pairing = Ok vk ∧
  groth16_proof_to_contract_parameters (bls_proof Plus Plus Plus) bls_pairing = Ok proof ∧
  MixerGroth16BLS12_377._verifyZkProof vk proof 4 = Ok true.
Proof.
  destruct (@groth16_bls12_377_verifies bls_curve _ _ _ bls_pairing Plus Plus Plus Plus Plus Plus Plus Plus 4 eq_refl
    bls_plus_negatable bls_plus_negatable ltac:(by vm_compute)) as (vk & proof & Hv & Hp & Hok).
  exists vk, proof. split; [exact Hv|]. split; [exact Hp|]. rewrite Hok. vm_compute. reflexivity.
Defined.

(** A proof for the public input 1 is accepted for the modulus of the field; sixteen sevens
    are answered, not refused. *)
Lemma bls12_377_failures_ignored_witness : ∃ vk proof,
  groth16_vk_to_contract_parameters (bls_vk Plus Plus Plus [Plus; Plus]) bls_pairing = Ok vk ∧
  groth16_proof_to_contract_parameters (bls_proof Plus Plus Plus) bls_pairing = Ok proof ∧
  MixerGroth16BLS12_377._verifyZkProof vk proof (cd_r bls12_377) = Ok true ∧
  MixerGroth16BLS12_377._verifyZkProof vk (replicate 16 7) 4 = Ok false.
Proof.
  destruct (@bls12_377_failures_ignored bls_curve _ _ _ bls_pairing Plus Plus Plus Plus Plus Plus Plus Plus
    4 (cd_r bls12_377) (replicate 16 7) eq_refl bls_plus_negatable bls_plus_negatable) as (vk & proof & Hv & Hp & H1 & H2).
  - vm_compute. reflexivity.
  - by vm_compute.
  - done.
  - intros A B C E. apply (f_equal (take 4)) in E. destruct A; vm_compute in E; discriminate E.
  - exists vk, proof. split; [exact Hv|]. split; [exact Hp|]. rewrite H1, H2. split; vm_compute; reflexivity.
Defined.
End VerifierSampleBLS.
