(* ===== verification/Token.v ===== *)
(** * The token ([ERC20Mintable.sol])

    The token that the tests deploy for a mixer of tokens: balances, allowances, the total
    supply and the accounts that may mint.  Arithmetic on words is checked, so an overflow is
    a panic; a revert undoes the call, which is a function to a result with the events it
    emits.  Accounts are words; an address of the zero account is refused as in the source. *)

From Stdlib Require Import ZArith Lia Ascii String Strings.Byte.
From stdpp Require Import base tactics list gmap strings.
From S2P Require Import Prelude PyStr PyBytes PyFloat PyIO Hashes Constants MerkleTree ContractTree.

Local Open Scope Z_scope.

Import AbstractMerkleTree(Panic, require, usub).

(** Checked addition of words. *)
Definition uadd (a b : Z) : result Z := if a + b <? 2 ^ 256 then Ok (a + b) else Err Panic.

Module ERC20Mintable.

Record TokenState : Type := mkTokenState {
  _balances : gmap Z Z;
  _allowances : gmap (Z * Z) Z;
  _totalSupply : Z;
  _minters : gset Z
}.

Inductive TokenEvent : Type :=
  | Transfer (from to value : Z)
  | Approval (owner spender value : Z)
  | MinterAdded (account : Z)
  | MinterRemoved (account : Z).

Definition set_balances (b : gmap Z Z) (st : TokenState) : TokenState :=
  mkTokenState b (_allowances st) (_totalSupply st) (_minters st).
Definition set_allowances (a : gmap (Z * Z) Z) (st : TokenState) : TokenState :=
  mkTokenState (_balances st) a (_totalSupply st) (_minters st).
Definition set_minters (m : gset Z) (st : TokenState) : TokenState :=
  mkTokenState (_balances st) (_allowances st) (_totalSupply st) m.

(** The effects of a call. *)
Definition Effect : Type := TokenState * list TokenEvent.

Definition totalSupply (st : TokenState) : Z := _totalSupply st.
Definition balanceOf (account : Z) (st : TokenState) : Z := default 0 (_balances st !! account).
Definition allowance (owner spender : Z) (st : TokenState) : Z := default 0 (_allowances st !! (owner, spender)).

Definition _transfer (sender recipient amount : Z) (st : TokenState) : result Effect :=
  _ ← require (negb (sender =? 0)) "ERC20: transfer from the zero address";
  _ ← require (negb (recipient =? 0)) "ERC20: transfer to the zero address";
  b ← usub (balanceOf sender st) amount;
  let st := set_balances (<[sender := b]> (_balances st)) st in
  b ← uadd (balanceOf recipient st) amount;
  let st := set_balances (<[recipient := b]> (_balances st)) st in
  Ok (st, [Transfer sender recipient amount]).

Definition _approve (owner spender amount : Z) (st : TokenState) : result Effect :=
  _ ← require (negb (owner =? 0)) "ERC20: approve from the zero address";
  _ ← require (negb (spender =? 0)) "ERC20: approve to the zero address";
  Ok (set_allowances (<[(owner, spender) := amount]> (_allowances st)) st, [Approval owner spender amount]).

Definition transfer (sender recipient amount : Z) (st : TokenState) : result Effect := _transfer sender recipient amount st.
Definition approve (sender spender amount : Z) (st : TokenState) : result Effect := _approve sender spender amount st.

Definition transferFrom (msg_sender sender recipient amount : Z) (st : TokenState) : result Effect :=
  '(st, ev) ← _transfer sender recipient amount st;
  left ← usub (allowance sender msg_sender st) amount;
  '(st, ev') ← _approve sender msg_sender left st;
  Ok (st, ev ++ ev').

Definition increaseAllowance (sender spender addedValue : Z) (st : TokenState) : result Effect :=
  a ← uadd (allowance sender spender st) addedValue; _approve sender spender a st.
Definition decreaseAllowance (sender spender subtractedValue : Z) (st : TokenState) : result Effect :=
  a ← usub (allowance sender spender st) subtractedValue; _approve sender spender a st.

Definition _mint (account amount : Z) (st : TokenState) : result Effect :=
  _ ← require (negb (account =? 0)) "ERC20: mint to the zero address";
  supply ← uadd (_totalSupply st) amount;
  b ← uadd (balanceOf account st) amount;
  Ok (mkTokenState (<[account := b]> (_balances st)) (_allowances st) supply (_minters st), [Transfer 0 account amount]).

Definition _burn (account amount : Z) (st : TokenState) : result Effect :=
  _ ← require (negb (account =? 0)) "ERC20: burn from the zero address";
  b ← usub (balanceOf account st) amount;
  supply ← usub (_totalSupply st) amount;
  Ok (mkTokenState (<[account := b]> (_balances st)) (_allowances st) supply (_minters st), [Transfer account 0 amount]).

Definition _burnFrom (msg_sender account amount : Z) (st : TokenState) : result Effect :=
  '(st, ev) ← _burn account amount st;
  left ← usub (allowance account msg_sender st) amount;
  '(st, ev') ← _approve account msg_sender left st;
  Ok (st, ev ++ ev').

(** ** Minters ([Roles], [MinterRole]) *)

Definition has (role : gset Z) (account : Z) : result bool :=
  _ ← require (negb (account =? 0)) "Roles: account is the zero address"; Ok (bool_decide (account ∈ role)).
Definition add (role : gset Z) (account : Z) : result (gset Z) :=
  h ← has role account; _ ← require (negb h) "Roles: account already has role"; Ok ({[ account ]} ∪ role).
Definition remove (role : gset Z) (account : Z) : result (gset Z) :=
  h ← has role account; _ ← require h "Roles: account does not have role"; Ok (role ∖ {[ account ]}).

Definition isMinter (account : Z) (st : TokenState) : result bool := has (_minters st) account.
Definition onlyMinter (sender : Z) (st : TokenState) : result unit :=
  m ← isMinter sender st; require m "MinterRole: caller does not have the Minter role".
Definition _addMinter (account : Z) (st : TokenState) : result Effect :=
  m ← add (_minters st) account; Ok (set_minters m st, [MinterAdded account]).
Definition _removeMinter (account : Z) (st : TokenState) : result Effect :=
  m ← remove (_minters st) account; Ok (set_minters m st, [MinterRemoved account]).
Definition addMinter (sender account : Z) (st : TokenState) : result Effect :=
  _ ← onlyMinter sender st; _addMinter account st.
Definition renounceMinter (sender : Z) (st : TokenState) : result Effect := _removeMinter sender st.

Definition mint (sender account amount : Z) (st : TokenState) : result Effect :=
  _ ← onlyMinter sender st; _mint account amount st.

(** The constructor. *)
Definition new_token (sender : Z) : result Effect := _addMinter sender (mkTokenState ∅ ∅ 0 ∅).

(** ** Transactions *)

Inductive TokenCall : Type :=
  | CallTransfer (recipient amount : Z)
  | CallApprove (spender amount : Z)
  | CallTransferFrom (sender recipient amount : Z)
  | CallIncreaseAllowance (spender addedValue : Z)
  | CallDecreaseAllowance (spender subtractedValue : Z)
  | CallMint (account amount : Z)
  | CallAddMinter (account : Z)
  | CallRenounceMinter.

Definition exec (sender : Z) (c : TokenCall) (st : TokenState) : result Effect :=
  match c with
  | CallTransfer recipient amount => transfer sender recipient amount st
  | CallApprove spender amount => approve sender spender amount st
  | CallTransferFrom from recipient amount => transferFrom sender from recipient amount st
  | CallIncreaseAllowance spender v => increaseAllowance sender spender v st
  | CallDecreaseAllowance spender v => decreaseAllowance sender spender v st
  | CallMint account amount => mint sender account amount st
  | CallAddMinter account => addMinter sender account st
  | CallRenounceMinter => renounceMinter sender st
  end.

Definition exec_tx (st : TokenState) (c : Z * TokenCall) : TokenState :=
  match exec c.1 c.2 st with Ok (st', _) => st' | Err _ => st end.
Definition run (st : TokenState) (calls : list (Z * TokenCall)) : TokenState := foldl exec_tx st calls.

(** Amounts decoded from call data are words. *)
Definition is_word (x : Z) : Prop := 0 ≤ x < 2 ^ 256.
Definition call_words (c : TokenCall) : Prop :=
  match c with
  | CallTransfer _ v | CallApprove _ v | CallTransferFrom _ _ v | CallIncreaseAllowance _ v
  | CallDecreaseAllowance _ v | CallMint _ v => is_word v
  | CallAddMinter _ | CallRenounceMinter => True
  end.
End ERC20Mintable.
