(* ===== verification/TokenFacts.v ===== *)
(** * The accounts of the token

    The sum of the balances is the total supply, which is a word: the checked additions of a
    transfer never panic, and no account pays but by its own transfers and within the allowances
    it gave. *)

From Stdlib Require Import ZArith Lia Ascii String Strings.Byte.
From stdpp Require Import base tactics list gmap strings.
From S2P Require Import Prelude PyStr PyBytes PyFloat PyIO Hashes Constants MerkleTree ContractTree Token.

Local Open Scope Z_scope.

Import AbstractMerkleTree(Panic, require, usub).
Import ERC20Mintable.

(** ** Sums of balances *)

Definition total (m : gmap Z Z) : Z := map_fold (λ _ v acc, v + acc) 0 m.

Lemma total_delete m k v : m !! k = Some v → total m = v + total (delete k m).
Proof. intros Hk. unfold total. apply (map_fold_delete_L (λ _ v acc, v + acc)); [intros; lia | done]. Qed.

Lemma total_insert m k v : total (<[k := v]> m) = total m - default 0 (m !! k) + v.
Proof.
  rewrite (total_delete (<[k := v]> m) k v) by apply lookup_insert_eq. rewrite delete_insert_eq.
  destruct (m !! k) as [x|] eqn:E; cbn; [rewrite (total_delete m k x E); lia | rewrite delete_id by done; lia].
Qed.

Lemma total_nonneg m : map_Forall (λ _ v, 0 ≤ v) m → 0 ≤ total m.
Proof.
  induction m as [|k v m Hk IH] using map_ind; intros Hm; [done|].
  apply map_Forall_insert in Hm as [Hv Hm]; [|done]. rewrite total_insert, Hk. cbn. specialize (IH Hm). lia.
Qed.

Lemma total_ge m k : map_Forall (λ _ v, 0 ≤ v) m → 0 ≤ default 0 (m !! k) ≤ total m.
Proof.
  intros Hm. destruct (m !! k) as [v|] eqn:E; cbn; [|pose proof (total_nonneg m Hm); lia].
  rewrite (total_delete m k v E). pose proof (total_nonneg (delete k m) (map_Forall_delete _ _ _ Hm)).
  pose proof (Hm k v E). cbn in *. lia.
Qed.

(** ** The invariant *)

Record token_inv (st : TokenState) : Prop := mkTokenInv {
  ti_sum : total (_balances st) = _totalSupply st;
  ti_supply : is_word (_totalSupply st);
  ti_balances : map_Forall (λ _ v, 0 ≤ v) (_balances st);
  ti_allowances : map_Forall (λ _ v, is_word v) (_allowances st)
}.

Lemma balance_word st a : token_inv st → 0 ≤ balanceOf a st ≤ _totalSupply st.
Proof. intros Hst. rewrite <- (ti_sum st Hst). apply total_ge, Hst. Qed.

Lemma allowance_word st a b : token_inv st → is_word (allowance a b st).
Proof.
  intros Hst. unfold allowance. destruct (_ !! _) eqn:E; [exact (ti_allowances st Hst _ _ E)|]. unfold is_word. cbn. lia.
Qed.

Lemma usub_inv a b c : usub a b = Ok c → b ≤ a ∧ c = a - b.
Proof. unfold usub. destruct (Z.ltb_spec a b); [done|]. by intros [= <-]. Qed.
Lemma uadd_inv a b c : uadd a b = Ok c → a + b < 2 ^ 256 ∧ c = a + b.
Proof. unfold uadd. destruct (Z.ltb_spec (a + b) (2 ^ 256)); [|done]. by intros [= <-]. Qed.
Lemma require_inv b m u : require b m = Ok u → b = true.
Proof. unfold require. by destruct b. Qed.

(** Taking a successful call apart. *)
Ltac call_inv H :=
  repeat first
    [ progress cbn [mbind result_bind] in H
    | let x := fresh "x" in let E := fresh "E" in apply bind_Ok_inv in H as (x & E & H);
      first [apply require_inv in E | apply usub_inv in E as [? ->] | apply uadd_inv in E as [? ->] | idtac] ];
  try (apply Ok_inj in H; simplify_eq).

(** The balances after [amount] moved. *)
Definition moved (s r amount : Z) (st st' : TokenState) : Prop :=
  ∀ a, balanceOf a st' = balanceOf a st - (if decide (a = s) then amount else 0) + (if decide (a = r) then amount else 0).

Lemma balance_set a k v st : balanceOf a (set_balances (<[k := v]> (_balances st)) st) = if decide (a = k) then v else balanceOf a st.
Proof.
  unfold balanceOf. cbn [set_balances _balances]. case_decide as E; [subst; by rewrite lookup_insert_eq | by rewrite lookup_insert_ne].
Qed.

(** A transfer is refused only for a zero address or a balance that is too small. *)
Lemma transfer_spec s r amount st : token_inv st → 0 ≤ amount →
  match _transfer s r amount st with
  | Ok (st', ev) => s ≠ 0 ∧ r ≠ 0 ∧ amount ≤ balanceOf s st ∧ moved s r amount st st' ∧ token_inv st' ∧
      _allowances st' = _allowances st ∧ _totalSupply st' = _totalSupply st ∧ ev = [Transfer s r amount]
  | Err _ => s = 0 ∨ r = 0 ∨ balanceOf s st < amount
  end.
Proof.
  intros Hst Ha. unfold _transfer, require, usub, uadd.
  destruct (Z.eqb_spec s 0); [by left|]. destruct (Z.eqb_spec r 0); [by right; left|]. cbn [negb mbind result_bind].
  destruct (Z.ltb_spec (balanceOf s st) amount); [by right; right|]. cbn [mbind result_bind].
  rewrite balance_set. pose proof (balance_word st r Hst). pose proof (ti_supply st Hst) as Hw. unfold is_word in Hw.
  pose proof (balance_word st s Hst).
  set (st1 := set_balances (<[s := balanceOf s st - amount]> (_balances st)) st).
  set (b := if decide (r = s) then balanceOf s st - amount else balanceOf r st).
  assert (balanceOf r st1 = b) as Hb by apply balance_set.
  assert (total (_balances st1) = _totalSupply st - amount) as Ht1.
  { unfold st1. cbn [set_balances _balances]. rewrite total_insert, (ti_sum st Hst). unfold balanceOf. lia. }
  assert (map_Forall (λ _ v, 0 ≤ v) (_balances st1)) as Hn1 by (apply map_Forall_insert_2; [lia | apply Hst]).
  assert (0 ≤ b ≤ _totalSupply st - amount) as Hb1 by (rewrite <- Hb, <- Ht1; by apply total_ge).
  rewrite (proj2 (Z.ltb_lt (b + amount) (2 ^ 256))) by lia. cbn [mbind result_bind].
  split_and!; try done.
  - intros a. rewrite balance_set. unfold st1. rewrite balance_set. subst b. repeat case_decide; subst; try done; lia.
  - split; cbn [set_balances _balances _totalSupply _allowances st1]; [| apply Hst | | apply Hst].
    + rewrite total_insert. fold st1 in Ht1. cbn [st1 set_balances _balances] in Ht1. rewrite Ht1.
      unfold balanceOf in Hb. cbn [st1 set_balances _balances] in Hb. rewrite Hb. lia.
    + apply map_Forall_insert_2; [lia | exact Hn1].
Qed.

Lemma approve_spec o s amount st : match _approve o s amount st with
  | Ok (st', ev) => o ≠ 0 ∧ s ≠ 0 ∧ st' = set_allowances (<[(o, s) := amount]> (_allowances st)) st ∧ ev = [Approval o s amount]
  | Err _ => o = 0 ∨ s = 0
  end.
Proof.
  unfold _approve, require. destruct (Z.eqb_spec o 0); [by left|]. destruct (Z.eqb_spec s 0); [by right|]. done.
Qed.

Lemma approve_inv o s amount st st' ev : token_inv st → is_word amount → _approve o s amount st = Ok (st', ev) →
  token_inv st' ∧ st' = set_allowances (<[(o, s) := amount]> (_allowances st)) st.
Proof.
  intros Hst Hw E. pose proof (approve_spec o s amount st) as Hs. rewrite E in Hs. destruct Hs as (_ & _ & -> & _).
  split; [|done]. split; cbn [set_allowances _balances _totalSupply _allowances]; try apply Hst.
  apply map_Forall_insert_2; [done | apply Hst].
Qed.

(** What [transferFrom] does: a transfer, and the allowance is spent. *)
Lemma transferFrom_inv m s r amount st st' ev : token_inv st → 0 ≤ amount → transferFrom m s r amount st = Ok (st', ev) →
  token_inv st' ∧ amount ≤ allowance s m st ∧ moved s r amount st st' ∧
  _allowances st' = <[(s, m) := allowance s m st - amount]> (_allowances st).
Proof.
  intros Hst Ha H. unfold transferFrom in H. apply bind_Ok_inv in H as ([st1 ev1] & E1 & H).
  pose proof (transfer_spec s r amount st Hst Ha) as Hs. rewrite E1 in Hs.
  destruct Hs as (_ & _ & _ & Hm & Hi1 & Hal & _ & _). apply bind_Ok_inv in H as (l & [Hle ->]%usub_inv & H).
  apply bind_Ok_inv in H as ([st2 ev2] & E2 & H). apply Ok_inj in H. injection H as <- <-.
  pose proof (allowance_word st1 s m Hi1) as Hw. 
  assert (is_word (allowance s m st1 - amount)) as Hw' by (unfold is_word in *; lia).
  destruct (approve_inv _ _ _ _ _ _ Hi1 Hw' E2) as [Hi2 ->].
  unfold allowance in *. rewrite Hal in *. split_and!; try done.
Qed.

Lemma onlyMinter_inv s st u : onlyMinter s st = Ok u → s ∈ _minters st.
Proof.
  unfold onlyMinter, isMinter, has. intros H. apply bind_Ok_inv in H as (m & Hm & ->%require_inv).
  apply bind_Ok_inv in Hm as (? & _ & Hm). apply Ok_inj in Hm. by apply bool_decide_eq_true in Hm.
Qed.

Lemma mint_inv a amount st st' ev : token_inv st → 0 ≤ amount → _mint a amount st = Ok (st', ev) →
  token_inv st' ∧ _totalSupply st' = _totalSupply st + amount ∧ _allowances st' = _allowances st ∧
  (∀ x, balanceOf x st' = balanceOf x st + if decide (x = a) then amount else 0).
Proof.
  intros Hst Ha H. unfold _mint in H. call_inv H. pose proof (ti_supply st Hst) as Hw. unfold is_word in Hw.
  pose proof (balance_word st a Hst). split_and!; try done.
  - split; cbn [_balances _totalSupply _allowances]; [| unfold is_word; lia | | apply Hst].
    + rewrite total_insert, (ti_sum st Hst). unfold balanceOf. lia.
    + apply map_Forall_insert_2; [lia | apply Hst].
  - intros z. unfold balanceOf. cbn [_balances]. case_decide; [subst; rewrite lookup_insert_eq; done | rewrite lookup_insert_ne by done; lia].
Qed.

(** ** Runs *)

(** Minters do not matter to the accounts. *)
Lemma set_minters_inv m st : token_inv st → token_inv (set_minters m st).
Proof. intros Hst. split; apply Hst. Qed.

Lemma minters_exec_inv sender c st st' ev : (∃ a, c = CallAddMinter a) ∨ c = CallRenounceMinter →
  exec sender c st = Ok (st', ev) → ∃ m, st' = set_minters m st.
Proof.
  intros [[a ->] | ->]; cbn [exec]; intros H.
  - unfold addMinter, _addMinter in H. apply bind_Ok_inv in H as (? & _ & H). apply bind_Ok_inv in H as (m & _ & H).
    apply Ok_inj in H. injection H as <- <-. eauto.
  - unfold renounceMinter, _removeMinter in H. apply bind_Ok_inv in H as (m & _ & H).
    apply Ok_inj in H. injection H as <- <-. eauto.
Qed.

(** What a call takes from the account [a], and from which allowance. *)
Definition spends (a sender : Z) (c : TokenCall) : Z :=
  match c with
  | CallTransfer _ v => if decide (a = sender) then v else 0
  | CallTransferFrom from _ v => if decide (a = from) then v else 0
  | _ => 0
  end.

(** The invariant is kept and an account loses at most what was spent; one that is not the
    caller only pays out of the allowance it gave the caller, and its other allowances stay. *)
Definition accounts_kept (sender : Z) (spent : Z → Z) (st st' : TokenState) : Prop :=
  token_inv st' ∧ (∀ a, balanceOf a st - spent a ≤ balanceOf a st') ∧
  (∀ a, a ≠ sender → spent a ≤ allowance a sender st ∧ allowance a sender st' = allowance a sender st - spent a ∧
    (∀ b, b ≠ sender → allowance a b st' = allowance a b st)).

Lemma kept_allowances sender spent st st' : token_inv st → token_inv st' → _allowances st' = _allowances st →
  (∀ a, balanceOf a st - spent a ≤ balanceOf a st') → (∀ a, a ≠ sender → spent a = 0) → accounts_kept sender spent st st'.
Proof.
  intros Hst Hst' Hal Hb Hs. split; [done|]. split; [done|]. intros a Ha.
  pose proof (allowance_word st a sender Hst) as Hw. unfold is_word in Hw. rewrite (Hs a Ha). unfold allowance in *. rewrite Hal.
  split_and!; [lia | lia | done].
Qed.

Lemma approve_kept sender sp v st st' ev : token_inv st → is_word v → _approve sender sp v st = Ok (st', ev) →
  accounts_kept sender (λ _, 0) st st'.
Proof.
  intros Hst Hv E. apply approve_inv in E as [Hi ->]; [|done..]. split; [done|]. split; [intros; unfold balanceOf; cbn; lia|].
  intros a Ha. pose proof (allowance_word st a sender Hst) as Hw. unfold is_word, allowance in *. cbn.
  rewrite !lookup_insert_ne by congruence. split_and!; [lia | lia |]. intros b Hb. by rewrite lookup_insert_ne by congruence.
Qed.

Lemma transferFrom_kept m s r v st st' ev : token_inv st → 0 ≤ v → transferFrom m s r v st = Ok (st', ev) →
  accounts_kept m (λ a, if decide (a = s) then v else 0) st st'.
Proof.
  intros Hst Hv H. apply transferFrom_inv in H as (Hi & Hle & Hm & Hal); [|done..]. split; [done|]. split.
  - intros a. rewrite (Hm a). repeat case_decide; lia.
  - intros a Ha. pose proof (allowance_word st a m Hst) as Hw. unfold is_word in Hw. unfold allowance in *. rewrite Hal.
    case_decide as E; [subst s; rewrite lookup_insert_eq | rewrite lookup_insert_ne by congruence];
      (split_and!; [lia | cbn; lia |]); intros b Hb; by rewrite lookup_insert_ne by congruence.
Qed.

Lemma exec_kept sender c st st' ev : token_inv st → call_words c → exec sender c st = Ok (st', ev) →
  accounts_kept sender (λ a, spends a sender c) st st'.
Proof.
  intros Hst Hc H.
  destruct c as [r v | sp v | f r v | sp v | sp v | a v | a |]; cbn [exec spends call_words] in *; try unfold is_word in Hc.
  - pose proof (transfer_spec sender r v st Hst ltac:(lia)) as Hs. unfold transfer in H. rewrite H in Hs.
    destruct Hs as (_ & _ & _ & Hm & Hi & Hal & _ & _). apply kept_allowances; try done.
    + intros a. rewrite (Hm a). repeat case_decide; lia.
    + intros a Ha. by rewrite decide_False.
  - by apply (approve_kept sender sp v st st' ev).
  - apply (transferFrom_kept sender f r v st st' ev); [done | lia | done].
  - unfold increaseAllowance in H. apply bind_Ok_inv in H as (x & [Hx ->]%uadd_inv & H).
    pose proof (allowance_word st sender sp Hst) as Hw. unfold is_word in Hw.
    refine (approve_kept _ _ _ _ _ _ Hst _ H). unfold is_word. lia.
  - unfold decreaseAllowance in H. apply bind_Ok_inv in H as (x & [Hx ->]%usub_inv & H).
    pose proof (allowance_word st sender sp Hst) as Hw. unfold is_word in Hw.
    refine (approve_kept _ _ _ _ _ _ Hst _ H). unfold is_word. lia.
  - unfold mint in H. apply bind_Ok_inv in H as (? & _ & H). apply mint_inv in H as (Hi & _ & Hal & Hb); [|done | lia].
    apply kept_allowances; try done. intros z. rewrite (Hb z). case_decide; lia.
  - destruct (minters_exec_inv sender (CallAddMinter a) st st' ev) as [m ->]; [eauto | done |].
    apply kept_allowances; try done; [by apply set_minters_inv | intros; unfold balanceOf; cbn; lia].
  - destruct (minters_exec_inv sender CallRenounceMinter st st' ev) as [m ->]; [eauto | done |].
    apply kept_allowances; try done; [by apply set_minters_inv | intros; unfold balanceOf; cbn; lia].
Qed.

Lemma new_token_inv sender st ev : new_token sender = Ok (st, ev) → token_inv st.
Proof.
  unfold new_token, _addMinter. intros H. apply bind_Ok_inv in H as (m & _ & H). apply Ok_inj in H. injection H as <- <-.
  split; [done | unfold is_word; cbn; lia | apply map_Forall_empty..].
Qed.

Lemma token_run_inv calls : ∀ st, token_inv st → Forall (λ c, call_words c.2) calls → token_inv (run st calls).
Proof.
  induction calls as [|[s c] calls IH]; intros st Hst Hc; [done|]. apply Forall_cons in Hc as [Hc Hcs]. cbn [run foldl].
  apply IH; [|done]. unfold exec_tx. cbn [fst snd]. destruct (exec s c st) as [[st' ev]|] eqn:E; [|done].
  by apply (exec_kept s c st st' ev).
Qed.

(** ** Properties *)

(** C25: after any transactions on a new token, the balances sum to the total supply, which
    is a word, so no balance overflows; a transfer then succeeds exactly between non-zero
    addresses and up to the balance of the payer (the checked addition never panics), it
    moves the amount and leaves the rest as it was. *)
Theorem token_balances_bounded (deployer : Z) (st0 : TokenState) (ev0 : list TokenEvent) (calls : list (Z * TokenCall))
  (Hnew : new_token deployer = Ok (st0, ev0)) (Hcalls : Forall (λ c, call_words c.2) calls) :
  let st := run st0 calls in
  total (_balances st) = totalSupply st ∧ totalSupply st < 2 ^ 256 ∧
  (∀ a, 0 ≤ balanceOf a st ≤ totalSupply st) ∧
  (∀ s r amount, 0 ≤ amount →
    match transfer s r amount st with
    | Ok (st', ev) => s ≠ 0 ∧ r ≠ 0 ∧ amount ≤ balanceOf s st ∧ moved s r amount st st' ∧
        totalSupply st' = totalSupply st ∧ ev = [Transfer s r amount]
    | Err _ => s = 0 ∨ r = 0 ∨ balanceOf s st < amount
    end).
Proof.
  intros st. assert (token_inv st) as Hst by (eapply token_run_inv; [by eapply new_token_inv | done]).
  split; [apply Hst|]. split; [apply Hst|]. split; [by intros; apply balance_word|].
  intros s r amount Ha. pose proof (transfer_spec s r amount st Hst Ha) as Hs. unfold transfer, totalSupply.
  destruct (_transfer s r amount st) as [[st' ev]|]; [|done]. destruct Hs as (? & ? & ? & ? & _ & _ & ? & ?). done.
Qed.

Lemma token_balances_bounded_witness : ∃ st,
  st = run (mkTokenState ∅ ∅ 0 {[ 7 ]}) [(7, CallMint 5 100); (5, CallTransfer 6 40)] ∧
  total (_balances st) = totalSupply st ∧ totalSupply st = 100 ∧ balanceOf 6 st = 40.
Proof.
  eexists. split; [reflexivity|].
  destruct (token_balances_bounded 7 (mkTokenState ∅ ∅ 0 {[ 7 ]}) [MinterAdded 7] [(7, CallMint 5 100); (5, CallTransfer 6 40)])
    as (H1 & _).
  - unfold new_token, _addMinter. cbn. reflexivity.
  - repeat (apply Forall_cons; split; [unfold call_words, is_word; cbn; lia|]). by apply Forall_nil.
  - split; [exact H1|]. split; vm_compute; reflexivity.
Defined.
