(* ===== verification/TokenPool.v ===== *)
(** * A mixer of tokens and its token

    The mixer and the token contract composed: the calls that a mix makes to the token are
    executed on its state by the account of the mixer, between transactions that other
    accounts send to the token.  The pool keeps at least what was paid in minus what was
    paid out. *)

From Stdlib Require Import ZArith Lia Ascii String Strings.Byte.
From stdpp Require Import base tactics list gmap strings.
From S2P Require Import Prelude PyStr PyBytes PyFloat PyIO Hashes Constants MerkleTree MerkleTreeFacts Mimc Signing ContractTree ContractMixer ContractFacts ContractRuns Token TokenFacts.

Local Open Scope Z_scope.

Import AbstractMixer.
Import ERC20Mintable(TokenState, TokenCall, balanceOf, allowance, call_words, is_word, transfer, transferFrom).

(** ** The calls of the mixer *)

Definition token_action (this : Z) (a : Action) (tok : TokenState) : result TokenState :=
  match a with
  | SendEther _ _ => Ok tok
  | TokenTransferFrom _ from to value => '(tok, _) ← transferFrom this from to value tok; Ok tok
  | TokenTransfer _ to value => '(tok, _) ← transfer this to value tok; Ok tok
  end.

Fixpoint token_actions (this : Z) (acts : list Action) (tok : TokenState) : result TokenState :=
  match acts with [] => Ok tok | a :: acts => tok ← token_action this a tok; token_actions this acts tok end.

(** The caller and the public inputs of a call. *)
Definition call_data (c : Call) : option (Msg * list Z) :=
  match c with
  | CallMix _ msg _ _ _ data _ => Some (msg, data)
  | CallDispatch _ msg _ _ (Some (_, _, data, _)) => Some (msg, data)
  | _ => None
  end.

(** What a call pays into the pool and out of it. *)
Definition call_values (c : Call) : Z * Z :=
  match call_data c with
  | Some (_, data) => _assemblePublicValues (default 0 (data !! 8%nat))
  | None => (0, 0)
  end.

Lemma public_values_bounds w : 0 ≤ (_assemblePublicValues w).1 < 2 ^ 64 * 10 ^ 12 ∧ 0 ≤ (_assemblePublicValues w).2 < 2 ^ 64 * 10 ^ 12.
Proof.
  assert (∀ x, 0 ≤ Z.land x (Z.ones 64) < 2 ^ 64) as Hl.
  { intros x. rewrite Z.land_ones by lia. apply Z.mod_pos_bound. lia. }
  unfold _assemblePublicValues. change _PUBLIC_VALUE_MASK with (Z.ones 64). change _PUBLIC_UNIT_VALUE_WEI with (10 ^ 12).
  cbn [fst snd]. pose proof (Hl w). pose proof (Hl (Z.shiftr w _PUBLIC_VALUE_BITS)). lia.
Qed.

Section payments.
Context `{MixerCurve} `{EcPrecompiles} (d : nat) (verifier : list Z → list Z → Z → result bool).

(** The last step of a call hands over the public values, with the token of the mixer. *)
Lemma tail_payment ext msg data cts nfs st st' log acts :
  _mixAppendCommitmentsEmitAndHandlePublicValues d ext msg data cts nfs st = Ok (st', log, acts) →
  _token st' = _token st ∧ ∃ st2, _token st2 = _token st ∧ _processPublicValues ext msg data st2 = Ok acts.
Proof using Type.
  unfold _mixAppendCommitmentsEmitAndHandlePublicValues. intros Ht. apply bind_Ok_inv in Ht as ([cs st1] & Hc & Ht).
  apply bind_Ok_inv in Hc as ([cs' t] & _ & Hc). apply Ok_inj in Hc. injection Hc as <- <-.
  apply bind_Ok_inv in Ht as ([root t'] & _ & Ht). apply bind_Ok_inv in Ht as (acts' & Hp & Ht).
  apply Ok_inj in Ht. injection Ht as <- <- <-. split; [done|]. eexists. split; [|exact Hp]. done.
Qed.

Lemma exec_payment c st st' logs acts : exec d verifier c st = Ok (st', logs, acts) →
  _token st' = _token st ∧
  match call_data c with
  | Some (msg, data) => ∃ ext st2, _token st2 = _token st ∧ _processPublicValues ext msg data st2 = Ok acts
  | None => acts = []
  end.
Proof using Type.
  destruct c as [ext msg proof vk sigma data cts | ext msg vkh inputs decoded | cm]; cbn [exec call_data]; intros He.
  - apply bind_Ok_inv in He as ([[st2 log] acts'] & He & E). apply Ok_inj in E. injection E as <- <- <-.
    unfold mix in He. apply bind_Ok_inv in He as ([nfs st1] & Hc & He). apply check_spec in Hc as (? & _ & _ & _ & _ & _ & _ & ->).
    do 4 apply bind_Ok_inv in He as (? & _ & He). do 3 apply bind_Ok_inv in He as (? & _ & He).
    apply tail_payment in He as [-> Hp]. split; [done|]. exists ext. exact Hp.
  - apply bind_Ok_inv in He as ([[st2 log] acts'] & He & E). apply Ok_inj in E. injection E as <- <- <-.
    unfold dispatch in He. do 3 apply bind_Ok_inv in He as (? & _ & He).
    apply bind_Ok_inv in He as ([[[vk sigma] data] cts] & Hd & He). destruct decoded; [|done]. injection Hd as ->.
    do 4 apply bind_Ok_inv in He as (? & _ & He). apply bind_Ok_inv in He as ([nfs st1] & Hc & He).
    apply check_spec in Hc as (? & _ & _ & _ & _ & _ & _ & ->).
    do 4 apply bind_Ok_inv in He as (? & _ & He). apply bind_Ok_inv in He as (? & _ & He).
    apply tail_payment in He as [-> Hp]. split; [done|]. exists ext. exact Hp.
  - apply bind_Ok_inv in He as (st2 & Hi & E). apply Ok_inj in E. injection E as <- <- <-.
    unfold insert in Hi. apply bind_Ok_inv in Hi as (t & _ & Hi). apply Ok_inj in Hi as <-. done.
Qed.

(** The calls to the token, in order; ether does not concern it. *)
Lemma payment_actions ext msg data st acts tok this : _token st ≠ 0 → _processPublicValues ext msg data st = Ok acts →
  let '(vin, vout) := _assemblePublicValues (default 0 (data !! 8%nat)) in
  token_actions this acts tok =
    tok1 ← (if 0 <? vin then '(t, _) ← transferFrom this (msg_sender msg) (msg_this msg) vin tok; Ok t else Ok tok);
    (if 0 <? vout then '(t, _) ← transfer this (msg_sender msg) vout tok1; Ok t else Ok tok1).
Proof using Type.
  intros Htok Hp. unfold _processPublicValues in Hp. apply bind_Ok_inv in Hp as (w & [_ Hw]%word_at_Ok & Hp).
  change (Z.to_nat (1 + _JSOUT + _NUM_HASH_DIGESTS)) with 8%nat in Hw. rewrite Hw. cbn [default from_option id].
  destruct (_assemblePublicValues w) as [vin vout]. apply Z.eqb_neq in Htok. rewrite Htok in Hp. cbn [negb] in Hp.
  apply bind_Ok_inv in Hp as (a1 & E1 & Hp). apply bind_Ok_inv in Hp as (a2 & E2 & Hp). apply Ok_inj in Hp as <-.
  assert (∀ tok1, token_actions this a2 tok1 = if 0 <? vout then '(t, _) ← transfer this (msg_sender msg) vout tok1; Ok t else Ok tok1) as H2.
  { intros tok1. destruct (0 <? vout); [|by apply Ok_inj in E2 as <-]. apply bind_Ok_inv in E2 as (? & _ & E2). apply Ok_inj in E2 as <-.
    cbn [token_actions token_action]. by destruct (transfer _ _ _ _) as [[]|]. }
  destruct (0 <? vin).
  - apply bind_Ok_inv in E1 as (? & _ & E1). apply Ok_inj in E1 as <-. cbn [app token_actions token_action].
    destruct (transferFrom _ _ _ _ _) as [[]|]; [|done]. cbn [mbind result_bind]. apply H2.
  - cbn [mbind result_bind]. rewrite <- H2. destruct (0 <? msg_value msg); [|by apply Ok_inj in E1 as <-].
    apply bind_Ok_inv in E1 as (? & _ & E1). by apply Ok_inj in E1 as <-.
Qed.
End payments.

(** ** The pool *)

Section pool.
Context `{MixerCurve} `{EcPrecompiles} (d : nat) (verifier : list Z → list Z → Z → result bool) (this : Z).

(** No account may take tokens of the mixer. *)
Record pool_inv (w : MixerState * TokenState) : Prop := mkPoolInv {
  pool_token : _token w.1 ≠ 0;
  pool_accounts : token_inv w.2;
  pool_closed : ∀ b, allowance this b w.2 = 0
}.

(** A transaction: a call to the mixer by another account, whose calls to the token succeed,
    or a call to the token by another account. *)
Inductive pool_step : MixerState * TokenState → Z * Z → MixerState * TokenState → Prop :=
  | pool_mixer c st tok st' logs acts tok' :
      (∀ msg data, call_data c = Some (msg, data) → msg_this msg = this ∧ msg_sender msg ≠ this) →
      exec d verifier c st = Ok (st', logs, acts) → token_actions this acts tok = Ok tok' →
      pool_step (st, tok) (call_values c) (st', tok')
  | pool_other sender c st tok tok' ev :
      sender ≠ this → call_words c → ERC20Mintable.exec sender c tok = Ok (tok', ev) →
      pool_step (st, tok) (0, 0) (st, tok').

(** Transactions one after the other, with what they paid in and out. *)
Inductive pool_run : MixerState * TokenState → Z * Z → MixerState * TokenState → Prop :=
  | pool_done w : pool_run w (0, 0) w
  | pool_then w v w' vs w'' : pool_step w v w' → pool_run w' vs w'' → pool_run w (v.1 + vs.1, v.2 + vs.2) w''.

(** A deposit. *)
Lemma pool_in tok tok' sender v : token_inv tok → (∀ b, allowance this b tok = 0) → sender ≠ this → 0 ≤ v →
  (if 0 <? v then '(t, _) ← transferFrom this sender this v tok; Ok t else Ok tok) = Ok tok' →
  token_inv tok' ∧ (∀ b, allowance this b tok' = 0) ∧ balanceOf this tok' = balanceOf this tok + v.
Proof using Type.
  intros Hi Hc Hs Hv E. destruct (Z.ltb_spec 0 v) as [Hlt|Hge].
  - apply bind_Ok_inv in E as ([t ev] & E & Ht). apply Ok_inj in Ht as <-.
    apply transferFrom_inv in E as (Hi' & _ & Hm & Hal); [|done | lia]. split; [done|]. split.
    + intros b. unfold allowance in *. rewrite Hal, lookup_insert_ne by congruence. apply Hc.
    + rewrite (Hm this). rewrite decide_False by done. rewrite decide_True by done. lia.
  - apply Ok_inj in E as <-. split_and!; [done | done | lia].
Qed.

(** A withdrawal. *)
Lemma pool_out tok tok' to v : token_inv tok → (∀ b, allowance this b tok = 0) → to ≠ this → 0 ≤ v →
  (if 0 <? v then '(t, _) ← transfer this to v tok; Ok t else Ok tok) = Ok tok' →
  token_inv tok' ∧ (∀ b, allowance this b tok' = 0) ∧ balanceOf this tok' = balanceOf this tok - v.
Proof using Type.
  intros Hi Hc Hs Hv E. destruct (Z.ltb_spec 0 v) as [Hlt|Hge].
  - apply bind_Ok_inv in E as ([t ev] & E & Ht). apply Ok_inj in Ht as <-. unfold transfer in E.
    pose proof (transfer_spec this to v tok Hi ltac:(lia)) as Hsp. rewrite E in Hsp.
    destruct Hsp as (_ & _ & _ & Hm & Hi' & Hal & _ & _). split; [done|]. split.
    + intros b. unfold allowance in *. rewrite Hal. apply Hc.
    + rewrite (Hm this). rewrite decide_True by done. rewrite decide_False by congruence. lia.
  - apply Ok_inj in E as <-. split_and!; [done | done | lia].
Qed.

Lemma pool_step_spec w v w' : pool_inv w → pool_step w v w' →
  pool_inv w' ∧ balanceOf this w.2 + v.1 ≤ balanceOf this w'.2 + v.2 ∧ 0 ≤ v.1 ∧ 0 ≤ v.2.
Proof using Type.
  intros [Htok Hi Hc] Hs. destruct Hs as [c st tok st' logs acts tok' Hmsg He Ha | sender c st tok tok' ev Hs Hw He];
    cbn [fst snd] in *.
  - apply exec_payment in He as [Ht Hp]. unfold call_values. destruct (call_data c) as [[msg data]|] eqn:Ecd.
    + destruct (Hmsg msg data eq_refl) as [Hthis Hsender]. destruct Hp as (ext & st2 & Ht2 & Hp).
      pose proof (payment_actions ext msg data st2 acts tok this ltac:(congruence) Hp) as E.
      destruct (public_values_bounds (default 0 (data !! 8%nat))) as [Hin Hout].
      destruct (_assemblePublicValues _) as [vin vout]. cbn [fst snd] in *. rewrite E, Hthis in Ha.
      apply bind_Ok_inv in Ha as (tok1 & E1 & E2).
      destruct (pool_in tok tok1 (msg_sender msg) vin) as (Hi1 & Hc1 & Hb1); [done | done | done | lia | done |].
      destruct (pool_out tok1 tok' (msg_sender msg) vout) as (Hi2 & Hc2 & Hb2); [done | done | done | lia | done |].
      split; [split; cbn; congruence || done|]. lia.
    + subst acts. apply Ok_inj in Ha as <-. split; [split; cbn; congruence || done|]. cbn. lia.
  - destruct (exec_kept sender c tok tok' ev Hi Hw He) as (Hi' & Hb & Hal).
    destruct (Hal this ltac:(congruence)) as (Hsp & Ha1 & Ha2). rewrite Hc in Hsp, Ha1.
    assert (0 ≤ spends this sender c) as Hnn.
    { destruct c; cbn [spends call_words] in *; unfold is_word in Hw; try case_decide; lia. }
    split; [split; cbn; [done | done |] | specialize (Hb this); cbn; lia].
    intros b. cbn [fst snd]. destruct (decide (b = sender)) as [->|Hb']; [lia | by rewrite Ha2].
Qed.

(** C10: whatever transactions follow on the mixer of a token and on the token, the mixer
    holds at least what it held, plus the public values that mixes paid in, minus those
    they paid out: nothing else takes tokens out of the pool, and it never pays more than
    it holds. *)
Theorem token_pool_solvent (w w' : MixerState * TokenState) (vs : Z * Z) (Hinv : pool_inv w) (Hrun : pool_run w vs w') :
  balanceOf this w.2 + vs.1 ≤ balanceOf this w'.2 + vs.2 ∧ 0 ≤ balanceOf this w'.2 < 2 ^ 256 ∧ pool_inv w'.
Proof using Type.
  induction Hrun as [w | w v w' vs w'' Hs _ IH].
  - cbn [fst snd]. split; [lia|]. split; [|done]. pose proof (balance_word w.2 this (pool_accounts w Hinv)).
    pose proof (ti_supply w.2 (pool_accounts w Hinv)) as Hw. unfold is_word in Hw. lia.
  - destruct (pool_step_spec w v w' Hinv Hs) as (Hinv' & Hb & _ & _). destruct (IH Hinv') as (Hb' & Hr & Hinv'').
    cbn [fst snd]. split; [lia|]. done.
Qed.
End pool.
