(* ===== verification/TokenSample.v ===== *)
(** * A deposit in a mixer of tokens

    A contract of depth two whose precompiles answer the point at infinity, so that the zero
    key signs everything, and a token with one holder who approved the mixer. *)

From Stdlib Require Import ZArith Lia Ascii String Strings.Byte.
From stdpp Require Import base tactics list gmap strings.
From S2P Require Import Prelude PyStr PyBytes PyFloat PyIO Hashes Constants MerkleTree MerkleTreeFacts Mimc Signing ContractTree ContractMixer ContractFacts ContractRuns ContractClient Token TokenFacts TokenPool.

Local Open Scope Z_scope.

Import AbstractMixer.
Import ERC20Mintable(TokenState, mkTokenState, balanceOf, allowance, is_word).

Module TokenSample.
#[local] Instance infinity : EcPrecompiles := {| ecAdd _ _ := Some (0, 0); ecMul _ _ := Some (0, 0) |}.
#[local] Instance toy_mixer : MixerCurve := {| mixer_hash := Sample.toy_tree; _FIELD_CAPACITY := 253 |}.

Definition accept : list Z → list Z → Z → result bool := λ _ _ _, Ok true.
Definition ext : Action → option bool := λ _, Some true.
Definition amount : Z := 3 * 10 ^ 12.

Definition nf0 : Z := 2 ^ 255 + 5.
Definition hsig : Z := Eval vm_compute in int_from_bytes (sha256 ((bytes32 nf0 ++ bytes32 7) ++ pack_words [0; 0; 0; 0])).
Definition root0 : Z := Eval vm_compute in int_from_bytes (spec_root 2 []).
Definition inputs : list Z := Eval vm_compute in
  primary_inputs (mkPublicValues root0 101 102 nf0 7 hsig 8 9 3 0).

(** Account 5 deposits in the mixer at address 1, of the token at address 9. *)
Definition deposit : Call := CallMix ext (mkMsg 5 0 1) [] [0; 0; 0; 0] 0 inputs [[]; []].
Definition tok0 : TokenState := mkTokenState {[ 5 := 2 * amount ]} {[ (5, 1) := amount ]} (2 * amount) ∅.

Lemma tok0_inv : token_inv tok0.
Proof.
  split; cbn.
  - vm_compute. reflexivity.
  - unfold is_word, amount. lia.
  - apply map_Forall_singleton. unfold amount. lia.
  - apply map_Forall_singleton. unfold is_word, amount. lia.
Qed.

Definition deposits (r : result (MixerState * list LogMix * list Action)) : bool :=
  match r with
  | Ok (_, _, [TokenTransferFrom t f to v]) => (t =? 9) && (f =? 5) && (to =? 1) && (v =? amount)
  | _ => false
  end.

Lemma deposit_runs : (st ← new_mixer 2 2 9 [] 0 (0, 0); Ok (deposits (exec 2 accept deposit st))) = Ok true.
Proof. vm_compute. reflexivity. Qed.

Lemma deposit_accepted : ∃ st st' logs, _token st = 9 ∧
  exec 2 accept deposit st = Ok (st', logs, [TokenTransferFrom 9 5 1 amount]).
Proof.
  destruct (bind_Ok_inv _ _ _ deposit_runs) as (st & Hst & Hok). apply Ok_inj in Hok.
  destruct (new_mixer_inv 2 9 [] 0 (0, 0)) as (st0 & E & _ & Hc). change (Z.of_nat 2) with 2 in E.
  rewrite Hst in E. apply Ok_inj in E as <-. unfold config in Hc. injection Hc as _ Hc _ _.
  destruct (exec 2 accept deposit st) as [[[st' logs] acts]|err] eqn:E; [|discriminate Hok]. cbn [deposits] in Hok.
  destruct acts as [|[| t f to v |] [|]]; try discriminate Hok.
  repeat (apply andb_true_iff in Hok as [Hok ?]). prop_bool. subst. exists st, st', logs. split; [exact Hc | exact E].
Qed.

Lemma token_pool_solvent_witness : ∃ st w', pool_run 2 accept 1 (st, tok0) (amount + 0, 0 + 0) w' ∧
  balanceOf 1 tok0 + (amount + 0) ≤ balanceOf 1 w'.2 + (0 + 0) ∧ 0 ≤ balanceOf 1 w'.2 < 2 ^ 256 ∧ pool_inv 1 w'.
Proof.
  destruct deposit_accepted as (st & st' & logs & Ht & He).
  assert (∃ tok', token_actions 1 [TokenTransferFrom 9 5 1 amount] tok0 = Ok tok') as [tok' Ha] by (eexists; reflexivity).
  assert (pool_run 2 accept 1 (st, tok0) (amount + 0, 0 + 0) (st', tok')) as Hrun.
  { apply (pool_then 2 accept 1 (st, tok0) (amount, 0) (st', tok') (0, 0)); [|apply pool_done].
    change (amount, 0) with (call_values deposit).
    refine (pool_mixer 2 accept 1 deposit st tok0 st' logs _ tok' _ He Ha).
    intros msg data [= <- <-]. done. }
  exists st, (st', tok'). split; [exact Hrun|].
  apply (token_pool_solvent 2 accept 1 (st, tok0) (st', tok') (amount + 0, 0 + 0)); [|exact Hrun].
  split; cbn [fst snd]; [by rewrite Ht | apply tok0_inv |].
  intros b. unfold allowance. cbn. rewrite lookup_singleton_ne by congruence. done.
Defined.
End TokenSample.
